(* ===== verification/_CoqProject ===== *)
-Q . S2P
Prelude.v
Rolling.v
GoTime.v
Float64.v
Slog.v
GoString.v
Strconv.v
Utf8.v
Json.v
GoJson.v
TimeFormat.v
Url.v
Window.v
Availability.v
History.v
StateMachine.v
Registry.v
Dispatcher.v
Config.v
Schema.v
ConfigFile.v
Protocol.v
Handlers.v
Listener.v
Checks.v
Group.v
Units.v
Steps.v
Readers.v
Exchange.v
Channels.v
Wiring.v
Daemon.v
Delivery.v
Supervisor.v
Healthd.v
Process.v
Shutdown.v
Scenarios.v
