(* ===== verification/Prelude.v ===== *)
(** * healthd verification library (root)

    healthd ([cmd/healthd], [internal/...]) is a multi-role connection
    monitoring daemon.  It loads a JSON configuration, builds notification
    channels and roles from it and runs every role in its own goroutines until
    a signal or a failing role stops it.  The monitoring roles (ping, URL,
    internet, speed) check their subjects on a ticker, feed each result to an
    alert state machine, publish status and history to a shared registry and
    hand an alert to the dispatcher whenever the state changes; the dispatcher
    delivers it to the role's channels with retries.  The listener role answers
    pings and summary requests of other instances over a line protocol; the
    reporter logs the registry's summary.  This library models those parts as
    executable definitions and proves what makes them correct, alone and
    composed.

    ** Parts, files and sources

    Below the program, Go itself, as far as the program uses it:
    - Prelude.v (this file): tactics, [int]/[int64] arithmetic with wrap-around,
      slices ([None] is a run-time panic), the [result] monad, list lemmas;
    - GoTime.v, TimeFormat.v (instants, durations, RFC 1123 and RFC 3339
      texts), Float64.v (binary64 through SpecFloat), Slog.v (the log),
      GoString.v, Utf8.v, Strconv.v (text and numbers), Url.v ([url.Parse]);
    - Json.v, GoJson.v, Schema.v: [encoding/json]: text, values, the codec of
      every Go type as the class [JsonCodec] with the laws [Encodes],
      [Decodes] (what a decoder produces) and [Accepts] (what it takes).

    The program:
    - [internal/monitor]: Window.v ([window.go]) and History.v ([history.go])
      implement the interface [RollingBuffer] of Rolling.v; Availability.v is
      the arithmetic of their percentages; StateMachine.v ([statemachine.go])
      with the specification of a check history; Registry.v ([registry.go]);
    - [internal/notify]: Dispatcher.v ([dispatcher.go], [service.go]),
      Channels.v ([console.go], [webhook.go], [email.go], [smsgate.go]);
    - [internal/config]: Config.v (profiles, defaults, validation) and
      ConfigFile.v (the JSON tags and [Load]);
    - [internal/protocol]: Protocol.v;
    - [internal/roles]: Handlers.v ([message_handler.go],
      [message_dispatcher.go]), Listener.v ([tcp_listener.go]), Checks.v (the
      four monitors, the probes, the reporter, [roles.go]), Group.v
      ([PingMonitor.Run], [URLMonitor.Run], a check being one event), Steps.v
      (the same goroutines with a check taken apart into its accesses to what
      they share), Readers.v (what [Registry.Summary] shows meanwhile);
    - [cmd/healthd/main.go]: Wiring.v ([buildChannels], [buildRoles], the first
      half of [run]), Supervisor.v (the second half of [run], [main]);
    - compositions: Exchange.v (a ping monitor against a listener), Units.v
      and Daemon.v (all monitoring roles of a loaded file together), Delivery.v
      (their alerts through the dispatcher to the configured channels),
      Healthd.v (what each role's [Run] can return, hence how the process ends),
      Process.v (roles, checks and deliveries of the process on one context) and
      Shutdown.v (its way down to the return of [run]);
    - Scenarios.v evaluates the definitions on the cases of the repository's
      own [_test.go] files, with the results those tests expect.

    A Go struct is a record with the source's fields behind a short prefix, a
    method the definition of the same name (prefixed with its type where two
    types share it).  Pointers that may be nil are options.  A definition that
    returns [option] returns [None] exactly where the code panics; a Go error
    is an [Err] or the [Some] of a check.

    ** How the parts interact

    The monitors and the registry meet in [World] (registry, log, alerts handed
    over), which a check takes and returns.  The class [MonitorRole] of
    Checks.v says what a role adds to a check (its probe's result, its log
    lines, its own state); its laws [MonitorRoleLaws] are what the theorems on
    runs, groups and the whole daemon are proved against, and the four roles
    and their sum ([Unit]) are instances.  Concurrency is explicit: a schedule
    is a list of events or steps, and the theorems quantify over all of them
    ([pool_step] of Dispatcher.v, [group_step] of Group.v, [fine_step] of Steps.v,
    [act] of Supervisor.v and its restriction [healthd_step] of Healthd.v, the
    operations of Registry.v).  Group.v interleaves whole checks and Steps.v the
    accesses within them; [check_refines_actions] relates the two.
    [process_step] of Process.v puts [fine_step], [thread_step] and [act] on one
    context, where a goroutine waits for the deliveries of its alert and a role
    for its goroutines; a run of it projects to runs of each.

    ** What the theorems show

    - The state machine realises a specification that is a function of the
      check history: exact conditions of both triggers, alternation of alerts
      and recoveries, counters, windows ([Observe_refines_spec],
      [consecutive_trigger_exact], [availability_trigger_exact],
      [alerts_alternate]).
    - Window and history are bounded queues ([Window_rolls], [ring_fifo]); the
      registry keeps, per unit and in order, the latest status and the last
      hundred samples, under any interleaving ([registry_retains],
      [historyAvailability_percentage]); a summary taken while checks are under way is never more than one check
      behind ([summary_in_flight]).
    - Delivery: attempts, backoff, cancellation, isolation of channels
      ([deliver_spec], [dispatch_isolated], [backoff_exponential]); that the
      deliveries of an alert come to an end, unless an attempt waits for a
      cancellation, and which configured channels may do that
      ([dispatch_terminates], [dispatch_returns]); what each channel sends and when it counts as
      delivered ([Webhook_delivers], [SMSGate_delivers],
      [implicit_tls_delivers], [buildMessage_headers]).
    - Configuration: which files parse, which configurations are valid, that an
      error is true of what it names, and where each setting comes from
      ([Load_parse_error], [Validate_correct], [load_correct],
      [profile_precedence]).
    - Protocol: round trips of requests, responses and summaries, one line per
      message, what the listener answers to any stream of bytes
      ([request_roundtrip], [response_roundtrip], [handle_responds],
      [summary_over_wire], [ping_healthy_peer]).
    - Monitors: no run panics; machine, registry entry and alerts are those of
      the unit's own history ([internet_run_correct], [speed_run_correct]); a
      check is its accesses in order, the alert last ([check_refines_actions]).
    - The daemon: what [Load] accepts is built and runs, setup's errors,
      isolation of all units with their accesses interleaved, delivery of every
      alert to the configured channels, the outcome and the termination of
      [run] and of the process ([setup_runs], [setup_errors],
      [daemon_interleaved], [alerts_delivered], [run_result],
      [run_shuts_down], [healthd_ends]).
    - Shutdown: no alert handed over is forgotten when [run] returns, [run] does
      return, and nothing new is sent once the context is done
      ([shutdown_drains], [shutdown_completes], [shutdown_sends_nothing_new]).

    Some theorems record where the code falls short of what it means to do:
    [availability_rounding_gap], [backoff_overflow], [interval_wraps],
    [window_too_large], [trailing_data_ignored],
    [duplicate_targets_share_entry], [unusable_webhook],
    [infinite_speed_unanswered], [hung_delivery_stops_checks] (an attempt that
    does not come back keeps its monitor from checking), [profiles_not_chained]
    and [inline_zero_inherits] (profiles against the README).

    ** Bounds and fuel

    [int] is 64 bits; wrap-around is written out ([int_wrap]) and hypotheses
    name the ranges where it matters ([durations_fit]: seconds that fit a
    [Duration], windows that [make] can allocate, at most 2^48).  The recursive
    functions on fuel come with a theorem that the fuel they are given is
    enough: the JSON parser ([p_value_fuel], twice the length of the text), the
    retry loop ([deliver_loop_spec], the attempts plus one), the connection loop
    (the length of the stream, [handle_responds]), printed digits (the binary
    length, [print_digits_spec]).  A run of the internet check, whose position
    is an [int], is assumed shorter than 2^63 checks.

    ** Parameters

    What the program gets from outside is an argument: the file system, the
    environment, the network peers, the clocks, the time zone, the speed test
    tool, the order in which a [range] visits a map, the scheduler's choices,
    and the texts of errors raised by the standard library, which only appear
    in messages.

    - [Server] is [client.Do] as a whole: the status it comes back with, or its
      error.  Redirects that [net/http] follows are inside it; no theorem says
      which further requests they cause.
    - An SMTP server's answer is a function of the command, so identical [RCPT]
      commands of one session are answered alike.
    - An attempt on a channel need not come back.  [waits] of Dispatcher.v says
      which ones wait for the context, and [notify_waits] of Delivery.v when that
      happens: a mail session that does not end ([net/smtp] and [tls.Dial] are
      used without a deadline), or an HTTP server that does not answer a client
      without a positive timeout.  That [http.Client] gives up at a positive
      timeout is the library's documented behaviour.

    ** Not modelled

    - Transport: TCP, TLS, HTTP and SMTP below what is sent and answered; read
      and write deadlines appear as failures of the read or the write.
    - The texts of configuration errors (they are values that name the
      complaint and its subject), flag parsing, the delivery of OS signals.
    - The context inside a check: a probe that the shutdown interrupts is a
      probe that fails.
    - The connections that are open when the pong server's [Run] returns: the
      code does not wait for them, and they end with the process.
    - Fairness: between a tick and the context both ready, [select] chooses at
      random; [shutdown_completes] is about schedules in which the tickers stop.
    - Slices that keep spare capacity between two occurrences of one JSON key.
    - Test files, container files and documentation. *)

From Stdlib Require Export ZArith Lia.
From stdpp Require Export base tactics list gmap strings.

#[global] Open Scope Z_scope.

Declare Scope healthd_scope.
Delimit Scope healthd_scope with healthd.

Create HintDb healthd.

(** ** Tactics of the development *)

(** Split conjunctions in the goal and the context, and simplify equations. *)
Ltac crush_ctx :=
  repeat match goal with
    | H : _ ∧ _ |- _ => destruct H
    | H : ∃ _, _ |- _ => destruct H
    | _ => progress simplify_eq/=
    end.

(** Case analysis on every [Z]/[bool] test and [match] of goal and context. *)
Ltac case_tests :=
  repeat (case_match; simplify_eq/=).

(** Invert successful computations in the option monad. *)
Ltac option_inv :=
  repeat (match goal with
          | H : _ ≫= _ = Some _ |- _ => apply bind_Some in H as (? & ? & ?)
          | H : context [match ?x with _ => _ end] |- _ => destruct x eqn:?
          end; simplify_eq/=).

(** Turn boolean comparisons of the context into propositions. *)
Ltac bool_to_prop :=
  repeat match goal with
    | H : (_ =? _)%Z = true |- _ => apply Z.eqb_eq in H
    | H : (_ =? _)%Z = false |- _ => apply Z.eqb_neq in H
    | H : (_ <? _)%Z = true |- _ => apply Z.ltb_lt in H
    | H : (_ <? _)%Z = false |- _ => apply Z.ltb_ge in H
    | H : (_ <=? _)%Z = true |- _ => apply Z.leb_le in H
    | H : (_ <=? _)%Z = false |- _ => apply Z.leb_gt in H
    | H : (_ && _)%bool = true |- _ => apply andb_true_iff in H; destruct H
    | H : (_ || _)%bool = false |- _ => apply orb_false_iff in H; destruct H
    | H : negb _ = true |- _ => apply negb_true_iff in H
    | H : negb _ = false |- _ => apply negb_false_iff in H
    | H : String.eqb _ _ = true |- _ => apply String.eqb_eq in H
    | H : String.eqb _ _ = false |- _ => apply String.eqb_neq in H
    end.

(** ** Go's [int] and [int64]: 64-bit two's complement *)

Definition int64_min : Z := - 2 ^ 63.
Definition int64_max : Z := 2 ^ 63 - 1.

(** Wrap-around of a mathematical integer into an [int64]. *)
Definition int_wrap (z : Z) : Z := (z + 2 ^ 63) mod 2 ^ 64 - 2 ^ 63.

Definition int_add (a b : Z) : Z := int_wrap (a + b).
Definition int_sub (a b : Z) : Z := int_wrap (a - b).
Definition int_mul (a b : Z) : Z := int_wrap (a * b).

Definition in_int64 (z : Z) : Prop := int64_min ≤ z ≤ int64_max.

#[export] Instance in_int64_dec z : Decision (in_int64 z).
Proof. unfold in_int64. apply _. Defined.

Lemma int_wrap_range z : in_int64 (int_wrap z).
Proof.
  unfold in_int64, int_wrap, int64_min, int64_max.
  pose proof (Z.mod_pos_bound (z + 2 ^ 63) (2 ^ 64) ltac:(lia)). lia.
Qed.

Lemma int_wrap_id z : in_int64 z → int_wrap z = z.
Proof.
  unfold in_int64, int_wrap, int64_min, int64_max. intros.
  rewrite Z.mod_small; lia.
Qed.

Lemma int_add_id a b : in_int64 (a + b) → int_add a b = a + b.
Proof. apply int_wrap_id. Qed.

Lemma int_sub_id a b : in_int64 (a - b) → int_sub a b = a - b.
Proof. apply int_wrap_id. Qed.

Lemma int_mul_id a b : in_int64 (a * b) → int_mul a b = a * b.
Proof. apply int_wrap_id. Qed.

(** Arithmetic side conditions about the width of an [int]. *)
Ltac int64_lia := unfold in_int64, int64_min, int64_max in *; lia.

#[export] Hint Resolve int_wrap_range : healthd.
Create HintDb healthd_int.
#[export] Hint Rewrite int_add_id int_sub_id int_mul_id using int64_lia : healthd_int.

(** Go's [a % b]: truncated remainder; a zero divisor panics. *)
Definition go_rem (a b : Z) : option Z :=
  if b =? 0 then None else Some (Z.rem a b).

Lemma go_rem_nonneg a b : 0 ≤ a → 0 < b → go_rem a b = Some (a mod b).
Proof.
  intros. unfold go_rem. destruct (Z.eqb_spec b 0); [lia|].
  by rewrite Z.rem_mod_nonneg by lia.
Qed.

(** ** Finite checks *)

(** [forallb] over [0 <= i < n]. *)
Fixpoint all_below (n : nat) (p : Z → bool) : bool :=
  match n with O => true | S n => p (Z.of_nat n) && all_below n p end.

Lemma all_below_spec n p : all_below n p = true → ∀ i, 0 ≤ i < Z.of_nat n → p i = true.
Proof.
  induction n as [|n IH]; simpl; intros H i Hi; [lia|].
  apply andb_true_iff in H as [Hp H].
  destruct (decide (i = Z.of_nat n)) as [->|]; [done|]. apply IH; [done|lia].
Qed.

(** ** Slices: [None] is a run-time panic (index out of range) *)

Definition slice_get {A} (l : list A) (i : Z) : option A :=
  if i <? 0 then None else l !! Z.to_nat i.

Definition slice_set {A} (l : list A) (i : Z) (x : A) : option (list A) :=
  if (0 <=? i) && (i <? Z.of_nat (length l)) then Some (<[Z.to_nat i:=x]> l)
  else None.

Definition slice_len {A} (l : list A) : Z := Z.of_nat (length l).

Lemma slice_len_zero {A} (l : list A) : slice_len l = 0 → l = [].
Proof. destruct l; [done|]. unfold slice_len. simpl. lia. Qed.

Lemma slice_get_nat {A} (l : list A) (i : nat) : slice_get l (Z.of_nat i) = l !! i.
Proof. unfold slice_get. destruct (Z.ltb_spec (Z.of_nat i) 0); [lia|]. by rewrite Nat2Z.id. Qed.

Lemma slice_set_nat {A} (l : list A) (i : nat) x :
  (i < length l)%nat → slice_set l (Z.of_nat i) x = Some (<[i:=x]> l).
Proof.
  intros. unfold slice_set.
  destruct (Z.leb_spec 0 (Z.of_nat i)), (Z.ltb_spec (Z.of_nat i) (Z.of_nat (length l)));
    simpl; try lia. by rewrite Nat2Z.id.
Qed.

(** A type with Go's zero value and its size in bytes on a 64-bit machine,
    which is what [make] needs. *)
Class GoType (A : Type) := { go_zero : A; go_size : Z }.
#[export] Instance GoType_bool : GoType bool := {| go_zero := false; go_size := 1 |}.

(** The largest allocation of the run-time on linux/amd64; [make] panics
    beyond it and for a negative length. *)
Definition max_alloc : Z := 2 ^ 48.

Definition make_slice (A : Type) `{GoType A} (n : Z) : option (list A) :=
  if (0 <=? n) && (n * go_size <=? max_alloc) then Some (replicate (Z.to_nat n) go_zero)
  else None.

(** ** Generic list lemmas *)

(** The last [n] elements of a list (all of it when it is shorter). *)
Definition lastn {A} (n : nat) (l : list A) : list A := drop (length l - n) l.

Section lastn.
Context {A : Type}.
Implicit Types l k : list A.

Lemma length_lastn n l : length (lastn n l) = Nat.min n (length l).
Proof. unfold lastn. rewrite length_drop. lia. Qed.

Lemma lastn_all n l : (length l ≤ n)%nat → lastn n l = l.
Proof. intros. unfold lastn. by replace (length l - n)%nat with 0%nat by lia. Qed.

Lemma lookup_lastn n l i : lastn n l !! i = l !! (length l - n + i)%nat.
Proof. apply lookup_drop. Qed.

Lemma lastn_lastn_app n l k : lastn n (lastn n l ++ k) = lastn n (l ++ k).
Proof.
  unfold lastn. rewrite !length_app, length_drop, !skipn_app, skipn_skipn, length_drop.
  f_equal; f_equal; lia.
Qed.

Lemma lastn_S_snoc n l x : lastn (S n) (l ++ [x]) = lastn n l ++ [x].
Proof.
  unfold lastn. rewrite length_app, skipn_app. simpl.
  replace (length l + 1 - S n)%nat with (length l - n)%nat by lia.
  f_equal. by replace (length l - n - length l)%nat with 0%nat by lia.
Qed.

Lemma lastn_full_snoc n l x :
  length l = S n → lastn (S n) (l ++ [x]) = drop 1 l ++ [x].
Proof.
  intros H. rewrite lastn_S_snoc. unfold lastn. rewrite H.
  by replace (S n - n)%nat with 1%nat by lia.
Qed.
End lastn.

Lemma mapM_Some_lookup {A B} (f : A → option B) l k :
  length l = length k →
  (∀ i x y, l !! i = Some x → k !! i = Some y → f x = Some y) → mapM f l = Some k.
Proof. intros Hlen Hf. apply mapM_Some, Forall2_same_length_lookup. eauto. Qed.

Lemma list_eq_nth_lookup {A} (l k : list A) :
  length l = length k → (∀ i, (i < length l)%nat → l !! i = k !! i) → l = k.
Proof.
  intros Hlen Hi. apply list_eq. intros i.
  destruct (decide (i < length l)%nat); [by apply Hi|].
  rewrite !lookup_ge_None_2 by lia. done.
Qed.

(** ** Errors

    A fallible function returns a [result]; a check that only reports an error
    is an [option] of the error, [None] being Go's nil.  [e1 ;!; e2] is the
    sequence [if err := e1; err != nil { return err }; e2]. *)

Inductive result (E A : Type) :=
  | Ok (a : A)
  | Err (e : E).
Arguments Ok {_ _} _.
Arguments Err {_ _} _.

#[export] Instance result_ret {E} : MRet (result E) := λ A a, Ok a.
#[export] Instance result_bind {E} : MBind (result E) := λ A B f r,
  match r with Ok a => f a | Err e => Err e end.
#[export] Instance result_fmap {E} : FMap (result E) := λ A B f r,
  match r with Ok a => Ok (f a) | Err e => Err e end.

Lemma bind_Ok {E A B} (f : A → result E B) (r : result E A) b :
  r ≫= f = Ok b ↔ ∃ a, r = Ok a ∧ f a = Ok b.
Proof. destruct r; simpl; split; intros; crush_ctx; eauto. Qed.

Lemma bind_Err {E A B} (f : A → result E B) (r : result E A) e :
  r ≫= f = Err e ↔ r = Err e ∨ ∃ a, r = Ok a ∧ f a = Err e.
Proof. destruct r; simpl; split; intros; crush_ctx; eauto; destruct_or?; crush_ctx; eauto. Qed.

Lemma mapM_Ok {E A B} (f : A → result E B) l k :
  mapM f l = Ok k ↔ Forall2 (λ x y, f x = Ok y) l k.
Proof.
  split.
  - revert k. induction l as [|x l IH]; intros k; [by intros [= <-]|]. simpl.
    intros (y & Hy & (k' & Hk & [= <-])%bind_Ok)%bind_Ok. constructor; [done|by apply IH].
  - induction 1 as [|x y l k Hy _ IH]; [done|]. simpl. by rewrite Hy; simpl; rewrite IH.
Qed.

Lemma mapM_Err {E A B} (f : A → result E B) l e :
  mapM f l = Err e → ∃ i x, l !! i = Some x ∧ f x = Err e.
Proof.
  induction l as [|x l IH]; [done|]. simpl.
  intros [H|(y & Hy & H)]%bind_Err; [by exists 0%nat, x|].
  apply bind_Err in H as [H|(k & _ & H)]; [|done].
  destruct (IH H) as (i & x' & ? & ?). by exists (S i), x'.
Qed.

Definition fail_if {E} (b : bool) (e : E) : option E := if b then Some e else None.

Definition err_then {E} (e1 e2 : option E) : option E :=
  match e1 with Some e => Some e | None => e2 end.
Infix ";!;" := err_then (at level 60, right associativity) : healthd_scope.

(** [for _, x := range l { if err := f(x); err != nil { return err } }]. *)
Fixpoint for_each {A E} (f : A → option E) (l : list A) : option E :=
  match l with
  | [] => None
  | x :: l => err_then (f x) (for_each f l)
  end.

Lemma fail_if_None {E} b (e : E) : fail_if b e = None ↔ b = false.
Proof. by destruct b. Qed.

Lemma fail_if_Some {E} b (e e' : E) : fail_if b e = Some e' ↔ b = true ∧ e' = e.
Proof. destruct b; simpl; naive_solver. Qed.

Lemma err_then_None {E} (e1 e2 : option E) : err_then e1 e2 = None ↔ e1 = None ∧ e2 = None.
Proof. destruct e1; simpl; naive_solver. Qed.

Lemma err_then_Some {E} (e1 e2 : option E) e :
  err_then e1 e2 = Some e ↔ e1 = Some e ∨ e1 = None ∧ e2 = Some e.
Proof. destruct e1; simpl; naive_solver. Qed.

Lemma for_each_None {A E} (f : A → option E) l :
  for_each f l = None ↔ Forall (λ x, f x = None) l.
Proof.
  induction l as [|x l IH]; simpl; [by split|]. by rewrite err_then_None, IH, Forall_cons.
Qed.

Lemma for_each_Some {A E} (f : A → option E) l e :
  for_each f l = Some e → ∃ i x, l !! i = Some x ∧ f x = Some e.
Proof.
  induction l as [|x l IH]; simpl; [done|].
  intros [?|[_ (i & y & ? & ?)%IH]]%err_then_Some; [by exists 0%nat, x|by exists (S i), y].
Qed.

Create HintDb healthd_err.
#[export] Hint Rewrite @fail_if_None @err_then_None @for_each_None : healthd_err.
