(* ===== verification/Rolling.v ===== *)
(** * Rolling buffers

    The two circular buffers of [internal/monitor] (the availability [Window]
    and the history [ring]) promise the same thing to their clients: a push
    appends, and only the last [cap] elements are kept.  This file states that
    promise as the class [RollingBuffer], derives from it the facts the clients
    use, and proves the arithmetic of a circular array once ([circ_push]). *)

From S2P Require Import Prelude.

#[local] Open Scope nat_scope.

(** ** The circular array *)

Section circular.
Context {A : Type}.
Implicit Types (buf l : list A) (head len : nat).

(** [buf] holds, oldest first, [len] elements ending just before [head]. *)
Definition circ_start buf head len : nat :=
  (head + (length buf - len)) mod length buf.

Definition circ_contents buf head len : list A :=
  take len (drop (circ_start buf head len) (buf ++ buf)).

Record circ_wf buf head len : Prop := {
  circ_cap_pos : 0 < length buf;
  circ_head_lt : head < length buf;
  circ_len_le : len ≤ length buf;
}.

Lemma circ_start_lt buf head len :
  circ_wf buf head len → circ_start buf head len < length buf.
Proof. intros []. apply Nat.mod_upper_bound. lia. Qed.

Lemma length_circ_contents buf head len :
  circ_wf buf head len → length (circ_contents buf head len) = len.
Proof.
  intros Hwf. pose proof (circ_start_lt _ _ _ Hwf). destruct Hwf.
  unfold circ_contents. rewrite length_take, length_drop, length_app. lia.
Qed.

Lemma lookup_double buf j :
  j < 2 * length buf → (buf ++ buf) !! j = buf !! (j mod length buf).
Proof.
  intros Hj. destruct (decide (j < length buf)).
  - rewrite lookup_app_l by lia. by rewrite Nat.mod_small by lia.
  - rewrite lookup_app_r by lia. f_equal.
    replace j with (j - length buf + 1 * length buf) at 2 by lia.
    rewrite Nat.Div0.mod_add, Nat.mod_small; lia.
Qed.

Lemma lookup_circ_contents buf head len i :
  circ_wf buf head len → i < len →
  circ_contents buf head len !! i
  = buf !! ((head + (length buf - len) + i) mod length buf).
Proof.
  intros Hwf Hi. pose proof (circ_start_lt _ _ _ Hwf) as Hs. destruct Hwf.
  unfold circ_contents. rewrite lookup_take_lt by lia. rewrite lookup_drop, lookup_double by lia.
  unfold circ_start. by rewrite Nat.Div0.add_mod_idemp_l.
Qed.

Lemma circ_push_wf buf head len x :
  circ_wf buf head len →
  circ_wf (<[head:=x]> buf) ((head + 1) mod length buf) (Nat.min (length buf) (len + 1)).
Proof.
  intros []. split; rewrite length_insert; [lia| |lia].
  apply Nat.mod_upper_bound. lia.
Qed.

Lemma mod_off_ne n h k : h < n → 0 < k < n → (h + k) mod n ≠ h.
Proof.
  intros Hh Hk. destruct (decide (h + k < n)).
  - rewrite Nat.mod_small; lia.
  - replace (h + k) with (h + k - n + 1 * n) by lia.
    rewrite Nat.Div0.mod_add, Nat.mod_small; lia.
Qed.

(** Writing at [head] and advancing it appends the element and keeps the
    last [cap] ones. *)
Lemma circ_push buf head len x :
  circ_wf buf head len →
  circ_contents (<[head:=x]> buf) ((head + 1) mod length buf)
    (Nat.min (length buf) (len + 1))
  = lastn (length buf) (circ_contents buf head len ++ [x]).
Proof.
  intros Hwf. pose proof (circ_push_wf _ _ _ x Hwf) as Hwf'.
  pose proof (length_circ_contents _ _ _ Hwf) as Hlen.
  pose proof (length_circ_contents _ _ _ Hwf') as Hlen'.
  destruct (Hwf) as [Hc Hh Hl].
  apply list_eq_nth_lookup.
  { rewrite Hlen', length_lastn, length_app, Hlen. simpl. lia. }
  rewrite Hlen'. intros i Hi.
  rewrite lookup_circ_contents by done.
  rewrite lookup_lastn, length_app, Hlen, length_insert. simpl.
  set (n := length buf) in *. set (off := len + 1 - n + i).
  assert (Hidx : ((head + 1) mod n + (n - n `min` (len + 1)) + i) mod n
                 = (head + (n - len) + off) mod n).
  { rewrite <-Nat.add_assoc, Nat.Div0.add_mod_idemp_l. subst off.
    destruct (decide (len = n)) as [->|].
    - replace (head + 1 + (n - n `min` (n + 1) + i)) with (head + (n - n) + (n + 1 - n + i)) by lia.
      done.
    - f_equal. lia. }
  rewrite Hidx. destruct (decide (off < len)).
  - rewrite lookup_app_l by lia. rewrite lookup_circ_contents by done.
    apply list_lookup_insert_ne. fold n.
    destruct (decide (len = n)) as [->|].
    + replace (head + (n - n) + off) with (head + off) by lia.
      apply not_eq_sym, mod_off_ne; lia.
    + replace (head + (n - len) + off) with (head + (n - len + off)) by lia.
      apply not_eq_sym, mod_off_ne; lia.
  - replace off with len by lia. rewrite lookup_app_r by lia.
    rewrite Hlen, Nat.sub_diag. simpl.
    replace (head + (n - len) + len) with (head + 1 * n) by lia.
    rewrite Nat.Div0.mod_add, Nat.mod_small by lia.
    apply list_lookup_insert_eq. lia.
Qed.

Lemma circ_contents_empty buf head : circ_contents buf head 0 = [].
Proof. done. Qed.

(** The element about to be overwritten is the oldest one when full. *)
Lemma circ_contents_full_head buf head :
  circ_wf buf head (length buf) →
  circ_contents buf head (length buf) !! 0 = buf !! head.
Proof.
  intros Hwf. destruct (Hwf). rewrite lookup_circ_contents by (done || lia).
  by rewrite Nat.sub_diag, !Nat.add_0_r, Nat.mod_small by lia.
Qed.
End circular.

(** ** The interface *)

(** What a rolling buffer [T] of elements [A] promises: pushing never panics
    on a well-formed buffer and keeps the last [rb_cap] elements. *)
Class RollingBuffer (T A : Type) := {
  rb_wf : T → Prop;
  rb_cap : T → nat;
  rb_contents : T → list A;
  rb_push : T → A → option T;
  rb_bounded t : rb_wf t → length (rb_contents t) ≤ rb_cap t;
  rb_push_spec t x :
    rb_wf t →
    ∃ t', rb_push t x = Some t' ∧ rb_wf t' ∧ rb_cap t' = rb_cap t ∧
          rb_contents t' = lastn (rb_cap t) (rb_contents t ++ [x]);
}.

Section clients.
Context `{RollingBuffer T A}.

Definition rb_push_all (t : T) (xs : list A) : option T :=
  foldl (λ ot x, t ← ot; rb_push t x) (Some t) xs.

Lemma rb_push_all_snoc t xs x :
  rb_push_all t (xs ++ [x]) = (t' ← rb_push_all t xs; rb_push t' x).
Proof. unfold rb_push_all. by rewrite foldl_snoc. Qed.

(** Any sequence of pushes succeeds and leaves the last [cap] elements of
    everything ever pushed. *)
Lemma rb_push_all_spec t xs :
  rb_wf t →
  ∃ t', rb_push_all t xs = Some t' ∧ rb_wf t' ∧ rb_cap t' = rb_cap t ∧
        rb_contents t' = lastn (rb_cap t) (rb_contents t ++ xs).
Proof.
  intros Hwf. induction xs as [|x xs IH] using rev_ind.
  - exists t. split_and!; try done. rewrite app_nil_r, lastn_all; [done|].
    by apply rb_bounded.
  - destruct IH as (t1 & Ht1 & Hwf1 & Hcap1 & Hc1).
    destruct (rb_push_spec t1 x Hwf1) as (t2 & Ht2 & Hwf2 & Hcap2 & Hc2).
    exists t2. rewrite rb_push_all_snoc, Ht1. simpl. split_and!; try done; [congruence|].
    by rewrite Hc2, Hc1, Hcap1, lastn_lastn_app, app_assoc.
Qed.
End clients.
