(* ===== verification/GoTime.v ===== *)
(** * Go's [time.Time] and [time.Duration]

    A [Time] is the number of nanoseconds since January 1 of year 1 UTC (the
    instant Go calls zero); a [Duration] is an [int64] of nanoseconds whose
    arithmetic wraps around. *)

From S2P Require Import Prelude.

Notation Time := Z (only parsing).
Notation Duration := Z (only parsing).

Definition zero_time : Time := 0.
Definition Time_IsZero (t : Time) : bool := t =? zero_time.

(** Seconds from year 1 to the Unix epoch. *)
Definition unix_to_internal : Z := 62135596800.

Definition Time_unixSec (t : Time) : Z := t / 10 ^ 9 - unix_to_internal.
Definition Time_nsec (t : Time) : Z := t mod 10 ^ 9.

Definition Time_UnixMilli (t : Time) : Z :=
  int_add (int_mul (Time_unixSec t) 1000) (Time_nsec t / 10 ^ 6).

(** The instant [ms] milliseconds after the Unix epoch. *)
Definition time_of_unix_milli (ms : Z) : Time := unix_to_internal * 10 ^ 9 + ms * 10 ^ 6.

Definition Millisecond : Duration := 10 ^ 6.
Definition Second : Duration := 10 ^ 9.

(** The largest number of seconds and of milliseconds a [Duration] can hold. *)
Definition max_seconds : Z := 9223372036.
Definition max_milliseconds : Z := 9223372036854.

Lemma seconds_no_overflow s : 0 < s ≤ max_seconds → int_mul s Second = s * 10 ^ 9.
Proof. unfold max_seconds, Second. intros. rewrite int_mul_id by int64_lia. done. Qed.

Lemma milliseconds_no_overflow s :
  0 ≤ s ≤ max_milliseconds → int_mul s Millisecond = s * 10 ^ 6.
Proof. unfold max_milliseconds, Millisecond. intros. rewrite int_mul_id by int64_lia. done. Qed.

Lemma Time_UnixMilli_roundtrip ms :
  0 ≤ ms < 2 ^ 53 → Time_UnixMilli (time_of_unix_milli ms) = ms.
Proof.
  intros. unfold Time_UnixMilli, time_of_unix_milli, Time_unixSec, Time_nsec, unix_to_internal.
  replace (62135596800 * 10 ^ 9 + ms * 10 ^ 6)
    with ((ms mod 1000) * 10 ^ 6 + (62135596800 + ms / 1000) * 10 ^ 9)
    by (pose proof (Z.div_mod ms 1000); lia).
  pose proof (Z.mod_pos_bound ms 1000 ltac:(lia)).
  rewrite Z.div_add, Z.mod_add, Z.div_small, Z.mod_small by lia.
  rewrite Z.div_mul by lia. pose proof (Z.div_mod ms 1000 ltac:(lia)).
  assert (0 ≤ ms / 1000) by (apply Z.div_pos; lia).
  rewrite int_mul_id, int_add_id by int64_lia. lia.
Qed.
