(* ===== verification/Float64.v ===== *)
(** * Go's [float64]

    IEEE 754 binary64 with round-to-nearest-even, computed by the executable
    specification [SpecFloat] of the Standard Library at precision 53 and
    maximal exponent 1024: conversions from [int], the arithmetic and the
    comparisons the program uses, and the lemmas on signs and NaN they need. *)

From Stdlib Require Export SpecFloat.
From S2P Require Import Prelude.

Notation float64 := spec_float.

Definition f_zero : float64 := S754_zero false.

(** [float64(z)] for an [int] or an integer constant [z]. *)
Definition f_of_int (z : Z) : float64 := binary_normalize 53 1024 z 0 false.

Definition f_add (x y : float64) : float64 := SFadd 53 1024 x y.
Definition f_mul (x y : float64) : float64 := SFmul 53 1024 x y.
Definition f_div (x y : float64) : float64 := SFdiv 53 1024 x y.

Definition f_eqb (x y : float64) : bool := SFeqb x y.
Definition f_ltb (x y : float64) : bool := SFltb x y.
Definition f_leb (x y : float64) : bool := SFleb x y.

Definition f_hundred : float64 := f_of_int 100.

#[export] Instance float64_eq_dec : EqDecision float64.
Proof. solve_decision. Defined.

(** A float with the sign bit clear that is not NaN: [+0], positive, [+Inf]. *)
Definition f_nonneg (x : float64) : bool :=
  match x with
  | S754_zero false | S754_infinity false | S754_finite false _ _ => true
  | _ => false
  end.

Definition f_positive_finite (x : float64) : bool :=
  match x with S754_finite false _ _ => true | _ => false end.

Definition f_is_nan (x : float64) : bool :=
  match x with S754_nan => true | _ => false end.

(** [json.Marshal] refuses NaN and the infinities. *)
Definition f_is_finite (x : float64) : bool :=
  match x with S754_zero _ | S754_finite _ _ _ => true | _ => false end.

(** ** Rounding never produces NaN or a negative from a non-negative mantissa *)

Section rounding.
Lemma iter_pos_invariant {A} (P : A → Prop) (f : A → A) :
  (∀ x, P x → P (f x)) → ∀ n x, P x → P (SpecFloat.iter_pos f n x).
Proof. intros Hf n. induction n; simpl; eauto. Qed.

Lemma shr_1_nonneg r : 0 ≤ shr_m r → 0 ≤ shr_m (shr_1 r).
Proof. destruct r as [[|[]|[]] ? ?]; simpl; lia. Qed.

Lemma shr_nonneg r e n : 0 ≤ shr_m r → 0 ≤ shr_m (fst (shr r e n)).
Proof.
  intros. destruct n; simpl; try done.
  apply (iter_pos_invariant (λ r, 0 ≤ shr_m r)); [apply shr_1_nonneg|done].
Qed.

Lemma shr_record_of_loc_m m l : shr_m (shr_record_of_loc m l) = m.
Proof. by destruct l as [|[]]. Qed.

Lemma round_nearest_even_nonneg m l : 0 ≤ m → 0 ≤ round_nearest_even m l.
Proof. intros. destruct l as [|[]]; simpl; try lia. destruct (Z.even m); lia. Qed.

Lemma binary_round_aux_nonneg m e l :
  0 ≤ m → f_nonneg (binary_round_aux 53 1024 false m e l) = true.
Proof.
  intros Hm. unfold binary_round_aux, shr_fexp.
  destruct (shr _ e _) as [r1 e1] eqn:H1.
  assert (0 ≤ shr_m r1) as Hr1.
  { change r1 with (fst (r1, e1)). rewrite <-H1. apply shr_nonneg.
    by rewrite shr_record_of_loc_m. }
  destruct (shr _ e1 _) as [r2 e2] eqn:H2.
  assert (0 ≤ shr_m r2) as Hr2.
  { change r2 with (fst (r2, e2)). rewrite <-H2. apply shr_nonneg.
    rewrite shr_record_of_loc_m. by apply round_nearest_even_nonneg. }
  destruct (shr_m r2); [done| |lia]. by destruct (_ <=? _).
Qed.
End rounding.

Lemma SFdiv_core_binary_nonneg m1 e1 m2 e2 :
  0 ≤ (SFdiv_core_binary 53 1024 (Zpos m1) e1 (Zpos m2) e2).1.1.
Proof.
  unfold SFdiv_core_binary. set (m' := match _ with Z0 => _ | _ => _ end).
  assert (0 ≤ m').
  { subst m'. case_match; try lia. by rewrite Z.shiftl_nonneg. }
  pose proof (Z_div_mod m' (Zpos m2) ltac:(lia)) as Hdm.
  destruct (Z.div_eucl m' (Zpos m2)) as [q r]. simpl. destruct Hdm as [Hq Hr]. nia.
Qed.

Lemma f_div_nonneg x y :
  f_nonneg x = true → f_positive_finite y = true → f_nonneg (f_div x y) = true.
Proof.
  destruct x as [[]|[]| |[] mx ex], y as [[]|[]| |[] my ey]; simpl; try done.
  intros _ _. pose proof (SFdiv_core_binary_nonneg mx ex my ey) as Hc.
  destruct (SFdiv_core_binary _ _ _ _ _ _) as [[mz ez] lz]. by apply binary_round_aux_nonneg.
Qed.

Lemma f_mul_nonneg x y :
  f_nonneg x = true → f_positive_finite y = true → f_nonneg (f_mul x y) = true.
Proof.
  destruct x as [[]|[]| |[] mx ex], y as [[]|[]| |[] my ey]; simpl; try done.
  intros _ _. by apply binary_round_aux_nonneg.
Qed.

Lemma f_nonneg_not_nan x : f_nonneg x = true → f_is_nan x = false.
Proof. by destruct x as [[]|[]| |[] ? ?]. Qed.

Lemma f_of_int_nonneg z : 0 ≤ z → f_nonneg (f_of_int z) = true.
Proof.
  intros. destruct z as [|p|p]; [done| |lia].
  unfold f_of_int, binary_normalize, binary_round.
  destruct (shl_align _ _ _). by apply binary_round_aux_nonneg.
Qed.

Lemma f_hundred_positive : f_positive_finite f_hundred = true.
Proof. reflexivity. Qed.

(** Away from NaN, [<] and [>=] are complementary. *)
Lemma f_leb_ltb x y :
  f_is_nan x = false → f_is_nan y = false → f_leb y x = negb (f_ltb x y).
Proof.
  destruct x as [[]|[]| |[] mx ex], y as [[]|[]| |[] my ey]; simpl; try done; intros _ _;
    unfold f_leb, f_ltb, SFleb, SFltb; simpl;
    rewrite (Z.compare_antisym ex ey); destruct (ex ?= ey); simpl; try done;
    change (Pos.compare_cont Eq ?a ?b) with (Pos.compare a b);
    rewrite (Pos.compare_antisym mx my); by destruct (Pos.compare mx my).
Qed.

#[export] Hint Resolve f_div_nonneg f_mul_nonneg f_of_int_nonneg f_nonneg_not_nan
  f_hundred_positive : healthd.

(** ** Exactness: integers below 2^53 convert without rounding *)

Lemma digits2_pos_bounds p :
  2 ^ (Zpos (digits2_pos p) - 1) ≤ Zpos p < 2 ^ Zpos (digits2_pos p).
Proof.
  induction p as [p IH|p IH|]; cbn [digits2_pos]; rewrite ?Pos2Z.inj_succ; [| |lia];
    set (d := Zpos (digits2_pos p)) in *;
    replace (Z.succ d - 1) with (Z.succ (d - 1)) by lia;
    rewrite !Z.pow_succ_r by lia; lia.
Qed.

Lemma digits2_pos_iter_xO p k :
  Zpos (digits2_pos (Pos.iter xO p k)) = Zpos (digits2_pos p) + Zpos k.
Proof.
  induction k as [|k IH] using Pos.peano_ind; [simpl; lia|].
  rewrite Pos.iter_succ. simpl. lia.
Qed.

Lemma Zpos_iter_xO p k : Zpos (Pos.iter xO p k) = Zpos p * 2 ^ Zpos k.
Proof.
  induction k as [|k IH] using Pos.peano_ind; [simpl; lia|].
  rewrite Pos.iter_succ, Pos2Z.inj_xO, IH, Pos2Z.inj_succ, Z.pow_succ_r by lia. lia.
Qed.

Lemma digits2_pos_unique p d : 0 < d → 2 ^ (d - 1) ≤ Zpos p < 2 ^ d → Zpos (digits2_pos p) = d.
Proof.
  intros Hd Hp. pose proof (digits2_pos_bounds p) as Hb.
  set (d' := Zpos (digits2_pos p)) in *.
  assert (d' - 1 < d). { apply (Z.pow_lt_mono_r_iff 2); lia. }
  assert (d - 1 < d'). { apply (Z.pow_lt_mono_r_iff 2); lia. }
  lia.
Qed.

(** A canonical mantissa and exponent pass through rounding unchanged. *)
Definition canonical (m e : Z) : Prop :=
  fexp 53 1024 (Zdigits2 m + e) = e ∧ e ≤ 971.

Lemma shr_fexp_canonical m e l :
  fexp 53 1024 (Zdigits2 m + e) = e →
  shr_fexp 53 1024 m e l = (shr_record_of_loc m l, e).
Proof. intros He. unfold shr_fexp. by rewrite He, Z.sub_diag. Qed.

Lemma binary_round_aux_canonical s m e :
  canonical (Zpos m) e →
  binary_round_aux 53 1024 s (Zpos m) e loc_Exact = S754_finite s m e.
Proof.
  intros [He Hmax]. unfold binary_round_aux. rewrite shr_fexp_canonical by done. simpl.
  rewrite shr_fexp_canonical by done. simpl.
  change (1024 - 53) with 971. destruct (Z.leb_spec e 971); [done|lia].
Qed.

Lemma f_of_int_exact p :
  Zpos p < 2 ^ 53 →
  ∃ m e, f_of_int (Zpos p) = S754_finite false m e ∧ canonical (Zpos m) e ∧ e ≤ 0 ∧
         Zpos m = Zpos p * 2 ^ (- e).
Proof.
  intros Hp. pose proof (digits2_pos_bounds p) as Hb.
  set (d := Zpos (digits2_pos p)) in *.
  assert (d ≤ 53).
  { apply Z.lt_succ_r, Z.lt_pred_lt_succ. apply (Z.pow_lt_mono_r_iff 2); [lia..|].
    replace (Z.pred d) with (d - 1) by lia. lia. }
  assert (Hf : fexp 53 1024 (d + 0) = d - 53).
  { unfold fexp, emin. lia. }
  unfold f_of_int, binary_normalize, binary_round. fold d. rewrite Hf.
  unfold shl_align. rewrite Z.sub_0_r.
  destruct (d - 53) as [|k|k] eqn:Hk; [|lia|].
  - exists p, 0.
    assert (canonical (Zpos p) 0) as Hc.
    { split; [|lia]. unfold Zdigits2. fold d. rewrite Hf. lia. }
    rewrite binary_round_aux_canonical by done. split_and!; try done; try lia.
  - exists (Pos.iter xO p k), (d - 53).
    assert (canonical (Zpos (Pos.iter xO p k)) (d - 53)) as Hc.
    { split; [|lia]. unfold Zdigits2. rewrite digits2_pos_iter_xO. fold d.
      unfold fexp, emin. lia. }
    rewrite <-Hk, binary_round_aux_canonical by done.
    split_and!; [done|done|lia|]. rewrite Zpos_iter_xO. replace (- (d - 53)) with (Zpos k) by lia. done.
Qed.

Lemma f_of_int_positive z : 0 < z < 2 ^ 53 → f_positive_finite (f_of_int z) = true.
Proof.
  intros [Hpos Hlt]. destruct z as [|p|p]; [lia| |lia].
  destruct (f_of_int_exact p Hlt) as (m & e & -> & _). done.
Qed.

#[export] Hint Resolve f_of_int_positive : healthd.

(** ** The order on floats, as a lexicographic order on integers *)

Definition f_key (x : float64) : Z * Z * Z :=
  match x with
  | S754_infinity true => (-2, 0, 0)
  | S754_finite true m e => (-1, - e, Zneg m)
  | S754_zero _ | S754_nan => (0, 0, 0)
  | S754_finite false m e => (1, e, Zpos m)
  | S754_infinity false => (2, 0, 0)
  end.

Definition key_le (k k' : Z * Z * Z) : Prop :=
  k.1.1 < k'.1.1 ∨
  (k.1.1 = k'.1.1 ∧ (k.1.2 < k'.1.2 ∨ (k.1.2 = k'.1.2 ∧ k.2 ≤ k'.2))).

Lemma f_leb_key x y :
  f_is_nan x = false → f_is_nan y = false →
  f_leb x y = true ↔ key_le (f_key x) (f_key y).
Proof.
  unfold f_leb, SFleb, key_le.
  destruct x as [[]|[]| |[] mx ex], y as [[]|[]| |[] my ey]; simpl; try done; intros _ _;
    try (split; [intros; try done; lia | intros; (done || lia)]);
    destruct (Z.compare_spec ex ey);
    change (Pos.compare_cont Eq ?a ?b) with (Pos.compare a b);
    try destruct (Pos.compare_spec mx my); simpl; split; intros; (done || lia).
Qed.

Lemma f_leb_refl x : f_is_nan x = false → f_leb x x = true.
Proof. intros. apply f_leb_key; [done..|]. unfold key_le. lia. Qed.

Lemma f_leb_trans x y z :
  f_is_nan x = false → f_is_nan y = false → f_is_nan z = false →
  f_leb x y = true → f_leb y z = true → f_leb x z = true.
Proof.
  intros Hx Hy Hz. rewrite !f_leb_key by done. unfold key_le. intros. intuition lia.
Qed.

Lemma f_ltb_false x y :
  f_is_nan x = false → f_is_nan y = false → f_ltb x y = false → f_leb y x = true.
Proof. intros Hx Hy H. by rewrite f_leb_ltb, H. Qed.

Lemma f_ltb_leb x y : f_ltb x y = true → f_leb x y = true.
Proof. unfold f_ltb, f_leb, SFltb, SFleb. by destruct (SFcompare x y) as [[]|]. Qed.

#[export] Hint Resolve f_leb_refl f_ltb_leb : healthd.
