(* ===== verification/Slog.v ===== *)
(** * Structured logging ([log/slog])

    A logger is the list of records it has emitted, oldest first. *)

From S2P Require Import Prelude GoTime Float64.

Inductive Level := LevelInfo | LevelWarn | LevelError.

#[export] Instance Level_eq_dec : EqDecision Level.
Proof. solve_decision. Defined.

Inductive SlogValue :=
  | SInt (z : Z)
  | SFloat64 (f : float64)
  | SString (s : string)
  | SBool (b : bool)
  | STime (t : Time)
  | SError (msg : string)
  | SGroup (attrs : list (string * SlogValue)).

Notation Attr := (string * SlogValue)%type.

Record LogRecord := MkLogRecord {
  log_level : Level;
  log_msg : string;
  log_attrs : list Attr;
}.

Notation Logger := (list LogRecord).

Definition Logger_log (lv : Level) (msg : string) (attrs : list Attr) (l : Logger) : Logger :=
  l ++ [MkLogRecord lv msg attrs].
