(* ===== verification/GoString.v ===== *)
(** * Go strings: sequences of bytes

    A Go [string] is a [string] of Rocq, whose characters are the bytes. *)

From S2P Require Import Prelude.
From Stdlib Require Export Ascii.

Local Open Scope string_scope.
Local Open Scope Z_scope.

(** ** Bytes *)

Definition byte_of (c : ascii) : Z := Z.of_N (N_of_ascii c).

Definition in_range (c lo hi : ascii) : bool :=
  (byte_of lo <=? byte_of c) && (byte_of c <=? byte_of hi).

Definition is_alpha (c : ascii) : bool := in_range c "a" "z" || in_range c "A" "Z".
Definition is_digit (c : ascii) : bool := in_range c "0" "9".
Definition is_hex (c : ascii) : bool :=
  is_digit c || in_range c "a" "f" || in_range c "A" "F".

Definition unhex (c : ascii) : Z :=
  if is_digit c then byte_of c - byte_of "0"
  else if in_range c "a" "f" then byte_of c - byte_of "a" + 10
  else if in_range c "A" "F" then byte_of c - byte_of "A" + 10
  else 0.

Definition to_lower (c : ascii) : ascii :=
  if in_range c "A" "Z" then ascii_of_N (Z.to_N (byte_of c + 32)) else c.

Fixpoint str_lower (s : string) : string :=
  match s with
  | "" => ""
  | String c s => String (to_lower c) (str_lower s)
  end.

Fixpoint str_forall (p : ascii → bool) (s : string) : bool :=
  match s with
  | "" => true
  | String c s => p c && str_forall p s
  end.


Definition mem (c : ascii) (s : string) : bool := negb (str_forall (λ d, negb (Ascii.eqb c d)) s).

(** ** Lemmas *)

Lemma prefix_app s t : String.prefix s t = true → ∃ r, t = s +:+ r.
Proof.
  revert t. induction s as [|c s IH]; intros t; [by exists t|].
  destruct t as [|d t]; simpl; [done|]. destruct (ascii_dec c d) as [->|]; [|done].
  intros [r ->]%IH. by exists r.
Qed.

Lemma string_app_cons c s t : String c s +:+ t = String c (s +:+ t).
Proof. done. Qed.

Lemma string_app_assoc s t u : (s +:+ t) +:+ u = s +:+ (t +:+ u).
Proof. induction s as [|c s IH]; [done|]. by rewrite !string_app_cons, IH. Qed.

Lemma string_app_nil s : s +:+ "" = s.
Proof. induction s as [|c s IH]; [done|]. by rewrite string_app_cons, IH. Qed.

Lemma str_forall_impl (p q : ascii → bool) s :
  (∀ c, p c = true → q c = true) → str_forall p s = true → str_forall q s = true.
Proof.
  intros Hpq. induction s as [|c s IH]; simpl; [done|].
  intros [Hc Hs]%andb_true_iff. by rewrite (Hpq _ Hc), IH.
Qed.

Lemma str_forall_app p s t : str_forall p (s +:+ t) = str_forall p s && str_forall p t.
Proof.
  induction s as [|c s IH]; [done|]. rewrite string_app_cons. simpl. by rewrite IH, andb_assoc.
Qed.

(** A fact about one byte, checked on all 256. *)
Definition all_bytes (p : ascii → bool) : bool :=
  forallb (λ n, p (ascii_of_nat n)) (seq 0 256).

Lemma all_bytes_spec p : all_bytes p = true → ∀ c, p c = true.
Proof.
  intros H c. unfold all_bytes in H. rewrite forallb_forall in H.
  rewrite <- (ascii_nat_embedding c). apply H, in_seq.
  pose proof (nat_ascii_bounded c). lia.
Qed.

Lemma all_bytes_impl p q :
  all_bytes (λ c, negb (p c) || q c) = true → ∀ c, p c = true → q c = true.
Proof. intros H c Hp. pose proof (all_bytes_spec _ H c) as Hc. simpl in Hc. by rewrite Hp in Hc. Qed.

(** From a byte class of a text to a wider one, checked on all bytes. *)
Ltac byte_class H := revert H; apply str_forall_impl, all_bytes_impl; vm_compute; reflexivity.

Lemma substring_all s : String.substring 0 (String.length s) s = s.
Proof. induction s as [|c s IH]; simpl; [done|]. by rewrite IH. Qed.

Lemma length_app s t : String.length (s +:+ t) = (String.length s + String.length t)%nat.
Proof. induction s as [|c s IH]; [done|]. rewrite string_app_cons. simpl. by rewrite IH. Qed.

(** What follows a prefix. *)
Definition strip_prefix (p s : string) : option string :=
  if String.prefix p s then Some (String.substring (String.length p) (String.length s - String.length p) s)
  else None.

Lemma strip_prefix_app p s : strip_prefix p (p +:+ s) = Some s.
Proof.
  unfold strip_prefix. rewrite length_app.
  replace (String.length p + String.length s - String.length p)%nat with (String.length s) by lia.
  assert (String.prefix p (p +:+ s) = true) as ->.
  { induction p as [|c p IH]; [by destruct s|]. rewrite string_app_cons. cbn [String.prefix].
    by destruct (ascii_dec c c). }
  f_equal. induction p as [|c p IH]; [apply substring_all|]. by rewrite string_app_cons.
Qed.
