(* ===== verification/Strconv.v ===== *)
(** * Numbers as text ([strconv], [fmt])

    Decimal integers, JSON number literals and their values, the shortest
    decimal that reads back as a given float, and the [%.2f] verb.  The float
    conversions are exact: a literal is a rational number rounded once. *)

From S2P Require Import Prelude GoString Float64.
From Stdlib Require Import SpecFloat.

Local Open Scope string_scope.
Local Open Scope Z_scope.

(** ** Integers *)

Definition digit_char (d : Z) : ascii := ascii_of_N (Z.to_N (d + 48)).
Definition digit_val (c : ascii) : Z := byte_of c - 48.

(** The decimal digits of [z] in front of [acc]. *)
Fixpoint print_digits (fuel : nat) (z : Z) (acc : string) : string :=
  match fuel with
  | O => acc
  | S fuel =>
      if z <? 10 then String (digit_char z) acc
      else print_digits fuel (z / 10) (String (digit_char (z mod 10)) acc)
  end.

(** [strconv.FormatUint(z, 10)]. *)
Definition print_nat (z : Z) : string := print_digits (S (Z.to_nat (Z.log2 z))) z "".

(** [%d] and [strconv.FormatInt(z, 10)]. *)
Definition print_int (z : Z) : string :=
  if z <? 0 then "-" +:+ print_nat (- z) else print_nat z.

Fixpoint digits_value (s : string) (acc : Z) : Z :=
  match s with
  | "" => acc
  | String c s => digits_value s (acc * 10 + digit_val c)
  end.

(** ** JSON number literals *)

Record numlit := MkNum {
  n_neg : bool;
  n_int : string;
  n_frac : option string;
  n_exp : option (bool * string);  (* negative?, digits *)
}.

Definition render_frac (f : option string) : string :=
  match f with Some ds => "." +:+ ds | None => "" end.

Definition render_exp (e : option (bool * string)) : string :=
  match e with
  | Some (neg, ds) => "e" +:+ (if neg then "-" else "+") +:+ ds
  | None => ""
  end.

Definition render_num (n : numlit) : string :=
  (if n_neg n then "-" else "") +:+ n_int n +:+ render_frac (n_frac n) +:+ render_exp (n_exp n).

(** The longest prefix of digits. *)
Fixpoint take_digits (s : string) : string * string :=
  match s with
  | "" => ("", "")
  | String c rest =>
      if is_digit c then let '(a, b) := take_digits rest in (String c a, b) else ("", s)
  end.

Definition nonempty_digits (s : string) : option (string * string) :=
  match take_digits s with
  | ("", _) => None
  | r => Some r
  end.

(** [0] or a digit 1-9 and digits. *)
Definition scan_int (s : string) : option (string * string) :=
  match s with
  | String "0" rest => Some ("0", rest)
  | _ => nonempty_digits s
  end.

Definition scan_frac (s : string) : option (option string * string) :=
  match s with
  | String "." rest => '(ds, rest) ← nonempty_digits rest; Some (Some ds, rest)
  | _ => Some (None, s)
  end.

Definition scan_exp (s : string) : option (option (bool * string) * string) :=
  match s with
  | String c rest =>
      if Ascii.eqb c "e" || Ascii.eqb c "E" then
        match rest with
        | String "-" rest => '(ds, rest) ← nonempty_digits rest; Some (Some (true, ds), rest)
        | String "+" rest => '(ds, rest) ← nonempty_digits rest; Some (Some (false, ds), rest)
        | _ => '(ds, rest) ← nonempty_digits rest; Some (Some (false, ds), rest)
        end
      else Some (None, s)
  | "" => Some (None, s)
  end.

Definition scan_number (s : string) : option (numlit * string) :=
  let '(neg, s) := match s with String "-" rest => (true, rest) | _ => (false, s) end in
  '(i, s) ← scan_int s;
  '(f, s) ← scan_frac s;
  '(e, s) ← scan_exp s;
  Some (MkNum neg i f e, s).

(** The literals the grammar generates. *)
Definition digits_ok (s : string) : bool := negb (String.eqb s "") && str_forall is_digit s.

Definition int_part_ok (s : string) : bool :=
  String.eqb s "0" ||
  match s with
  | String c _ => negb (Ascii.eqb c "0") && digits_ok s
  | "" => false
  end.

Definition numlit_ok (n : numlit) : bool :=
  int_part_ok (n_int n) &&
  match n_frac n with Some ds => digits_ok ds | None => true end &&
  match n_exp n with Some (_, ds) => digits_ok ds | None => true end.

(** [strconv.ParseInt(lit, 10, 64)] on a JSON literal. *)
Definition ParseInt (n : numlit) : option Z :=
  match n_frac n, n_exp n with
  | None, None =>
      let v := digits_value (n_int n) 0 in
      let v := if n_neg n then - v else v in
      if bool_decide (in_int64 v) then Some v else None
  | _, _ => None
  end.

(** ** Floats *)

(** The float nearest to [m * 10^e] for [0 <= m]. *)
Definition f_of_dec (neg : bool) (m e : Z) : float64 :=
  match m with
  | Zpos _ =>
      if 0 <=? e then
        match m * 10 ^ e with
        | Zpos p => binary_round 53 1024 neg p 0
        | _ => S754_zero neg
        end
      else
        let '(q, e', l) := SFdiv_core_binary 53 1024 m 0 (10 ^ (- e)) 0 in
        binary_round_aux 53 1024 neg q e' l
  | _ => S754_zero neg
  end.

Definition frac_digits (n : numlit) : string := default "" (n_frac n).
Definition exp_value (n : numlit) : Z :=
  match n_exp n with
  | Some (neg, ds) => if neg then - digits_value ds 0 else digits_value ds 0
  | None => 0
  end.

Definition numlit_float (n : numlit) : float64 :=
  f_of_dec (n_neg n) (digits_value (n_int n +:+ frac_digits n) 0)
    (exp_value n - Z.of_nat (String.length (frac_digits n))).

(** [strconv.ParseFloat(lit, 64)]: out of range is an error. *)
Definition ParseFloat (n : numlit) : option float64 :=
  let f := numlit_float n in
  if f_is_finite f then Some f else None.

(** *** The shortest decimal

    [num / den] is the magnitude; [c * 10^p] ranges over the decimals of [n]
    digits next to it, [n] from 1 to 17; the first that reads back is taken,
    the nearer of two. *)

Definition ge_pow10 (num den k : Z) : bool :=
  if 0 <=? k then 10 ^ k * den <=? num else den <=? num * 10 ^ (- k).

(** The [k] with [10^(k-1) <= num/den < 10^k]. *)
Definition dec_exponent (num den : Z) : Z :=
  let est := (Z.log2 num - Z.log2 den) * 30103 / 100000 in
  match List.find (λ k, ge_pow10 num den (k - 1)) [est + 2; est + 1; est; est - 1] with
  | Some k => k
  | None => est
  end.

(** Without trailing zeros. *)
Fixpoint strip_zeros (fuel : nat) (c p : Z) : Z * Z :=
  match fuel with
  | O => (c, p)
  | S fuel => if (0 <? c) && (c mod 10 =? 0) then strip_zeros fuel (c / 10) (p + 1) else (c, p)
  end.

Definition reads_back (m : positive) (e : Z) (d : Z * Z) : bool :=
  match f_of_dec false d.1 d.2 with
  | S754_finite false m' e' => (Pos.eqb m m' && (e =? e'))%bool
  | _ => false
  end.

Definition try_digits (m : positive) (e num den k : Z) (n : Z) : option (Z * Z) :=
  let p := k - n in
  let '(num, den) := if 0 <=? p then (num, den * 10 ^ p) else (num * 10 ^ (- p), den) in
  let q := num / den in
  let r := num mod den in
  let lo := strip_zeros 17 q p in
  let hi := strip_zeros 17 (q + 1) p in
  match reads_back m e lo, negb (r =? 0) && reads_back m e hi with
  | true, true =>
      Some (if (2 * r <? den) || ((2 * r =? den) && Z.even q) then lo else hi)
  | true, false => Some lo
  | false, true => Some hi
  | false, false => None
  end.

Fixpoint first_digits (try : Z → option (Z * Z)) (fuel : nat) (n : Z) : option (Z * Z) :=
  match fuel with
  | O => None
  | S fuel => match try n with Some r => Some r | None => first_digits try fuel (n + 1) end
  end.

Definition shortest (m : positive) (e : Z) : option (Z * Z) :=
  let num := Zpos m * 2 ^ (Z.max e 0) in
  let den := 2 ^ (Z.max (- e) 0) in
  first_digits (try_digits m e num den (dec_exponent num den)) 17 1.

Fixpoint zeros (n : nat) : string :=
  match n with O => "" | S n => String "0" (zeros n) end.

(** The digits [ds] with the point after position [point], without exponent. *)
Definition plain_num (neg : bool) (ds : string) (point : Z) : numlit :=
  let len := Z.of_nat (String.length ds) in
  if point <=? 0 then MkNum neg "0" (Some (zeros (Z.to_nat (- point)) +:+ ds)) None
  else if len <=? point then MkNum neg (ds +:+ zeros (Z.to_nat (point - len))) None None
  else MkNum neg (String.substring 0 (Z.to_nat point) ds)
         (Some (String.substring (Z.to_nat point) (Z.to_nat (len - point)) ds)) None.

(** One digit before the point, and a decimal exponent. *)
Definition exp_num (neg : bool) (ds : string) (point : Z) : numlit :=
  let x := point - 1 in
  MkNum neg (String.substring 0 1 ds)
    (match String.substring 1 (String.length ds - 1) ds with "" => None | f => Some f end)
    (Some (x <? 0, print_nat (Z.abs x))).

(** [encoding/json]'s float encoder: [%f] in the usual range, else [%e] with a
    cleaned exponent. *)
Definition f_abs (f : float64) : float64 := SFabs f.
Definition f_1e_6 : float64 := f_of_dec false 1 (-6).
Definition f_1e21 : float64 := f_of_dec false 1 21.

Definition json_float (f : float64) : option numlit :=
  match f with
  | S754_zero neg => Some (MkNum neg "0" None None)
  | S754_finite neg m e =>
      '(c, p) ← shortest m e;
      let ds := print_nat c in
      let point := Z.of_nat (String.length ds) + p in
      Some (if f_ltb (f_abs f) f_1e_6 || f_leb f_1e21 (f_abs f) then exp_num neg ds point
            else plain_num neg ds point)
  | _ => None
  end.

(** *** [%.2f] *)

Definition pad2 (z : Z) : string := String (digit_char (z / 10)) (String (digit_char (z mod 10)) "").

Definition sprintf_f2 (f : float64) : string :=
  match f with
  | S754_nan => "NaN"
  | S754_infinity false => "+Inf"
  | S754_infinity true => "-Inf"
  | S754_zero neg => (if neg then "-" else "") +:+ "0.00"
  | S754_finite neg m e =>
      let num := Zpos m * 2 ^ (Z.max e 0) * 100 in
      let den := 2 ^ (Z.max (- e) 0) in
      let q := num / den in
      let r := num mod den in
      let q := if (den <? 2 * r) || ((2 * r =? den) && Z.odd q) then q + 1 else q in
      (if neg then "-" else "") +:+ print_nat (q / 100) +:+ "." +:+ pad2 (q mod 100)
  end.

(** ** Examples *)

Definition lit (s : string) : option numlit := fst <$> scan_number s.
Definition float_text (f : float64) : option string := render_num <$> json_float f.

Example print_int_ex : map print_int [0; 7; 10; -42; 9223372036854775807] =
  ["0"; "7"; "10"; "-42"; "9223372036854775807"].
Proof. vm_compute. reflexivity. Qed.

Example float_text_ex :
  map (λ s, n ← lit s; f ← ParseFloat n; float_text f)
    ["99.5"; "0.1"; "1e-7"; "123456789012345678901234"; "1e21"; "5e-324"; "-2.50";
     "1.7976931348623157e308"; "33.333333333333336"; "1e400"; "9007199254740993"; "100"; "0.000001"] =
    [Some "99.5"; Some "0.1"; Some "1e-7"; Some "1.2345678901234569e+23"; Some "1e+21";
     Some "5e-324"; Some "-2.5"; Some "1.7976931348623157e+308"; Some "33.333333333333336"; None;
     Some "9007199254740992"; Some "100"; Some "0.000001"].
Proof. vm_compute. reflexivity. Qed.

Example sprintf_f2_ex :
  map (λ s, n ← lit s; sprintf_f2 <$> ParseFloat n) ["93.1256"; "0.125"; "2.675"; "1e3"; "0.004"] =
    [Some "93.13"; Some "0.12"; Some "2.67"; Some "1000.00"; Some "0.00"].
Proof. vm_compute. reflexivity. Qed.

(** The literal of an integer. *)
Definition int_num (z : Z) : numlit := MkNum (z <? 0) (print_nat (Z.abs z)) None None.

Lemma render_int_num z : render_num (int_num z) = print_int z.
Proof.
  unfold render_num, int_num, print_int. simpl. rewrite !string_app_nil.
  destruct (Z.ltb_spec z 0).
  - by rewrite Z.abs_neq by lia.
  - by rewrite Z.abs_eq by lia.
Qed.

(** ** Lemmas: digits *)

Lemma byte_of_ascii z : 0 ≤ z < 256 → byte_of (ascii_of_N (Z.to_N z)) = z.
Proof. intros. unfold byte_of. rewrite N_ascii_embedding by lia. lia. Qed.

Lemma digit_val_char d : 0 ≤ d < 10 → digit_val (digit_char d) = d.
Proof. intros. unfold digit_val, digit_char. rewrite byte_of_ascii by lia. lia. Qed.

Lemma is_digit_char d : 0 ≤ d < 10 → is_digit (digit_char d) = true.
Proof.
  intros. unfold is_digit, in_range, digit_char. rewrite byte_of_ascii by lia.
  change (byte_of "0") with 48. change (byte_of "9") with 57.
  apply andb_true_iff. rewrite !Z.leb_le. lia.
Qed.

Lemma digit_char_zero d : 0 ≤ d < 10 → digit_char d = "0"%char → d = 0.
Proof. intros Hd H. apply (f_equal digit_val) in H. by rewrite digit_val_char in H. Qed.

Lemma digits_value_app s t acc : digits_value (s +:+ t) acc = digits_value t (digits_value s acc).
Proof.
  revert acc. induction s as [|c s IH]; intros acc; [done|]. rewrite string_app_cons. simpl. apply IH.
Qed.

(** [print_digits] puts the digits of [z] before [acc], the first one non-zero
    unless [z = 0]. *)
Lemma print_digits_spec fuel z acc :
  0 ≤ z < 10 ^ Z.of_nat fuel → (0 < fuel)%nat →
  ∃ c ds, print_digits fuel z acc = String c (ds +:+ acc) ∧
    is_digit c = true ∧ str_forall is_digit ds = true ∧
    (c = "0"%char → z = 0 ∧ ds = "") ∧
    ∀ a, digits_value (String c ds) a = a * 10 ^ Z.of_nat (S (String.length ds)) + z.
Proof.
  revert z acc. induction fuel as [|fuel IH]; intros z acc Hz Hf; [lia|]. cbn [print_digits].
  destruct (Z.ltb_spec z 10) as [Hlt|Hge].
  - exists (digit_char z), "". split; [done|]. rewrite is_digit_char by lia. split_and!; [done..| |].
    + intros H. by apply digit_char_zero in H; [|lia].
    + intros a. simpl. rewrite digit_val_char by lia. lia.
  - assert (0 < fuel)%nat. { destruct fuel; [|lia]. change (10 ^ Z.of_nat 1) with 10 in Hz. lia. }
    pose proof (Z.mod_pos_bound z 10 ltac:(lia)). pose proof (Z.div_mod z 10 ltac:(lia)).
    destruct (IH (z / 10) (String (digit_char (z mod 10)) acc)) as (c & ds & Hp & Hc & Hds & Hc0 & Hv).
    { rewrite Nat2Z.inj_succ, Z.pow_succ_r in Hz by lia.
      split; [apply Z.div_pos; lia|apply Z.div_lt_upper_bound; lia]. }
    { done. }
    exists c, (ds +:+ String (digit_char (z mod 10)) ""). rewrite Hp. split_and!.
    + by rewrite string_app_assoc.
    + done.
    + rewrite str_forall_app, Hds. simpl. by rewrite is_digit_char by lia.
    + intros Hz0. destruct (Hc0 Hz0) as [? _]. lia.
    + intros a. change (String c (ds +:+ ?t)) with (String c ds +:+ t).
      rewrite digits_value_app, Hv. simpl. rewrite digit_val_char by lia.
      assert (String.length (ds +:+ String (digit_char (z mod 10)) "") = S (String.length ds)) as ->.
      { clear. induction ds as [|d ds IH]; [done|]. rewrite string_app_cons. simpl. by rewrite IH. }
      rewrite !Nat2Z.inj_succ, !Z.pow_succ_r by lia. lia.
Qed.

Lemma pow10_log2 z : 0 ≤ z → z < 10 ^ Z.of_nat (S (Z.to_nat (Z.log2 z))).
Proof.
  intros Hz. rewrite Nat2Z.inj_succ, Z2Nat.id by apply Z.log2_nonneg.
  destruct (decide (z = 0)) as [->|]; [done|].
  pose proof (Z.log2_spec z ltac:(lia)) as [_ H].
  pose proof (Z.pow_le_mono_l 2 10 (Z.succ (Z.log2 z)) ltac:(lia)). lia.
Qed.

Lemma print_nat_spec z :
  0 ≤ z →
  ∃ c ds, print_nat z = String c ds ∧ is_digit c = true ∧ str_forall is_digit ds = true ∧
    (c = "0"%char → z = 0 ∧ ds = "") ∧
    ∀ a, digits_value (String c ds) a = a * 10 ^ Z.of_nat (S (String.length ds)) + z.
Proof.
  intros Hz. unfold print_nat.
  destruct (print_digits_spec (S (Z.to_nat (Z.log2 z))) z "") as (c & ds & Hp & H).
  { split; [done|by apply pow10_log2]. } { lia. }
  exists c, ds. by rewrite Hp, string_app_nil.
Qed.

Lemma print_nat_value z : 0 ≤ z → digits_value (print_nat z) 0 = z.
Proof.
  intros Hz. destruct (print_nat_spec z Hz) as (c & ds & -> & _ & _ & _ & Hv). rewrite Hv. lia.
Qed.

Lemma print_nat_digits z : 0 ≤ z → digits_ok (print_nat z) = true.
Proof.
  intros Hz. destruct (print_nat_spec z Hz) as (c & ds & -> & Hc & Hds & _).
  unfold digits_ok. simpl. by rewrite Hc, Hds.
Qed.

Lemma print_nat_int_part z : 0 ≤ z → int_part_ok (print_nat z) = true.
Proof.
  intros Hz. pose proof (print_nat_digits z Hz) as Hd.
  destruct (print_nat_spec z Hz) as (c & ds & Heq & Hc & Hds & H0 & _). rewrite Heq in *.
  unfold int_part_ok. rewrite Hd. destruct (Ascii.eqb_spec c "0") as [->|]; simpl.
  - destruct (H0 eq_refl) as [_ ->]. done.
  - apply orb_true_r.
Qed.

Lemma int_num_ok z : numlit_ok (int_num z) = true.
Proof. unfold numlit_ok, int_num. simpl. by rewrite print_nat_int_part by lia. Qed.

Lemma ParseInt_int_num z : in_int64 z → ParseInt (int_num z) = Some z.
Proof.
  intros Hz. unfold ParseInt, int_num. simpl. rewrite print_nat_value by lia.
  assert ((if z <? 0 then - Z.abs z else Z.abs z) = z) as ->.
  { destruct (Z.ltb_spec z 0); lia. }
  by rewrite bool_decide_eq_true_2.
Qed.

(** ** Lemmas: scanning what was printed *)

(** A byte that cannot continue a number. *)
Definition num_stop (s : string) : bool :=
  match s with
  | "" => true
  | String c _ => negb (is_digit c || mem c ".eE")
  end.

Definition no_digit (s : string) : bool :=
  match s with "" => true | String c _ => negb (is_digit c) end.

Lemma take_digits_app ds rest :
  str_forall is_digit ds = true → no_digit rest = true → take_digits (ds +:+ rest) = (ds, rest).
Proof.
  intros Hds Hr. induction ds as [|c ds IH].
  - change ("" +:+ rest) with rest. destruct rest as [|c rest]; [done|]. simpl in *.
    by destruct (is_digit c).
  - rewrite string_app_cons. simpl in *. apply andb_true_iff in Hds as [-> Hds]. by rewrite IH.
Qed.

Lemma nonempty_digits_app ds rest :
  digits_ok ds = true → no_digit rest = true → nonempty_digits (ds +:+ rest) = Some (ds, rest).
Proof.
  unfold digits_ok, nonempty_digits. intros [Hne Hds]%andb_true_iff Hr.
  rewrite take_digits_app by done. by destruct ds.
Qed.

Lemma scan_int_app i rest :
  int_part_ok i = true → no_digit rest = true → scan_int (i +:+ rest) = Some (i, rest).
Proof.
  unfold int_part_ok. intros [->%String.eqb_eq|H]%orb_true_iff Hr; [done|].
  destruct i as [|c i]; [done|]. apply andb_true_iff in H as [Hc Hd].
  assert (scan_int (String c i +:+ rest) = nonempty_digits (String c i +:+ rest)) as ->.
  { rewrite string_app_cons. destruct c as [[] [] [] [] [] [] [] []]; done. }
  by apply nonempty_digits_app.
Qed.

Lemma scan_frac_none rest : num_stop rest = true → scan_frac rest = Some (None, rest).
Proof.
  destruct rest as [|c rest]; [done|]. intros H. simpl in H.
  destruct c as [[] [] [] [] [] [] [] []]; done.
Qed.

Lemma scan_frac_e c rest : c = "e"%char → scan_frac (String c rest) = Some (None, String c rest).
Proof. by intros ->. Qed.

Lemma num_stop_no_digit rest : num_stop rest = true → no_digit rest = true.
Proof. destruct rest; [done|]. simpl. by destruct (is_digit _). Qed.

Lemma scan_exp_app e rest :
  match e with Some (_, ds) => digits_ok ds | None => true end = true →
  num_stop rest = true →
  scan_exp (render_exp e +:+ rest) = Some (e, rest).
Proof.
  intros He Hr. pose proof (num_stop_no_digit _ Hr) as Hn. destruct e as [[neg ds]|].
  - unfold render_exp. rewrite !string_app_assoc.
    assert (scan_exp ("e" +:+ (if neg then "-" else "+") +:+ ds +:+ rest) =
      '(ds, rest) ← nonempty_digits (ds +:+ rest); Some (Some (neg, ds), rest)) as ->
      by (by destruct neg).
    by rewrite nonempty_digits_app.
  - change (render_exp None +:+ rest) with rest. destruct rest as [|c rest]; [done|].
    assert (Hc : Ascii.eqb c "e" || Ascii.eqb c "E" = false).
    { revert Hr. change (num_stop (String c rest)) with (negb (is_digit c || mem c ".eE")).
      intros Hr. apply negb_true_iff in Hr.
      assert (∀ d, negb (is_digit d || mem d ".eE") = true →
                   negb (Ascii.eqb d "e" || Ascii.eqb d "E") = true) as Hall.
      { apply all_bytes_impl. by vm_compute. }
      apply negb_true_iff, Hall. by rewrite Hr. }
    unfold scan_exp. by rewrite Hc.
Qed.

Lemma no_digit_render_exp e rest :
  num_stop rest = true → no_digit (render_exp e +:+ rest) = true.
Proof. destruct e as [[neg ds]|]; [done|]. apply num_stop_no_digit. Qed.

Lemma scan_frac_app f e rest :
  match f with Some ds => digits_ok ds | None => true end = true →
  num_stop rest = true →
  scan_frac (render_frac f +:+ render_exp e +:+ rest) = Some (f, render_exp e +:+ rest).
Proof.
  intros Hf Hr. destruct f as [ds|].
  - unfold render_frac. rewrite string_app_assoc.
    assert (∀ s, scan_frac ("." +:+ s) = '(ds, rest) ← nonempty_digits s; Some (Some ds, rest))
      as -> by done.
    by rewrite nonempty_digits_app by (done || by apply no_digit_render_exp).
  - change (render_frac None +:+ ?t) with t. destruct e as [[neg ds]|]; [done|].
    change (render_exp None +:+ rest) with rest. by apply scan_frac_none.
Qed.

Lemma scan_number_app n rest :
  numlit_ok n = true → num_stop rest = true →
  scan_number (render_num n +:+ rest) = Some (n, rest).
Proof.
  intros [[Hi Hf]%andb_true_iff He]%andb_true_iff Hr. destruct n as [neg i f e]. simpl in *.
  unfold render_num. simpl. rewrite !string_app_assoc.
  set (tail := i +:+ render_frac f +:+ render_exp e +:+ rest).
  assert (Htail : ('(j, s) ← scan_int tail; '(f, s) ← scan_frac s; '(e, s) ← scan_exp s;
                   Some (MkNum neg j f e, s)) = Some (MkNum neg i f e, rest)).
  { unfold tail. rewrite scan_int_app; [|done|].
    - cbn [mbind option_bind]. rewrite scan_frac_app by done. cbn [mbind option_bind].
      by rewrite scan_exp_app.
    - destruct f as [ds|]; [done|]. by apply no_digit_render_exp. }
  destruct neg.
  - exact Htail.
  - change ("" +:+ tail) with tail. unfold scan_number.
    assert ((match tail with String "-" rest => (true, rest) | _ => (false, tail) end)
            = (false, tail)) as ->; [|exact Htail].
    unfold tail. destruct i as [|c i]; [done|]. rewrite string_app_cons.
    assert (Hc : is_digit c = true).
    { unfold int_part_ok in Hi. apply orb_true_iff in Hi as [Hi|Hi].
      - apply String.eqb_eq in Hi. by simplify_eq.
      - unfold digits_ok in Hi. simpl in Hi. by destruct (is_digit c); rewrite ?andb_false_r in Hi. }
    by destruct c as [[] [] [] [] [] [] [] []].
Qed.

(** ** Lemmas: a float's text reads back as the float *)

Lemma binary_round_aux_sign neg mx ex lx m e :
  binary_round_aux 53 1024 false mx ex lx = S754_finite false m e →
  binary_round_aux 53 1024 neg mx ex lx = S754_finite neg m e.
Proof.
  unfold binary_round_aux. destruct (shr_fexp _ _ mx ex lx) as [mrs e'].
  destruct (shr_fexp _ _ _ e' loc_Exact) as [mrs' e'']. destruct (shr_m mrs'); try done.
  destruct (_ <=? _); [|done]. by intros [= <- <-].
Qed.

Lemma f_of_dec_sign neg c p m e :
  f_of_dec false c p = S754_finite false m e → f_of_dec neg c p = S754_finite neg m e.
Proof.
  unfold f_of_dec. destruct c as [|c|c]; try done. destruct (0 <=? p).
  - destruct (_ * _) as [|q|q]; try done. unfold binary_round.
    destruct (shl_align q 0 _) as [mz ez].
    apply binary_round_aux_sign.
  - destruct (SFdiv_core_binary _ _ _ _ _ _) as [[q e'] l]. apply binary_round_aux_sign.
Qed.

Lemma reads_back_spec m e d : reads_back m e d = true → f_of_dec false d.1 d.2 = S754_finite false m e.
Proof.
  unfold reads_back. destruct (f_of_dec false d.1 d.2) as [| | |[] m' e']; try done.
  intros [H1%Pos.eqb_eq H2%Z.eqb_eq]%andb_true_iff. by subst.
Qed.

Lemma try_digits_spec m e num den k n d :
  try_digits m e num den k n = Some d → reads_back m e d = true.
Proof.
  unfold try_digits. cbv zeta. destruct (if 0 <=? k - n then _ else _) as [num' den'].
  destruct (reads_back m e (strip_zeros 17 (num' / den') (k - n))) eqn:Hlo,
    (reads_back m e (strip_zeros 17 (num' / den' + 1) (k - n))) eqn:Hhi;
    rewrite ?andb_true_r, ?andb_false_r; repeat case_match; intros; simplify_eq; done.
Qed.

Lemma first_digits_spec try fuel n d : first_digits try fuel n = Some d → ∃ n, try n = Some d.
Proof.
  revert n. induction fuel as [|fuel IH]; intros n; simpl; [done|].
  destruct (try n) eqn:H; [intros [= ->]; eauto|apply IH].
Qed.

Lemma shortest_spec m e c p : shortest m e = Some (c, p) → f_of_dec false c p = S754_finite false m e.
Proof.
  unfold shortest. cbv zeta. intros [n H]%first_digits_spec.
  by apply try_digits_spec, reads_back_spec in H.
Qed.

Lemma f_of_dec_shift neg c p :
  0 < c → 0 ≤ p → f_of_dec neg (c * 10 ^ p) 0 = f_of_dec neg c p.
Proof.
  intros Hc Hp. unfold f_of_dec. destruct (Z.leb_spec 0 p); [|lia].
  assert (0 < c * 10 ^ p) by (apply Z.mul_pos_pos; [done|by apply Z.pow_pos_nonneg]).
  destruct c as [|c|c]; [lia| |lia]. destruct (Zpos c * 10 ^ p) as [|q|q] eqn:Hq; try lia.
  change (0 <=? 0) with true. change (10 ^ 0) with 1. by rewrite Z.mul_1_r.
Qed.

Lemma substring_split k s :
  (k ≤ String.length s)%nat →
  String.substring 0 k s +:+ String.substring k (String.length s - k) s = s ∧
  String.length (String.substring 0 k s) = k ∧
  String.length (String.substring k (String.length s - k) s) = (String.length s - k)%nat.
Proof.
  revert k. induction s as [|c s IH]; intros k Hk; simpl in Hk.
  - assert (k = 0%nat) as -> by lia. done.
  - destruct k as [|k].
    + simpl. destruct (IH 0%nat) as (H1 & _ & H3); [lia|].
      rewrite Nat.sub_0_r in *. assert (String.substring 0 0 s = "") as E by (by destruct s).
      rewrite E in H1. change ("" +:+ ?t) with t in *. rewrite H1. done.
    + simpl. rewrite string_app_cons. destruct (IH k) as (H1 & H2 & H3); [lia|].
      split_and!; [by rewrite H1|by rewrite H2|done].
Qed.

Lemma zeros_value n a : digits_value (zeros n) a = a * 10 ^ Z.of_nat n.
Proof.
  revert a. induction n as [|n IH]; intros a; [simpl; lia|].
  cbn [zeros digits_value]. rewrite IH. change (digit_val "0") with 0.
  rewrite Nat2Z.inj_succ, Z.pow_succ_r by lia. lia.
Qed.

Lemma zeros_length n : String.length (zeros n) = n.
Proof. induction n as [|n IH]; simpl; [done|]. by rewrite IH. Qed.

Lemma zeros_digits n : str_forall is_digit (zeros n) = true.
Proof. by induction n. Qed.

Lemma digits_ok_app s t :
  digits_ok s = true → str_forall is_digit t = true →
  digits_ok (s +:+ t) = true ∧ digits_ok (t +:+ s) = true.
Proof.
  unfold digits_ok. intros [Hs Hd]%andb_true_iff Ht. rewrite !str_forall_app, Hd, Ht.
  split; rewrite andb_true_r; by destruct s, t.
Qed.

Lemma int_part_ok_app s t :
  int_part_ok s = true → s ≠ "0" → str_forall is_digit t = true → int_part_ok (s +:+ t) = true.
Proof.
  unfold int_part_ok. intros [Hs|Hs]%orb_true_iff Hne Ht.
  - by apply String.eqb_eq in Hs.
  - destruct s as [|c s]; [done|]. apply andb_true_iff in Hs as [Hc Hd].
    destruct (digits_ok_app _ _ Hd Ht) as [Hdt _]. rewrite string_app_cons in *.
    apply orb_true_iff. right. by rewrite Hc, Hdt.
Qed.

Lemma int_part_ok_prefix s t :
  s ≠ "" → int_part_ok (s +:+ t) = true → int_part_ok s = true.
Proof.
  destruct s as [|c s]; [done|]. intros _. rewrite string_app_cons. unfold int_part_ok.
  intros [H|H]%orb_true_iff.
  - apply String.eqb_eq in H. injection H as -> H. by destruct s.
  - apply andb_true_iff in H as [Hc Hd]. apply orb_true_iff. right. rewrite Hc.
    unfold digits_ok in *. simpl in *. rewrite str_forall_app, andb_assoc in Hd.
    by apply andb_true_iff in Hd as [-> _].
Qed.

Lemma str_forall_suffix p s t : str_forall p (s +:+ t) = true → str_forall p t = true.
Proof. rewrite str_forall_app. by intros [_ ?]%andb_true_iff. Qed.

Section float_text.
Context (neg : bool) (c p : Z) (m : positive) (e : Z).
Hypothesis Hread : f_of_dec false c p = S754_finite false m e.

Notation ds := (print_nat c).
Notation len := (Z.of_nat (String.length ds)).

Lemma read_positive : 0 < c.
Proof. unfold f_of_dec in Hread. by destruct c. Qed.

Lemma print_c_value a : digits_value ds a = a * 10 ^ len + c.
Proof.
  pose proof read_positive. destruct (print_nat_spec c) as (x & xs & E & _ & _ & _ & Hv); [lia|].
  rewrite E at 1 2. apply Hv.
Qed.

Lemma print_c_nonzero : ds ≠ "0".
Proof.
  pose proof read_positive. intros E. pose proof (print_nat_value c ltac:(lia)) as H'.
  rewrite E in H'. vm_compute in H'. lia.
Qed.

Lemma plain_num_value : numlit_float (plain_num neg ds (len + p)) = S754_finite neg m e.
Proof.
  pose proof read_positive. rewrite <- (f_of_dec_sign neg c p m e Hread).
  unfold plain_num, numlit_float, frac_digits, exp_value. cbv zeta.
  destruct (Z.leb_spec (len + p) 0) as [H1|H1]; [|destruct (Z.leb_spec len (len + p)) as [H2|H2]];
    cbn [n_neg n_int n_frac n_exp default from_option id].
  - rewrite !digits_value_app, print_c_value. change (digits_value "0" 0) with 0.
    rewrite zeros_value, length_app, zeros_length. f_equal; lia.
  - rewrite string_app_nil, digits_value_app, print_c_value, zeros_value.
    change (0 - Z.of_nat (String.length "")) with 0. rewrite Z2Nat.id by lia.
    replace (len + p - len) with p by lia. change (0 * 10 ^ len + c) with c.
    by rewrite f_of_dec_shift by lia.
  - destruct (substring_split (Z.to_nat (len + p)) ds) as (Hs & _ & Hl); [lia|].
    replace (Z.to_nat (len - (len + p))) with (String.length ds - Z.to_nat (len + p))%nat by lia.
    rewrite Hs, Hl, print_c_value. f_equal; lia.
Qed.

Lemma print_c_length : 0 < len.
Proof.
  pose proof read_positive. destruct (print_nat_spec c) as (x & xs & E & _); [lia|].
  rewrite E. simpl. lia.
Qed.

Lemma print_c_digits : digits_ok ds = true.
Proof. apply print_nat_digits. pose proof read_positive. lia. Qed.

Lemma print_c_int : int_part_ok ds = true.
Proof. apply print_nat_int_part. pose proof read_positive. lia. Qed.

Lemma substring_nonempty k :
  (0 < k ≤ String.length ds)%nat → String.substring 0 k ds ≠ "".
Proof.
  intros Hk E. destruct (substring_split k ds) as (_ & Hl & _); [lia|]. rewrite E in Hl.
  simpl in Hl. lia.
Qed.

Lemma substring_suffix_digits k :
  (k ≤ String.length ds)%nat →
  str_forall is_digit (String.substring k (String.length ds - k) ds) = true.
Proof.
  intros Hk. destruct (substring_split k ds Hk) as (Hs & _).
  pose proof print_c_digits as Hd. unfold digits_ok in Hd. apply andb_true_iff in Hd as [_ Hd].
  rewrite <- Hs in Hd. by apply str_forall_suffix in Hd.
Qed.

Lemma plain_num_ok : numlit_ok (plain_num neg ds (len + p)) = true.
Proof.
  pose proof print_c_int. pose proof print_c_digits.
  unfold plain_num, numlit_ok. cbv zeta.
  destruct (Z.leb_spec (len + p) 0) as [H1|H1]; [|destruct (Z.leb_spec len (len + p)) as [H2|H2]];
    simpl; rewrite ?andb_true_r.
  - apply digits_ok_app; [done|apply zeros_digits].
  - apply int_part_ok_app; [done|apply print_c_nonzero|apply zeros_digits].
  - replace (Z.to_nat (len - (len + p))) with (String.length ds - Z.to_nat (len + p))%nat by lia.
    destruct (substring_split (Z.to_nat (len + p)) ds) as (Hs & _ & Hl); [lia|].
    apply andb_true_iff. split.
    + eapply int_part_ok_prefix; [apply substring_nonempty; lia|]. by rewrite Hs.
    + unfold digits_ok. rewrite substring_suffix_digits by lia.
      destruct (String.eqb_spec (String.substring (Z.to_nat (len + p))
        (String.length ds - Z.to_nat (len + p)) ds) "") as [E|]; [|done].
      rewrite E in Hl. change (String.length "") with 0%nat in Hl. lia.
Qed.

Lemma exp_num_split :
  String.substring 0 1 ds +:+
    default "" (match String.substring 1 (String.length ds - 1) ds with "" => None | f => Some f end)
  = ds ∧
  String.length (default "" (match String.substring 1 (String.length ds - 1) ds with
                             | "" => None | f => Some f end)) = (String.length ds - 1)%nat.
Proof.
  pose proof print_c_length. destruct (substring_split 1 ds) as (Hs & _ & Hl); [lia|].
  by destruct (String.substring 1 _ ds).
Qed.

Lemma exp_num_value : numlit_float (exp_num neg ds (len + p)) = S754_finite neg m e.
Proof.
  pose proof read_positive. pose proof print_c_length.
  rewrite <- (f_of_dec_sign neg c p m e Hread).
  unfold exp_num, numlit_float, frac_digits, exp_value. cbv zeta.
  cbn [n_neg n_int n_frac n_exp]. destruct exp_num_split as [-> ->].
  rewrite print_c_value, print_nat_value by lia.
  destruct (Z.ltb_spec (len + p - 1) 0); f_equal; lia.
Qed.

Lemma exp_num_ok : numlit_ok (exp_num neg ds (len + p)) = true.
Proof.
  pose proof read_positive. pose proof print_c_length.
  destruct (substring_split 1 ds) as (Hs & _); [lia|].
  unfold exp_num, numlit_ok. cbv zeta. simpl. rewrite print_nat_digits by lia.
  rewrite andb_true_r. apply andb_true_iff. split.
  - eapply int_part_ok_prefix; [apply substring_nonempty; lia|]. rewrite Hs. apply print_c_int.
  - pose proof (substring_suffix_digits 1 ltac:(lia)) as Hd.
    destruct (String.substring 1 _ ds) eqn:E; [done|]. unfold digits_ok. by rewrite Hd.
Qed.
End float_text.

Lemma json_float_ok f n :
  json_float f = Some n → numlit_ok n = true ∧ ParseFloat n = Some f.
Proof.
  unfold json_float. destruct f as [neg| | |neg m e]; try done.
  { intros [= <-]. split; [done|]. by destruct neg. }
  destruct (shortest m e) as [[c p]|] eqn:Hs; simpl; [|done]. apply shortest_spec in Hs.
  destruct (_ || _); intros [= <-]; unfold ParseFloat;
    rewrite ?(plain_num_value neg c p m e Hs), ?(exp_num_value neg c p m e Hs); simpl; split;
    [by eapply exp_num_ok|done|by eapply plain_num_ok|done].
Qed.
