(* ===== verification/Utf8.v ===== *)
(** * UTF-8 ([unicode/utf8])

    A Go string is any sequence of bytes.  [chunks] cuts it the way
    [utf8.DecodeRune] steps through it: ASCII bytes, well-formed multi-byte
    runes, and bytes that belong to none (width-1 errors). *)

From S2P Require Import Prelude GoString.

Local Open Scope string_scope.
Local Open Scope Z_scope.

Inductive chunk :=
  | CAscii (c : ascii)
  | CRune (bytes : string)
  | CBad.

Definition is_ascii (c : ascii) : bool := byte_of c <? 128.

Definition between (c : ascii) (lo hi : Z) : bool := (lo <=? byte_of c) && (byte_of c <=? hi).

Definition cont (c : ascii) : bool := between c 128 191.

Definition rune2 (c1 c2 : ascii) : bool := between c1 194 223 && cont c2.

Definition rune3 (c1 c2 c3 : ascii) : bool :=
  (if byte_of c1 =? 224 then between c2 160 191
   else if byte_of c1 =? 237 then between c2 128 159
   else between c1 225 239 && cont c2) && cont c3.

Definition rune4 (c1 c2 c3 c4 : ascii) : bool :=
  (if byte_of c1 =? 240 then between c2 144 191
   else if byte_of c1 =? 244 then between c2 128 143
   else between c1 241 243 && cont c2) && cont c3 && cont c4.

Fixpoint chunks (s : string) : list chunk :=
  match s with
  | "" => []
  | String c1 s1 =>
      if is_ascii c1 then CAscii c1 :: chunks s1
      else match s1 with
      | "" => CBad :: chunks s1
      | String c2 s2 =>
          if rune2 c1 c2 then CRune (String c1 (String c2 "")) :: chunks s2
          else match s2 with
          | "" => CBad :: chunks s1
          | String c3 s3 =>
              if rune3 c1 c2 c3 then CRune (String c1 (String c2 (String c3 ""))) :: chunks s3
              else match s3 with
              | "" => CBad :: chunks s1
              | String c4 s4 =>
                  if rune4 c1 c2 c3 c4
                  then CRune (String c1 (String c2 (String c3 (String c4 "")))) :: chunks s4
                  else CBad :: chunks s1
              end
          end
      end
  end.

(** U+FFFD. *)
Definition replacement : string :=
  String (ascii_of_N 239) (String (ascii_of_N 191) (String (ascii_of_N 189) "")).

Definition chunk_bytes (k : chunk) : string :=
  match k with
  | CAscii c => String c ""
  | CRune u => u
  | CBad => replacement
  end.

Definition concat_str (l : list string) : string := foldr String.append "" l.

(** Invalid bytes replaced: [strings.ToValidUTF8] with U+FFFD. *)
Definition sanitize (s : string) : string := concat_str (map chunk_bytes (chunks s)).

Definition valid_utf8 (s : string) : Prop := CBad ∉ chunks s.

(** [utf8.EncodeRune] for a code point that is not a surrogate. *)
Definition byte_char (z : Z) : ascii := ascii_of_N (Z.to_N z).

Definition encode_rune (r : Z) : string :=
  if r <? 128 then String (byte_char r) ""
  else if r <? 2048 then
    String (byte_char (192 + r / 64)) (String (byte_char (128 + r mod 64)) "")
  else if r <? 65536 then
    String (byte_char (224 + r / 4096))
      (String (byte_char (128 + (r / 64) mod 64)) (String (byte_char (128 + r mod 64)) ""))
  else
    String (byte_char (240 + r / 262144))
      (String (byte_char (128 + (r / 4096) mod 64))
        (String (byte_char (128 + (r / 64) mod 64)) (String (byte_char (128 + r mod 64)) ""))).

(** ** Lemmas *)

(** What [chunks] cuts off is well formed. *)
Definition chunk_ok (k : chunk) : Prop :=
  match k with
  | CAscii c => is_ascii c = true
  | CRune u => ∀ t, chunks (u +:+ t) = CRune u :: chunks t
  | CBad => True
  end.

Lemma rune2_not_ascii c1 c2 : rune2 c1 c2 = true → is_ascii c1 = false.
Proof. unfold rune2, between, is_ascii. intros. bool_to_prop. apply Z.ltb_ge. lia. Qed.

Ltac byte_cases :=
  unfold rune2, rune3, rune4, cont, between, is_ascii in *;
  repeat (case_match; bool_to_prop); bool_to_prop; try apply Z.ltb_ge; try lia.

Lemma rune3_not_ascii c1 c2 c3 : rune3 c1 c2 c3 = true → is_ascii c1 = false ∧ rune2 c1 c2 = false.
Proof.
  intros H. split; [byte_cases|]. destruct (rune2 c1 c2) eqn:E; [|done]. exfalso. byte_cases.
Qed.

Lemma rune4_not_ascii c1 c2 c3 c4 :
  rune4 c1 c2 c3 c4 = true →
  is_ascii c1 = false ∧ rune2 c1 c2 = false ∧ rune3 c1 c2 c3 = false.
Proof.
  intros H. split_and!.
  - byte_cases.
  - destruct (rune2 c1 c2) eqn:E; [|done]. exfalso. byte_cases.
  - destruct (rune3 c1 c2 c3) eqn:E; [|done]. exfalso. byte_cases.
Qed.

Lemma chunk_rune2 c1 c2 : rune2 c1 c2 = true → chunk_ok (CRune (String c1 (String c2 ""))).
Proof.
  intros H t. rewrite !string_app_cons. change ("" +:+ t) with t. cbn [chunks].
  by rewrite (rune2_not_ascii _ _ H), H.
Qed.

Lemma chunk_rune3 c1 c2 c3 :
  rune3 c1 c2 c3 = true → chunk_ok (CRune (String c1 (String c2 (String c3 "")))).
Proof.
  intros H t. rewrite !string_app_cons. change ("" +:+ t) with t. cbn [chunks].
  destruct (rune3_not_ascii _ _ _ H) as [-> ->]. by rewrite H.
Qed.

Lemma chunk_rune4 c1 c2 c3 c4 :
  rune4 c1 c2 c3 c4 = true → chunk_ok (CRune (String c1 (String c2 (String c3 (String c4 ""))))).
Proof.
  intros H t. rewrite !string_app_cons. change ("" +:+ t) with t. cbn [chunks].
  destruct (rune4_not_ascii _ _ _ _ H) as (-> & -> & ->). by rewrite H.
Qed.

Lemma chunks_ok s : Forall chunk_ok (chunks s).
Proof.
  remember (String.length s) as n eqn:Hn. revert s Hn.
  induction n as [n IH] using lt_wf_ind. intros s ->.
  destruct s as [|c1 s1]; [constructor|]. cbn [chunks].
  assert (H1 : Forall chunk_ok (chunks s1)) by (eapply IH; [|done]; cbn; lia).
  destruct (is_ascii c1) eqn:E1; [by constructor|].
  destruct s1 as [|c2 s2]; [by repeat constructor|].
  destruct (rune2 c1 c2) eqn:E2.
  { constructor; [by apply chunk_rune2|]. eapply IH; [|done]. cbn. lia. }
  destruct s2 as [|c3 s3]; [by repeat constructor|].
  destruct (rune3 c1 c2 c3) eqn:E3.
  { constructor; [by apply chunk_rune3|]. eapply IH; [|done]. cbn. lia. }
  destruct s3 as [|c4 s4]; [by repeat constructor|].
  destruct (rune4 c1 c2 c3 c4) eqn:E4; [|by constructor].
  constructor; [by apply chunk_rune4|]. eapply IH; [|done]. cbn. lia.
Qed.

Lemma chunks_app_ok k t : chunk_ok k → k ≠ CBad → chunks (chunk_bytes k +:+ t) = k :: chunks t.
Proof.
  destruct k as [c|u|]; intros Hk Hne; [|by apply Hk|done].
  change (chunk_bytes (CAscii c) +:+ t) with (String c t). simpl in Hk. cbn [chunks]. by rewrite Hk.
Qed.

Lemma chunk_replacement : chunk_ok (CRune replacement).
Proof. by apply chunk_rune3. Qed.

Definition fix_chunk (k : chunk) : chunk :=
  match k with CBad => CRune replacement | _ => k end.

Lemma chunks_concat l :
  Forall chunk_ok l → chunks (concat_str (map chunk_bytes l)) = map fix_chunk l.
Proof.
  induction 1 as [|k l Hk Hl IH]; [done|]. cbn [map concat_str foldr]. fold (concat_str (map chunk_bytes l)).
  rewrite <- IH. destruct k as [c|u|].
  - by apply (chunks_app_ok (CAscii c)).
  - by apply (chunks_app_ok (CRune u)).
  - by apply (chunks_app_ok (CRune replacement)); [apply chunk_replacement|].
Qed.

Lemma chunks_sanitize s : chunks (sanitize s) = map fix_chunk (chunks s).
Proof. apply chunks_concat, chunks_ok. Qed.

Lemma valid_sanitize s : valid_utf8 (sanitize s).
Proof.
  unfold valid_utf8. rewrite chunks_sanitize. intros (k & Hk & _)%list_elem_of_fmap.
  by destruct k.
Qed.

(** The bytes of a string are those of its chunks, bad ones apart. *)
Lemma sanitize_valid s : valid_utf8 s → sanitize s = s.
Proof.
  unfold valid_utf8, sanitize. remember (String.length s) as n eqn:Hn. revert s Hn.
  induction n as [n IH] using lt_wf_ind. intros s ->.
  destruct s as [|c1 s1]; [done|]. cbn [chunks].
  assert (IH' : ∀ t, (String.length t < String.length (String c1 s1))%nat → CBad ∉ chunks t →
            concat_str (map chunk_bytes (chunks t)) = t) by (intros t Ht; by eapply IH).
  repeat case_match; intros Hv; subst; rewrite ?elem_of_cons in Hv; try (exfalso; naive_solver);
    cbn [map concat_str foldr chunk_bytes]; rewrite !string_app_cons; change ("" +:+ ?t) with t;
    repeat f_equal; apply IH'; (cbn; lia) || naive_solver.
Qed.

Lemma sanitize_idem s : sanitize (sanitize s) = sanitize s.
Proof. apply sanitize_valid, valid_sanitize. Qed.

Lemma concat_str_app l k : concat_str (l ++ k)%list = concat_str l +:+ concat_str k.
Proof.
  induction l as [|x l IH]; [done|]. cbn [concat_str foldr app] in *.
  fold (concat_str (l ++ k)%list) (concat_str l). by rewrite IH, string_app_assoc.
Qed.

(** ASCII text is valid. *)
Lemma chunks_ascii s t :
  str_forall is_ascii s = true → chunks (s +:+ t) = (map CAscii (String.list_ascii_of_string s) ++ chunks t)%list.
Proof.
  induction s as [|c s IH]; [done|]. intros [Hc Hs]%andb_true_iff.
  rewrite string_app_cons. cbn [chunks]. rewrite Hc. simpl. by rewrite IH.
Qed.

Lemma valid_ascii s : str_forall is_ascii s = true → valid_utf8 s.
Proof.
  intros H. unfold valid_utf8. rewrite <- (string_app_nil s), chunks_ascii by done.
  cbn. rewrite app_nil_r. by intros (? & ? & _)%list_elem_of_fmap.
Qed.

Definition scalar (r : Z) : Prop := 0 ≤ r < 55296 ∨ 57344 ≤ r < 1114112.

Lemma byte_of_char z : 0 ≤ z < 256 → byte_of (byte_char z) = z.
Proof. intros. unfold byte_of, byte_char. rewrite N_ascii_embedding by lia. lia. Qed.

(** The encoding of a scalar value is one well-formed chunk. *)
Lemma encode_rune_chunk r :
  scalar r → ∃ k, chunk_ok k ∧ k ≠ CBad ∧ encode_rune r = chunk_bytes k.
Proof.
  intros Hr. unfold scalar in Hr. unfold encode_rune.
  pose proof (Z.mod_pos_bound r 64 ltac:(lia)).
  pose proof (Z.mod_pos_bound (r / 64) 64 ltac:(lia)).
  pose proof (Z.mod_pos_bound (r / 4096) 64 ltac:(lia)).
  pose proof (Z.div_mod r 64 ltac:(lia)). pose proof (Z.div_mod (r / 64) 64 ltac:(lia)).
  pose proof (Z.div_mod (r / 4096) 64 ltac:(lia)).
  assert (r / 64 / 64 = r / 4096) by (by rewrite Z.div_div by lia).
  assert (r / 4096 / 64 = r / 262144) by (by rewrite Z.div_div by lia).
  destruct (Z.ltb_spec r 128).
  { exists (CAscii (byte_char r)). split_and!; [|done|done]. simpl. unfold is_ascii.
    rewrite byte_of_char by lia. lia. }
  destruct (Z.ltb_spec r 2048).
  { eexists (CRune _). split_and!; [|done|reflexivity]. apply chunk_rune2.
    unfold rune2, cont, between. rewrite !byte_of_char by lia. lia. }
  destruct (Z.ltb_spec r 65536).
  { eexists (CRune _). split_and!; [|done|reflexivity]. apply chunk_rune3.
    unfold rune3, cont, between. rewrite !byte_of_char by lia.
    destruct (Z.eqb_spec (224 + r / 4096) 224), (Z.eqb_spec (224 + r / 4096) 237); lia. }
  eexists (CRune _). split_and!; [|done|reflexivity]. apply chunk_rune4.
  unfold rune4, cont, between. rewrite !byte_of_char by lia.
  destruct (Z.eqb_spec (240 + r / 262144) 240), (Z.eqb_spec (240 + r / 262144) 244); lia.
Qed.

(** A multi-byte rune has no ASCII byte. *)
Definition chunk_high (k : chunk) : Prop :=
  match k with CRune u => str_forall (λ c, negb (is_ascii c)) u = true | _ => True end.

Lemma chunks_high s : Forall chunk_high (chunks s).
Proof.
  remember (String.length s) as n eqn:Hn. revert s Hn.
  induction n as [n IH] using lt_wf_ind. intros s ->.
  destruct s as [|c1 s1]; [constructor|]. cbn [chunks].
  assert (IH' : ∀ t, (String.length t < String.length (String c1 s1))%nat →
            Forall chunk_high (chunks t)) by (intros t Ht; by eapply IH).
  repeat case_match; constructor; try (apply IH'; cbn; lia); try done; cbn [chunk_high str_forall];
    rewrite ?andb_true_iff, ?negb_true_iff; split_and?; try done; byte_cases.
Qed.
