(* ===== verification/Json.v ===== *)
(** * JSON text ([encoding/json], Go 1.21)

    The values of the grammar, the scanner and string unquoting of the decoder
    and the text the encoder writes (compact, HTML characters escaped).
    Numbers stay literals; objects keep the order and the duplicates of their
    keys, which the decoder needs.  The parser runs on fuel; [p_value_fuel]
    shows that twice the length of the text is enough. *)

From S2P Require Import Prelude GoString Utf8 Float64 Strconv.

Local Open Scope string_scope.
Local Open Scope Z_scope.

Inductive json :=
  | JNull
  | JBool (b : bool)
  | JNum (n : numlit)
  | JStr (s : string)
  | JArr (l : list json)
  | JObj (l : list (string * json)).

(** ** Encoding *)

Definition dquote : ascii := "034".
Definition backslash : ascii := "092".
Definition newline : ascii := "010".

Definition hex_digit (d : Z) : ascii :=
  if d <? 10 then byte_char (d + 48) else byte_char (d + 87).

(** [\u00XX]. *)
Definition u_escape (c : ascii) : string :=
  String backslash ("u00" +:+
    String (hex_digit (byte_of c / 16)) (String (hex_digit (byte_of c mod 16)) "")).

Definition esc (c : ascii) : string := String backslash (String c "").

Definition escape_ascii (c : ascii) : string :=
  if Ascii.eqb c dquote || Ascii.eqb c backslash then esc c
  else if Ascii.eqb c newline then esc "n"
  else if Ascii.eqb c "013" then esc "r"
  else if Ascii.eqb c "009" then esc "t"
  else if (byte_of c <? 32) || mem c "<>&" then u_escape c
  else String c "".

(** U+2028 and U+2029. *)
Definition line_sep : string := String "226" (String "128" (String "168" "")).
Definition para_sep : string := String "226" (String "128" (String "169" "")).

Definition escape (k : chunk) : string :=
  match k with
  | CAscii c => escape_ascii c
  | CRune u =>
      if String.eqb u line_sep then String backslash "u2028"
      else if String.eqb u para_sep then String backslash "u2029"
      else u
  | CBad => String backslash "ufffd"
  end.

Definition escaped (s : string) : string := concat_str (map escape (chunks s)).
Definition quote (s : string) : string := String dquote (escaped s +:+ String dquote "").

(** Elements separated by commas. *)
Fixpoint commas (l : list string) : string :=
  match l with
  | [] => ""
  | [x] => x
  | x :: l => x +:+ String "," (commas l)
  end.

Fixpoint print_json (j : json) : string :=
  match j with
  | JNull => "null"
  | JBool b => if b then "true" else "false"
  | JNum n => render_num n
  | JStr s => quote s
  | JArr l => String "[" (commas (map print_json l) +:+ "]")
  | JObj l =>
      String "{" (commas (map (λ '(k, v), quote k +:+ String ":" (print_json v)) l) +:+ "}")
  end.

(** ** Decoding: strings *)

(** The scanner: the text up to the closing quote, its escapes checked. *)
Fixpoint scan_string (s : string) : option (string * string) :=
  match s with
  | "" => None
  | String c rest =>
      if Ascii.eqb c dquote then Some ("", rest)
      else if Ascii.eqb c backslash then
        match rest with
        | String e rest =>
            if Ascii.eqb e "u" then
              match rest with
              | String a (String b (String d (String f rest))) =>
                  if is_hex a && is_hex b && is_hex d && is_hex f then
                    '(raw, rest) ← scan_string rest;
                    Some (String c (String e (String a (String b (String d (String f raw))))), rest)
                  else None
              | _ => None
              end
            else if mem e "\/bfnrt" || Ascii.eqb e dquote then
              '(raw, rest) ← scan_string rest; Some (String c (String e raw), rest)
            else None
        | "" => None
        end
      else if byte_of c <? 32 then None
      else '(raw, rest) ← scan_string rest; Some (String c raw, rest)
  end.

(** [getu4]. *)
Definition hex4 (a b c d : ascii) : Z :=
  ((unhex a * 16 + unhex b) * 16 + unhex c) * 16 + unhex d.

Definition high_surrogate (r : Z) : bool := (55296 <=? r) && (r <? 56320).
Definition low_surrogate (r : Z) : bool := (56320 <=? r) && (r <? 57344).

Definition simple_escape (e : ascii) : string :=
  if Ascii.eqb e "b" then String "008" ""
  else if Ascii.eqb e "f" then String "012" ""
  else if Ascii.eqb e "n" then String "010" ""
  else if Ascii.eqb e "r" then String "013" ""
  else if Ascii.eqb e "t" then String "009" ""
  else String e "".

(** [unquote] on scanned text: escapes replaced (a lone surrogate becomes
    U+FFFD), invalid bytes replaced. *)
Fixpoint unquote (l : list chunk) : string :=
  match l with
  | [] => ""
  | CAscii c :: l' =>
      if Ascii.eqb c backslash then
        match l' with
        | CAscii e :: l2 =>
            if Ascii.eqb e "u" then
              match l2 with
              | CAscii a :: CAscii b :: CAscii d :: CAscii f :: l3 =>
                  let r := hex4 a b d f in
                  if high_surrogate r then
                    match l3 with
                    | CAscii c' :: CAscii e' :: CAscii a' :: CAscii b' :: CAscii d' ::
                      CAscii f' :: l4 =>
                        let r' := hex4 a' b' d' f' in
                        if Ascii.eqb c' backslash && Ascii.eqb e' "u" &&
                           (is_hex a' && is_hex b' && is_hex d' && is_hex f') && low_surrogate r'
                        then encode_rune ((r - 55296) * 1024 + (r' - 56320) + 65536) +:+ unquote l4
                        else replacement +:+ unquote l3
                    | _ => replacement +:+ unquote l3
                    end
                  else if low_surrogate r then replacement +:+ unquote l3
                  else encode_rune r +:+ unquote l3
              | _ => unquote l2
              end
            else simple_escape e +:+ unquote l2
        | _ => unquote l'
        end
      else String c (unquote l')
  | CRune u :: l => u +:+ unquote l
  | CBad :: l => replacement +:+ unquote l
  end.

(** ** Decoding: values *)

Definition is_ws (c : ascii) : bool := mem c (String " " (String "009" (String "010" (String "013" "")))).

Fixpoint skip_ws (s : string) : string :=
  match s with
  | "" => ""
  | String c rest => if is_ws c then skip_ws rest else s
  end.

(** The deepest nesting the scanner accepts. *)
Definition maxNestingDepth : Z := 10000.

(** A key and its colon, after the opening brace or a comma. *)
Definition p_key (s : string) : option (string * string) :=
  match skip_ws s with
  | String c rest =>
      if Ascii.eqb c dquote then
        '(raw, rest) ← scan_string rest;
        match skip_ws rest with
        | String ":" rest => Some (unquote (chunks raw), rest)
        | _ => None
        end
      else None
  | "" => None
  end.

(** [p_value] reads one value and leading white space; [p_elems] and
    [p_members] read the inside of a non-empty array or object up to its
    closing bracket.  [d] is the nesting still allowed. *)
Fixpoint p_value (fuel : nat) (d : Z) (s : string) {struct fuel} : option (json * string) :=
  match fuel with
  | O => None
  | S fuel =>
      match skip_ws s with
      | "" => None
      | String c rest =>
          if Ascii.eqb c "{" then
            if d <=? 0 then None
            else match skip_ws rest with
                 | String "}" rest => Some (JObj [], rest)
                 | _ => '(l, rest) ← p_members fuel (d - 1) rest; Some (JObj l, rest)
                 end
          else if Ascii.eqb c "[" then
            if d <=? 0 then None
            else match skip_ws rest with
                 | String "]" rest => Some (JArr [], rest)
                 | _ => '(l, rest) ← p_elems fuel (d - 1) rest; Some (JArr l, rest)
                 end
          else if Ascii.eqb c dquote then
            '(raw, rest) ← scan_string rest; Some (JStr (unquote (chunks raw)), rest)
          else if Ascii.eqb c "n" then r ← strip_prefix "ull" rest; Some (JNull, r)
          else if Ascii.eqb c "t" then r ← strip_prefix "rue" rest; Some (JBool true, r)
          else if Ascii.eqb c "f" then r ← strip_prefix "alse" rest; Some (JBool false, r)
          else '(n, rest) ← scan_number (String c rest); Some (JNum n, rest)
      end
  end
with p_elems (fuel : nat) (d : Z) (s : string) {struct fuel} : option (list json * string) :=
  match fuel with
  | O => None
  | S fuel =>
      '(v, s) ← p_value fuel d s;
      match skip_ws s with
      | String "," rest => '(l, rest) ← p_elems fuel d rest; Some (v :: l, rest)
      | String "]" rest => Some ([v], rest)
      | _ => None
      end
  end
with p_members (fuel : nat) (d : Z) (s : string) {struct fuel}
    : option (list (string * json) * string) :=
  match fuel with
  | O => None
  | S fuel =>
      '(k, s) ← p_key s;
      '(v, s) ← p_value fuel d s;
      match skip_ws s with
      | String "," rest => '(l, rest) ← p_members fuel d rest; Some ((k, v) :: l, rest)
      | String "}" rest => Some ([(k, v)], rest)
      | _ => None
      end
  end.

Definition json_fuel (s : string) : nat := 2 * String.length s + 2.

(** The first value of a text ([Decoder.Decode]), and what follows it. *)
Definition parse_prefix (s : string) : option (json * string) :=
  p_value (json_fuel s) maxNestingDepth s.

(** A text that is one value ([Unmarshal]). *)
Definition parse_json (s : string) : option json :=
  '(j, rest) ← parse_prefix s;
  match skip_ws rest with "" => Some j | _ => None end.

Example parse_ex :
  parse_json (" { " +:+ quote "a\b" +:+ ": [1, -2.5e3 ,true,null,{}] } ") =
    Some (JObj [("a\b", JArr [JNum (MkNum false "1" None None);
       JNum (MkNum true "2" (Some "5") (Some (false, "3"))); JBool true; JNull; JObj []])]).
Proof. vm_compute. reflexivity. Qed.
Example parse_bad : map parse_json ["01"; "[1,]"; "{"; "nul"; "1 2"; "-"] =
  [None; None; None; None; None; None].
Proof. vm_compute. reflexivity. Qed.

(** ** Lemmas: strings *)

(** A byte that stands for itself inside a JSON string. *)
Definition plain_byte (c : ascii) : bool :=
  negb (Ascii.eqb c dquote || Ascii.eqb c backslash || (byte_of c <? 32)).

Lemma scan_plain u t :
  str_forall plain_byte u = true →
  scan_string (u +:+ t) = '(raw, rest) ← scan_string t; Some (u +:+ raw, rest).
Proof.
  induction u as [|c u IH].
  { intros _. change ("" +:+ t) with t. by destruct (scan_string t) as [[raw rest]|]. }
  intros [Hc Hu]%andb_true_iff. rewrite string_app_cons. cbn [scan_string].
  unfold plain_byte in Hc. apply negb_true_iff in Hc.
  apply orb_false_iff in Hc as [Hc ->]. apply orb_false_iff in Hc as [-> ->].
  rewrite IH by done. by destruct (scan_string t) as [[raw rest]|].
Qed.

Lemma high_plain u :
  str_forall (λ c, negb (is_ascii c)) u = true → str_forall plain_byte u = true.
Proof. intros H. by byte_class H. Qed.

Lemma escape_rune u :
  escape (CRune u) = u ∨ u = line_sep ∨ u = para_sep.
Proof.
  simpl. destruct (String.eqb_spec u line_sep); [by right; left|].
  destruct (String.eqb_spec u para_sep); [by right; right|by left].
Qed.

(** Evaluate the escape of a known chunk in front of a text. *)
Ltac compute_escape :=
  repeat match goal with
    | |- context [escape ?k] => let e := eval vm_compute in (escape k) in change (escape k) with e
    end;
  rewrite ?string_app_cons; change ("" +:+ ?x) with x.

Lemma scan_escape k t :
  chunk_ok k → chunk_high k →
  scan_string (escape k +:+ t) = '(raw, rest) ← scan_string t; Some (escape k +:+ raw, rest).
Proof.
  intros Hok Hh. destruct k as [c|u|].
  - unfold chunk_ok, is_ascii in Hok.
    destruct c as [[] [] [] [] [] [] [] []]; vm_compute in Hok; try discriminate Hok;
      compute_escape; cbn; by destruct (scan_string t) as [[raw rest]|].
  - destruct (escape_rune u) as [->|[->| ->]].
    + by apply scan_plain, high_plain.
    + compute_escape. cbn. by destruct (scan_string t) as [[raw rest]|].
    + compute_escape. cbn. by destruct (scan_string t) as [[raw rest]|].
  - compute_escape. cbn. by destruct (scan_string t) as [[raw rest]|].
Qed.

Lemma scan_escaped l rest :
  Forall chunk_ok l → Forall chunk_high l →
  scan_string (concat_str (map escape l) +:+ String dquote rest) =
    Some (concat_str (map escape l), rest).
Proof.
  induction 1 as [|k l Hk _ IH]; intros Hh; [done|]. apply Forall_cons in Hh as [Hkh Hh].
  cbn [map concat_str foldr]. fold (concat_str (map escape l)).
  rewrite string_app_assoc, scan_escape by done. by rewrite IH.
Qed.

Lemma chunks_escape k t :
  chunk_ok k → chunks (escape k +:+ t) = (chunks (escape k) ++ chunks t)%list.
Proof.
  intros Hok. destruct k as [c|u|].
  - unfold chunk_ok, is_ascii in Hok.
    destruct c as [[] [] [] [] [] [] [] []]; vm_compute in Hok; try discriminate Hok; reflexivity.
  - destruct (escape_rune u) as [->|[->| ->]]; [|reflexivity..].
    rewrite (Hok t). rewrite <- (string_app_nil u) at 2. by rewrite (Hok "").
  - reflexivity.
Qed.

Lemma unquote_escape k l :
  chunk_ok k → unquote (chunks (escape k) ++ l) = chunk_bytes k +:+ unquote l.
Proof.
  intros Hok. destruct k as [c|u|].
  - unfold chunk_ok, is_ascii in Hok.
    destruct c as [[] [] [] [] [] [] [] []]; vm_compute in Hok; try discriminate Hok; reflexivity.
  - destruct (escape_rune u) as [->|[->| ->]]; [|reflexivity..].
    rewrite <- (string_app_nil u) at 1. by rewrite (Hok "").
  - reflexivity.
Qed.

(** Reading back a written string replaces its invalid bytes, no more. *)
Lemma unquote_escaped s : unquote (chunks (escaped s)) = sanitize s.
Proof.
  unfold escaped, sanitize. pose proof (chunks_ok s) as Hok. revert Hok.
  generalize (chunks s) as l. induction 1 as [|k l Hk _ IH]; [done|].
  cbn [map concat_str foldr]. fold (concat_str (map escape l)) (concat_str (map chunk_bytes l)).
  by rewrite chunks_escape, unquote_escape, IH.
Qed.

Lemma scan_quote s rest : scan_string (escaped s +:+ String dquote rest) = Some (escaped s, rest).
Proof. apply scan_escaped; [apply chunks_ok|apply chunks_high]. Qed.

(** Written strings have no control byte, so no newline. *)
Definition printable (c : ascii) : bool := 32 <=? byte_of c.

Lemma concat_printable l :
  Forall (λ s, str_forall printable s = true) l → str_forall printable (concat_str l) = true.
Proof.
  induction 1 as [|s l Hs _ IH]; [done|]. cbn [concat_str foldr]. fold (concat_str l).
  by rewrite str_forall_app, Hs, IH.
Qed.

Lemma escape_printable k : chunk_high k → str_forall printable (escape k) = true.
Proof.
  intros Hh. destruct k as [c|u|].
  - destruct c as [[] [] [] [] [] [] [] []]; reflexivity.
  - destruct (escape_rune u) as [->|[->| ->]]; [|reflexivity..]. by byte_class Hh.
  - reflexivity.
Qed.

Lemma quote_printable s : str_forall printable (quote s) = true.
Proof.
  unfold quote. cbn [str_forall]. rewrite str_forall_app.
  unfold escaped. rewrite concat_printable; [done|].
  apply Forall_map. eapply Forall_impl; [apply chunks_high|]. apply escape_printable.
Qed.

(** What is read is valid UTF-8. *)
Lemma valid_unquote_bytes k t : chunk_ok k → k ≠ CBad → valid_utf8 t → valid_utf8 (chunk_bytes k +:+ t).
Proof.
  intros Hk Hne Ht. unfold valid_utf8. rewrite chunks_app_ok by done. rewrite elem_of_cons. naive_solver.
Qed.

(** ** Lemmas: every parser consumes text *)

Notation slen := String.length.

Lemma skip_ws_length s : (slen (skip_ws s) ≤ slen s)%nat.
Proof. induction s as [|c s IH]; simpl; [lia|]. destruct (is_ws c); simpl; lia. Qed.

Lemma scan_string_length s raw rest : scan_string s = Some (raw, rest) → (slen rest < slen s)%nat.
Proof.
  remember (slen s) as n eqn:Hn. revert s raw rest Hn.
  induction n as [n IH] using lt_wf_ind. intros s raw rest ->.
  destruct s as [|c s]; [done|]. cbn [scan_string].
  assert (Hrec : ∀ t raw' rest', (slen t ≤ slen s)%nat → scan_string t = Some (raw', rest') →
            (slen rest' < slen t)%nat).
  { intros t raw' rest' Hlt Ht. eapply IH; [|done|exact Ht]. simpl. lia. }
  clear IH. intros H.
  repeat (case_match; simplify_eq/=; try lia); option_inv;
    (match goal with H : scan_string _ = Some _ |- _ => apply Hrec in H; simpl in *; lia end).
Qed.

Lemma substring_length i k s : (slen (String.substring i k s) ≤ slen s)%nat.
Proof.
  revert i k. induction s as [|c s IH]; intros [|i] [|k]; simpl; try lia.
  - specialize (IH 0%nat k). lia.
  - specialize (IH i 0%nat). lia.
  - specialize (IH i (S k)). lia.
Qed.

Lemma strip_prefix_length p s r : strip_prefix p s = Some r → (slen r ≤ slen s)%nat.
Proof.
  unfold strip_prefix. destruct (String.prefix p s); [|done]. intros [= <-].
  apply substring_length.
Qed.

Lemma take_digits_length s a b : take_digits s = (a, b) → (slen a + slen b = slen s)%nat.
Proof.
  revert a b. induction s as [|c s IH]; intros a b; simpl; [by intros [= <- <-]|].
  destruct (is_digit c); [|by intros [= <- <-]].
  destruct (take_digits s) as [a' b'] eqn:E. intros [= <- <-]. simpl. by rewrite (IH a' b').
Qed.

Lemma nonempty_digits_length s a b : nonempty_digits s = Some (a, b) → (slen b < slen s)%nat.
Proof.
  unfold nonempty_digits. destruct (take_digits s) as [a' b'] eqn:E.
  apply take_digits_length in E. destruct a'; [done|]. intros [= <- <-]. simpl in E. lia.
Qed.

Ltac digits_length :=
  repeat match goal with
    | H : nonempty_digits _ = Some _ |- _ => apply nonempty_digits_length in H
    end; simpl in *; try lia.

Lemma scan_number_length s n r : scan_number s = Some (n, r) → (slen r < slen s)%nat.
Proof.
  unfold scan_number.
  set (p := match s with String "-" rest => (true, rest) | _ => (false, s) end).
  assert (Hp : (slen p.2 ≤ slen s)%nat).
  { unfold p. destruct s as [|c s]; [done|].
    destruct c as [[] [] [] [] [] [] [] []]; simpl; lia. }
  destruct p as [neg t]. simpl in Hp. intros H.
  assert (Hi : ∀ u a b, scan_int u = Some (a, b) → (slen b < slen u)%nat).
  { intros u a b. unfold scan_int. destruct u as [|c u]; [done|].
    destruct c as [[] [] [] [] [] [] [] []]; intros Hu; try (by digits_length).
    injection Hu as <- <-. simpl. lia. }
  assert (Hf : ∀ u a b, scan_frac u = Some (a, b) → (slen b ≤ slen u)%nat).
  { intros u a b. unfold scan_frac. destruct u as [|c u]; [by intros [= <- <-]|].
    destruct c as [[] [] [] [] [] [] [] []]; intros Hu; option_inv; digits_length. }
  assert (He : ∀ u a b, scan_exp u = Some (a, b) → (slen b ≤ slen u)%nat).
  { intros u a b. unfold scan_exp. destruct u as [|c u]; [by intros [= <- <-]|].
    destruct (_ || _); [|intros [= <- <-]; done].
    destruct u as [|c' u]; [intros Hu; option_inv; digits_length|].
    destruct c' as [[] [] [] [] [] [] [] []]; intros Hu; option_inv; digits_length. }
  option_inv. repeat match goal with
    | H : scan_int _ = Some _ |- _ => apply Hi in H
    | H : scan_frac _ = Some _ |- _ => apply Hf in H
    | H : scan_exp _ = Some _ |- _ => apply He in H
    end. lia.
Qed.

Lemma p_key_length s k r : p_key s = Some (k, r) → (slen r < slen s)%nat.
Proof.
  unfold p_key. pose proof (skip_ws_length s) as Hs. destruct (skip_ws s) as [|c t]; [done|].
  destruct (Ascii.eqb c dquote); [|done]. intros H.
  apply bind_Some in H as ([raw rest] & Hraw & H). apply scan_string_length in Hraw.
  pose proof (skip_ws_length rest) as Hr. destruct (skip_ws rest) as [|c' u]; [done|].
  simpl in *. destruct c' as [[] [] [] [] [] [] [] []]; try done. injection H as <- <-. lia.
Qed.

Definition shrinks {A} (p : Z → string → option (A * string)) : Prop :=
  ∀ d s x r, p d s = Some (x, r) → (slen r < slen s)%nat.

Lemma parsers_shrink n : shrinks (p_value n) ∧ shrinks (p_elems n) ∧ shrinks (p_members n).
Proof.
  induction n as [|n (IHv & IHe & IHm)]; [by split_and!|]. split_and!; intros d s x r; cbn [p_value p_elems p_members].
  - pose proof (skip_ws_length s) as Hs. destruct (skip_ws s) as [|c rest]; [done|]. simpl in Hs.
    pose proof (skip_ws_length rest) as Hr.
    repeat case_match; simplify_eq/=; try lia; intros Hres; simplify_eq/=; try lia; option_inv;
      repeat match goal with
        | H : p_members n _ _ = Some _ |- _ => apply IHm in H
        | H : p_elems n _ _ = Some _ |- _ => apply IHe in H
        | H : scan_string _ = Some _ |- _ => apply scan_string_length in H
        | H : strip_prefix _ _ = Some _ |- _ => apply strip_prefix_length in H
        | H : scan_number _ = Some _ |- _ => apply scan_number_length in H
        end; simpl in *; try lia.
  - intros H. apply bind_Some in H as ([v t] & Hv & H). apply IHv in Hv.
    pose proof (skip_ws_length t) as Ht. destruct (skip_ws t) as [|c rest]; [done|]. simpl in Ht.
    repeat case_match; simplify_eq/=; try lia. option_inv.
    match goal with H : p_elems n _ _ = Some _ |- _ => apply IHe in H end. lia.
  - intros H. apply bind_Some in H as ([k t'] & Hk & H). apply p_key_length in Hk.
    apply bind_Some in H as ([v t] & Hv & H). apply IHv in Hv.
    pose proof (skip_ws_length t) as Ht. destruct (skip_ws t) as [|c rest]; [done|]. simpl in Ht.
    repeat case_match; simplify_eq/=; try lia. option_inv.
    match goal with H : p_members n _ _ = Some _ |- _ => apply IHm in H end. lia.
Qed.

(** ** Lemmas: the fuel is enough *)

(** More fuel than twice the length of the text changes no result. *)
Lemma parsers_fuel n :
  (∀ m d s, (2 * slen s + 2 ≤ n)%nat → (2 * slen s + 2 ≤ m)%nat → p_value n d s = p_value m d s) ∧
  (∀ m d s, (2 * slen s + 3 ≤ n)%nat → (2 * slen s + 3 ≤ m)%nat → p_elems n d s = p_elems m d s) ∧
  (∀ m d s, (2 * slen s + 3 ≤ n)%nat → (2 * slen s + 3 ≤ m)%nat →
     p_members n d s = p_members m d s).
Proof.
  induction n as [|n (IHv & IHe & IHm)]; [split_and!; intros; lia|].
  split_and!; intros [|m] d s Hn Hm; try lia; cbn [p_value p_elems p_members].
  - pose proof (skip_ws_length s) as Hs. destruct (skip_ws s) as [|c rest]; [done|]. simpl in Hs.
    rewrite (IHe m), (IHm m) by lia. done.
  - rewrite (IHv m) by lia.
    destruct (p_value m d s) as [[v t]|] eqn:Hv; simpl; [|done].
    apply (proj1 (parsers_shrink m)) in Hv. pose proof (skip_ws_length t) as Ht.
    destruct (skip_ws t) as [|c rest]; [done|]. simpl in Ht. by rewrite (IHe m) by lia.
  - destruct (p_key s) as [[k t']|] eqn:Hk; simpl; [|done]. apply p_key_length in Hk.
    rewrite (IHv m) by lia.
    destruct (p_value m d t') as [[v t]|] eqn:Hv; simpl; [|done].
    apply (proj1 (parsers_shrink m)) in Hv. pose proof (skip_ws_length t) as Ht.
    destruct (skip_ws t) as [|c rest]; [done|]. simpl in Ht. by rewrite (IHm m) by lia.
Qed.

Lemma p_value_fuel n d s :
  (json_fuel s ≤ n)%nat → p_value n d s = p_value (json_fuel s) d s.
Proof. unfold json_fuel. intros. apply (parsers_fuel n); lia. Qed.

(** ** Lemmas: reading what was written *)

(** The induction principle over the nested lists. *)
Section json_ind'.
Context (P : json → Prop).
Hypothesis Hnull : P JNull.
Hypothesis Hbool : ∀ b, P (JBool b).
Hypothesis Hnum : ∀ n, P (JNum n).
Hypothesis Hstr : ∀ s, P (JStr s).
Hypothesis Harr : ∀ l, Forall P l → P (JArr l).
Hypothesis Hobj : ∀ l, Forall (λ kv, P kv.2) l → P (JObj l).

Fixpoint json_ind' (j : json) : P j :=
  match j with
  | JNull => Hnull
  | JBool b => Hbool b
  | JNum n => Hnum n
  | JStr s => Hstr s
  | JArr l => Harr l ((fix go l := match l return Forall P l with
                                   | [] => List.Forall_nil _
                                   | x :: l => List.Forall_cons _ _ _ (json_ind' x) (go l)
                                   end) l)
  | JObj l => Hobj l ((fix go l := match l return Forall (λ kv, P kv.2) l with
                                   | [] => List.Forall_nil _
                                   | x :: l => List.Forall_cons (λ kv, P kv.2) x l (json_ind' x.2) (go l)
                                   end) l)
  end.
End json_ind'.

(** The value as it is read back: strings and keys made valid UTF-8. *)
Fixpoint san_json (j : json) : json :=
  match j with
  | JStr s => JStr (sanitize s)
  | JArr l => JArr (map san_json l)
  | JObj l => JObj (map (λ '(k, v), (sanitize k, san_json v)) l)
  | _ => j
  end.

Fixpoint json_depth (j : json) : Z :=
  match j with
  | JArr l => 1 + foldr (λ v n, Z.max (json_depth v) n) 0 l
  | JObj l => 1 + foldr (λ kv n, Z.max (json_depth kv.2) n) 0 l
  | _ => 0
  end.

Fixpoint json_ok (j : json) : bool :=
  match j with
  | JNum n => numlit_ok n
  | JArr l => forallb json_ok l
  | JObj l => forallb (λ kv, json_ok kv.2) l
  | _ => true
  end.

(** The first byte of a written value starts that kind of value. *)
Definition starts_value (s : string) : Prop :=
  match s with
  | String c _ => is_ws c = false ∧ negb (mem c "]},") = true
  | "" => False
  end.

Lemma skip_ws_starts s t : starts_value s → skip_ws (s +:+ t) = s +:+ t.
Proof. destruct s as [|c s]; [done|]. intros [Hc _]. rewrite string_app_cons. cbn. by rewrite Hc. Qed.

Lemma render_num_starts n :
  numlit_ok n = true →
  ∃ c s, render_num n = String c s ∧ (is_digit c || Ascii.eqb c "-") = true.
Proof.
  destruct n as [neg i f e]. unfold numlit_ok. intros [[Hi _]%andb_true_iff _]%andb_true_iff.
  unfold render_num. cbn [n_neg n_int n_frac n_exp] in *. destruct neg.
  - eexists _, _. split; [reflexivity|done].
  - destruct i as [|c i]; [done|]. exists c. eexists. split; [reflexivity|].
    unfold int_part_ok in Hi. apply orb_true_iff in Hi as [Hi|Hi].
    + apply String.eqb_eq in Hi. by simplify_eq.
    + unfold digits_ok in Hi. simpl in Hi. by destruct (is_digit c); rewrite ?andb_false_r in Hi.
Qed.

Lemma print_starts j : json_ok j = true → starts_value (print_json j).
Proof.
  destruct j as [|[]|n|s|l|l]; try done. simpl. intros Hn.
  destruct (render_num_starts n Hn) as (c & s & -> & Hc). simpl.
  assert (∀ d, (is_digit d || Ascii.eqb d "-") = true → negb (is_ws d) && negb (mem d "]},") = true)
    as Hall by (apply all_bytes_impl; by vm_compute).
  specialize (Hall c Hc). apply andb_true_iff in Hall as [H1%negb_true_iff H2]. done.
Qed.

Lemma p_value_number n d num rest :
  numlit_ok num = true → num_stop rest = true →
  p_value (S n) d (render_num num +:+ rest) = Some (JNum num, rest).
Proof.
  intros Hok Hr. pose proof (scan_number_app num rest Hok Hr) as Hs.
  destruct (render_num_starts num Hok) as (c & s & E & Hc). rewrite E in *.
  rewrite string_app_cons in *. cbn [p_value].
  assert (∀ x, (is_digit x || Ascii.eqb x "-") = true →
    negb (is_ws x || mem x "{[ntf" || Ascii.eqb x dquote) = true) as Hall
    by (apply all_bytes_impl; by vm_compute).
  specialize (Hall c Hc). apply negb_true_iff in Hall.
  apply orb_false_iff in Hall as [[Hws Hm]%orb_false_iff Hq].
  cbn [skip_ws]. rewrite Hws.
  unfold mem in Hm. apply negb_false_iff in Hm. simpl in Hm. rewrite !andb_true_iff, !negb_true_iff in Hm.
  destruct Hm as (-> & -> & -> & -> & -> & _). rewrite Hq, Hs. done.
Qed.

Lemma p_value_array n d s c t :
  skip_ws s = String c t → Ascii.eqb c "]" = false → 0 < d →
  p_value (S n) d (String "[" s) = '(l, rest) ← p_elems n (d - 1) s; Some (JArr l, rest).
Proof.
  intros Hs Hc Hd. cbn [p_value skip_ws]. change (is_ws "[") with false. cbn [Ascii.eqb Bool.eqb].
  destruct (Z.leb_spec d 0); [lia|]. rewrite Hs. by destruct c as [[] [] [] [] [] [] [] []].
Qed.

Lemma p_value_object n d s c t :
  skip_ws s = String c t → Ascii.eqb c "}" = false → 0 < d →
  p_value (S n) d (String "{" s) = '(l, rest) ← p_members n (d - 1) s; Some (JObj l, rest).
Proof.
  intros Hs Hc Hd. cbn [p_value skip_ws]. change (is_ws "{") with false. cbn [Ascii.eqb Bool.eqb].
  destruct (Z.leb_spec d 0); [lia|]. rewrite Hs. by destruct c as [[] [] [] [] [] [] [] []].
Qed.

Lemma p_key_print k rest :
  p_key (quote k +:+ String ":" rest) = Some (sanitize k, rest).
Proof.
  unfold quote. rewrite string_app_cons, string_app_assoc. unfold p_key. cbn [skip_ws].
  change (is_ws dquote) with false. cbv iota. rewrite Ascii.eqb_refl.
  change (String dquote "" +:+ ?x) with (String dquote x). rewrite scan_quote. simpl.
  by rewrite unquote_escaped.
Qed.

Lemma starts_cons s : starts_value s → ∃ c t, s = String c t ∧ is_ws c = false ∧
  Ascii.eqb c "]" = false ∧ Ascii.eqb c "}" = false.
Proof.
  destruct s as [|c t]; [done|]. intros [Hws Hm]. exists c, t. split; [done|]. split; [done|].
  unfold mem in Hm. simpl in Hm. rewrite negb_involutive, !andb_true_iff, !negb_true_iff in Hm.
  by destruct Hm as (-> & -> & _).
Qed.

Section read_print.
Notation reads j := (∀ n d rest,
  json_ok j = true → json_depth j ≤ d → (2 * slen (print_json j) + 2 ≤ n)%nat →
  num_stop rest = true → p_value n d (print_json j +:+ rest) = Some (san_json j, rest)).

Definition print_member (kv : string * json) : string :=
  let '(k, v) := kv in quote k +:+ String ":" (print_json v).

Lemma commas_cons x y l : commas (x :: y :: l) = x +:+ String "," (commas (y :: l)).
Proof. done. Qed.

Lemma p_elems_print l n d rest :
  l ≠ [] → Forall (λ j, reads j) l → forallb json_ok l = true →
  foldr (λ v n, Z.max (json_depth v) n) 0 l ≤ d →
  (2 * slen (commas (map print_json l)) + 3 ≤ n)%nat →
  p_elems n d (commas (map print_json l) +:+ String "]" rest) = Some (map san_json l, rest).
Proof.
  intros Hne Hl. revert n. induction Hl as [|j l Hj Hl IH]; intros n Hok Hd Hn; [done|].
  simpl in Hok, Hd. apply andb_true_iff in Hok as [Hokj Hok].
  destruct n as [|n]; [lia|]. cbn [p_elems]. destruct l as [|j' l].
  - cbn [map commas] in *. rewrite Hj by (done || lia). done.
  - cbn [map] in *. rewrite commas_cons in *. rewrite string_app_assoc.
    rewrite length_app in Hn. cbn [String.length] in Hn.
    rewrite Hj; [|done|lia|lia|done]. cbn [mbind option_bind].
    rewrite string_app_cons. cbn [skip_ws]. change (is_ws ",") with false. cbv iota.
    rewrite IH; [done|done|done|lia|lia].
Qed.

Lemma p_members_print l n d rest :
  l ≠ [] → Forall (λ kv, reads kv.2) l → forallb (λ kv, json_ok kv.2) l = true →
  foldr (λ kv n, Z.max (json_depth kv.2) n) 0 l ≤ d →
  (2 * slen (commas (map print_member l)) + 3 ≤ n)%nat →
  p_members n d (commas (map print_member l) +:+ String "}" rest) =
    Some (map (λ '(k, v), (sanitize k, san_json v)) l, rest).
Proof.
  intros Hne Hl. revert n. induction Hl as [|[k j] l Hj Hl IH]; intros n Hok Hd Hn; [done|].
  simpl in Hok, Hd, Hj. apply andb_true_iff in Hok as [Hokj Hok].
  destruct n as [|n]; [lia|]. cbn [p_members]. destruct l as [|kv' l].
  - cbn [map commas print_member] in *. rewrite string_app_assoc, string_app_cons, p_key_print.
    cbn [mbind option_bind]. rewrite length_app in Hn. cbn [String.length] in Hn.
    rewrite Hj by (done || lia). done.
  - cbn [map] in *. rewrite commas_cons in *. unfold print_member at 1 in Hn.
    unfold print_member at 1. rewrite !string_app_assoc, string_app_cons, p_key_print.
    cbn [mbind option_bind]. rewrite !length_app in Hn. cbn [String.length] in Hn.
    rewrite Hj; [|done|lia|lia|done]. cbn [mbind option_bind].
    rewrite string_app_cons. cbn [skip_ws]. change (is_ws ",") with false. cbv iota.
    rewrite IH; [done|done|done|lia|lia].
Qed.

Lemma commas_starts (ss : list string) t :
  ss ≠ [] → Forall starts_value ss → starts_value (commas ss +:+ t).
Proof.
  intros Hne. destruct 1 as [|s ss Hs _]; [done|].
  destruct s as [|c s]; [done|]. by destruct ss.
Qed.

Lemma reads_print j : reads j.
Proof.
  induction j as [|b|num|s|l IH|l IH] using json_ind'; intros n d rest Hok Hd Hn Hr.
  - destruct n; [simpl in Hn; lia|]. change (print_json JNull +:+ rest) with (String "n" ("ull" +:+ rest)).
    cbn [p_value skip_ws]. change (is_ws "n") with false. cbn [Ascii.eqb Bool.eqb].
    by rewrite strip_prefix_app.
  - destruct n; [simpl in Hn; lia|]. destruct b.
    + change (print_json _ +:+ rest) with (String "t" ("rue" +:+ rest)).
      cbn [p_value skip_ws]. change (is_ws "t") with false. cbn [Ascii.eqb Bool.eqb].
      by rewrite strip_prefix_app.
    + change (print_json _ +:+ rest) with (String "f" ("alse" +:+ rest)).
      cbn [p_value skip_ws]. change (is_ws "f") with false. cbn [Ascii.eqb Bool.eqb].
      by rewrite strip_prefix_app.
  - destruct n; [simpl in Hn; lia|]. by apply p_value_number.
  - destruct n; [simpl in Hn; lia|]. cbn [print_json]. unfold quote.
    rewrite string_app_cons, string_app_assoc. cbn [p_value skip_ws].
    change (is_ws dquote) with false. cbn.
    change (String dquote "" +:+ rest) with (String dquote rest). rewrite scan_quote.
    simpl. by rewrite unquote_escaped.
  - destruct n as [|n]; [simpl in Hn; lia|]. cbn [print_json] in *. cbn [String.length] in Hn.
    rewrite length_app in Hn. cbn [String.length] in Hn.
    cbn [json_ok json_depth] in Hok, Hd. rewrite string_app_cons, string_app_assoc.
    change ("]" +:+ rest) with (String "]" rest).
    assert (0 ≤ foldr (λ v n, Z.max (json_depth v) n) 0 l) by (clear; induction l; simpl; lia).
    destruct (decide (l = [])) as [->|Hne].
    { cbn [p_value skip_ws]. change (is_ws "[") with false. cbn [Ascii.eqb Bool.eqb].
      by destruct (Z.leb_spec d 0); [lia|]. }
    assert (Hs : starts_value (commas (map print_json l) +:+ String "]" rest)).
    { apply commas_starts; [by destruct l|]. apply Forall_map, Forall_forall. intros x Hx.
      apply print_starts. rewrite forallb_forall in Hok. by apply Hok, list_elem_of_In. }
    destruct (starts_cons _ Hs) as (c & t & E & Hws & Hc & _).
    rewrite (p_value_array n d _ c t); [|by rewrite E; simpl; rewrite Hws|done|lia].
    rewrite p_elems_print; [done|done|done|done|lia|lia].
  - destruct n as [|n]; [simpl in Hn; lia|]. cbn [print_json] in *. cbn [String.length] in Hn.
    change (λ '(k, v), quote k +:+ String ":" (print_json v)) with print_member in *.
    rewrite length_app in Hn. cbn [String.length] in Hn.
    cbn [json_ok json_depth] in Hok, Hd. rewrite string_app_cons, string_app_assoc.
    change ("}" +:+ rest) with (String "}" rest).
    assert (0 ≤ foldr (λ kv n, Z.max (json_depth kv.2) n) 0 l) by (clear; induction l; simpl; lia).
    destruct (decide (l = [])) as [->|Hne].
    { cbn [p_value skip_ws]. change (is_ws "{") with false. cbn [Ascii.eqb Bool.eqb].
      by destruct (Z.leb_spec d 0); [lia|]. }
    assert (Hs : starts_value (commas (map print_member l) +:+ String "}" rest)).
    { apply commas_starts; [by destruct l|]. apply Forall_map, Forall_forall.
      intros [k v] _. done. }
    destruct (starts_cons _ Hs) as (c & t & E & Hws & _ & Hc).
    rewrite (p_value_object n d _ c t); [|by rewrite E; simpl; rewrite Hws|done|lia].
    rewrite p_members_print; [done|done|done|done|lia|lia].
Qed.
End read_print.

Lemma parse_print j rest :
  json_ok j = true → json_depth j ≤ maxNestingDepth → num_stop rest = true → skip_ws rest = "" →
  parse_json (print_json j +:+ rest) = Some (san_json j).
Proof.
  intros Hok Hd Hr Hws. unfold parse_json, parse_prefix.
  rewrite reads_print; [|done|done| |done].
  - cbn [mbind option_bind]. by rewrite Hws.
  - unfold json_fuel. rewrite length_app. lia.
Qed.

(** Written JSON is one line of printable bytes. *)
Lemma commas_printable l :
  Forall (λ s, str_forall printable s = true) l → str_forall printable (commas l) = true.
Proof.
  induction 1 as [|s l Hs Hl IH]; [done|]. destruct l as [|s' l]; [done|].
  rewrite commas_cons, str_forall_app, Hs. simpl in IH |- *. by rewrite IH.
Qed.

Lemma digits_printable s : str_forall is_digit s = true → str_forall printable s = true.
Proof. intros H. by byte_class H. Qed.

Lemma int_part_printable i : int_part_ok i = true → str_forall printable i = true.
Proof.
  unfold int_part_ok. intros [->%String.eqb_eq|H]%orb_true_iff; [done|]. destruct i; [done|].
  apply andb_true_iff in H as [_ [_ H]%andb_true_iff]. by apply digits_printable.
Qed.

Lemma render_num_printable n : numlit_ok n = true → str_forall printable (render_num n) = true.
Proof.
  destruct n as [neg i f e]. intros [[Hi Hf]%andb_true_iff He]%andb_true_iff. simpl in *.
  unfold render_num. simpl. rewrite !str_forall_app, (int_part_printable i Hi).
  assert (str_forall printable (if neg then "-" else "") = true) as -> by by destruct neg.
  assert (str_forall printable (render_frac f) = true) as ->.
  { destruct f as [ds|]; [|done]. apply andb_true_iff in Hf as [_ Hf]. simpl.
    rewrite str_forall_app. by apply digits_printable. }
  assert (str_forall printable (render_exp e) = true) as ->; [|done].
  destruct e as [[en ds]|]; [|done]. apply andb_true_iff in He as [_ He].
  unfold render_exp. rewrite !str_forall_app, (digits_printable ds He). by destruct en.
Qed.

Lemma print_printable j : json_ok j = true → str_forall printable (print_json j) = true.
Proof.
  induction j as [|b|n|s|l IH|l IH] using json_ind'; intros Hok.
  - done.
  - by destruct b.
  - by apply render_num_printable.
  - apply quote_printable.
  - cbn [print_json str_forall]. rewrite str_forall_app, commas_printable; [done|].
    apply Forall_map, Forall_forall. intros j Hj. rewrite Forall_forall in IH.
    apply IH; [done|]. simpl in Hok. rewrite forallb_forall in Hok. by apply Hok, list_elem_of_In.
  - cbn [print_json str_forall]. rewrite str_forall_app, commas_printable; [done|].
    apply Forall_map, Forall_forall. intros [k j] Hj. rewrite Forall_forall in IH.
    rewrite str_forall_app, quote_printable. cbn [str_forall].
    specialize (IH (k, j) Hj). simpl in IH. rewrite IH; [done|]. simpl in Hok. rewrite forallb_forall in Hok.
    by apply (Hok (k, j)), list_elem_of_In.
Qed.

Lemma printable_no_newline s t :
  str_forall printable s = true → String newline t ≠ s ∧ ∀ u, s ≠ u +:+ String newline t.
Proof.
  intros Hs. split; [by intros <-|]. intros u ->. rewrite str_forall_app in Hs.
  apply andb_true_iff in Hs as [_ Hs]. done.
Qed.

(** ** Lemmas: what is read is valid *)

Lemma valid_app_chunk k t : chunk_ok k → k ≠ CBad → valid_utf8 t → valid_utf8 (chunk_bytes k +:+ t).
Proof.
  intros Hk Hne Ht. unfold valid_utf8 in *. rewrite chunks_app_ok by done. rewrite elem_of_cons.
  naive_solver.
Qed.

Lemma valid_app_rune r t : scalar r → valid_utf8 t → valid_utf8 (encode_rune r +:+ t).
Proof. intros Hr Ht. destruct (encode_rune_chunk r Hr) as (k & Hk & Hne & ->). by apply valid_app_chunk. Qed.

Lemma valid_app_replacement t : valid_utf8 t → valid_utf8 (replacement +:+ t).
Proof. intros. by apply (valid_app_chunk (CRune replacement)); [apply chunk_replacement|..]. Qed.

Lemma valid_app_ascii c t : is_ascii c = true → valid_utf8 t → valid_utf8 (String c t).
Proof. intros. by apply (valid_app_chunk (CAscii c)). Qed.

Lemma unhex_range c : 0 ≤ unhex c < 16.
Proof.
  assert (∀ c, (0 <=? unhex c) && (unhex c <? 16) = true) as H by (apply all_bytes_spec; by vm_compute).
  specialize (H c). lia.
Qed.

Lemma hex4_range a b c d : 0 ≤ hex4 a b c d < 65536.
Proof.
  unfold hex4. pose proof (unhex_range a). pose proof (unhex_range b).
  pose proof (unhex_range c). pose proof (unhex_range d). lia.
Qed.

Lemma simple_escape_valid e t :
  is_ascii e = true → valid_utf8 t → valid_utf8 (simple_escape e +:+ t).
Proof.
  intros He Ht. unfold simple_escape.
  repeat (case_match; [by apply (valid_app_chunk (CAscii _))|]). by apply (valid_app_chunk (CAscii e)).
Qed.

Lemma unquote_valid l : Forall chunk_ok l → valid_utf8 (unquote l).
Proof.
  remember (length l) as n eqn:Hn. revert l Hn.
  induction n as [n IH] using lt_wf_ind. intros l -> Hl.
  assert (IH' : ∀ k, (length k < length l)%nat → Forall chunk_ok k → valid_utf8 (unquote k))
    by (intros; by eapply IH). clear IH.
  destruct Hl as [|k l Hk Hl]; [intros H; by apply elem_of_nil in H|].
  destruct k as [c|u|]; cbn [unquote].
  - destruct (Ascii.eqb c backslash).
    + destruct Hl as [|[e|u|] l Hk2 Hl]; try (apply IH'; [simpl; lia|by try constructor]).
      destruct (Ascii.eqb e "u").
      2:{ apply simple_escape_valid; [done|]. apply IH'; [simpl; lia|done]. }
      repeat match goal with
        | |- valid_utf8 (match ?x with [] => _ | _ => _ end) =>
            destruct x as [|[?|?|] ?]; try (apply IH'; [simpl; lia|done])
        end.
      all: repeat match goal with H : Forall chunk_ok (_ :: _) |- _ => apply Forall_cons in H as [? H] end.
      pose proof (hex4_range c0 c1 c2 c3) as Hr.
      destruct (high_surrogate (hex4 c0 c1 c2 c3)) eqn:Hhi.
      * assert (Hrep : valid_utf8 (replacement +:+ unquote l)).
        { apply valid_app_replacement, IH'; [simpl; lia|done]. }
        repeat match goal with
          | |- valid_utf8 (match ?x with [] => _ | _ => _ end) =>
              destruct x as [|[?|?|] ?]; try exact Hrep
          end.
        destruct (_ && low_surrogate _) eqn:Hlo; [|exact Hrep].
        apply andb_true_iff in Hlo as [_ Hlo]. unfold high_surrogate, low_surrogate in *. bool_to_prop.
        repeat match goal with H : Forall chunk_ok (_ :: _) |- _ => apply Forall_cons in H as [? H] end.
        apply valid_app_rune; [right; lia|]. apply IH'; [simpl; lia|done].
      * destruct (low_surrogate (hex4 c0 c1 c2 c3)) eqn:Hlo.
        { apply valid_app_replacement, IH'; [simpl; lia|done]. }
        apply valid_app_rune; [|apply IH'; [simpl; lia|done]].
        unfold high_surrogate, low_surrogate, scalar in *. lia.
    + apply valid_app_ascii; [done|]. apply IH'; [simpl; lia|done].
  - apply (valid_app_chunk (CRune u)); [done..|]. apply IH'; [simpl; lia|done].
  - apply valid_app_replacement. apply IH'; [simpl; lia|done].
Qed.

Inductive json_valid : json → Prop :=
  | jv_null : json_valid JNull
  | jv_bool b : json_valid (JBool b)
  | jv_num n : json_valid (JNum n)
  | jv_str s : valid_utf8 s → json_valid (JStr s)
  | jv_arr l : Forall json_valid l → json_valid (JArr l)
  | jv_obj l : Forall (λ kv, json_valid kv.2) l → json_valid (JObj l).

Lemma parsers_valid n :
  (∀ d s j r, p_value n d s = Some (j, r) → json_valid j) ∧
  (∀ d s l r, p_elems n d s = Some (l, r) → Forall json_valid l) ∧
  (∀ d s l r, p_members n d s = Some (l, r) → Forall (λ kv, json_valid kv.2) l).
Proof.
  induction n as [|n (IHv & IHe & IHm)]; [by split_and!|].
  split_and!; intros d s x r; cbn [p_value p_elems p_members].
  - destruct (skip_ws s) as [|c rest]; [done|].
    repeat case_match; simplify_eq/=; intros Hres; simplify_eq/=; option_inv;
      constructor; try constructor; eauto.
    all: apply unquote_valid, chunks_ok.
  - intros H. apply bind_Some in H as ([v t] & Hv & H). apply IHv in Hv.
    repeat case_match; simplify_eq/=; option_inv; constructor; eauto.
  - intros H. apply bind_Some in H as ([k t'] & Hk & H).
    apply bind_Some in H as ([v t] & Hv & H). apply IHv in Hv.
    repeat case_match; simplify_eq/=; option_inv; constructor; eauto.
Qed.

Lemma parse_valid s j : parse_json s = Some j → json_valid j.
Proof.
  unfold parse_json, parse_prefix. intros ([j' r] & Hp & H)%bind_Some.
  destruct (skip_ws r); simplify_eq. by eapply parsers_valid.
Qed.
