(* ===== verification/GoJson.v ===== *)
(** * Go values as JSON ([json.Marshal], [json.Unmarshal])

    What reflection does, per type: [jenc] is the encoder ([None]: unsupported
    value), [jdec] stores a JSON value into an existing Go value ([None]: an
    error; [null] is a no-op on everything but slices, maps and pointers).
    A struct is the list of its fields with their tags; keys are matched
    exactly, else case-insensitively, and a repeated key decodes again into the
    same field.  Slices are lists: the spare capacity a slice keeps between
    two occurrences of one key is not modelled. *)

From S2P Require Import Prelude GoString Utf8 Float64 Strconv Json.

Local Open Scope string_scope.
Local Open Scope Z_scope.

Class JsonCodec (A : Type) := {
  jzero : A;
  jempty : A → bool;
  jenc : A → option json;
  jdec : A → json → option A;
}.

#[export] Instance string_codec : JsonCodec string := {|
  jzero := "";
  jempty s := String.eqb s "";
  jenc s := Some (JStr s);
  jdec cur j := match j with JStr s => Some s | JNull => Some cur | _ => None end;
|}.

(** [int] and [int64]. *)
#[export] Instance int_codec : JsonCodec Z := {|
  jzero := 0;
  jempty z := z =? 0;
  jenc z := Some (JNum (int_num z));
  jdec cur j := match j with JNum n => ParseInt n | JNull => Some cur | _ => None end;
|}.

#[export] Instance float_codec : JsonCodec float64 := {|
  jzero := f_zero;
  jempty f := f_eqb f f_zero;
  jenc f := JNum <$> json_float f;
  jdec cur j := match j with JNum n => ParseFloat n | JNull => Some cur | _ => None end;
|}.

#[export] Instance bool_codec : JsonCodec bool := {|
  jzero := false;
  jempty b := negb b;
  jenc b := Some (JBool b);
  jdec cur j := match j with JBool b => Some b | JNull => Some cur | _ => None end;
|}.

Definition dec_elems {A} `{JsonCodec A} (cur : list A) (l : list json) : option (list A) :=
  mapM (λ '(i, j), jdec (default jzero (cur !! i)) j) (imap pair l).

#[export] Instance slice_codec {A} `{JsonCodec A} : JsonCodec (list A) := {|
  jzero := [];
  jempty l := (slice_len l =? 0);
  jenc l := JArr <$> mapM jenc l;
  jdec cur j := match j with JArr l => dec_elems cur l | JNull => Some [] | _ => None end;
|}.

#[export] Instance pointer_codec {A} `{JsonCodec A} : JsonCodec (option A) := {|
  jzero := None;
  jempty p := match p with None => true | _ => false end;
  jenc p := match p with Some x => jenc x | None => Some JNull end;
  jdec cur j := match j with JNull => Some None | _ => Some <$> jdec (default jzero cur) j end;
|}.

Definition dec_map {A} `{JsonCodec A} (cur : gmap string A) (l : list (string * json))
    : option (gmap string A) :=
  foldl (λ m kv, m ← m; x ← jdec jzero kv.2; Some (<[kv.1 := x]> m)) (Some cur) l.

(** Maps are only decoded. *)
Definition map_dec {A} `{JsonCodec A} (cur : gmap string A) (j : json) : option (gmap string A) :=
  match j with JObj l => dec_map cur l | JNull => Some ∅ | _ => None end.

(** ** Structs *)

Record field (A : Type) := MkField {
  fd_name : string;
  fd_enc : A → option (option json);   (* [Some None]: omitted *)
  fd_dec : A → json → option A;
}.
Arguments MkField {_}.
Arguments fd_name {_}.
Arguments fd_enc {_}.
Arguments fd_dec {_}.

(** A field tagged [json:"name"] or, with [omit], [json:"name,omitempty"]. *)
Definition mk_field {A B} `{JsonCodec B} (name : string) (omit : bool) (get : A → B)
    (set : B → A → A) : field A :=
  MkField name
    (λ a, if omit && jempty (get a) then Some None else Some <$> jenc (get a))
    (λ a j, b ← jdec (get a) j; Some (set b a)).

Definition upper (c : ascii) : ascii :=
  if in_range c "a" "z" then byte_char (byte_of c - 32) else c.

(** The Kelvin sign and the long s fold to ASCII letters. *)
Definition kelvin : string := String "226" (String "132" (String "170" "")).
Definition long_s : string := String "197" (String "191" "").

Definition fold_chunk (k : chunk) : string :=
  match k with
  | CAscii c => String (upper c) ""
  | CRune u => if String.eqb u kelvin then "K" else if String.eqb u long_s then "S" else u
  | CBad => replacement
  end.

Definition fold_name (s : string) : string := concat_str (map fold_chunk (chunks s)).

Definition find_field {A} (fs : list (field A)) (key : string) : option (field A) :=
  match List.find (λ f, String.eqb (fd_name f) key) fs with
  | Some f => Some f
  | None => List.find (λ f, String.eqb (fold_name (fd_name f)) (fold_name key)) fs
  end.

(** One member of an object; [strict] is [DisallowUnknownFields]. *)
Definition dec_member {A} (strict : bool) (fs : list (field A)) (cur : A) (kv : string * json)
    : option A :=
  match find_field fs kv.1 with
  | Some f => fd_dec f cur kv.2
  | None => if strict then None else Some cur
  end.

Definition dec_struct {A} (strict : bool) (fs : list (field A)) (cur : A) (j : json) : option A :=
  match j with
  | JObj l => foldl (λ a kv, a ← a; dec_member strict fs a kv) (Some cur) l
  | JNull => Some cur
  | _ => None
  end.

Definition enc_field {A} (a : A) (f : field A) : option (list (string * json)) :=
  o ← fd_enc f a; Some (match o with Some j => [(fd_name f, j)] | None => [] end).

Definition enc_struct {A} (fs : list (field A)) (a : A) : option json :=
  ms ← mapM (enc_field a) fs; Some (JObj (concat ms)).

(** The codec of a struct. *)
Definition struct_codec {A} (fs : list (field A)) (zero : A) : JsonCodec A := {|
  jzero := zero;
  jempty _ := false;
  jenc := enc_struct fs;
  jdec := dec_struct false fs;
|}.

(** The same under [DisallowUnknownFields]. *)
Definition strict_codec {A} (fs : list (field A)) (zero : A) : JsonCodec A := {|
  jzero := zero;
  jempty _ := false;
  jenc := enc_struct fs;
  jdec := dec_struct true fs;
|}.

(** A field promoted from an embedded struct. *)
Definition promote {A B} (get : A → B) (set : B → A → A) (f : field B) : field A :=
  MkField (fd_name f) (λ a, fd_enc f (get a)) (λ a j, b ← fd_dec f (get a) j; Some (set b a)).

(** A map field of a struct that is only decoded. *)
Definition map_field {A B} `{JsonCodec B} (name : string) (get : A → gmap string B)
    (set : gmap string B → A → A) : field A :=
  MkField name (λ _, None) (λ a j, m ← map_dec (get a) j; Some (set m a)).

Definition Marshal {A} `{JsonCodec A} (a : A) : option string := print_json <$> jenc a.

(** [Decoder.Decode]: what follows the first value is not looked at. *)
Definition Decode {A} `{JsonCodec A} (data : string) : option A :=
  '(j, _) ← parse_prefix data; jdec jzero j.

Definition Unmarshal {A} `{JsonCodec A} (data : string) : option A :=
  j ← parse_json data; jdec jzero j.

(** ** Values that survive a round trip *)

(** [a] is encoded as a writable value that decodes to [a]. *)
Definition survives {A} `{JsonCodec A} (depth : Z) (a : A) : Prop :=
  ∃ j, jenc a = Some j ∧ json_ok j = true ∧ json_depth j ≤ depth ∧ jdec jzero (san_json j) = Some a.

Lemma survives_mono {A} `{JsonCodec A} (a : A) d d' : d ≤ d' → survives d a → survives d' a.
Proof. intros Hd (j & ? & ? & ? & ?). exists j. split_and!; done || lia. Qed.

Lemma survives_string s d : 0 ≤ d → valid_utf8 s → survives d s.
Proof.
  intros Hd Hs. exists (JStr s). split_and!; [done..|]. simpl. by rewrite sanitize_valid.
Qed.

Lemma survives_int z d : 0 ≤ d → in_int64 z → survives d z.
Proof.
  intros Hd Hz. exists (JNum (int_num z)). split_and!; [done|apply int_num_ok|done|].
  by apply ParseInt_int_num.
Qed.

Lemma survives_bool (b : bool) d : 0 ≤ d → survives d b.
Proof. intros. by exists (JBool b). Qed.

(** A float the encoder writes; the shortest decimal is searched, so this is
    decided by evaluating [json_float]. *)
Definition float_ok (f : float64) : Prop := is_Some (json_float f).

#[export] Instance float_ok_dec f : Decision (float_ok f).
Proof. unfold float_ok. apply _. Defined.

Lemma survives_float f d : 0 ≤ d → float_ok f → survives d f.
Proof.
  intros Hd [n Hn]. destruct (json_float_ok f n Hn) as [Hok Hp].
  exists (JNum n). simpl. rewrite Hn. done.
Qed.

Lemma survives_slice {A} `{JsonCodec A} (l : list A) d :
  0 ≤ d → Forall (survives d) l → survives (1 + d) l.
Proof.
  intros Hd Hl.
  assert (∃ js, mapM jenc l = Some js ∧ forallb json_ok js = true ∧
    foldr (λ v n, Z.max (json_depth v) n) 0 js ≤ d ∧
    Forall2 (λ j a, jdec jzero (san_json j) = Some a) js l) as (js & He & Hok & Hdep & Hdec).
  { induction Hl as [|a l (j & Hj & Hok & Hdj & Hdec) _ (js & He & Hoks & Hds & Hdecs)].
    - by exists [].
    - exists (j :: js). simpl. rewrite Hj, He. simpl. rewrite Hok, Hoks. split_and!; [done..|lia|].
      by constructor. }
  exists (JArr js). simpl. rewrite He. split_and!; [done|done|lia|].
  unfold dec_elems. apply mapM_Some_lookup.
  - rewrite length_imap, length_map. apply (Forall2_length _ _ _ Hdec).
  - intros i [k j] a Hj Ha. rewrite list_lookup_imap, list_lookup_fmap in Hj.
    destruct (js !! i) as [j'|] eqn:Hji; simplify_eq/=.
    by eapply (Forall2_lookup_lr _ _ _ _ _ _ Hdec).
Qed.

(** A pointer survives when what it points to does and is not written [null]. *)
Lemma survives_pointer {A} `{JsonCodec A} (p : option A) d :
  0 ≤ d → (∀ x, p = Some x → survives d x ∧ jenc x ≠ Some JNull) → survives d p.
Proof.
  intros Hd Hp. destruct p as [x|]; [|by exists JNull].
  destruct (Hp x eq_refl) as [(j & Hj & Hok & Hdj & Hdec) Hn]. exists j. split_and!; try done.
  simpl. destruct j; simpl in Hdec |- *; try (by rewrite Hdec); congruence.
Qed.

(** Decoding the members of an encoded struct, one field after the other:
    [a] is the value decoded so far. *)
Section struct.
Context {A : Type} (d : Z) (all : list (field A)) (v : A).

Fixpoint decodes_to (fs : list (field A)) (a : A) : Prop :=
  match fs with
  | [] => a = v
  | f :: fs =>
      find_field all (sanitize (fd_name f)) = Some f ∧
      ((fd_enc f v = Some None ∧ decodes_to fs a) ∨
       ∃ j a', fd_enc f v = Some (Some j) ∧ json_ok j = true ∧ json_depth j ≤ d ∧
         fd_dec f a (san_json j) = Some a' ∧ decodes_to fs a')
  end.

Lemma decodes_to_members fs a :
  0 ≤ d → decodes_to fs a →
  ∃ ms, mapM (enc_field v) fs = Some ms ∧
    forallb (λ kv, json_ok kv.2) (concat ms) = true ∧
    foldr (λ kv n, Z.max (json_depth kv.2) n) 0 (concat ms) ≤ d ∧
    foldl (λ a kv, a ← a; dec_member false all a kv) (Some a)
      (map (λ '(k, v), (sanitize k, san_json v)) (concat ms)) = Some v.
Proof.
  intros Hd. revert a. induction fs as [|f fs IH]; intros a.
  - intros ->. by exists [].
  - intros [Hf [[He H]|(j & a' & He & Hok & Hdj & Hdec & H)]];
      destruct (IH _ H) as (ms & Hms & Hoks & Hds & Hfold).
    + exists ([] :: ms). simpl. assert (enc_field v f = Some []) as -> by (unfold enc_field; by rewrite He).
      rewrite Hms. done.
    + exists ([(fd_name f, j)] :: ms). simpl.
      assert (enc_field v f = Some [(fd_name f, j)]) as -> by (unfold enc_field; by rewrite He).
      rewrite Hms. simpl.
      rewrite Hok, Hoks. split_and!; [done|done|lia|].
      unfold dec_member at 2. simpl. by rewrite Hf, Hdec.
Qed.

(** Finding a field by its exact name, on the names alone. *)
Fixpoint name_index (names : list string) (key : string) : option nat :=
  match names with
  | [] => None
  | n :: names => if String.eqb n key then Some 0%nat else S <$> name_index names key
  end.

Lemma find_field_index (fs : list (field A)) key i f :
  name_index (map fd_name fs) key = Some i → fs !! i = Some f → find_field fs key = Some f.
Proof.
  unfold find_field. intros Hi Hf.
  assert (List.find (λ f, String.eqb (fd_name f) key) fs = Some f) as ->; [|done].
  revert i Hi Hf. induction fs as [|g fs IH]; intros i; simpl; [done|].
  destruct (String.eqb (fd_name g) key); [by intros [= <-] [= <-]|].
  destruct (name_index _ _) as [k|]; simpl; intros [= <-]; simpl. by apply IH.
Qed.

(** One field: it is omitted, or decodes to its value. *)
Lemma decodes_to_cons {B} `{JsonCodec B} name omit (get : A → B) (set : B → A → A) fs a :
  find_field all (sanitize name) = Some (mk_field name omit get set) →
  get a = jzero →
  (omit = true → jempty (get v) = true → set (get v) a = a) →
  survives d (get v) →
  decodes_to fs (set (get v) a) →
  decodes_to (mk_field name omit get set :: fs) a.
Proof.
  intros Hf Hz Homit (j & Hj & Hok & Hdj & Hdec) Hrest. simpl. split; [done|].
  destruct (omit && jempty (get v)) eqn:E.
  - apply andb_true_iff in E as [E1 E2]. left. split; [done|]. by rewrite (Homit E1 E2) in Hrest.
  - right. exists j, (set (get v) a). rewrite Hj, Hz, Hdec. done.
Qed.

Lemma struct_survives zero :
  0 ≤ d → decodes_to all zero → @survives A (struct_codec all zero) (1 + d) v.
Proof.
  intros Hd (ms & Hms & Hok & Hds & Hfold)%decodes_to_members; [|done].
  exists (JObj (concat ms)). simpl. unfold enc_struct. rewrite Hms. split_and!; [done|done|lia|done].
Qed.
End struct.

(** *** Automation: one field of a struct at a time *)

(** An empty value of a field that may be omitted is the zero value. *)
Ltac omitted :=
  first
    [ let E := fresh in intros E; discriminate E
    | let H := fresh in
      intros _ H; cbn in H;
      lazymatch type of H with
      | (_ =? _)%Z = true => apply Z.eqb_eq in H; subst; reflexivity
      | (_ =? _)%string = true => apply String.eqb_eq in H; subst; reflexivity
      | match ?p with Some _ => _ | None => _ end = true => destruct p; [discriminate|reflexivity]
      end ].

(** A field is found under its own name. *)
Ltac find_name := eapply find_field_index; [vm_compute; reflexivity|reflexivity].

(** Evaluate the value decoded so far. *)
Ltac eval_decoded :=
  match goal with
  | |- decodes_to _ _ _ _ ?a => let b := eval lazy in a in change a with b
  end.

(** The first remaining field, [tac] proving that its value survives. *)
Ltac next_field tac :=
  apply decodes_to_cons; [find_name|reflexivity|omitted|tac|eval_decoded].

Lemma struct_not_null {A} (fs : list (field A)) zero a :
  @jenc A (struct_codec fs zero) a ≠ Some JNull.
Proof. simpl. unfold enc_struct. by destruct (mapM _ fs). Qed.

(** Decoding the text of a surviving value, alone or followed by a newline. *)
Lemma Unmarshal_Marshal {A} `{JsonCodec A} (a : A) d rest :
  survives d a → d ≤ maxNestingDepth → num_stop rest = true → skip_ws rest = "" →
  ∃ s, Marshal a = Some s ∧ str_forall printable s = true ∧ Unmarshal (s +:+ rest) = Some a.
Proof.
  intros (j & Hj & Hok & Hdep & Hdec) Hd Hr Hws. exists (print_json j).
  unfold Marshal, Unmarshal. rewrite Hj. split; [done|]. split; [by apply print_printable|].
  rewrite parse_print by (done || lia). done.
Qed.

(** ** Laws of the codecs *)

(** What an encoder writes is JSON, whatever the value. *)
Class Encodes (A : Type) `{JsonCodec A} :=
  jenc_ok (a : A) j : jenc a = Some j → json_ok j = true.

(** [P] holds of everything a decoder produces. *)
Class Decodes (A : Type) `{JsonCodec A} (P : A → Prop) := {
  decodes_zero : P jzero;
  decodes_dec cur j a : P cur → json_valid j → jdec cur j = Some a → P a;
}.

#[export] Instance string_encodes : Encodes string.
Proof. by intros s j [= <-]. Qed.
#[export] Instance int_encodes : Encodes Z.
Proof. intros z j [= <-]. apply int_num_ok. Qed.
#[export] Instance bool_encodes : Encodes bool.
Proof. by intros b j [= <-]. Qed.
#[export] Instance float_encodes : Encodes float64.
Proof.
  intros f j. simpl. destruct (json_float f) as [n|] eqn:E; [|done]. intros [= <-].
  by apply json_float_ok in E as [? _].
Qed.

#[export] Instance slice_encodes {A} `{Encodes A} : Encodes (list A).
Proof.
  intros l j. simpl. destruct (mapM jenc l) as [js|] eqn:E; [|done]. intros [= <-].
  apply mapM_Some in E. simpl. apply forallb_forall. intros j Hj%list_elem_of_In.
  apply list_elem_of_lookup in Hj as [i Hi].
  destruct (Forall2_lookup_r _ _ _ _ _ E Hi) as (a & _ & Ha). by eapply jenc_ok.
Qed.

#[export] Instance pointer_encodes {A} `{Encodes A} : Encodes (option A).
Proof. intros [a|] j; simpl; [apply jenc_ok|by intros [= <-]]. Qed.

Definition field_encodes {A} (f : field A) : Prop :=
  ∀ a j, fd_enc f a = Some (Some j) → json_ok j = true.

Lemma mk_field_encodes {A B} `{Encodes B} name omit (get : A → B) set :
  field_encodes (mk_field name omit get set).
Proof.
  intros a j. simpl. destruct (_ && _); [done|].
  destruct (jenc (get a)) eqn:E; simpl; [|done]. intros [= <-]. by eapply jenc_ok.
Qed.

Lemma struct_encodes {A} (fs : list (field A)) zero :
  Forall field_encodes fs → @Encodes A (struct_codec fs zero).
Proof.
  intros Hfs a j. simpl. unfold enc_struct. intros (ms & Hms & [= <-])%bind_Some.
  apply mapM_Some in Hms. simpl. apply forallb_forall. intros kv (m & Hm & Hkv)%in_concat.
  apply list_elem_of_In, list_elem_of_lookup in Hm as [i Hi].
  destruct (Forall2_lookup_r _ _ _ _ _ Hms Hi) as (f & Hf & He).
  pose proof (Forall_lookup_1 _ _ _ _ Hfs Hf) as Hfe. unfold enc_field in He.
  apply bind_Some in He as (o & Ho & [= <-]). destruct o as [j|]; [|done].
  destruct Hkv as [<-|[]]. by apply (Hfe a).
Qed.

#[export] Instance string_decodes : Decodes string valid_utf8.
Proof.
  split; [by apply valid_ascii|]. intros cur j s Hcur Hj. destruct Hj; simpl; intros; by simplify_eq.
Qed.

#[export] Instance int_decodes : Decodes Z in_int64.
Proof.
  split; [done|]. intros cur j z Hcur _. destruct j as [| |n| | |]; simpl; intros; simplify_eq; try done.
  unfold ParseInt in *. repeat case_match; simplify_eq; by apply (bool_decide_eq_true_1 _).
Qed.

Definition field_preserves {A} (P : A → Prop) (f : field A) : Prop :=
  ∀ cur j a, P cur → json_valid j → fd_dec f cur j = Some a → P a.

Lemma mk_field_preserves {A B} `{JsonCodec B} (P : A → Prop) (Q : B → Prop) `{!Decodes B Q}
    name omit (get : A → B) (set : B → A → A) :
  (∀ a, P a → Q (get a)) → (∀ b a, Q b → P a → P (set b a)) →
  field_preserves P (mk_field name omit get set).
Proof.
  intros Hget Hset cur j a Hcur Hj. simpl. intros (b & Hb & [= <-])%bind_Some.
  apply Hset; [|done]. eapply decodes_dec; [by apply Hget|done..].
Qed.

Lemma find_field_in {A} (fs : list (field A)) key f : find_field fs key = Some f → f ∈ fs.
Proof.
  unfold find_field. destruct (List.find _ fs) as [g|] eqn:E.
  - intros [= <-]. apply list_elem_of_In. by eapply find_some in E as [? _].
  - intros [? _]%find_some. by apply list_elem_of_In.
Qed.

Lemma promote_preserves {A B} (P : A → Prop) (Q : B → Prop) (get : A → B) set f :
  (∀ a, P a → Q (get a)) → (∀ b a, Q b → P a → P (set b a)) →
  field_preserves Q f → field_preserves P (promote get set f).
Proof.
  intros Hget Hset Hf cur j a Hcur Hj. simpl. intros (b & Hb & [= <-])%bind_Some.
  apply Hset; [|done]. eapply Hf; [by apply Hget|done..].
Qed.

(** A fold that has failed stays failed. *)
Lemma foldl_None {A B} (f : A → B → option A) l : foldl (λ a b, a ← a; f a b) None l = None.
Proof. by induction l. Qed.

Lemma foldl_Some {A B} (f : A → B → option A) b l a0 a :
  foldl (λ a b, a ← a; f a b) (Some a0) (b :: l) = Some a ↔
  ∃ a1, f a0 b = Some a1 ∧ foldl (λ a b, a ← a; f a b) (Some a1) l = Some a.
Proof.
  simpl. destruct (f a0 b) as [a1|]; [naive_solver|]. rewrite foldl_None. naive_solver.
Qed.

(** An invariant of the steps holds of the result. *)
Lemma foldl_preserves {A B} (P : A → Prop) (Q : B → Prop) (f : A → B → option A) l a0 a :
  (∀ a b a', P a → Q b → f a b = Some a' → P a') → Forall Q l → P a0 →
  foldl (λ a b, a ← a; f a b) (Some a0) l = Some a → P a.
Proof.
  intros Hf Hl. revert a0. induction Hl as [|b l Hb Hl IH]; intros a0 Ha0; [by intros [= <-]|].
  intros (a1 & H1 & H)%foldl_Some. by eapply IH, H; eapply Hf.
Qed.

Lemma dec_struct_preserves {A} strict (P : A → Prop) (fs : list (field A)) cur j a :
  Forall (field_preserves P) fs → P cur → json_valid j → dec_struct strict fs cur j = Some a → P a.
Proof.
  intros Hfs Hcur Hj. destruct Hj as [| | | | |l Hl]; simpl; intros Hd; simplify_eq; try done.
  revert Hd. apply (foldl_preserves P (λ kv, json_valid kv.2)); [|done..].
  intros a0 kv a1 Ha0 Hv. unfold dec_member. destruct (find_field fs kv.1) as [f|] eqn:Hf.
  - apply find_field_in in Hf. rewrite Forall_forall in Hfs. by apply Hfs.
  - destruct strict; intros; by simplify_eq.
Qed.

Lemma struct_decodes {A} (P : A → Prop) (fs : list (field A)) zero :
  P zero → Forall (field_preserves P) fs → @Decodes A (struct_codec fs zero) P.
Proof. intros Hz Hfs. split; [done|]. intros cur j a. by apply dec_struct_preserves. Qed.

Lemma strict_decodes {A} (P : A → Prop) (fs : list (field A)) zero :
  P zero → Forall (field_preserves P) fs → @Decodes A (strict_codec fs zero) P.
Proof. intros Hz Hfs. split; [done|]. intros cur j a. by apply dec_struct_preserves. Qed.

#[export] Instance bool_decodes : Decodes bool (λ _, True).
Proof. by split. Qed.

#[export] Instance float_decodes : Decodes float64 (λ f, f_is_finite f = true).
Proof.
  split; [done|]. intros cur j f Hcur _. destruct j as [| |n| | |]; simpl; unfold ParseFloat; intros H; simplify_eq; try done.
  case_match; by simplify_eq.
Qed.

#[export] Instance slice_decodes {A} `{Decodes A P} : Decodes (list A) (Forall P).
Proof.
  split; [constructor|]. intros cur j l Hcur Hj.
  destruct Hj as [| | | |js Hjs|]; simpl; intros Hd; simplify_eq; [constructor|].
  apply mapM_Some in Hd. apply Forall_lookup_2. intros i a Ha.
  destruct (Forall2_lookup_r _ _ _ _ _ Hd Ha) as ([k j] & Hk & Hdec).
  rewrite list_lookup_imap in Hk. destruct (js !! i) as [j'|] eqn:Hj; simplify_eq/=.
  eapply decodes_dec; [|by eapply Forall_lookup_1|done].
  destruct (cur !! k) eqn:E; simpl; [by eapply Forall_lookup_1|apply decodes_zero].
Qed.

Lemma map_dec_preserves {A} `{Decodes A P} (cur m : gmap string A) j :
  map_Forall (λ _, P) cur → json_valid j → map_dec cur j = Some m → map_Forall (λ _, P) m.
Proof.
  intros Hcur Hj. destruct Hj as [| | | | |l Hl]; simpl; intros Hd; simplify_eq.
  - apply map_Forall_empty.
  - revert Hd. apply (foldl_preserves (map_Forall (λ _, P)) (λ kv, json_valid kv.2)
      (λ m kv, x ← jdec jzero kv.2; Some (<[kv.1 := x]> m))); [|done..].
    intros m0 kv m1 Hm0 Hv (x & Hx & [= <-])%bind_Some.
    apply map_Forall_insert_2; [|done]. by eapply decodes_dec, Hx; [apply decodes_zero|].
Qed.

Lemma map_field_preserves {A B} `{Decodes B Q} (P : A → Prop) name (get : A → gmap string B) set :
  (∀ a, P a → map_Forall (λ _, Q) (get a)) →
  (∀ m a, map_Forall (λ _, Q) m → P a → P (set m a)) →
  field_preserves P (map_field name get set).
Proof.
  intros Hget Hset cur j a Hcur Hj. simpl. intros (m & Hm & [= <-])%bind_Some.
  apply Hset; [|done]. eapply map_dec_preserves; [by apply Hget|done..].
Qed.

Lemma Decode_decodes {A} `{Decodes A P} data (a : A) : Decode data = Some a → P a.
Proof.
  unfold Decode. intros ([j rest] & Hj & Hd)%bind_Some.
  eapply decodes_dec; [apply decodes_zero| |done]. by eapply parsers_valid.
Qed.

Lemma Unmarshal_decodes {A} `{Decodes A P} data (a : A) : Unmarshal data = Some a → P a.
Proof.
  unfold Unmarshal. intros (j & Hj & Hd)%bind_Some. eapply decodes_dec; [apply decodes_zero| |done].
  by eapply parse_valid.
Qed.

Lemma Marshal_printable {A} `{Encodes A} (a : A) s : Marshal a = Some s → str_forall printable s = true.
Proof.
  unfold Marshal. destruct (jenc a) as [j|] eqn:E; [|done]. intros [= <-].
  by eapply print_printable, jenc_ok.
Qed.
