(* ===== verification/TimeFormat.v ===== *)
(** * Formatting times ([time.Time.Format], [MarshalJSON], Go 1.21)

    A [Zone] is the time-zone database's answer for an instant: the seconds
    east of UTC.  [date_of_days] is the Gregorian calendar over days since
    1 January of year 1; [days_of_date_of_days] shows that it inverts the usual
    day count. *)

From S2P Require Import Prelude GoTime Float64 GoString Strconv.

Local Open Scope string_scope.
Local Open Scope Z_scope.

Notation Zone := (Time → Z).

(** ** The calendar *)

Definition is_leap (y : Z) : bool :=
  (y mod 4 =? 0) && (negb (y mod 100 =? 0) || (y mod 400 =? 0)).

Definition month_lengths (leap : bool) : list Z :=
  [31; if leap then 29 else 28; 31; 30; 31; 30; 31; 31; 30; 31; 30; 31].

(** Month and day of a day of the year, both from 1; months before [m] are
    over. *)
Fixpoint month_day (lengths : list Z) (m yday : Z) : Z * Z :=
  match lengths with
  | [] => (m, yday + 1)
  | n :: lengths => if yday <? n then (m, yday + 1) else month_day lengths (m + 1) (yday - n)
  end.

Record Date := MkDate { dt_year : Z; dt_month : Z; dt_day : Z }.

Definition days_per_400_years : Z := 146097.

Definition date_of_days (days : Z) : Date :=
  let n400 := days / days_per_400_years in
  let r := days mod days_per_400_years in
  let n100 := Z.min 3 (r / 36524) in
  let r := r - 36524 * n100 in
  let n4 := r / 1461 in
  let r := r - 1461 * n4 in
  let n1 := Z.min 3 (r / 365) in
  let yday := r - 365 * n1 in
  let year := 400 * n400 + 100 * n100 + 4 * n4 + n1 + 1 in
  let '(m, d) := month_day (month_lengths (is_leap year)) 1 yday in
  MkDate year m d.

(** The day count of a date. *)
Definition days_before_year (y : Z) : Z :=
  let y := y - 1 in 365 * y + y / 4 - y / 100 + y / 400.

Definition days_of_date (dt : Date) : Z :=
  days_before_year (dt_year dt) +
  foldr Z.add 0 (take (Z.to_nat (dt_month dt - 1)) (month_lengths (is_leap (dt_year dt)))) +
  (dt_day dt - 1).

(** ** Fields of a local time *)

Record TimeFields := MkFields {
  tf_date : Date;
  tf_weekday : Z;   (* Sunday is 0 *)
  tf_hour : Z;
  tf_minute : Z;
  tf_second : Z;
  tf_nanosecond : Z;
}.

Definition local_fields (zone : Zone) (t : Time) : TimeFields :=
  let secs := t / 10 ^ 9 + zone t in
  let days := secs / 86400 in
  let s := secs mod 86400 in
  MkFields (date_of_days days) ((days + 1) mod 7) (s / 3600) (s / 60 mod 60) (s mod 60)
    (t mod 10 ^ 9).

(** ** Text *)

(** [appendInt(b, z, w)]. *)
Definition pad (w : nat) (z : Z) : string :=
  let digits := print_nat (Z.abs z) in
  (if z <? 0 then "-" else "") +:+ zeros (w - String.length digits) +:+ digits.

Definition month_names : list string :=
  ["Jan"; "Feb"; "Mar"; "Apr"; "May"; "Jun"; "Jul"; "Aug"; "Sep"; "Oct"; "Nov"; "Dec"].
Definition weekday_names : list string := ["Sun"; "Mon"; "Tue"; "Wed"; "Thu"; "Fri"; "Sat"].

Definition nth_name (names : list string) (i : Z) : string := default "" (names !! Z.to_nat i).

(** [-0700] and [-07:00]; the offset is truncated to minutes. *)
Definition zone_text (colon : string) (offset : Z) : string :=
  let m := Z.abs (Z.quot offset 60) in
  (if Z.quot offset 60 <? 0 then "-" else "+") +:+ pad 2 (m / 60) +:+ colon +:+ pad 2 (m mod 60).

Definition format_RFC1123Z (zone : Zone) (t : Time) : string :=
  let f := local_fields zone t in
  nth_name weekday_names (tf_weekday f) +:+ ", " +:+ pad 2 (dt_day (tf_date f)) +:+ " " +:+
  nth_name month_names (dt_month (tf_date f) - 1) +:+ " " +:+ pad 4 (dt_year (tf_date f)) +:+ " " +:+
  pad 2 (tf_hour f) +:+ ":" +:+ pad 2 (tf_minute f) +:+ ":" +:+ pad 2 (tf_second f) +:+ " " +:+
  zone_text "" (zone t).

(** Trailing zeros of a string dropped. *)
Fixpoint drop_zeros (s : string) : string :=
  match s with
  | "" => ""
  | String c rest =>
      let r := drop_zeros rest in
      if Ascii.eqb c "0" && String.eqb r "" then "" else String c r
  end.

(** [.999999999]. *)
Definition fraction_text (nsec : Z) : string :=
  if nsec =? 0 then "" else "." +:+ drop_zeros (pad 9 nsec).

Definition format_RFC3339 (nanos : bool) (zone : Zone) (t : Time) : string :=
  let f := local_fields zone t in
  pad 4 (dt_year (tf_date f)) +:+ "-" +:+ pad 2 (dt_month (tf_date f)) +:+ "-" +:+
  pad 2 (dt_day (tf_date f)) +:+ "T" +:+ pad 2 (tf_hour f) +:+ ":" +:+ pad 2 (tf_minute f) +:+ ":" +:+
  pad 2 (tf_second f) +:+ (if nanos then fraction_text (tf_nanosecond f) else "") +:+
  (if zone t =? 0 then "Z" else zone_text ":" (zone t)).

(** [MarshalJSON]: an error when the year has not four digits or the zone's
    hour not two, below 24. *)
Definition marshal_time (zone : Zone) (t : Time) : option string :=
  let year := dt_year (tf_date (local_fields zone t)) in
  if (0 <=? year) && (year <=? 9999) && (Z.abs (Z.quot (zone t) 60) / 60 <? 24)
  then Some (format_RFC3339 true zone t) else None.

Definition utc : Zone := λ _, 0.
Definition offset (seconds : Z) : Zone := λ _, seconds.

Example format_ex1 :
  let t := time_of_unix_milli 1700000000123 in
  format_RFC1123Z utc t = "Tue, 14 Nov 2023 22:13:20 +0000" ∧
  format_RFC3339 true utc t = "2023-11-14T22:13:20.123Z" ∧
  format_RFC1123Z (offset (-12600)) t = "Tue, 14 Nov 2023 18:43:20 -0330" ∧
  format_RFC3339 false (offset 19800) t = "2023-11-15T03:43:20+05:30".
Proof. vm_compute. done. Qed.

Example format_ex2 :
  format_RFC3339 true utc 0 = "0001-01-01T00:00:00Z" ∧
  format_RFC1123Z utc (time_of_unix_milli 951782400000) = "Tue, 29 Feb 2000 00:00:00 +0000" ∧
  marshal_time utc (-1) = Some "0000-12-31T23:59:59.999999999Z".
Proof. vm_compute. done. Qed.

(** ** Lemmas *)

Definition year_length (leap : bool) : Z := if leap then 366 else 365.

(** Days of the year over the months before [m]. *)
Definition days_before_month (leap : bool) (m : Z) : Z :=
  foldr Z.add 0 (take (Z.to_nat (m - 1)) (month_lengths leap)).

Lemma month_day_inverts leap yday :
  0 ≤ yday < year_length leap →
  days_before_month leap (month_day (month_lengths leap) 1 yday).1 +
    ((month_day (month_lengths leap) 1 yday).2 - 1) = yday.
Proof.
  intros Hy. apply Z.eqb_eq.
  apply (all_below_spec (Z.to_nat (year_length leap)) (λ yday,
    days_before_month leap (month_day (month_lengths leap) 1 yday).1 +
    ((month_day (month_lengths leap) 1 yday).2 - 1) =? yday)).
  - destruct leap; vm_compute; reflexivity.
  - destruct leap; simpl in *; lia.
Qed.

Lemma is_leap_iff y : is_leap y = true ↔ y mod 4 = 0 ∧ (y mod 100 ≠ 0 ∨ y mod 400 = 0).
Proof.
  unfold is_leap. rewrite andb_true_iff, orb_true_iff, negb_true_iff, !Z.eqb_eq, Z.eqb_neq. done.
Qed.

(** The quotients of [date_of_days] within a cycle of 400 years. *)
Lemma cycle_parts r :
  0 ≤ r < 146097 →
  let n100 := Z.min 3 (r / 36524) in
  let r1 := r - 36524 * n100 in
  let n4 := r1 / 1461 in
  let r2 := r1 - 1461 * n4 in
  let n1 := Z.min 3 (r2 / 365) in
  let yday := r2 - 365 * n1 in
  0 ≤ n100 ≤ 3 ∧ 0 ≤ n4 ≤ 24 ∧ 0 ≤ n1 ≤ 3 ∧ 0 ≤ yday ≤ 365 ∧
  (yday = 365 → n1 = 3 ∧ (n4 = 24 → n100 = 3)).
Proof.
  intros Hr n100 r1 n4 r2 n1 yday.
  pose proof (Z.div_mod r 36524 ltac:(lia)). pose proof (Z.mod_pos_bound r 36524 ltac:(lia)).
  assert (Hn100 : 0 ≤ n100 ≤ 3 ∧ 0 ≤ r1 ≤ 36524 ∧ (r1 = 36524 → n100 = 3)) by lia.
  pose proof (Z.div_mod r1 1461 ltac:(lia)). pose proof (Z.mod_pos_bound r1 1461 ltac:(lia)).
  assert (Hn4 : 0 ≤ n4 ≤ 24 ∧ 0 ≤ r2 < 1461) by lia.
  pose proof (Z.div_mod r2 365 ltac:(lia)). pose proof (Z.mod_pos_bound r2 365 ltac:(lia)). lia.
Qed.

Lemma leap_year_end n400 n100 n4 :
  0 ≤ n100 ≤ 3 → 0 ≤ n4 ≤ 24 → (n4 = 24 → n100 = 3) →
  is_leap (400 * n400 + 100 * n100 + 4 * n4 + 3 + 1) = true.
Proof.
  intros H100 H4 H24. apply is_leap_iff.
  replace (400 * n400 + 100 * n100 + 4 * n4 + 3 + 1)
    with (4 * (100 * n400 + 25 * n100 + n4 + 1)) by lia.
  split; [by rewrite Z.mul_comm, Z.mod_mul|].
  destruct (decide (n4 = 24)) as [->|Hn]; [right; rewrite H24 by done|left].
  - replace (4 * (100 * n400 + 25 * 3 + 24 + 1)) with ((n400 + 1) * 400) by lia. by apply Z.mod_mul.
  - replace (4 * (100 * n400 + 25 * n100 + n4 + 1))
      with (4 * (n4 + 1) + (4 * n400 + n100) * 100) by lia.
    rewrite Z.mod_add, Z.mod_small by lia. lia.
Qed.

Lemma days_before_year_parts n400 n100 n4 n1 :
  0 ≤ n100 ≤ 3 → 0 ≤ n4 ≤ 24 → 0 ≤ n1 ≤ 3 →
  days_before_year (400 * n400 + 100 * n100 + 4 * n4 + n1 + 1) =
    days_per_400_years * n400 + 36524 * n100 + 1461 * n4 + 365 * n1.
Proof.
  intros. unfold days_before_year, days_per_400_years. cbv zeta.
  set (y := 400 * n400 + 100 * n100 + 4 * n4 + n1 + 1 - 1).
  assert (y / 4 = 100 * n400 + 25 * n100 + n4) as -> by (symmetry; apply Z.div_unique with n1; lia).
  assert (y / 100 = 4 * n400 + n100) as ->
    by (symmetry; apply Z.div_unique with (4 * n4 + n1); lia).
  assert (y / 400 = n400) as ->
    by (symmetry; apply Z.div_unique with (100 * n100 + 4 * n4 + n1); lia).
  unfold y. lia.
Qed.

(** The calendar inverts the day count. *)
Lemma days_of_date_of_days days : days_of_date (date_of_days days) = days.
Proof.
  unfold date_of_days. set (n400 := days / days_per_400_years).
  set (r := days mod days_per_400_years). cbv zeta.
  assert (Hdays : days = days_per_400_years * n400 + r) by (by apply Z.div_mod).
  assert (Hr : 0 ≤ r < 146097) by (by apply Z.mod_pos_bound).
  pose proof (cycle_parts r Hr) as H. cbv zeta in H. destruct H as (H100 & H4 & H1 & Hy & H365).
  set (n100 := Z.min 3 (r / 36524)) in *. set (n4 := (r - 36524 * n100) / 1461) in *.
  set (n1 := Z.min 3 ((r - 36524 * n100 - 1461 * n4) / 365)) in *.
  set (yday := r - 36524 * n100 - 1461 * n4 - 365 * n1) in *.
  set (year := 400 * n400 + 100 * n100 + 4 * n4 + n1 + 1).
  assert (Hlen : 0 ≤ yday < year_length (is_leap year)).
  { destruct (decide (yday = 365)) as [E|]; [|destruct is_leap; simpl; lia].
    destruct (H365 E) as [E1 E4]. unfold year. rewrite E1, leap_year_end by done. simpl. lia. }
  pose proof (month_day_inverts (is_leap year) yday Hlen) as Hm.
  destruct (month_day _ 1 yday) as [m d]. unfold days_of_date. cbn [dt_year dt_month dt_day].
  fold (days_before_month (is_leap year) m). simpl in Hm.
  pose proof (days_before_year_parts n400 n100 n4 n1 H100 H4 H1) as Hby. fold year in Hby. lia.
Qed.
