(* ===== verification/Window.v ===== *)
(** * The rolling availability window ([internal/monitor/window.go])

    [Window] is the Go struct field by field; [newWindow], [Window_Add],
    [Window_Full], [Window_Len] and [Window_Availability] are its functions,
    [None] standing for a run-time panic.  The window implements the
    [RollingBuffer] interface, and its [sum] field is the number of successes
    among the retained results. *)

From S2P Require Import Prelude Rolling Float64.

Record Window := MkWindow {
  w_buf : list bool;
  w_size : Z;
  w_head : Z;  (* index of the oldest element when full; next write position *)
  w_len : Z;
  w_sum : Z;   (* count of successes currently in the window *)
}.

Definition newWindow (size : Z) : option Window :=
  buf ← make_slice bool size;
  Some {| w_buf := buf; w_size := size; w_head := 0; w_len := 0; w_sum := 0 |}.

Definition Window_Add (w : Window) (success : bool) : option Window :=
  '(len, sum) ←
    (if w_len w =? w_size w then
       (* Full: buf[head] is the oldest element being evicted. *)
       old ← slice_get (w_buf w) (w_head w);
       Some (w_len w, if (old : bool) then int_sub (w_sum w) 1 else w_sum w)
     else Some (int_add (w_len w) 1, w_sum w));
  buf ← slice_set (w_buf w) (w_head w) success;
  let sum := if success then int_add sum 1 else sum in
  head ← go_rem (int_add (w_head w) 1) (w_size w);
  Some {| w_buf := buf; w_size := w_size w; w_head := head; w_len := len; w_sum := sum |}.

Definition Window_Full (w : Window) : bool := w_len w =? w_size w.

Definition Window_Len (w : Window) : Z := w_len w.

Definition availability_of (sum len : Z) : float64 :=
  f_mul (f_div (f_of_int sum) (f_of_int len)) f_hundred.

Definition Window_Availability (w : Window) : float64 :=
  if w_len w =? 0 then f_hundred else availability_of (w_sum w) (w_len w).

(** ** Number of successes in a list of results *)

Fixpoint successes (l : list bool) : Z :=
  match l with
  | [] => 0
  | b :: l => (if b then 1 else 0) + successes l
  end.

Lemma successes_app l k : successes (l ++ k) = successes l + successes k.
Proof. induction l as [|[] l IH]; simpl; lia. Qed.

Lemma successes_bounds l : 0 ≤ successes l ≤ slice_len l.
Proof. unfold slice_len. induction l as [|[] l IH]; simpl; lia. Qed.

Lemma successes_all l : successes l = slice_len l ↔ Forall (λ b, b = true) l.
Proof.
  split.
  - induction l as [|[] l IH]; unfold slice_len in *; simpl; intros H; constructor; auto.
    + apply IH. lia.
    + pose proof (successes_bounds l). unfold slice_len in *. lia.
    + pose proof (successes_bounds l). unfold slice_len in *. lia.
  - induction 1 as [|b l -> ? IH]; unfold slice_len in *; simpl in *; lia.
Qed.

(** ** Invariant and abstraction *)

Definition Window_contents (w : Window) : list bool :=
  circ_contents (w_buf w) (Z.to_nat (w_head w)) (Z.to_nat (w_len w)).

Record Window_wf (w : Window) : Prop := {
  Window_size_buf : w_size w = slice_len (w_buf w);
  Window_size_max : w_size w ≤ max_alloc;
  Window_head_pos : 0 ≤ w_head w;
  Window_len_pos : 0 ≤ w_len w;
  Window_circ : circ_wf (w_buf w) (Z.to_nat (w_head w)) (Z.to_nat (w_len w));
  Window_sum_ok : w_sum w = successes (Window_contents w);
}.

Lemma Window_contents_len w : Window_wf w → slice_len (Window_contents w) = w_len w.
Proof.
  intros []. unfold slice_len, Window_contents. rewrite length_circ_contents by done. lia.
Qed.

Lemma Window_bounds w :
  Window_wf w →
  0 ≤ w_head w < w_size w ∧ 0 ≤ w_len w ≤ w_size w ∧ 0 < w_size w ≤ max_alloc ∧
  0 ≤ w_sum w ≤ w_len w.
Proof.
  intros Hwf. pose proof (Window_contents_len w Hwf) as Hlen.
  pose proof (successes_bounds (Window_contents w)).
  destruct Hwf as [Hs ? ? ? [] ->]. rewrite Hlen in *. rewrite Hs in *.
  unfold slice_len in *. lia.
Qed.

Lemma newWindow_wf size :
  0 < size ≤ max_alloc →
  ∃ w, newWindow size = Some w ∧ Window_wf w ∧ w_size w = size ∧ Window_contents w = [].
Proof.
  intros Hs. unfold newWindow, make_slice. simpl.
  destruct (Z.leb_spec 0 size), (Z.leb_spec (size * 1) max_alloc); simpl; try lia.
  eexists; split; [done|]. split_and!; try done.
  split; simpl; try done; try lia.
  - unfold slice_len. rewrite length_replicate. lia.
  - split; rewrite ?length_replicate; lia.
Qed.

Lemma newWindow_panics size : size < 0 ∨ max_alloc < size → newWindow size = None.
Proof.
  intros Hs. unfold newWindow, make_slice. simpl.
  destruct (Z.leb_spec 0 size), (Z.leb_spec (size * 1) max_alloc); simpl; try done; lia.
Qed.

(** The array accesses of [Add] on a well-formed window all succeed. *)
Lemma Window_Add_accesses w b :
  Window_wf w →
  (∃ old, slice_get (w_buf w) (w_head w) = Some old ∧
          w_buf w !! Z.to_nat (w_head w) = Some old) ∧
  slice_set (w_buf w) (w_head w) b = Some (<[Z.to_nat (w_head w):=b]> (w_buf w)) ∧
  go_rem (int_add (w_head w) 1) (w_size w) = Some ((w_head w + 1) mod w_size w).
Proof.
  intros Hwf. pose proof (Window_bounds w Hwf) as (Hh & _ & Hsz & _).
  destruct Hwf as [Hbuf _ _ _ [_ Hlt _] _]. unfold max_alloc in *.
  split_and!.
  - destruct (lookup_lt_is_Some_2 _ _ Hlt) as [old Hold]. exists old. split; [|done].
    rewrite <-(Z2Nat.id (w_head w)) by lia. by rewrite slice_get_nat.
  - rewrite <-(Z2Nat.id (w_head w)) at 1 by lia. by apply slice_set_nat.
  - rewrite int_add_id by int64_lia. apply go_rem_nonneg; lia.
Qed.

(** Whatever length and sum [Add] computes, as long as they are the right
    ones, the updated array holds the last [size] results. *)
Lemma Window_Add_array w b len sum :
  Window_wf w →
  0 ≤ len → Z.to_nat len = Nat.min (length (w_buf w)) (Z.to_nat (w_len w) + 1) →
  sum = successes (lastn (Z.to_nat (w_size w)) (Window_contents w ++ [b])) →
  let w' := MkWindow (<[Z.to_nat (w_head w):=b]> (w_buf w)) (w_size w)
              ((w_head w + 1) mod w_size w) len sum in
  Window_wf w' ∧ Window_contents w' = lastn (Z.to_nat (w_size w)) (Window_contents w ++ [b]).
Proof.
  intros Hwf Hpos Hlen Hsum w'. pose proof (Window_bounds w Hwf) as (Hh & _ & Hsz & _).
  destruct Hwf as [Hbuf Hmax _ _ Hc _].
  assert (Hcap : Z.to_nat (w_size w) = length (w_buf w)) by (unfold slice_len in *; lia).
  assert (Hhead : Z.to_nat ((w_head w + 1) mod w_size w)
                  = ((Z.to_nat (w_head w) + 1) mod length (w_buf w))%nat).
  { rewrite Z2Nat.inj_mod by lia. by rewrite Z2Nat.inj_add, Hcap by lia. }
  assert (Hcont : Window_contents w' = lastn (Z.to_nat (w_size w)) (Window_contents w ++ [b])).
  { unfold Window_contents. simpl. by rewrite Hhead, Hlen, circ_push, Hcap. }
  split; [|done]. split; simpl; try done.
  - unfold slice_len in *. by rewrite length_insert.
  - apply Z.mod_pos_bound. lia.
  - rewrite Hhead, Hlen. by apply circ_push_wf.
  - by rewrite Hcont.
Qed.

(** The sum kept by eviction and insertion. *)
Lemma successes_evict old l b n :
  length l = n → successes (lastn (S n) (old :: l ++ [b]))
  = (if old then successes (old :: l) - 1 else successes (old :: l)) + (if b then 1 else 0).
Proof.
  intros Hn. rewrite app_comm_cons, lastn_full_snoc by (simpl; lia).
  rewrite successes_app. simpl. rewrite drop_0. destruct old, b; lia.
Qed.

(** [Add] on a well-formed window: no panic, the invariant is kept, and the
    contents are the last [size] results. *)
Lemma Window_Add_spec w b :
  Window_wf w →
  ∃ w', Window_Add w b = Some w' ∧ Window_wf w' ∧ w_size w' = w_size w ∧
        Window_contents w' = lastn (Z.to_nat (w_size w)) (Window_contents w ++ [b]).
Proof.
  intros Hwf. pose proof (Window_bounds w Hwf) as (Hh & Hl & Hsz & Hsum).
  destruct (Window_Add_accesses w b Hwf) as ((old & Hget & Hold) & Hset & Hrem).
  pose proof (Window_contents_len w Hwf) as Hlen.
  pose proof (Window_Add_array w b) as Harr.
  unfold Window_Add, max_alloc in *. rewrite Hget, Hset, Hrem. simpl.
  destruct (Hwf) as [Hbuf _ _ _ Hc Hs]. unfold slice_len in *.
  destruct (Z.eqb_spec (w_len w) (w_size w)) as [Hfull|Hne]; simpl.
  - (* full: the oldest element leaves the sum *)
    eexists; split; [done|].
    edestruct (Harr (w_len w)) as [Hw Hcont]; [done|lia|lia|done|]. clear Harr.
    assert (Hhd : Window_contents w !! 0%nat = Some old).
    { rewrite <-Hold. unfold Window_contents in *.
      replace (Z.to_nat (w_len w)) with (length (w_buf w)) in * by lia.
      by apply circ_contents_full_head. }
    destruct (Window_contents w) as [|o l] eqn:Hw0; simplify_eq/=.
    replace (Z.to_nat (w_size w)) with (S (length l)) in * by lia.
    rewrite successes_evict in Hw by done.
    pose proof (successes_bounds l). rewrite Hs in *. simpl in *. unfold slice_len in *.
    destruct old, b; rewrite ?int_sub_id, ?int_add_id by int64_lia;
      rewrite ?Z.add_0_r in Hw; split_and!; done.
  - eexists; split; [done|]. rewrite (int_add_id (w_len w) 1) by int64_lia.
    edestruct (Harr (w_len w + 1)) as [Hw Hcont]; [done|lia|lia|done|].
    split_and!; [|done|exact Hcont].
    rewrite lastn_all, successes_app in Hw by (rewrite length_app; simpl; lia).
    destruct b; simpl in *; rewrite ?int_add_id, ?Hs by int64_lia; [done|].
    by rewrite Z.add_0_r in Hw.
Qed.

#[export] Instance Window_rolling : RollingBuffer Window bool.
Proof.
  refine {| rb_wf := Window_wf; rb_cap w := Z.to_nat (w_size w);
            rb_contents := Window_contents; rb_push := Window_Add |}.
  - intros w Hwf. pose proof (Window_contents_len w Hwf). pose proof (Window_bounds w Hwf).
    unfold slice_len in *. lia.
  - intros w x Hwf. destruct (Window_Add_spec w x Hwf) as (w' & ? & ? & Hsz & ?).
    exists w'. by rewrite Hsz.
Defined.

Lemma Window_Full_spec w :
  Window_wf w →
  Window_Full w = bool_decide (length (Window_contents w) = Z.to_nat (w_size w)).
Proof.
  intros Hwf. pose proof (Window_contents_len w Hwf). pose proof (Window_bounds w Hwf).
  unfold Window_Full, slice_len in *. case_bool_decide; [apply Z.eqb_eq|apply Z.eqb_neq]; lia.
Qed.

(** Availability of a list of results: what [Window_Availability] computes. *)
Definition list_availability (l : list bool) : float64 :=
  match l with
  | [] => f_hundred
  | _ => availability_of (successes l) (slice_len l)
  end.

Lemma Window_Availability_spec w :
  Window_wf w → Window_Availability w = list_availability (Window_contents w).
Proof.
  intros Hwf. pose proof (Window_contents_len w Hwf) as Hlen.
  unfold Window_Availability, list_availability. rewrite (Window_sum_ok w Hwf), <-Hlen.
  by destruct (Window_contents w).
Qed.

Lemma availability_of_nonneg sum len :
  0 ≤ sum → 0 < len ≤ max_alloc → f_nonneg (availability_of sum len) = true.
Proof. unfold availability_of, max_alloc. intros. auto 10 with healthd lia. Qed.

(** ** Properties *)

(** C28: the window is a rolling buffer with a correct running sum.  From
    [newWindow size], any sequence of [Add]s succeeds, retains exactly the last
    [size] results in order, keeps [sum] equal to the number of successes among
    them, and [Len], [Full] and [Availability] report that list. *)
Theorem Window_rolls size h :
  0 < size ≤ max_alloc →
  ∃ w0 w, newWindow size = Some w0 ∧ rb_push_all w0 h = Some w ∧
    let kept := lastn (Z.to_nat size) h in
    Window_contents w = kept ∧ w_sum w = successes kept ∧
    Window_Len w = Z.min size (slice_len h) ∧
    Window_Full w = (size <=? slice_len h) ∧
    Window_Availability w = list_availability kept.
Proof.
  intros Hs. destruct (newWindow_wf size Hs) as (w0 & H0 & Hwf0 & Hsz0 & Hc0).
  destruct (rb_push_all_spec w0 h) as (w & Hw & Hwf & Hcap & Hc); [exact Hwf0|].
  exists w0, w. split; [done|]. split; [done|]. simpl in *.
  rewrite Hc0, Hsz0 in *. simpl in Hc.
  pose proof (Window_contents_len w Hwf) as Hlen. pose proof (Window_bounds w Hwf).
  rewrite Hc in Hlen. unfold slice_len in *. rewrite length_lastn in Hlen.
  split_and!; [done| | | |by rewrite Window_Availability_spec, Hc].
  - by rewrite (Window_sum_ok w Hwf), Hc.
  - unfold Window_Len. lia.
  - unfold Window_Full. destruct (Z.leb_spec size (Z.of_nat (length h)));
      [apply Z.eqb_eq|apply Z.eqb_neq]; lia.
Qed.

Lemma Window_rolls_witness :
  0 < 3 ≤ max_alloc ∧
  ∃ w, (w0 ← newWindow 3; rb_push_all w0 [true; true; false; false]) = Some w ∧
       Window_contents w = [true; false; false].
Proof.
  assert (0 < 3 ≤ max_alloc) as H by (unfold max_alloc; lia).
  split; [exact H|].
  destruct (Window_rolls 3 [true; true; false; false] H) as (w0 & w & H0 & H1 & H2 & _).
  exists w. rewrite H0. split; [exact H1|exact H2].
Defined.
