(* ===== verification/Availability.v ===== *)
(** * Availability percentages

    What the floating-point percentage of [Window_Availability] and
    [historyAvailability] means: it lies between 0 and 100, is 100 exactly when
    every check succeeded, never drops when more checks succeed, and how it
    compares with a threshold.  The history retains at most 100 samples, so
    the facts about it are decided by evaluating the binary64 computation for
    every pair of counts up to 100; the same table serves windows of that
    size. *)

From S2P Require Import Prelude Float64 Window.

(** The row of counts for [len] samples: in range, exact at the top,
    and increasing with the number of successes. *)
Definition availability_row_ok (len : Z) : bool :=
  all_below (Z.to_nat len) (λ sum,
    let a := availability_of sum len in
    let a' := availability_of (sum + 1) len in
    f_leb f_zero a && f_leb a a' && f_leb a' f_hundred && negb (f_eqb a f_hundred))
  && f_eqb (availability_of len len) f_hundred.

Lemma availability_table : all_below 100 (λ n, availability_row_ok (n + 1)) = true.
Proof. vm_compute. reflexivity. Qed.

(** The row of thresholds for [len] samples: comparing the rounded percentage
    with an integer is comparing the exact ratio. *)
Definition threshold_row_ok (len : Z) : bool :=
  all_below (Z.to_nat (len + 1)) (λ sum,
    let a := availability_of sum len in
    all_below 101 (λ p, Bool.eqb (f_ltb a (f_of_int p)) (sum * 100 <? p * len))).

Lemma threshold_table : all_below 49 (λ n, threshold_row_ok (n + 1)) = true.
Proof. vm_compute. reflexivity. Qed.

(** ** What the tables say *)

Lemma availability_row len :
  0 < len ≤ 100 → availability_row_ok len = true.
Proof.
  intros Hl. pose proof (all_below_spec _ _ availability_table (len - 1) ltac:(lia)) as H.
  cbv beta in H. by replace (len - 1 + 1) with len in H by lia.
Qed.

Lemma availability_step sum len :
  0 ≤ sum < len → len ≤ 100 →
  f_leb f_zero (availability_of sum len) = true ∧
  f_leb (availability_of sum len) (availability_of (sum + 1) len) = true ∧
  f_leb (availability_of (sum + 1) len) f_hundred = true ∧
  f_eqb (availability_of sum len) f_hundred = false.
Proof.
  intros Hs Hl. pose proof (availability_row len ltac:(lia)) as Hrow.
  unfold availability_row_ok in Hrow. apply andb_true_iff in Hrow as [Hrow _].
  pose proof (all_below_spec _ _ Hrow sum ltac:(lia)) as H. cbv beta zeta in H.
  bool_to_prop. by split_and!.
Qed.

Lemma availability_full len :
  0 < len ≤ 100 → f_eqb (availability_of len len) f_hundred = true.
Proof.
  intros Hl. pose proof (availability_row len Hl) as Hrow.
  unfold availability_row_ok in Hrow. by apply andb_true_iff in Hrow as [_ Hrow].
Qed.

Lemma availability_not_nan sum len :
  0 ≤ sum → 0 < len ≤ 100 → f_is_nan (availability_of sum len) = false.
Proof.
  intros. apply f_nonneg_not_nan, availability_of_nonneg; [done|]. unfold max_alloc. lia.
Qed.

Lemma availability_mono sum sum' len :
  0 ≤ sum ≤ sum' → sum' ≤ len → 0 < len ≤ 100 →
  f_leb (availability_of sum len) (availability_of sum' len) = true.
Proof.
  intros Hs Hl Hlen. replace sum' with (sum + Z.of_nat (Z.to_nat (sum' - sum))) in * by lia.
  generalize dependent (Z.to_nat (sum' - sum)). intros n Hs Hl. assert (0 ≤ sum) by lia. clear Hs.
  induction n as [|n IH].
  - rewrite Z.add_0_r. apply f_leb_refl, availability_not_nan; lia.
  - destruct (availability_step (sum + Z.of_nat n) len) as (_ & Hstep & _); [lia..|].
    replace (sum + Z.of_nat (S n)) with (sum + Z.of_nat n + 1) by lia.
    eapply f_leb_trans; [apply availability_not_nan..| |exact Hstep]; try lia.
    apply IH. lia.
Qed.

Lemma f_eqb_leb x y : f_eqb x y = true → f_leb x y = true.
Proof. unfold f_eqb, f_leb, SFeqb, SFleb. by destruct (SFcompare x y) as [[]|]. Qed.

Lemma availability_range sum len :
  0 ≤ sum ≤ len → 0 < len ≤ 100 →
  f_leb f_zero (availability_of sum len) = true ∧
  f_leb (availability_of sum len) f_hundred = true ∧
  f_eqb (availability_of sum len) f_hundred = bool_decide (sum = len).
Proof.
  intros Hs Hl. destruct (decide (sum = len)) as [->|Hne].
  - pose proof (availability_full len Hl) as Hf. rewrite bool_decide_true by done.
    split_and!; [|by apply f_eqb_leb|done].
    destruct (availability_step 0 len) as [H0 _]; [lia..|].
    apply f_leb_trans with (availability_of 0 len); try apply availability_not_nan; try lia.
    + done.
    + done.
    + apply availability_mono; lia.
  - rewrite bool_decide_false by done.
    destruct (availability_step sum len) as (H0 & H1 & H2 & H3); [lia..|].
    split_and!; try done.
    eapply f_leb_trans; [| | |exact H1|exact H2]; try apply availability_not_nan; done || lia.
Qed.

(** Fewer than 50 samples: comparing the rounded percentage with an integer
    threshold is comparing the exact ratio. *)
Lemma integer_threshold sum len p :
  0 ≤ sum ≤ len → 0 < len < 50 → 0 ≤ p ≤ 100 →
  f_ltb (availability_of sum len) (f_of_int p) = (sum * 100 <? p * len).
Proof.
  intros Hs Hl Hp.
  pose proof (all_below_spec _ _ threshold_table (len - 1) ltac:(lia)) as H.
  cbv beta in H. replace (len - 1 + 1) with len in H by lia. unfold threshold_row_ok in H.
  pose proof (all_below_spec _ _ H sum ltac:(lia)) as H'. cbv beta zeta in H'.
  pose proof (all_below_spec _ _ H' p ltac:(lia)) as H''.
  by apply Bool.eqb_prop in H''.
Qed.
