(* ===== verification/History.v ===== *)
(** * Retained history ([internal/monitor/history.go])

    The generic FIFO [ring], the samples it retains and the pair of rings kept
    per unit.  The ring implements the [RollingBuffer] interface, and [slice]
    returns exactly its contents, oldest first. *)

From S2P Require Import Prelude GoTime Float64 Rolling.

Definition historyCap : Z := 100.

Record CheckSample := { cs_Time : Time; cs_Success : bool }.
Record SpeedSample := { ss_Time : Time; ss_Mbps : float64 }.

#[export] Instance GoType_CheckSample : GoType CheckSample :=
  {| go_zero := {| cs_Time := zero_time; cs_Success := false |}; go_size := 32 |}.
#[export] Instance GoType_SpeedSample : GoType SpeedSample :=
  {| go_zero := {| ss_Time := zero_time; ss_Mbps := f_zero |}; go_size := 32 |}.

#[export] Instance CheckSample_eq_dec : EqDecision CheckSample.
Proof. solve_decision. Defined.
#[export] Instance SpeedSample_eq_dec : EqDecision SpeedSample.
Proof. solve_decision. Defined.

Record ring (T : Type) := MkRing {
  ring_buf : list T;
  ring_head : Z;  (* next write position / index of oldest when full *)
  ring_len : Z;
}.
Arguments MkRing {_}.
Arguments ring_buf {_}.
Arguments ring_head {_}.
Arguments ring_len {_}.

Definition newRing (T : Type) `{GoType T} (capacity : Z) : option (ring T) :=
  buf ← make_slice T capacity;
  Some {| ring_buf := buf; ring_head := 0; ring_len := 0 |}.

Definition ring_add {T} (r : ring T) (v : T) : option (ring T) :=
  buf ← slice_set (ring_buf r) (ring_head r) v;
  head ← go_rem (int_add (ring_head r) 1) (slice_len buf);
  Some {| ring_buf := buf; ring_head := head;
          ring_len := if ring_len r <? slice_len buf then int_add (ring_len r) 1
                      else ring_len r |}.

(** The retained elements oldest-first. *)
Definition ring_slice {T} (r : ring T) : option (list T) :=
  if ring_len r <? 0 then None else
  start ← go_rem (int_add (int_sub (ring_head r) (ring_len r)) (slice_len (ring_buf r)))
            (slice_len (ring_buf r));
  mapM (λ i, j ← go_rem (int_add start i) (slice_len (ring_buf r));
             slice_get (ring_buf r) j)
    (seqZ 0 (ring_len r)).

Record unitHistory := {
  uh_checks : ring CheckSample;
  uh_speeds : ring SpeedSample;
}.

Definition newUnitHistory : option unitHistory :=
  checks ← newRing CheckSample historyCap;
  speeds ← newRing SpeedSample historyCap;
  Some {| uh_checks := checks; uh_speeds := speeds |}.

(** ** Invariant and abstraction *)

Section ring.
Context {T : Type}.
Implicit Types r : ring T.

Definition ring_contents r : list T :=
  circ_contents (ring_buf r) (Z.to_nat (ring_head r)) (Z.to_nat (ring_len r)).

Record ring_wf r : Prop := {
  ring_cap_max : slice_len (ring_buf r) ≤ max_alloc;
  ring_head_pos : 0 ≤ ring_head r;
  ring_len_pos : 0 ≤ ring_len r;
  ring_circ : circ_wf (ring_buf r) (Z.to_nat (ring_head r)) (Z.to_nat (ring_len r));
}.

Lemma ring_add_spec r v :
  ring_wf r →
  ∃ r', ring_add r v = Some r' ∧ ring_wf r' ∧
        length (ring_buf r') = length (ring_buf r) ∧
        ring_contents r' = lastn (length (ring_buf r)) (ring_contents r ++ [v]).
Proof.
  intros [Hmax Hh Hl Hc]. pose proof (circ_push _ _ _ v Hc) as Hpush.
  pose proof (circ_push_wf _ _ _ v Hc) as Hcw. destruct (Hc) as [Hpos Hlt Hle].
  destruct r as [buf head len]; simpl in *. unfold slice_len, max_alloc in *.
  unfold ring_add; simpl. unfold slice_len.
  assert (slice_set buf head v = Some (<[Z.to_nat head:=v]> buf)) as ->.
  { rewrite <-(slice_set_nat buf) by done. by rewrite Z2Nat.id. }
  simpl.
  rewrite length_insert, (int_add_id head) by int64_lia.
  rewrite go_rem_nonneg by lia. simpl.
  assert (Hhead : Z.to_nat ((head + 1) mod Z.of_nat (length buf))
                  = ((Z.to_nat head + 1) mod length buf)%nat).
  { rewrite Z2Nat.inj_mod by lia. by rewrite Z2Nat.inj_add, Nat2Z.id by lia. }
  set (len' := if len <? _ then _ else _).
  assert (Hlen' : Z.to_nat len' = Nat.min (length buf) (Z.to_nat len + 1) ∧ 0 ≤ len').
  { subst len'. destruct (Z.ltb_spec len (Z.of_nat (length buf)));
      rewrite ?int_add_id by int64_lia; lia. }
  eexists; split; [done|]. split_and!; simpl.
  - split; simpl; unfold slice_len, max_alloc; rewrite ?length_insert; try lia.
    + apply Z.mod_pos_bound. lia.
    + rewrite Hhead. by destruct Hlen' as [-> _].
  - apply length_insert.
  - unfold ring_contents; simpl. rewrite Hhead. by destruct Hlen' as [-> _].
Qed.

Lemma ring_slice_spec r : ring_wf r → ring_slice r = Some (ring_contents r).
Proof.
  intros [Hmax Hh Hl Hc]. pose proof (length_circ_contents _ _ _ Hc) as Hlen.
  destruct (Hc) as [Hpos Hlt Hle].
  destruct r as [buf head len]; simpl in *. unfold slice_len, max_alloc in *.
  unfold ring_slice, ring_contents; simpl. unfold slice_len.
  destruct (Z.ltb_spec len 0); [lia|].
  rewrite int_sub_id, int_add_id by int64_lia. rewrite go_rem_nonneg by lia. simpl.
  apply mapM_Some_lookup; [rewrite length_seqZ; lia|].
  intros i x y Hx Hy. apply lookup_seqZ in Hx as [-> Hi].
  rewrite lookup_circ_contents in Hy by (done || lia).
  set (st := (head - len + Z.of_nat (length buf)) mod Z.of_nat (length buf)).
  assert (0 ≤ st < Z.of_nat (length buf)) by (apply Z.mod_pos_bound; lia).
  rewrite int_add_id by int64_lia. rewrite go_rem_nonneg by lia. simpl.
  assert (Hj : (st + (0 + Z.of_nat i)) mod Z.of_nat (length buf)
               = Z.of_nat ((Z.to_nat head + (length buf - Z.to_nat len) + i) mod length buf)).
  { subst st. rewrite Z.add_mod_idemp_l by lia. rewrite Nat2Z.inj_mod. f_equal. lia. }
  by rewrite Hj, slice_get_nat.
Qed.

#[export] Instance ring_rolling : RollingBuffer (ring T) T.
Proof.
  refine {| rb_wf := ring_wf; rb_cap r := length (ring_buf r);
            rb_contents := ring_contents; rb_push := ring_add |}.
  - intros r []. unfold ring_contents. rewrite length_circ_contents by done.
    by apply circ_len_le with (head := Z.to_nat (ring_head r)).
  - apply ring_add_spec.
Defined.
End ring.

Lemma newRing_wf T `{GoType T} capacity :
  0 < capacity ≤ max_alloc → 0 < go_size → capacity * go_size ≤ max_alloc →
  ∃ r, newRing T capacity = Some r ∧ ring_wf r ∧ ring_contents r = [] ∧
       length (ring_buf r) = Z.to_nat capacity.
Proof.
  intros Hc Hs Hm. unfold newRing, make_slice.
  destruct (Z.leb_spec 0 capacity), (Z.leb_spec (capacity * go_size) max_alloc); simpl; try lia.
  eexists; split; [done|]. simpl. rewrite length_replicate. split_and!; try done.
  split; simpl; unfold slice_len; rewrite ?length_replicate; try lia.
  split; rewrite ?length_replicate; lia.
Qed.

(** ** The history of one unit *)

Record unitHistory_wf (h : unitHistory) : Prop := {
  uh_checks_wf : ring_wf (uh_checks h);
  uh_checks_cap : length (ring_buf (uh_checks h)) = 100%nat;
  uh_speeds_wf : ring_wf (uh_speeds h);
  uh_speeds_cap : length (ring_buf (uh_speeds h)) = 100%nat;
}.

Lemma newUnitHistory_wf :
  ∃ h, newUnitHistory = Some h ∧ unitHistory_wf h ∧
       ring_contents (uh_checks h) = [] ∧ ring_contents (uh_speeds h) = [].
Proof.
  unfold newUnitHistory, historyCap.
  destruct (newRing_wf CheckSample 100) as (c & -> & Hc & Hcc & Hcl);
    [unfold max_alloc; simpl; lia..|].
  destruct (newRing_wf SpeedSample 100) as (s & -> & Hs & Hsc & Hsl);
    [unfold max_alloc; simpl; lia..|].
  simpl. eexists; split; [done|]. split_and!; done.
Qed.

(** ** Properties *)

(** C29: the history ring is a bounded FIFO.  From [newRing capacity], any
    sequence of [add]s succeeds and [slice] then returns the last [capacity]
    elements, oldest first; memory does not grow. *)
Theorem ring_fifo {T} `{GoType T} capacity (xs : list T) :
  0 < capacity ≤ max_alloc → 0 < go_size → capacity * go_size ≤ max_alloc →
  ∃ r0 r, newRing T capacity = Some r0 ∧ rb_push_all r0 xs = Some r ∧
    ring_slice r = Some (lastn (Z.to_nat capacity) xs) ∧
    length (ring_buf r) = Z.to_nat capacity.
Proof.
  intros Hc Hs Hm. destruct (newRing_wf T capacity Hc Hs Hm) as (r0 & H0 & Hwf0 & Hc0 & Hl0).
  destruct (rb_push_all_spec r0 xs) as (r & Hr & Hwf & Hcap & Hcont); [exact Hwf0|].
  exists r0, r. simpl in *. rewrite Hc0, Hl0 in *. split_and!; try done.
  rewrite ring_slice_spec by done. by rewrite Hcont.
Qed.

Lemma ring_fifo_witness :
  ∃ r, (r0 ← newRing bool 2; rb_push_all r0 [true; false; true]) = Some r ∧
       ring_slice r = Some [false; true].
Proof.
  destruct (ring_fifo (T := bool) 2 [true; false; true]) as (r0 & r & H0 & H1 & H2 & _);
    [unfold max_alloc; lia|simpl; lia|unfold max_alloc; simpl; lia|].
  exists r. rewrite H0. split; [exact H1|exact H2].
Defined.
