(* ===== verification/StateMachine.v ===== *)
(** * The alert state machine ([internal/monitor/statemachine.go])

    [StateMachine] is the Go struct with its injected clock turned into an
    argument of [Observe] (the reading of [m.clock()], used on success only).
    [Observe] returns [None] when the code would panic.  The second half gives
    a history-based specification ([state_spec], [trailing_failures],
    [last_success]) and the representation invariant [sm_repr] that ties a
    machine to the history it has observed. *)

From S2P Require Import Prelude Rolling GoTime Float64 Window Availability.

(** Event emitted after each observed check ([EvNone] is Go's [None]). *)
Inductive Event := EvNone | AlertUnhealthy | RecoveryHealthy.

Inductive State := Healthy | Unhealthy.

Inductive Trigger := TriggerConsecutive | TriggerAvailability.

#[export] Instance Event_eq_dec : EqDecision Event.
Proof. solve_decision. Defined.
#[export] Instance State_eq_dec : EqDecision State.
Proof. solve_decision. Defined.
#[export] Instance Trigger_eq_dec : EqDecision Trigger.
Proof. solve_decision. Defined.

Definition State_String (s : State) : string :=
  match s with Unhealthy => "UNHEALTHY" | Healthy => "HEALTHY" end.

(** [monitor.Config]. *)
Record MonitorConfig := {
  mc_FailureThreshold : Z;
  mc_WindowSize : Z;
  mc_Trigger : Trigger;
  mc_MinAvailability : float64;
}.

Record StateMachine := MkStateMachine {
  sm_failureThreshold : Z;
  sm_trigger : Trigger;
  sm_minAvailability : float64;
  sm_state : State;
  sm_consecutive : Z;
  sm_window : option Window;
  sm_lastSuccess : Time;
}.

Definition NewWithConfig (cfg : MonitorConfig) : option StateMachine :=
  let ft := if mc_FailureThreshold cfg <? 1 then 1 else mc_FailureThreshold cfg in
  w ← (if 0 <? mc_WindowSize cfg then Some <$> newWindow (mc_WindowSize cfg) else Some None);
  Some {| sm_failureThreshold := ft;
          sm_trigger := mc_Trigger cfg;
          sm_minAvailability := mc_MinAvailability cfg;
          sm_state := Healthy;
          sm_consecutive := 0;
          sm_window := w;
          sm_lastSuccess := zero_time |}.

(** [New]: consecutive-failure mode, no window. *)
Definition New (failureThreshold : Z) : option StateMachine :=
  NewWithConfig {| mc_FailureThreshold := failureThreshold; mc_WindowSize := 0;
                   mc_Trigger := TriggerConsecutive; mc_MinAvailability := f_zero |}.

Definition set_state (m : StateMachine) (s : State) : StateMachine :=
  MkStateMachine (sm_failureThreshold m) (sm_trigger m) (sm_minAvailability m)
    s (sm_consecutive m) (sm_window m) (sm_lastSuccess m).

Definition transitionConsecutive (m : StateMachine) (success : bool) : StateMachine * Event :=
  if success then
    match sm_state m with
    | Unhealthy => (set_state m Healthy, RecoveryHealthy)
    | Healthy => (m, EvNone)
    end
  else if bool_decide (sm_state m = Healthy) && (sm_failureThreshold m <=? sm_consecutive m) then
    (set_state m Unhealthy, AlertUnhealthy)
  else (m, EvNone).

Definition transitionAvailability (m : StateMachine) : StateMachine * Event :=
  match sm_window m with
  | None => (m, EvNone)
  | Some w =>
      if negb (Window_Full w) then (m, EvNone)
      else
        let avail := Window_Availability w in
        if bool_decide (sm_state m = Healthy) && f_ltb avail (sm_minAvailability m) then
          (set_state m Unhealthy, AlertUnhealthy)
        else if bool_decide (sm_state m = Unhealthy) && f_leb (sm_minAvailability m) avail then
          (set_state m Healthy, RecoveryHealthy)
        else (m, EvNone)
  end.

(** The part of [Observe] before the transition: counters, window, clock. *)
Definition record_result (now : Time) (success : bool) (m : StateMachine) : option StateMachine :=
  w ← (match sm_window m with
       | Some w => Some <$> Window_Add w success
       | None => Some None
       end);
  Some (MkStateMachine (sm_failureThreshold m) (sm_trigger m) (sm_minAvailability m)
          (sm_state m)
          (if success then 0 else int_add (sm_consecutive m) 1)
          w
          (if success then now else sm_lastSuccess m)).

Definition Observe (now : Time) (success : bool) (m : StateMachine)
    : option (StateMachine * Event) :=
  m ← record_result now success m;
  Some (match sm_trigger m with
        | TriggerAvailability => transitionAvailability m
        | TriggerConsecutive => transitionConsecutive m success
        end).

Definition HasWindow (m : StateMachine) : bool :=
  match sm_window m with Some _ => true | None => false end.

Definition Availability (m : StateMachine) : float64 :=
  match sm_window m with Some w => Window_Availability w | None => f_hundred end.

(** A whole run: the machine after, and the event of, every check. *)
Fixpoint Observe_all (m : StateMachine) (tr : list (Time * bool))
    : option (StateMachine * list Event) :=
  match tr with
  | [] => Some (m, [])
  | (now, success) :: tr =>
      '(m1, ev) ← Observe now success m;
      '(m2, evs) ← Observe_all m1 tr;
      Some (m2, ev :: evs)
  end.

(** ** Specification in terms of the observed history *)

(** Failures since the last success. *)
Definition trailing_failures (h : list bool) : Z :=
  foldl (λ n (b : bool), if b then 0 else n + 1) 0 h.

(** Time of the last successful check, or the zero time. *)
Definition last_success (tr : list (Time * bool)) : Time :=
  foldl (λ t x, if x.2 : bool then x.1 else t) zero_time tr.

(** The configured threshold, clamped to at least 1. *)
Definition threshold (cfg : MonitorConfig) : Z := Z.max 1 (mc_FailureThreshold cfg).

Definition window_of (cfg : MonitorConfig) (h : list bool) : list bool :=
  lastn (Z.to_nat (mc_WindowSize cfg)) h.

(** The state as a function of the history alone. *)
Definition state_spec (cfg : MonitorConfig) (h : list bool) : State :=
  match mc_Trigger cfg with
  | TriggerConsecutive =>
      if threshold cfg <=? trailing_failures h then Unhealthy else Healthy
  | TriggerAvailability =>
      if (0 <? mc_WindowSize cfg) && (mc_WindowSize cfg <=? slice_len h) &&
         f_ltb (list_availability (window_of cfg h)) (mc_MinAvailability cfg)
      then Unhealthy else Healthy
  end.

(** The event that reports a change of state. *)
Definition event_between (s s' : State) : Event :=
  match s, s' with
  | Healthy, Unhealthy => AlertUnhealthy
  | Unhealthy, Healthy => RecoveryHealthy
  | _, _ => EvNone
  end.

Fixpoint events_between (s : State) (ss : list State) : list Event :=
  match ss with
  | [] => []
  | s' :: ss => event_between s s' :: events_between s' ss
  end.

(** What [NewWithConfig] needs of a configuration not to panic and of the
    floats to be comparable; the loader's validation establishes it. *)
Record MonitorConfig_ok (cfg : MonitorConfig) : Prop := {
  mc_ft_int : in_int64 (mc_FailureThreshold cfg);
  mc_window_max : mc_WindowSize cfg ≤ max_alloc;
  mc_min_not_nan : f_is_nan (mc_MinAvailability cfg) = false;
}.

(** The machine [m] has observed exactly the checks [tr]. *)
Record sm_repr (cfg : MonitorConfig) (tr : list (Time * bool)) (m : StateMachine) : Prop := {
  repr_ft : sm_failureThreshold m = threshold cfg;
  repr_trigger : sm_trigger m = mc_Trigger cfg;
  repr_min : sm_minAvailability m = mc_MinAvailability cfg;
  repr_state : sm_state m = state_spec cfg tr.*2;
  repr_consecutive : sm_consecutive m = int_wrap (trailing_failures tr.*2);
  repr_lastSuccess : sm_lastSuccess m = last_success tr;
  repr_window :
    match sm_window m with
    | Some w => 0 < mc_WindowSize cfg ∧ Window_wf w ∧ w_size w = mc_WindowSize cfg ∧
                Window_contents w = window_of cfg tr.*2
    | None => mc_WindowSize cfg ≤ 0
    end;
}.

(** ** Lemmas *)

Lemma trailing_failures_snoc h b :
  trailing_failures (h ++ [b]) = if b then 0 else trailing_failures h + 1.
Proof. unfold trailing_failures. by rewrite foldl_snoc. Qed.

Lemma trailing_failures_nonneg h : 0 ≤ trailing_failures h.
Proof.
  induction h as [|b h IH] using rev_ind; [done|]. rewrite trailing_failures_snoc. destruct b; lia.
Qed.

Lemma last_success_snoc tr now b :
  last_success (tr ++ [(now, b)]) = if b then now else last_success tr.
Proof. unfold last_success. by rewrite foldl_snoc. Qed.

Lemma int_wrap_succ z : int_add (int_wrap z) 1 = int_wrap (z + 1).
Proof.
  unfold int_add, int_wrap. f_equal.
  replace ((z + 2 ^ 63) mod 2 ^ 64 - 2 ^ 63 + 1 + 2 ^ 63) with ((z + 2 ^ 63) mod 2 ^ 64 + 1) by lia.
  rewrite Z.add_mod_idemp_l by lia. f_equal. lia.
Qed.

Lemma Observe_all_snoc m tr now b :
  Observe_all m (tr ++ [(now, b)]) =
  ('(m1, evs) ← Observe_all m tr; '(m2, ev) ← Observe now b m1; Some (m2, evs ++ [ev])).
Proof.
  revert m. induction tr as [|[t c] tr IH]; intros m; simpl.
  - by destruct (Observe now b m) as [[]|].
  - destruct (Observe t c m) as [[m1 ev]|]; simpl; [|done]. rewrite IH.
    destruct (Observe_all m1 tr) as [[m2 evs]|]; simpl; [|done].
    by destruct (Observe now b m2) as [[]|].
Qed.

(** The last of the states [ss], or [s] when there are none. *)
Definition final_state (s : State) (ss : list State) : State := foldl (λ _ s', s') s ss.

Lemma events_between_snoc s ss s' :
  events_between s (ss ++ [s']) =
  events_between s ss ++ [event_between (final_state s ss) s'].
Proof. revert s. induction ss as [|s1 ss IH]; intros s; simpl; [done|]. by rewrite IH. Qed.

Lemma NewWithConfig_repr cfg :
  MonitorConfig_ok cfg → ∃ m, NewWithConfig cfg = Some m ∧ sm_repr cfg [] m.
Proof.
  intros [Hft Hw Hn]. unfold NewWithConfig.
  assert (Hth : (if mc_FailureThreshold cfg <? 1 then 1 else mc_FailureThreshold cfg)
                = threshold cfg).
  { unfold threshold. destruct (Z.ltb_spec (mc_FailureThreshold cfg) 1); lia. }
  assert (Hs : state_spec cfg [] = Healthy).
  { unfold state_spec, threshold. destruct (mc_Trigger cfg).
    - by destruct (Z.leb_spec (Z.max 1 (mc_FailureThreshold cfg)) (trailing_failures []));
        [unfold trailing_failures in *; simpl in *; lia|].
    - change (slice_len (@nil bool)) with 0.
      destruct (Z.ltb_spec 0 (mc_WindowSize cfg)), (Z.leb_spec (mc_WindowSize cfg) 0);
        simpl; done || lia. }
  rewrite Hth. destruct (Z.ltb_spec 0 (mc_WindowSize cfg)).
  - destruct (newWindow_wf (mc_WindowSize cfg)) as (w & -> & Hwf & Hsz & Hc); [lia|].
    simpl. eexists; split; [done|]. split; simpl; auto.
  - simpl. eexists; split; [done|]. by split; simpl; auto.
Qed.

Lemma record_result_repr cfg tr m now b :
  sm_repr cfg tr m →
  ∃ m1, record_result now b m = Some m1 ∧
    sm_trigger m1 = mc_Trigger cfg ∧ sm_state m1 = sm_state m ∧
    ∀ s, s = state_spec cfg (tr ++ [(now, b)]).*2 →
         sm_repr cfg (tr ++ [(now, b)]) (set_state m1 s).
Proof.
  intros [Hft Htr Hmin Hst Hcons Hls Hwin]. unfold record_result.
  assert (Hc' : (if b then 0 else int_add (sm_consecutive m) 1)
                = int_wrap (trailing_failures (tr ++ [(now, b)]).*2)).
  { rewrite fmap_app. simpl. rewrite trailing_failures_snoc, Hcons.
    destruct b; [done|apply int_wrap_succ]. }
  assert (Hl' : (if b then now else sm_lastSuccess m) = last_success (tr ++ [(now, b)])).
  { by rewrite last_success_snoc, Hls. }
  destruct (sm_window m) as [w|] eqn:Hw.
  - destruct Hwin as (Hpos & Hwf & Hsz & Hcont).
    destruct (Window_Add_spec w b Hwf) as (w' & -> & Hwf' & Hsz' & Hcont'). simpl.
    eexists; split; [done|]. split_and!; try done. intros s ->.
    split; simpl; try done. split_and!; [done|done|congruence|].
    rewrite Hcont', Hcont, Hsz. unfold window_of. rewrite fmap_app. simpl.
    by rewrite lastn_lastn_app.
  - simpl. eexists; split; [done|]. by split_and!.
Qed.

Lemma state_spec_consecutive cfg h :
  mc_Trigger cfg = TriggerConsecutive →
  state_spec cfg h = if threshold cfg <=? trailing_failures h then Unhealthy else Healthy.
Proof. unfold state_spec. by intros ->. Qed.

Lemma set_state_same m s : sm_state m = s → set_state m s = m.
Proof. intros <-. by destruct m. Qed.

(** One step: the event reports the change of the specified state. *)
Lemma transitionConsecutive_repr cfg h (m : StateMachine) b :
  in_int64 (mc_FailureThreshold cfg) →
  mc_Trigger cfg = TriggerConsecutive →
  sm_failureThreshold m = threshold cfg →
  sm_consecutive m = int_wrap (trailing_failures (h ++ [b])) →
  sm_state m = state_spec cfg h →
  transitionConsecutive m b =
    (set_state m (state_spec cfg (h ++ [b])),
     event_between (state_spec cfg h) (state_spec cfg (h ++ [b]))).
Proof.
  intros Hint Htr Hft Hcons Hst. pose proof (trailing_failures_nonneg h).
  unfold transitionConsecutive. rewrite Hft, Hcons, trailing_failures_snoc.
  revert Hst. rewrite !state_spec_consecutive, trailing_failures_snoc by done.
  assert (1 ≤ threshold cfg ≤ int64_max) by (unfold threshold; int64_lia).
  destruct b, (Z.leb_spec (threshold cfg) (trailing_failures h)) as [Ht|Ht]; intros Hst;
    rewrite Hst; simpl.
  - by destruct (Z.leb_spec (threshold cfg) 0); [lia|].
  - destruct (Z.leb_spec (threshold cfg) 0); [lia|]. by rewrite set_state_same.
  - destruct (Z.leb_spec (threshold cfg) (trailing_failures h + 1)); [|lia].
    by rewrite set_state_same.
  - rewrite int_wrap_id by int64_lia.
    destruct (Z.leb_spec (threshold cfg) (trailing_failures h + 1)); [done|].
    by rewrite set_state_same.
Qed.

Lemma state_spec_availability cfg h :
  mc_Trigger cfg = TriggerAvailability → 0 < mc_WindowSize cfg →
  state_spec cfg h =
    if (mc_WindowSize cfg <=? slice_len h) &&
       f_ltb (list_availability (window_of cfg h)) (mc_MinAvailability cfg)
    then Unhealthy else Healthy.
Proof.
  unfold state_spec. intros -> Hw. destruct (Z.ltb_spec 0 (mc_WindowSize cfg)); [done|lia].
Qed.

Lemma list_availability_not_nan l :
  slice_len l ≤ max_alloc → f_is_nan (list_availability l) = false.
Proof.
  intros Hl. destruct l as [|b l]; [done|]. unfold list_availability.
  apply f_nonneg_not_nan, availability_of_nonneg; [apply successes_bounds|].
  unfold slice_len in *. simpl in *. lia.
Qed.

Lemma Window_Full_repr cfg h w :
  0 < mc_WindowSize cfg → Window_wf w → w_size w = mc_WindowSize cfg →
  Window_contents w = window_of cfg h →
  Window_Full w = (mc_WindowSize cfg <=? slice_len h).
Proof.
  intros Hpos Hwf Hsz Hc. rewrite Window_Full_spec, Hc by done. unfold window_of, slice_len.
  rewrite length_lastn, Hsz.
  case_bool_decide; symmetry; [apply Z.leb_le|apply Z.leb_gt]; lia.
Qed.

Lemma transitionAvailability_repr cfg h (m : StateMachine) w b :
  MonitorConfig_ok cfg →
  mc_Trigger cfg = TriggerAvailability → 0 < mc_WindowSize cfg →
  sm_minAvailability m = mc_MinAvailability cfg →
  sm_window m = Some w → Window_wf w → w_size w = mc_WindowSize cfg →
  Window_contents w = window_of cfg (h ++ [b]) →
  sm_state m = state_spec cfg h →
  transitionAvailability m =
    (set_state m (state_spec cfg (h ++ [b])),
     event_between (state_spec cfg h) (state_spec cfg (h ++ [b]))).
Proof.
  intros [_ Hmax Hn] Htr Hpos Hmin Hw Hwf Hsz Hc Hst. unfold transitionAvailability.
  rewrite Hw, (Window_Full_repr cfg (h ++ [b])), Window_Availability_spec, Hc, Hmin by done.
  assert (Hnn : f_is_nan (list_availability (window_of cfg (h ++ [b]))) = false).
  { apply list_availability_not_nan. unfold slice_len, window_of. rewrite length_lastn. lia. }
  rewrite (f_leb_ltb _ _ Hnn Hn), Hst, (state_spec_availability cfg (h ++ [b])) by done.
  destruct (Z.leb_spec (mc_WindowSize cfg) (slice_len (h ++ [b]))) as [Hf|Hf]; simpl.
  - destruct (f_ltb _ _), (state_spec cfg h) eqn:E; simpl; try done;
      by rewrite set_state_same by congruence.
  - assert (Hh : state_spec cfg h = Healthy).
    { rewrite state_spec_availability by done.
      destruct (Z.leb_spec (mc_WindowSize cfg) (slice_len h)); [|done].
      unfold slice_len in *. rewrite length_app in Hf. simpl in Hf. lia. }
    rewrite Hh in *. by rewrite set_state_same.
Qed.

(** One check: no panic, the representation is kept, and the event is the
    change of the specified state. *)
Lemma Observe_repr cfg tr m now b :
  MonitorConfig_ok cfg → sm_repr cfg tr m →
  ∃ m', Observe now b m = Some (m', event_between (state_spec cfg tr.*2)
                                      (state_spec cfg (tr ++ [(now, b)]).*2)) ∧
        sm_repr cfg (tr ++ [(now, b)]) m'.
Proof.
  intros Hok Hr. destruct (record_result_repr cfg tr m now b Hr) as (m1 & Hm1 & Htr & Hst & Hall).
  exists (set_state m1 (state_spec cfg (tr ++ [(now, b)]).*2)).
  split; [|by apply Hall]. unfold Observe. rewrite Hm1. simpl. rewrite Htr. f_equal.
  pose proof (Hall _ eq_refl) as [Hft _ Hmin _ Hcons _ Hwin]. destruct Hr as [_ _ _ Hst0 _ _ _].
  rewrite fmap_app in *. simpl in *. rewrite Hst0 in Hst.
  destruct (mc_Trigger cfg) eqn:Ht.
  - by apply transitionConsecutive_repr; try done; destruct Hok.
  - destruct (sm_window m1) as [w|] eqn:Hw.
    + destruct Hwin as (? & ? & ? & ?). by eapply transitionAvailability_repr.
    + assert (Hh : ∀ h, state_spec cfg h = Healthy).
      { intros h. unfold state_spec. rewrite Ht.
        by destruct (Z.ltb_spec 0 (mc_WindowSize cfg)); [lia|]. }
      unfold transitionAvailability. rewrite Hw, Hh in *. rewrite !Hh. by rewrite set_state_same.
Qed.

(** ** Whole runs *)

(** The specified state after each prefix of a history. *)
Definition spec_states (cfg : MonitorConfig) (h : list bool) : list State :=
  (λ n, state_spec cfg (take (S n) h)) <$> seq 0 (length h).

Lemma spec_states_snoc cfg h b :
  spec_states cfg (h ++ [b]) = spec_states cfg h ++ [state_spec cfg (h ++ [b])].
Proof.
  unfold spec_states. rewrite length_app. simpl. rewrite seq_app, fmap_app. simpl. f_equal.
  - apply list_fmap_ext. intros i n Hn. apply lookup_seq in Hn as [-> Hn].
    by rewrite take_app_le by lia.
  - by rewrite take_ge by (rewrite length_app; simpl; lia).
Qed.

Lemma spec_states_last cfg h :
  state_spec cfg [] = Healthy → final_state Healthy (spec_states cfg h) = state_spec cfg h.
Proof.
  intros H0. destruct h as [|b h _] using rev_ind; [done|].
  unfold final_state. by rewrite spec_states_snoc, foldl_snoc.
Qed.

Lemma state_spec_nil cfg : state_spec cfg [] = Healthy.
Proof.
  unfold state_spec, threshold, slice_len. destruct (mc_Trigger cfg).
  - destruct (Z.leb_spec (Z.max 1 (mc_FailureThreshold cfg)) (trailing_failures [])) as [H|]; [|done].
    unfold trailing_failures in H. simpl in H. lia.
  - change (Z.of_nat (length (@nil bool))) with 0.
    destruct (Z.ltb_spec 0 (mc_WindowSize cfg)), (Z.leb_spec (mc_WindowSize cfg) 0); simpl; done || lia.
Qed.

Lemma Observe_all_repr cfg tr :
  MonitorConfig_ok cfg →
  ∃ m0 m, NewWithConfig cfg = Some m0 ∧
          Observe_all m0 tr = Some (m, events_between Healthy (spec_states cfg tr.*2)) ∧
          sm_repr cfg tr m.
Proof.
  intros Hok. destruct (NewWithConfig_repr cfg Hok) as (m0 & Hm0 & Hr0).
  exists m0. induction tr as [|[now b] tr IH] using rev_ind; [by exists m0|].
  destruct IH as (m & _ & Hm & Hr).
  destruct (Observe_repr cfg tr m now b Hok Hr) as (m' & Hobs & Hr').
  exists m'. split_and!; [done| |done].
  rewrite Observe_all_snoc, Hm. simpl. rewrite Hobs. simpl.
  rewrite fmap_app. simpl. rewrite spec_states_snoc, events_between_snoc.
  by rewrite spec_states_last by apply state_spec_nil.
Qed.

(** Alerts and recoveries strictly alternate, starting with an alert when
    [unhealthy] is false. *)
Fixpoint alternates (unhealthy : bool) (evs : list Event) : bool :=
  match evs with
  | [] => true
  | EvNone :: evs => alternates unhealthy evs
  | AlertUnhealthy :: evs => negb unhealthy && alternates true evs
  | RecoveryHealthy :: evs => unhealthy && alternates false evs
  end.

Lemma events_between_alternate s ss :
  alternates (bool_decide (s = Unhealthy)) (events_between s ss) = true.
Proof.
  revert s. induction ss as [|s' ss IH]; intros s; [done|].
  specialize (IH s'). by destruct s, s'.
Qed.

Lemma events_between_parity s ss :
  Nat.Odd (length (filter (λ ev, ev ≠ EvNone) (events_between s ss))) ↔ final_state s ss ≠ s.
Proof.
  revert s. induction ss as [|s' ss IH]; intros s.
  { simpl. split; [by intros []; lia|done]. }
  unfold final_state in *. simpl. rewrite filter_cons. specialize (IH s').
  assert (Hpar : ∀ n, Nat.Odd (S n) ↔ ¬ Nat.Odd n).
  { intros n. rewrite Nat.Odd_succ. pose proof (Nat.Even_or_Odd n) as [?|?];
      pose proof (Nat.Even_Odd_False n); tauto. }
  destruct s, s'; simpl; try exact IH; rewrite Hpar, IH;
    destruct (foldl _ _ ss); (split; [done|intros ? []; done]) || naive_solver.
Qed.

(** ** Properties *)

(** C1: the machine refines its history specification.  For every
    configuration that validation admits and every sequence of checks,
    [NewWithConfig] and [Observe] never panic, the state, the consecutive
    count, the last-success time and the window are the ones determined by the
    history, and the events are exactly the changes of the specified state. *)
Theorem Observe_refines_spec cfg tr :
  MonitorConfig_ok cfg →
  ∃ m0 m, NewWithConfig cfg = Some m0 ∧
    Observe_all m0 tr = Some (m, events_between Healthy (spec_states cfg tr.*2)) ∧
    sm_state m = state_spec cfg tr.*2 ∧
    sm_consecutive m = int_wrap (trailing_failures tr.*2) ∧
    sm_lastSuccess m = last_success tr ∧
    HasWindow m = (0 <? mc_WindowSize cfg) ∧
    Availability m = list_availability (window_of cfg tr.*2).
Proof.
  intros Hok. destruct (Observe_all_repr cfg tr Hok) as (m0 & m & ? & ? & [_ _ _ ? ? ? Hw]).
  exists m0, m. split_and!; try done; unfold HasWindow, Availability;
    destruct (sm_window m) as [w|].
  - destruct Hw as (? & _). symmetry. by apply Z.ltb_lt.
  - symmetry. by apply Z.ltb_ge.
  - destruct Hw as (_ & ? & _ & <-). by apply Window_Availability_spec.
  - unfold window_of. replace (Z.to_nat (mc_WindowSize cfg)) with 0%nat by lia.
    unfold lastn. by rewrite drop_ge by lia.
Qed.

Definition example_config : MonitorConfig :=
  {| mc_FailureThreshold := 2; mc_WindowSize := 4; mc_Trigger := TriggerAvailability;
     mc_MinAvailability := f_of_int 75 |}.

Lemma example_config_ok : MonitorConfig_ok example_config.
Proof. split; [vm_compute; split; discriminate|unfold max_alloc; simpl; lia|reflexivity]. Defined.

Definition example_trace : list (Time * bool) :=
  [(1, false); (2, false); (3, false); (4, true); (5, true); (6, true)].

Lemma Observe_refines_spec_witness :
  ∃ m0 m, NewWithConfig example_config = Some m0 ∧
    Observe_all m0 example_trace =
      Some (m, [EvNone; EvNone; EvNone; AlertUnhealthy; EvNone; RecoveryHealthy]) ∧
    sm_lastSuccess m = 6.
Proof.
  destruct (Observe_refines_spec example_config example_trace example_config_ok)
    as (m0 & m & H0 & H1 & _ & _ & H2 & _).
  exists m0, m. split; [exact H0|]. split; [exact H1|exact H2].
Defined.

(** C7: alerts fire once.  In every run of every machine, under either
    trigger, alerts and recoveries strictly alternate and the first one is an
    alert: no repeat signal is emitted while the state does not change. *)
Theorem alerts_alternate cfg tr m0 m evs :
  MonitorConfig_ok cfg → NewWithConfig cfg = Some m0 →
  Observe_all m0 tr = Some (m, evs) →
  alternates false evs = true ∧
  (sm_state m = Unhealthy ↔
   Nat.Odd (length (filter (λ ev, ev ≠ EvNone) evs))).
Proof.
  intros Hok Hm0 Hrun. destruct (Observe_all_repr cfg tr Hok) as (m0' & m' & H0 & H1 & Hr).
  simplify_eq. split; [apply (events_between_alternate Healthy)|].
  rewrite (repr_state _ _ _ Hr), <-spec_states_last by apply state_spec_nil.
  rewrite events_between_parity. by destruct (final_state _ _).
Qed.

Lemma alerts_alternate_witness :
  ∃ m0 m evs,
    NewWithConfig example_config = Some m0 ∧ Observe_all m0 (take 4 example_trace) = Some (m, evs) ∧
    evs = [EvNone; EvNone; EvNone; AlertUnhealthy] ∧ alternates false evs = true ∧
    (sm_state m = Unhealthy ↔ Nat.Odd (length (filter (λ ev, ev ≠ EvNone) evs))).
Proof.
  destruct (NewWithConfig example_config) as [m0|] eqn:H0; [|discriminate].
  destruct (Observe_all m0 (take 4 example_trace)) as [[m evs]|] eqn:H1.
  - exists m0, m, evs. split; [reflexivity|]. split; [exact H1|]. split.
    + vm_compute in H0. injection H0 as <-. vm_compute in H1. injection H1 as <- <-. reflexivity.
    + exact (alerts_alternate example_config (take 4 example_trace) m0 m evs example_config_ok H0 H1).
  - vm_compute in H0. injection H0 as <-. vm_compute in H1. discriminate.
Defined.

(** C8: the consecutive trigger.  After any history, the next check fires
    [AlertUnhealthy] exactly when it is the failure that brings the run of
    consecutive failures to the (clamped) threshold, and [RecoveryHealthy]
    exactly when it is the first success after such a run. *)
Theorem consecutive_trigger_exact cfg tr m0 m evs now b :
  MonitorConfig_ok cfg → mc_Trigger cfg = TriggerConsecutive →
  NewWithConfig cfg = Some m0 → Observe_all m0 tr = Some (m, evs) →
  ∃ m' ev, Observe now b m = Some (m', ev) ∧
    (ev = AlertUnhealthy ↔ b = false ∧ trailing_failures tr.*2 + 1 = threshold cfg) ∧
    (ev = RecoveryHealthy ↔ b = true ∧ threshold cfg ≤ trailing_failures tr.*2).
Proof.
  intros Hok Ht Hm0 Hrun. destruct (Observe_all_repr cfg tr Hok) as (m0' & m1 & H0 & H1 & Hr).
  simplify_eq. destruct (Observe_repr cfg tr m now b Hok Hr) as (m' & Hobs & _).
  eexists _, _; split; [exact Hobs|]. pose proof (trailing_failures_nonneg tr.*2).
  rewrite fmap_app. simpl. rewrite !state_spec_consecutive, trailing_failures_snoc by done.
  assert (1 ≤ threshold cfg) by (unfold threshold; lia).
  destruct b, (Z.leb_spec (threshold cfg) (trailing_failures tr.*2)); simpl.
  - destruct (Z.leb_spec (threshold cfg) 0); [lia|]. simpl. by split; [split; [done|lia]|].
  - destruct (Z.leb_spec (threshold cfg) 0); [lia|]. simpl. by split; split; try done; lia.
  - destruct (Z.leb_spec (threshold cfg) (trailing_failures tr.*2 + 1)); [|lia].
    simpl. split; split; try done; lia.
  - destruct (Z.leb_spec (threshold cfg) (trailing_failures tr.*2 + 1)); simpl;
      split; split; try done; lia.
Qed.

Definition consecutive_config : MonitorConfig :=
  {| mc_FailureThreshold := 3; mc_WindowSize := 20; mc_Trigger := TriggerConsecutive;
     mc_MinAvailability := f_zero |}.

Lemma consecutive_config_ok : MonitorConfig_ok consecutive_config.
Proof. split; [vm_compute; split; discriminate|unfold max_alloc; simpl; lia|reflexivity]. Defined.

Lemma consecutive_trigger_exact_witness :
  ∃ m0 m evs, NewWithConfig consecutive_config = Some m0 ∧
    Observe_all m0 [(1, true); (2, false); (3, false)] = Some (m, evs) ∧
    ∃ m', Observe 4 false m = Some (m', AlertUnhealthy).
Proof.
  destruct (Observe_all_repr consecutive_config [(1, true); (2, false); (3, false)]
              consecutive_config_ok) as (m0 & m & H0 & H1 & _).
  eexists m0, m, _. split; [exact H0|]. split; [exact H1|].
  destruct (consecutive_trigger_exact consecutive_config _ m0 m _ 4 false
              consecutive_config_ok eq_refl H0 H1) as (m' & ev & Hobs & Hal & _).
  exists m'. rewrite Hobs. do 2 f_equal. apply Hal. split; reflexivity.
Defined.

(** C9: the availability trigger.  With a window of [W] results the machine
    is UNHEALTHY exactly when at least [W] checks were made and the
    floating-point availability of the last [W] is below [MinAvailability];
    during warm-up no event is emitted. *)
Theorem availability_trigger_exact cfg tr m0 m evs now b :
  MonitorConfig_ok cfg → mc_Trigger cfg = TriggerAvailability → 0 < mc_WindowSize cfg →
  NewWithConfig cfg = Some m0 → Observe_all m0 tr = Some (m, evs) →
  ∃ m' ev, Observe now b m = Some (m', ev) ∧
    (sm_state m' = Unhealthy ↔
       mc_WindowSize cfg ≤ slice_len tr + 1 ∧
       f_ltb (Availability m') (mc_MinAvailability cfg) = true) ∧
    Availability m' = list_availability (window_of cfg (tr.*2 ++ [b])) ∧
    (slice_len tr + 1 < mc_WindowSize cfg → ev = EvNone) ∧
    (ev = AlertUnhealthy ↔ sm_state m = Healthy ∧ sm_state m' = Unhealthy) ∧
    (ev = RecoveryHealthy ↔ sm_state m = Unhealthy ∧ sm_state m' = Healthy).
Proof.
  intros Hok Ht Hpos Hm0 Hrun.
  destruct (Observe_all_repr cfg tr Hok) as (m0' & m1 & H0 & H1 & Hr).
  simplify_eq. destruct (Observe_repr cfg tr m now b Hok Hr) as (m' & Hobs & Hr').
  eexists m', _; split; [exact Hobs|].
  assert (Hav : Availability m' = list_availability (window_of cfg (tr.*2 ++ [b]))).
  { destruct Hr' as [_ _ _ _ _ _ Hw]. unfold Availability. rewrite fmap_app in Hw.
    destruct (sm_window m'); [|lia]. destruct Hw as (_ & ? & _ & Hc). simpl in Hc.
    rewrite <-Hc. by apply Window_Availability_spec. }
  rewrite (repr_state _ _ _ Hr'), (repr_state _ _ _ Hr), Hav, fmap_app. simpl.
  assert (Hlen : slice_len (tr.*2 ++ [b]) = slice_len tr + 1).
  { unfold slice_len. rewrite length_app, length_fmap. simpl. lia. }
  assert (Hlen0 : slice_len tr.*2 = slice_len tr).
  { unfold slice_len. by rewrite length_fmap. }
  rewrite !state_spec_availability, Hlen, Hlen0 by done.
  split_and!; [|done| |do 2 destruct (_ && _); simpl; naive_solver..].
  - destruct (Z.leb_spec (mc_WindowSize cfg) (slice_len tr + 1)), (f_ltb _ _); simpl;
      naive_solver lia.
  - intros. destruct (Z.leb_spec (mc_WindowSize cfg) (slice_len tr + 1)); [lia|].
    destruct (Z.leb_spec (mc_WindowSize cfg) (slice_len tr)); [lia|]. done.
Qed.

Lemma availability_trigger_exact_witness :
  ∃ m0 m evs, NewWithConfig example_config = Some m0 ∧
    Observe_all m0 [(1, false); (2, false); (3, false)] = Some (m, evs) ∧
    ∃ m', Observe 4 true m = Some (m', AlertUnhealthy) ∧ sm_state m' = Unhealthy.
Proof.
  destruct (Observe_all_repr example_config [(1, false); (2, false); (3, false)]
              example_config_ok) as (m0 & m & H0 & H1 & Hr).
  eexists m0, m, _. split; [exact H0|]. split; [exact H1|].
  destruct (availability_trigger_exact example_config _ m0 m _ 4 true
              example_config_ok eq_refl eq_refl H0 H1) as (m' & ev & Hobs & Hst & Hav & _ & Hal & _).
  assert (Hun : sm_state m' = Unhealthy).
  { apply Hst. split; [vm_compute; discriminate|]. rewrite Hav. vm_compute. reflexivity. }
  exists m'. split; [|exact Hun]. rewrite Hobs. do 2 f_equal. apply Hal.
  split; [|exact Hun]. rewrite (repr_state _ _ _ Hr). vm_compute. reflexivity.
Defined.

(** Integer thresholds are exact for windows of fewer than 50 results
    (the default is 20).  With the availability trigger, a window of [W < 50]
    and an integer threshold [p], the machine is UNHEALTHY exactly when the
    window is full and strictly fewer than [p] percent of its [W] results are
    successes, computed over the integers. *)
Theorem integer_threshold_exact cfg tr m0 m evs p :
  MonitorConfig_ok cfg → mc_Trigger cfg = TriggerAvailability →
  0 < mc_WindowSize cfg < 50 → 0 < p ≤ 100 → mc_MinAvailability cfg = f_of_int p →
  NewWithConfig cfg = Some m0 → Observe_all m0 tr = Some (m, evs) →
  (sm_state m = Unhealthy ↔
   mc_WindowSize cfg ≤ slice_len tr ∧
   successes (window_of cfg tr.*2) * 100 < p * mc_WindowSize cfg).
Proof.
  intros Hok Ht Hw Hp Hmin H0 Hrun.
  destruct (Observe_all_repr cfg tr Hok) as (m0' & m' & H0' & H1 & Hr). simplify_eq.
  rewrite (repr_state _ _ _ Hr), state_spec_availability, Hmin by done || lia.
  assert (Hlen0 : slice_len tr.*2 = slice_len tr) by (unfold slice_len; by rewrite length_fmap).
  rewrite Hlen0. destruct (Z.leb_spec (mc_WindowSize cfg) (slice_len tr)); simpl;
    [|split; [done|lia]].
  assert (Hl : slice_len (window_of cfg tr.*2) = mc_WindowSize cfg).
  { unfold window_of, slice_len in *. rewrite length_lastn. lia. }
  pose proof (successes_bounds (window_of cfg tr.*2)) as Hb.
  assert (list_availability (window_of cfg tr.*2)
          = availability_of (successes (window_of cfg tr.*2)) (mc_WindowSize cfg)) as ->.
  { rewrite <-Hl. destruct (window_of cfg tr.*2) eqn:E; [|done].
    unfold slice_len in Hl. simpl in Hl. lia. }
  rewrite integer_threshold by lia.
  destruct (Z.ltb_spec (successes (window_of cfg tr.*2) * 100) (p * mc_WindowSize cfg));
    split; done || lia.
Qed.

Lemma integer_threshold_exact_witness :
  ∃ m, (m0 ← NewWithConfig example_config; Observe_all m0 (take 4 example_trace)) = Some m ∧
       sm_state m.1 = Unhealthy.
Proof.
  destruct (Observe_all_repr example_config (take 4 example_trace) example_config_ok)
    as (m0 & m & H0 & H1 & _).
  exists (m, events_between Healthy (spec_states example_config (take 4 example_trace).*2)).
  split; [rewrite H0; exact H1|].
  refine (proj2 (integer_threshold_exact example_config (take 4 example_trace) m0 m _ 75
           example_config_ok eq_refl _ _ eq_refl H0 H1) _); [simpl; lia|lia|].
  vm_compute. split; [discriminate|reflexivity].
Defined.

Definition wide_config : MonitorConfig :=
  {| mc_FailureThreshold := 1; mc_WindowSize := 100; mc_Trigger := TriggerAvailability;
     mc_MinAvailability := f_of_int 29 |}.

(** Rounding can alert at the threshold.  With a window of 100 results
    and [min_availability] 29, exactly 29 successes out of 100 are not below
    29 percent, yet the computed percentage is below the float 29 and the
    machine fires [AlertUnhealthy]. *)
Theorem availability_rounding_gap :
  ∃ m0 m evs,
    let tr := (λ i, (Z.of_nat i, bool_decide (i < 29)%nat)) <$> seq 0 100 in
    NewWithConfig wide_config = Some m0 ∧ Observe_all m0 tr = Some (m, evs) ∧
    successes (window_of wide_config tr.*2) * 100 = 29 * mc_WindowSize wide_config ∧
    f_ltb (Availability m) (mc_MinAvailability wide_config) = true ∧
    sm_state m = Unhealthy ∧ last evs = Some AlertUnhealthy.
Proof.
  do 3 eexists. cbv zeta. split; [vm_compute; reflexivity|].
  split; [vm_compute; reflexivity|]. vm_compute. repeat split; reflexivity.
Qed.
