(* ===== verification/Registry.v ===== *)
(** * The fleet-wide registry ([internal/monitor/registry.go])

    [Registry] is the Go struct (its mutex makes every method one atomic step);
    a nil [*Registry] or [*Handle] is [None].  Operations that index a history
    ring return [None] when the code would panic.  The registry invariant
    [Registry_wf] says that order, status map and history map have the same
    names and that every ring is well formed. *)

From S2P Require Import Prelude Rolling GoTime Slog Float64 Window Availability.
From S2P Require Import History StateMachine.

Record UnitStatus := MkUnitStatus {
  us_Name : string;
  us_State : State;
  us_HasWindow : bool;
  us_Availability : float64;  (* meaningful only when HasWindow *)
  us_Consecutive : Z;
  us_LastSuccess : Time;      (* zero when no check has succeeded yet *)
}.

Definition zero_UnitStatus : UnitStatus :=
  MkUnitStatus "" Healthy false f_zero 0 zero_time.

Record Registry := MkRegistry {
  r_order : list string;
  r_units : gmap string UnitStatus;
  r_history : gmap string unitHistory;
}.

Definition NewRegistry : Registry := MkRegistry [] ∅ ∅.

(** The registry a [Handle] points to is the one threaded by its methods. *)
Record Handle := MkHandle { h_name : string }.

Definition Register (r : option Registry) (name : string)
    : option (option Registry * option Handle) :=
  match r with
  | None => Some (None, None)
  | Some r =>
      match r_units r !! name with
      | Some _ => Some (Some r, Some (MkHandle name))
      | None =>
          h ← newUnitHistory;
          Some (Some (MkRegistry (r_order r ++ [name])
                        (<[name := MkUnitStatus name Healthy false f_zero 0 zero_time]> (r_units r))
                        (<[name := h]> (r_history r))),
                Some (MkHandle name))
      end
  end.

Definition Registry_Len (r : option Registry) : Z :=
  match r with None => 0 | Some r => slice_len (r_order r) end.

Definition recordCheck (r : Registry) (name : string) (t : Time) (success : bool)
    : option Registry :=
  match r_history r !! name with
  | Some h =>
      checks ← ring_add (uh_checks h) {| cs_Time := t; cs_Success := success |};
      Some (MkRegistry (r_order r) (r_units r)
              (<[name := {| uh_checks := checks; uh_speeds := uh_speeds h |}]> (r_history r)))
  | None => Some r
  end.

Definition recordSpeed (r : Registry) (name : string) (t : Time) (mbps : float64)
    : option Registry :=
  match r_history r !! name with
  | Some h =>
      speeds ← ring_add (uh_speeds h) {| ss_Time := t; ss_Mbps := mbps |};
      Some (MkRegistry (r_order r) (r_units r)
              (<[name := {| uh_checks := uh_checks h; uh_speeds := speeds |}]> (r_history r)))
  | None => Some r
  end.

Definition Registry_set (r : Registry) (status : UnitStatus) : Registry :=
  match r_units r !! us_Name status with
  | Some _ => MkRegistry (r_order r) (<[us_Name status := status]> (r_units r)) (r_history r)
  | None => r
  end.

(** [r.units[name]]: the zero status for a missing key. *)
Definition unit_status (r : Registry) (name : string) : UnitStatus :=
  default zero_UnitStatus (r_units r !! name).

Definition Snapshot (r : option Registry) : list UnitStatus :=
  match r with
  | None => []
  | Some r => unit_status r <$> r_order r
  end.

Definition last_success_attr (t : Time) : Attr :=
  ("last_success", if Time_IsZero t then SString "never" else STime t).

Definition snapshot_attr (u : UnitStatus) : Attr :=
  (us_Name u, SGroup (
    [("state", SString (State_String (us_State u)));
     ("consecutive_failures", SInt (us_Consecutive u))]
    ++ (if us_HasWindow u then [("availability_pct", SFloat64 (us_Availability u))] else [])
    ++ [last_success_attr (us_LastSuccess u)])).

Definition Registry_LogSnapshot (r : option Registry) (logger : option Logger) : option Logger :=
  match r, logger with
  | Some _, Some l =>
      let snap := Snapshot r in
      Some (Logger_log LevelInfo "status snapshot"
              (("units", SInt (slice_len snap)) :: (snapshot_attr <$> snap)) l)
  | _, _ => logger
  end.

(** ** Aggregates *)

Record SpeedStats := MkSpeedStats {
  st_Count : Z;
  st_Min : float64;
  st_Avg : float64;
  st_Max : float64;
  st_Latest : float64;
}.

Record UnitSummary := MkUnitSummary {
  su_Status : UnitStatus;
  su_HistoryAvailability : float64;
  su_Speed : option SpeedStats;
  su_Checks : list CheckSample;
  su_Speeds : list SpeedSample;
}.

Record FleetSummary := MkFleetSummary {
  fs_GeneratedAt : Time;
  fs_Units : list UnitSummary;
}.

Definition historyAvailability (samples : list CheckSample) : float64 :=
  if slice_len samples =? 0 then f_hundred
  else
    let ok := foldl (λ ok s, if cs_Success s then int_add ok 1 else ok) 0 samples in
    availability_of ok (slice_len samples).

(** The accumulator of [speedStats]'s loop: sum, minimum, maximum. *)
Definition speed_step (acc : float64 * float64 * float64) (s : SpeedSample)
    : float64 * float64 * float64 :=
  let '(sum, mn, mx) := acc in
  (f_add sum (ss_Mbps s),
   if f_ltb (ss_Mbps s) mn then ss_Mbps s else mn,
   if f_ltb mx (ss_Mbps s) then ss_Mbps s else mx).

Definition speedStats (samples : list SpeedSample) : option SpeedStats :=
  match samples with
  | [] => None
  | s0 :: _ =>
      let '(sum, mn, mx) := foldl speed_step (f_zero, ss_Mbps s0, ss_Mbps s0) samples in
      Some (MkSpeedStats (slice_len samples) mn
              (f_div sum (f_of_int (slice_len samples))) mx
              (ss_Mbps (List.last samples s0)))
  end.

Definition unit_summary (r : Registry) (name : string) : option UnitSummary :=
  (* a missing history is a nil pointer dereference *)
  h ← r_history r !! name;
  checks ← ring_slice (uh_checks h);
  speeds ← ring_slice (uh_speeds h);
  Some (MkUnitSummary (unit_status r name) (historyAvailability checks)
          (speedStats speeds) checks speeds).

Definition Summary (r : option Registry) (now : Time) : option FleetSummary :=
  match r with
  | None => Some (MkFleetSummary now [])
  | Some r => units ← mapM (unit_summary r) (r_order r); Some (MkFleetSummary now units)
  end.

Definition speed_attrs (s : option SpeedStats) : list Attr :=
  match s with
  | Some s =>
      [("speed_samples", SInt (st_Count s)); ("speed_min_mbps", SFloat64 (st_Min s));
       ("speed_avg_mbps", SFloat64 (st_Avg s)); ("speed_max_mbps", SFloat64 (st_Max s));
       ("speed_latest_mbps", SFloat64 (st_Latest s))]
  | None => []
  end.

Definition summary_attr (u : UnitSummary) : Attr :=
  (us_Name (su_Status u), SGroup (
    [("state", SString (State_String (us_State (su_Status u))));
     ("consecutive_failures", SInt (us_Consecutive (su_Status u)));
     ("history_availability_pct", SFloat64 (su_HistoryAvailability u));
     ("checks_recorded", SInt (slice_len (su_Checks u)))]
    ++ (if us_HasWindow (su_Status u)
        then [("availability_pct", SFloat64 (us_Availability (su_Status u)))] else [])
    ++ speed_attrs (su_Speed u)
    ++ [last_success_attr (us_LastSuccess (su_Status u))])).

Definition LogSummary (r : option Registry) (logger : option Logger) (now : Time)
    : option (option Logger) :=
  match r, logger with
  | Some _, Some l =>
      sum ← Summary r now;
      Some (Some (Logger_log LevelInfo "monitoring summary"
        (("units", SInt (slice_len (fs_Units sum))) :: (summary_attr <$> fs_Units sum)) l))
  | _, _ => Some logger
  end.

(** ** Handles *)

Definition status_of (name : string) (sm : StateMachine) : UnitStatus :=
  MkUnitStatus name (sm_state sm) (HasWindow sm) (Availability sm)
    (sm_consecutive sm) (sm_lastSuccess sm).

Definition Handle_Update (h : option Handle) (sm : StateMachine) (r : option Registry)
    : option Registry :=
  match h, r with
  | Some h, Some r => Some (Registry_set r (status_of (h_name h) sm))
  | _, _ => r
  end.

Definition Handle_LogSnapshot (h : option Handle) (r : option Registry) (logger : option Logger)
    : option Logger :=
  match h with
  | Some _ => Registry_LogSnapshot r logger
  | None => logger
  end.

Definition Handle_RecordCheck (h : option Handle) (t : Time) (success : bool)
    (r : option Registry) : option (option Registry) :=
  match h, r with
  | Some h, Some r => Some <$> recordCheck r (h_name h) t success
  | _, _ => Some r
  end.

Definition Handle_RecordSpeed (h : option Handle) (t : Time) (mbps : float64)
    (r : option Registry) : option (option Registry) :=
  match h, r with
  | Some h, Some r => Some <$> recordSpeed r (h_name h) t mbps
  | _, _ => Some r
  end.

(** ** Invariant *)

Record Registry_wf (r : Registry) : Prop := {
  rw_nodup : NoDup (r_order r);
  rw_units name : name ∈ r_order r ↔ is_Some (r_units r !! name);
  rw_history name : name ∈ r_order r ↔ is_Some (r_history r !! name);
  rw_names name u : r_units r !! name = Some u → us_Name u = name;
  rw_rings name h : r_history r !! name = Some h → unitHistory_wf h;
}.

(** ** What is stored about one unit *)

Record UnitView := MkUnitView {
  uv_status : UnitStatus;
  uv_checks : list CheckSample;
  uv_speeds : list SpeedSample;
}.

Definition unit_view (r : Registry) (name : string) : option UnitView :=
  u ← r_units r !! name;
  h ← r_history r !! name;
  Some (MkUnitView u (ring_contents (uh_checks h)) (ring_contents (uh_speeds h))).

Definition fresh_view (name : string) : UnitView :=
  MkUnitView (MkUnitStatus name Healthy false f_zero 0 zero_time) [] [].

(** The three mutations a role performs on the shared registry. *)
Inductive RegOp :=
  | OpSet (status : UnitStatus)
  | OpCheck (name : string) (t : Time) (success : bool)
  | OpSpeed (name : string) (t : Time) (mbps : float64).

Definition op_name (op : RegOp) : string :=
  match op with OpSet st => us_Name st | OpCheck n _ _ => n | OpSpeed n _ _ => n end.

Definition apply_op (r : Registry) (op : RegOp) : option Registry :=
  match op with
  | OpSet st => Some (Registry_set r st)
  | OpCheck n t b => recordCheck r n t b
  | OpSpeed n t m => recordSpeed r n t m
  end.

Definition apply_ops (r : Registry) (ops : list RegOp) : option Registry :=
  foldl (λ r op, r ← r; apply_op r op) (Some r) ops.

(** The specified effect of one mutation on the unit it names. *)
Definition view_step (v : UnitView) (op : RegOp) : UnitView :=
  match op with
  | OpSet st => MkUnitView st (uv_checks v) (uv_speeds v)
  | OpCheck _ t b =>
      MkUnitView (uv_status v)
        (lastn 100 (uv_checks v ++ [{| cs_Time := t; cs_Success := b |}])) (uv_speeds v)
  | OpSpeed _ t m =>
      MkUnitView (uv_status v) (uv_checks v)
        (lastn 100 (uv_speeds v ++ [{| ss_Time := t; ss_Mbps := m |}]))
  end.

Definition ops_of (name : string) (ops : list RegOp) : list RegOp :=
  filter (λ op, op_name op = name) ops.

(** ** Lemmas *)

Lemma NewRegistry_wf : Registry_wf NewRegistry.
Proof.
  split; simpl; [constructor| | | |]; intros name; rewrite ?lookup_empty;
    try (intros ?; rewrite ?lookup_empty; done); split; intros H;
    (inversion H; fail) || (by destruct H).
Qed.

Lemma unit_view_registered r name :
  Registry_wf r → name ∈ r_order r ↔ is_Some (unit_view r name).
Proof.
  intros Hwf. unfold unit_view. split.
  - intros Hn. pose proof Hn as Hn'. apply (rw_units r Hwf) in Hn as [u ->].
    apply (rw_history r Hwf) in Hn' as [h ->]. by eexists.
  - intros [v Hv]. apply (rw_units r Hwf). destruct (r_units r !! name); [by eexists|done].
Qed.

(** Replacing the entry of an existing unit keeps the invariant. *)
Lemma Registry_wf_update r name u h :
  Registry_wf r → name ∈ r_order r → us_Name u = name → unitHistory_wf h →
  Registry_wf (MkRegistry (r_order r) (<[name := u]> (r_units r)) (<[name := h]> (r_history r))).
Proof.
  intros [Hnd Hu Hh Hn Hr] Hin Hnu Hwh. split; simpl; try done.
  - intros n. rewrite Hu. destruct (decide (n = name)) as [->|Hne].
    + rewrite lookup_insert_eq, <-Hu. split; [by eexists|done].
    + by rewrite lookup_insert_ne.
  - intros n. rewrite Hh. destruct (decide (n = name)) as [->|Hne].
    + rewrite lookup_insert_eq, <-Hh. split; [by eexists|done].
    + by rewrite lookup_insert_ne.
  - intros n u'. destruct (decide (n = name)) as [->|Hne];
      rewrite ?lookup_insert_eq, ?lookup_insert_ne by done; [by intros [= <-]|apply Hn].
  - intros n h'. destruct (decide (n = name)) as [->|Hne];
      rewrite ?lookup_insert_eq, ?lookup_insert_ne by done; [by intros [= <-]|apply Hr].
Qed.

Lemma unit_view_update r name u h n :
  unit_view (MkRegistry (r_order r) (<[name := u]> (r_units r)) (<[name := h]> (r_history r))) n
  = if decide (n = name)
    then Some (MkUnitView u (ring_contents (uh_checks h)) (ring_contents (uh_speeds h)))
    else unit_view r n.
Proof.
  unfold unit_view; simpl. destruct (decide (n = name)) as [->|Hne].
  - by rewrite !lookup_insert_eq.
  - by rewrite !lookup_insert_ne.
Qed.

(** An [apply_op] on a registered unit is an update of both maps. *)
Lemma apply_op_registered r op u h :
  Registry_wf r → r_units r !! op_name op = Some u → r_history r !! op_name op = Some h →
  ∃ u' h',
    apply_op r op = Some (MkRegistry (r_order r) (<[op_name op := u']> (r_units r))
                            (<[op_name op := h']> (r_history r))) ∧
    us_Name u' = op_name op ∧ unitHistory_wf h' ∧
    MkUnitView u' (ring_contents (uh_checks h')) (ring_contents (uh_speeds h'))
    = view_step (MkUnitView u (ring_contents (uh_checks h)) (ring_contents (uh_speeds h))) op.
Proof.
  intros Hwf Hu Hh. pose proof (rw_names r Hwf _ _ Hu) as Hnm.
  pose proof (rw_rings r Hwf _ _ Hh) as Hring. destruct (Hring) as [Hc Hcc Hs Hsc].
  destruct op as [st|n t b|n t m]; simpl in *.
  - exists st, h. unfold Registry_set. rewrite Hu. by rewrite (insert_id (r_history r)) by done.
  - unfold recordCheck. rewrite Hh.
    destruct (ring_add_spec (uh_checks h) {| cs_Time := t; cs_Success := b |} Hc)
      as (c' & -> & Hc' & Hcap & Hcont). simpl.
    exists u, {| uh_checks := c'; uh_speeds := uh_speeds h |}.
    rewrite (insert_id (r_units r)) by done. split_and!; [done|done| |].
    + split; simpl; congruence || done.
    + simpl. by rewrite Hcont, Hcc.
  - unfold recordSpeed. rewrite Hh.
    destruct (ring_add_spec (uh_speeds h) {| ss_Time := t; ss_Mbps := m |} Hs)
      as (c' & -> & Hc' & Hcap & Hcont). simpl.
    exists u, {| uh_checks := uh_checks h; uh_speeds := c' |}.
    rewrite (insert_id (r_units r)) by done. split_and!; [done|done| |].
    + split; simpl; congruence || done.
    + simpl. by rewrite Hcont, Hsc.
Qed.

Lemma apply_op_unregistered r op :
  Registry_wf r → op_name op ∉ r_order r → apply_op r op = Some r.
Proof.
  intros Hwf Hn.
  assert (r_units r !! op_name op = None) as Hu.
  { apply eq_None_not_Some. by rewrite <-(rw_units r Hwf). }
  assert (r_history r !! op_name op = None) as Hh.
  { apply eq_None_not_Some. by rewrite <-(rw_history r Hwf). }
  destruct op; simpl in *; unfold Registry_set, recordCheck, recordSpeed;
    by rewrite ?Hu, ?Hh.
Qed.

(** One mutation never panics, keeps the invariant and the order, and touches
    only the unit it names. *)
Lemma apply_op_spec r op :
  Registry_wf r →
  ∃ r', apply_op r op = Some r' ∧ Registry_wf r' ∧ r_order r' = r_order r ∧
        ∀ n, unit_view r' n = if decide (op_name op = n)
                              then (λ v, view_step v op) <$> unit_view r n else unit_view r n.
Proof.
  intros Hwf. destruct (decide (op_name op ∈ r_order r)) as [Hin|Hin].
  - pose proof Hin as Hin'. pose proof Hin as Hin2.
    apply (rw_units r Hwf) in Hin as [u Hu]. apply (rw_history r Hwf) in Hin' as [h Hh].
    destruct (apply_op_registered r op u h Hwf Hu Hh) as (u' & h' & -> & Hn & Hw & Hv).
    eexists; split; [done|]. split_and!; [by apply Registry_wf_update|done|].
    intros n. rewrite unit_view_update. destruct (decide (op_name op = n)) as [<-|Hne].
    + rewrite decide_True by done. rewrite Hv. unfold unit_view at 1. by rewrite Hu, Hh.
    + by rewrite decide_False by congruence.
  - rewrite apply_op_unregistered by done. exists r. split_and!; try done.
    intros n. case_decide; [|done]. subst n.
    destruct (unit_view r (op_name op)) eqn:Hv; [|done].
    destruct Hin. apply unit_view_registered; [done|]. by eexists.
Qed.

Lemma apply_ops_app r ops1 ops2 :
  apply_ops r (ops1 ++ ops2) = (r' ← apply_ops r ops1; apply_ops r' ops2).
Proof.
  unfold apply_ops. rewrite foldl_app. destruct (foldl _ (Some r) ops1); [done|].
  by induction ops2.
Qed.

Lemma apply_ops_snoc r ops op :
  apply_ops r (ops ++ [op]) = (r' ← apply_ops r ops; apply_op r' op).
Proof. unfold apply_ops. by rewrite foldl_snoc. Qed.

(** Any sequence of mutations: what happens to a unit depends only on the
    mutations that name it, in their order. *)
Lemma apply_ops_spec r ops :
  Registry_wf r →
  ∃ r', apply_ops r ops = Some r' ∧ Registry_wf r' ∧ r_order r' = r_order r ∧
        ∀ n, unit_view r' n = (λ v, foldl view_step v (ops_of n ops)) <$> unit_view r n.
Proof.
  intros Hwf. induction ops as [|op ops IH] using rev_ind.
  - exists r. split_and!; try done. intros n. simpl. by destruct (unit_view r n).
  - destruct IH as (r1 & Hr1 & Hwf1 & Ho1 & Hv1).
    destruct (apply_op_spec r1 op Hwf1) as (r2 & Hr2 & Hwf2 & Ho2 & Hv2).
    exists r2. rewrite apply_ops_snoc, Hr1. simpl. split_and!; [done|done|congruence|].
    intros n. rewrite Hv2, Hv1. unfold ops_of. rewrite filter_app.
    rewrite filter_cons, filter_nil. case_decide; simpl.
    + destruct (unit_view r n); simpl; [|done]. by rewrite foldl_snoc.
    + by rewrite app_nil_r.
Qed.

(** ** Reading the registry *)

Definition view_summary (v : UnitView) : UnitSummary :=
  MkUnitSummary (uv_status v) (historyAvailability (uv_checks v))
    (speedStats (uv_speeds v)) (uv_checks v) (uv_speeds v).

Lemma unit_view_status r name v :
  unit_view r name = Some v → unit_status r name = uv_status v.
Proof.
  unfold unit_view, unit_status. destruct (r_units r !! name), (r_history r !! name);
    simpl; naive_solver.
Qed.

Lemma unit_summary_view r name v :
  Registry_wf r → unit_view r name = Some v → unit_summary r name = Some (view_summary v).
Proof.
  intros Hwf Hv. pose proof (unit_view_status r name v Hv) as Hst.
  unfold unit_summary, unit_view in *. rewrite Hst.
  destruct (r_units r !! name), (r_history r !! name) as [h|] eqn:Hh; simplify_eq/=.
  destruct (rw_rings r Hwf _ _ Hh) as [Hc _ Hs _].
  by rewrite !ring_slice_spec by done.
Qed.

(** [Summary] never fails on a well-formed registry and lists the units in
    registration order. *)
Lemma Summary_spec r now :
  Registry_wf r →
  ∃ units, Summary (Some r) now = Some (MkFleetSummary now units) ∧
           Forall2 (λ name u, ∃ v, unit_view r name = Some v ∧ u = view_summary v)
             (r_order r) units.
Proof.
  intros Hwf. unfold Summary.
  assert (∃ units, mapM (unit_summary r) (r_order r) = Some units ∧
            Forall2 (λ name u, ∃ v, unit_view r name = Some v ∧ u = view_summary v)
              (r_order r) units) as (units & -> & Hall); [|by eexists].
  assert (Hreg : ∀ n, n ∈ r_order r → is_Some (unit_view r n)).
  { intros n. by apply unit_view_registered. }
  induction (r_order r) as [|n ns IH]; [by exists []|].
  destruct (Hreg n) as [v Hv]; [by left|].
  destruct IH as (units & Hm & Hf); [intros m Hmm; apply Hreg; by right|].
  exists (view_summary v :: units). simpl. rewrite (unit_summary_view r n v) by done.
  simpl. rewrite Hm. split; [done|]. constructor; eauto.
Qed.

(** ** Registration *)

Lemma Register_new r name :
  Registry_wf r → name ∉ r_order r →
  ∃ r', Register (Some r) name = Some (Some r', Some (MkHandle name)) ∧ Registry_wf r' ∧
        r_order r' = r_order r ++ [name] ∧
        (∀ n, unit_view r' n = if decide (n = name) then Some (fresh_view name)
                               else unit_view r n).
Proof.
  intros Hwf Hn. destruct newUnitHistory_wf as (h & Hh & Hwh & Hc & Hs).
  assert (r_units r !! name = None) as Hu.
  { apply eq_None_not_Some. by rewrite <-(rw_units r Hwf). }
  unfold Register. rewrite Hu, Hh. simpl. eexists; split; [done|].
  split_and!; [|done|].
  - destruct Hwf as [Hnd Hun Hhi Hna Hri]. split; simpl.
    + apply NoDup_app. split_and!; [done| |apply NoDup_singleton].
      intros x Hx. rewrite list_elem_of_singleton. by intros ->.
    + intros n. rewrite elem_of_app, list_elem_of_singleton, Hun.
      destruct (decide (n = name)) as [->|]; [rewrite lookup_insert_eq|rewrite lookup_insert_ne by done];
        naive_solver eauto.
    + intros n. rewrite elem_of_app, list_elem_of_singleton, Hhi.
      destruct (decide (n = name)) as [->|]; [rewrite lookup_insert_eq|rewrite lookup_insert_ne by done];
        naive_solver eauto.
    + intros n u. destruct (decide (n = name)) as [->|];
        [rewrite lookup_insert_eq; by intros [= <-]|rewrite lookup_insert_ne by done; apply Hna].
    + intros n u. destruct (decide (n = name)) as [->|];
        [rewrite lookup_insert_eq; by intros [= <-]|rewrite lookup_insert_ne by done; apply Hri].
  - intros n. unfold unit_view; simpl. destruct (decide (n = name)) as [->|].
    + rewrite !lookup_insert_eq. simpl. by rewrite Hc, Hs.
    + by rewrite !lookup_insert_ne.
Qed.

Lemma Register_again r name :
  Registry_wf r → name ∈ r_order r →
  Register (Some r) name = Some (Some r, Some (MkHandle name)).
Proof.
  intros Hwf Hn. apply (rw_units r Hwf) in Hn as [u Hu]. unfold Register. by rewrite Hu.
Qed.

#[global] Arguments Register : simpl never.

Definition Register_all (r : Registry) (names : list string) : option Registry :=
  foldl (λ r n, r ← r; '(r', _) ← Register (Some r) n; r') (Some r) names.

(** Names in order of first occurrence. *)
Definition first_occurrences (names : list string) : list string :=
  foldl (λ seen n, if decide (n ∈ seen) then seen else seen ++ [n]) [] names.

Lemma first_occurrences_elem names n : n ∈ first_occurrences names ↔ n ∈ names.
Proof.
  induction names as [|m names IH] using rev_ind; [done|].
  unfold first_occurrences in *. rewrite foldl_snoc. rewrite elem_of_app, list_elem_of_singleton.
  case_decide; rewrite ?elem_of_app, ?list_elem_of_singleton; naive_solver.
Qed.

Lemma Register_all_spec names :
  ∃ r, Register_all NewRegistry names = Some r ∧ Registry_wf r ∧
       r_order r = first_occurrences names ∧
       ∀ n, unit_view r n = if decide (n ∈ names) then Some (fresh_view n) else None.
Proof.
  induction names as [|m names IH] using rev_ind.
  - exists NewRegistry. split_and!; [done|apply NewRegistry_wf|done|].
    intros n. rewrite decide_False by (intros H; inversion H). done.
  - destruct IH as (r & Hr & Hwf & Ho & Hv).
    unfold Register_all in *. rewrite foldl_snoc, Hr. simpl.
    unfold first_occurrences in *. rewrite foldl_snoc, <-Ho.
    destruct (decide (m ∈ r_order r)) as [Hin|Hin].
    + rewrite Register_again by done. exists r. split_and!; try done.
      intros n. rewrite Hv. rewrite Ho in Hin.
      apply (proj1 (first_occurrences_elem names m)) in Hin.
      assert (n ∈ names ↔ n ∈ names ++ [m]) as Hiff.
      { rewrite elem_of_app, list_elem_of_singleton. split; [by left|by intros [?| ->]]. }
      by rewrite (decide_ext _ _ _ _ Hiff).
    + destruct (Register_new r m Hwf Hin) as (r' & -> & Hwf' & Ho' & Hv').
      exists r'. split_and!; try done. intros n. rewrite Hv'.
      destruct (decide (n = m)) as [->|Hne].
      * rewrite decide_True; [done|]. rewrite elem_of_app, list_elem_of_singleton. by right.
      * rewrite Hv. assert (n ∈ names ↔ n ∈ names ++ [m]) as Hiff.
        { rewrite elem_of_app, list_elem_of_singleton. split; [by left|by intros [?| ->]]. }
        by rewrite (decide_ext _ _ _ _ Hiff).
Qed.

(** ** Aggregates *)

Lemma historyAvailability_list samples :
  slice_len samples ≤ max_alloc →
  historyAvailability samples = list_availability (cs_Success <$> samples).
Proof.
  intros Hlen. unfold historyAvailability, list_availability.
  assert (Hok : ∀ n, 0 ≤ n → n + slice_len samples ≤ max_alloc →
    foldl (λ ok s, if cs_Success s then int_add ok 1 else ok) n samples
    = n + successes (cs_Success <$> samples)).
  { clear Hlen. unfold slice_len. induction samples as [|s l IH]; intros n Hn Hm; [simpl; lia|].
    rewrite fmap_cons. cbn [foldl successes length] in *. unfold max_alloc in *.
    destruct (cs_Success s); rewrite ?int_add_id by int64_lia; rewrite IH by lia; lia. }
  rewrite Hok by lia. rewrite Z.add_0_l. unfold slice_len in *.
  destruct samples as [|s l]; [done|]. simpl. by rewrite length_fmap.
Qed.

Lemma speed_fold_bounds samples sum mn mx :
  Forall (λ s, f_is_nan (ss_Mbps s) = false) samples →
  f_is_nan mn = false → f_is_nan mx = false →
  let '(_, mn', mx') := foldl speed_step (sum, mn, mx) samples in
  f_is_nan mn' = false ∧ f_is_nan mx' = false ∧
  f_leb mn' mn = true ∧ f_leb mx mx' = true ∧
  Forall (λ s, f_leb mn' (ss_Mbps s) = true ∧ f_leb (ss_Mbps s) mx' = true) samples ∧
  mn' ∈ mn :: (ss_Mbps <$> samples) ∧ mx' ∈ mx :: (ss_Mbps <$> samples).
Proof.
  intros Hall. revert sum mn mx.
  induction Hall as [|s samples Hs Hall IH]; intros sum mn mx Hmn Hmx; simpl.
  { split_and!; auto with healthd; by left. }
  set (mn1 := if f_ltb (ss_Mbps s) mn then _ else _).
  set (mx1 := if f_ltb mx (ss_Mbps s) then _ else _).
  assert (H1 : f_is_nan mn1 = false ∧ f_leb mn1 mn = true ∧ f_leb mn1 (ss_Mbps s) = true ∧
               (mn1 = mn ∨ mn1 = ss_Mbps s)).
  { subst mn1. destruct (f_ltb (ss_Mbps s) mn) eqn:E; split_and!; auto with healthd.
    by apply f_ltb_false. }
  assert (H2 : f_is_nan mx1 = false ∧ f_leb mx mx1 = true ∧ f_leb (ss_Mbps s) mx1 = true ∧
               (mx1 = mx ∨ mx1 = ss_Mbps s)).
  { subst mx1. destruct (f_ltb mx (ss_Mbps s)) eqn:E; split_and!; auto with healthd.
    by apply f_ltb_false. }
  destruct H1 as (Hn1 & Ha1 & Hb1 & He1), H2 as (Hn2 & Ha2 & Hb2 & He2).
  specialize (IH (f_add sum (ss_Mbps s)) mn1 mx1 Hn1 Hn2). clearbody mn1 mx1.
  destruct (foldl speed_step _ samples) as [[sum' mn'] mx'].
  destruct IH as (Hn1' & Hn2' & Hc1 & Hc2 & Hf & Hi1 & Hi2).
  split_and!; try done.
  - by apply (f_leb_trans mn' mn1 mn).
  - by apply (f_leb_trans mx mx1 mx').
  - constructor; [|done]. split; [by apply (f_leb_trans mn' mn1)|by apply (f_leb_trans _ mx1)].
  - rewrite !elem_of_cons in *. destruct He1 as [->| ->]; naive_solver.
  - rewrite !elem_of_cons in *. destruct He2 as [->| ->]; naive_solver.
Qed.

(** ** What the recorded operations amount to *)

Definition recorded_checks (name : string) (ops : list RegOp) : list CheckSample :=
  omap (λ op, match op with
              | OpCheck n t b => if decide (n = name)
                                 then Some {| cs_Time := t; cs_Success := b |} else None
              | _ => None
              end) ops.

Definition recorded_speeds (name : string) (ops : list RegOp) : list SpeedSample :=
  omap (λ op, match op with
              | OpSpeed n t m => if decide (n = name)
                                 then Some {| ss_Time := t; ss_Mbps := m |} else None
              | _ => None
              end) ops.

Definition latest_status (name : string) (ops : list RegOp) : UnitStatus :=
  foldl (λ st op, match op with
                  | OpSet st' => if decide (us_Name st' = name) then st' else st
                  | _ => st
                  end) (uv_status (fresh_view name)) ops.

Lemma fold_view_step_fresh name ops :
  foldl view_step (fresh_view name) (ops_of name ops) =
  MkUnitView (latest_status name ops) (lastn 100 (recorded_checks name ops))
    (lastn 100 (recorded_speeds name ops)).
Proof.
  induction ops as [|op ops IH] using rev_ind; [done|].
  unfold ops_of, latest_status, recorded_checks, recorded_speeds in *.
  rewrite filter_app, foldl_app, IH, foldl_snoc, !omap_app. clear IH.
  rewrite filter_cons, filter_nil. destruct op as [st|n t b|n t m]; simpl;
    case_decide; simpl; rewrite ?app_nil_r, ?lastn_lastn_app; done.
Qed.

(** ** Properties *)

(** C15: what the registry retains.  Register any units, then perform any
    sequence of status updates and samples for any names: nothing panics, the
    invariant holds, and the summary lists every unit once, in order of first
    registration, with its latest status and with the last 100 checks and
    speeds recorded under its own name, oldest first. *)
Theorem registry_retains names ops now :
  ∃ r0 r units, Register_all NewRegistry names = Some r0 ∧ apply_ops r0 ops = Some r ∧
    Registry_wf r ∧ r_order r = first_occurrences names ∧
    Summary (Some r) now = Some (MkFleetSummary now units) ∧
    Forall2 (λ name u,
      su_Status u = latest_status name ops ∧
      su_Checks u = lastn 100 (recorded_checks name ops) ∧
      su_Speeds u = lastn 100 (recorded_speeds name ops) ∧
      su_HistoryAvailability u = list_availability (cs_Success <$> su_Checks u) ∧
      su_Speed u = speedStats (su_Speeds u)) (first_occurrences names) units.
Proof.
  destruct (Register_all_spec names) as (r0 & H0 & Hwf0 & Ho0 & Hv0).
  destruct (apply_ops_spec r0 ops Hwf0) as (r & H1 & Hwf & Ho & Hv).
  destruct (Summary_spec r now Hwf) as (units & Hs & Hall).
  exists r0, r, units. split_and!; try done; [congruence|].
  rewrite Ho, Ho0 in Hall.
  eapply Forall2_impl; [exact Hall|].
  intros n u (v & Hn & ->). rewrite Hv, Hv0 in Hn.
  case_decide; [|done]. simpl in Hn. rewrite fold_view_step_fresh in Hn. simplify_eq.
  unfold view_summary; simpl. split_and!; try done.
  rewrite historyAvailability_list; [done|]. unfold slice_len. rewrite length_lastn.
  unfold max_alloc. lia.
Qed.

(** Units do not interfere.  Two executions of registry operations that
    perform the same operations per unit, in the same order for each unit but
    interleaved differently across units, produce the same snapshot and the
    same summary. *)
Theorem registry_interleaving_irrelevant r ops1 ops2 now :
  Registry_wf r →
  (∀ name, name ∈ r_order r → ops_of name ops1 = ops_of name ops2) →
  ∃ r1 r2, apply_ops r ops1 = Some r1 ∧ apply_ops r ops2 = Some r2 ∧
    Snapshot (Some r1) = Snapshot (Some r2) ∧
    Summary (Some r1) now = Summary (Some r2) now.
Proof.
  intros Hwf Hops.
  destruct (apply_ops_spec r ops1 Hwf) as (r1 & H1 & Hwf1 & Ho1 & Hv1).
  destruct (apply_ops_spec r ops2 Hwf) as (r2 & H2 & Hwf2 & Ho2 & Hv2).
  exists r1, r2. split_and!; try done.
  - simpl. rewrite Ho1, Ho2. apply list_fmap_ext. intros i n Hn.
    assert (n ∈ r_order r) as Hin by (apply list_elem_of_lookup; eauto).
    pose proof Hin as Hin'. rewrite <-Ho1 in Hin'.
    apply unit_view_registered in Hin' as [v Hv]; [|done].
    rewrite (unit_view_status r1 n v Hv). symmetry. apply unit_view_status.
    by rewrite Hv2, <-Hops, <-Hv1.
  - unfold Summary. rewrite Ho1, Ho2. f_equal.
    assert (Hex : ∀ n, n ∈ r_order r → unit_summary r1 n = unit_summary r2 n).
    { intros n Hin. pose proof Hin as Hin'. rewrite <-Ho1 in Hin'.
      apply unit_view_registered in Hin' as [v Hv]; [|done].
      rewrite (unit_summary_view r1 n v), (unit_summary_view r2 n v); try done.
      by rewrite Hv2, <-Hops, <-Hv1. }
    clear -Hex. induction (r_order r) as [|n ns IH]; [done|]. simpl.
    rewrite Hex by (by left). destruct (unit_summary r2 n); simpl; [|done].
    rewrite IH; [done|]. intros m Hm. apply Hex. by right.
Qed.

Lemma registry_interleaving_irrelevant_witness :
  ∃ r, Register_all NewRegistry ["a"; "b"] = Some r ∧
  ∃ r1 r2,
    apply_ops r [OpCheck "a" 1 true; OpCheck "b" 2 false; OpCheck "a" 3 false] = Some r1 ∧
    apply_ops r [OpCheck "b" 2 false; OpCheck "a" 1 true; OpCheck "a" 3 false] = Some r2 ∧
    Snapshot (Some r1) = Snapshot (Some r2) ∧
    Summary (Some r1) 9 = Summary (Some r2) 9.
Proof.
  destruct (Register_all_spec ["a"; "b"]) as (r & H0 & Hwf & Ho & _).
  exists r. split; [exact H0|].
  apply (registry_interleaving_irrelevant r); [exact Hwf|].
  intros name Hn. rewrite Ho in Hn.
  assert (name = "a" ∨ name = "b") as [-> | ->].
  { vm_compute in Hn. apply elem_of_cons in Hn as [->|Hn]; [by left|].
    apply list_elem_of_singleton in Hn as ->. by right. }
  - vm_compute. reflexivity.
  - vm_compute. reflexivity.
Defined.

(** Speed statistics.  For measurements that are numbers, [speedStats]
    reports their count, the latest one, and a minimum and a maximum that are
    measurements and bound every measurement. *)
Theorem speedStats_bounds samples :
  samples ≠ [] → Forall (λ s, f_is_nan (ss_Mbps s) = false) samples →
  ∃ st s, speedStats samples = Some st ∧ st_Count st = slice_len samples ∧
    last samples = Some s ∧ st_Latest st = ss_Mbps s ∧
    st_Min st ∈ ss_Mbps <$> samples ∧ st_Max st ∈ ss_Mbps <$> samples ∧
    Forall (λ s, f_leb (st_Min st) (ss_Mbps s) = true ∧
                 f_leb (ss_Mbps s) (st_Max st) = true) samples.
Proof.
  intros Hne Hall. destruct samples as [|s0 l]; [done|]. unfold speedStats.
  assert (Hs0 : f_is_nan (ss_Mbps s0) = false) by (by inversion Hall).
  pose proof (speed_fold_bounds (s0 :: l) f_zero _ _ Hall Hs0 Hs0) as Hb.
  destruct (foldl speed_step _ (s0 :: l)) as [[sum mn] mx].
  destruct Hb as (_ & _ & _ & _ & Hf & Hmn & Hmx).
  assert (Hlast : last (s0 :: l) = Some (List.last (s0 :: l) s0)).
  { clear. revert s0. generalize l. clear.
    induction l as [|s l IH]; intros s0; [done|].
    change (last (s0 :: s :: l)) with (last (s :: l)). rewrite IH.
    change (List.last (s0 :: s :: l) s0) with (List.last (s :: l) s0). f_equal.
    clear. revert s. induction l as [|t l IH]; intros s; [done|].
    change (List.last (s :: t :: l) ?d) with (List.last (t :: l) d).
    destruct l; [done|]. simpl in *. apply (IH s). }
  eexists _, _; split; [done|]. split_and!; [done|exact Hlast|done| | |exact Hf]; simpl in *.
  - rewrite !elem_of_cons in *. naive_solver.
  - rewrite !elem_of_cons in *. naive_solver.
Qed.

Lemma speedStats_bounds_witness :
  ∃ st, speedStats [ {| ss_Time := 1; ss_Mbps := f_of_int 30 |};
                     {| ss_Time := 2; ss_Mbps := f_of_int 10 |} ] = Some st ∧
        st_Latest st = f_of_int 10 ∧ st_Count st = 2.
Proof.
  destruct (speedStats_bounds [ {| ss_Time := 1; ss_Mbps := f_of_int 30 |};
                     {| ss_Time := 2; ss_Mbps := f_of_int 10 |} ])
    as (st & s & H1 & H2 & H3 & H4 & _); [done| |].
  { repeat constructor. }
  exists st. split; [exact H1|]. split; [|exact H2].
  rewrite H4. vm_compute in H3. injection H3 as <-. reflexivity.
Defined.


(** C40: retained-history availability is a percentage.  For at most 100
    samples (what a history ring holds) it lies between 0 and 100 and equals
    100 exactly when no retained check failed; and of two histories of the
    same length the one with more successes never has the lower percentage. *)
Theorem historyAvailability_percentage s1 s2 :
  slice_len s1 ≤ 100 → slice_len s2 = slice_len s1 →
  successes (cs_Success <$> s1) ≤ successes (cs_Success <$> s2) →
  f_leb f_zero (historyAvailability s1) = true ∧
  f_leb (historyAvailability s1) (historyAvailability s2) = true ∧
  f_leb (historyAvailability s2) f_hundred = true ∧
  (f_eqb (historyAvailability s1) f_hundred = true ↔ Forall (λ s, cs_Success s = true) s1).
Proof.
  intros Hl1 Hl2 Hs. unfold max_alloc in *.
  rewrite !historyAvailability_list by (unfold max_alloc; lia).
  assert (Hlen : ∀ l : list CheckSample, slice_len (cs_Success <$> l) = slice_len l).
  { intros l. unfold slice_len. by rewrite length_fmap. }
  pose proof (successes_all (cs_Success <$> s1)) as Hall. rewrite Forall_fmap in Hall.
  pose proof (successes_bounds (cs_Success <$> s1)).
  pose proof (successes_bounds (cs_Success <$> s2)).
  rewrite !Hlen in *.
  assert (Hav : ∀ l : list CheckSample, l ≠ [] →
    list_availability (cs_Success <$> l)
    = availability_of (successes (cs_Success <$> l)) (slice_len l)).
  { intros l Hne. rewrite <-Hlen. by destruct l. }
  destruct (decide (s1 = [])) as [->|Hne1]; [by destruct s2|].
  assert (Hne2 : s2 ≠ []) by (by destruct s1, s2).
  assert (0 < slice_len s1) by (destruct s1; [done|unfold slice_len; simpl; lia]).
  rewrite !Hav, Hl2 by done.
  destruct (availability_range (successes (cs_Success <$> s1)) (slice_len s1))
    as (Hr0 & _ & Hr2); [lia..|].
  destruct (availability_range (successes (cs_Success <$> s2)) (slice_len s1))
    as (_ & Hr3 & _); [lia..|].
  split_and!; [done|apply availability_mono; lia|done|].
  rewrite Hr2, bool_decide_eq_true. exact Hall.
Qed.

Lemma historyAvailability_percentage_witness :
  f_leb (historyAvailability [ {| cs_Time := 1; cs_Success := false |};
                               {| cs_Time := 2; cs_Success := true |} ])
        (historyAvailability [ {| cs_Time := 1; cs_Success := true |};
                               {| cs_Time := 2; cs_Success := true |} ]) = true.
Proof.
  apply (historyAvailability_percentage
           [ {| cs_Time := 1; cs_Success := false |}; {| cs_Time := 2; cs_Success := true |} ]
           [ {| cs_Time := 1; cs_Success := true |}; {| cs_Time := 2; cs_Success := true |} ]);
    vm_compute; done.
Defined.
