(* ===== verification/Dispatcher.v ===== *)
(** * The retrying dispatcher ([internal/notify/dispatcher.go], [service.go])

    A channel is what [Notify] does on each attempt ([outcome]: success, an
    error or a panic).  [deliver] is one goroutine's retry loop over an oracle
    [Env] for the outside world (the channel, [ctx.Err()] before an attempt,
    which case of the backoff [select] fires), for attempts that come back; it
    runs on fuel, and [deliver_loop_spec] shows [maxAttempts + 1] is enough.
    [Dispatch] starts one goroutine per known channel; their interleavings, with
    cancellation at any moment, are the step relation [pool_step].  There an
    attempt need not come back: [waits] names those that only a cancellation
    ends ([Email.Notify] waits for a send without any deadline, or for
    [ctx.Done]). *)

From S2P Require Import Prelude GoTime Float64 Slog.

Record Alert := MkAlert {
  al_Role : string;
  al_State : string;  (* "UNHEALTHY" or "HEALTHY" *)
  al_Timestamp : Time;
  al_Detail : string;
  al_ConsecutiveFailures : Z;
}.

(** What one call of a channel's [Notify] does, when it returns; whether it does
    is [waits] below. *)
Inductive outcome :=
  | Delivered
  | Failed (err : string)
  | Panicked (value : string).

Record Dispatcher (Service : Type) := MkDispatcher {
  d_channels : gmap string Service;
  d_maxAttempts : Z;
  d_baseDelay : Duration;
}.
Arguments MkDispatcher {_}.
Arguments d_channels {_}.
Arguments d_maxAttempts {_}.
Arguments d_baseDelay {_}.

Definition NewDispatcher {Service} (channels : gmap string Service) (maxAttempts : Z)
    (baseDelay : Duration) : Dispatcher Service :=
  let maxAttempts := if maxAttempts <? 1 then 1 else maxAttempts in
  let baseDelay := if baseDelay <? 0 then 0 else baseDelay in
  MkDispatcher channels maxAttempts baseDelay.

Definition maxBackoffShift : Z := 30.

(** [int64(1) << uint(shift)]: a negative count converts to a huge unsigned
    one, and shifting by 64 or more gives 0. *)
Definition shl_one (shift : Z) : Z :=
  if (shift <? 0) || (64 <=? shift) then 0 else int_wrap (Z.shiftl 1 shift).

Definition backoff (baseDelay : Duration) (attempt : Z) : Duration :=
  let shift := int_sub attempt 1 in
  let shift := if maxBackoffShift <? shift then maxBackoffShift else shift in
  int_mul baseDelay (shl_one shift).

(** [safeNotify]: a panic becomes an error; [None] is a nil error. *)
Definition safeNotify (o : outcome) : option string :=
  match o with
  | Delivered => None
  | Failed err => Some err
  | Panicked v => Some ("channel panic: " +:+ v)
  end.

(** ** One delivery *)

Record Env := {
  env_notify : Z → outcome;             (* the channel, by attempt *)
  env_ctx_err : Z → option string;      (* ctx.Err() before that attempt *)
  env_backoff_err : Z → option string;  (* ctx done during that backoff *)
}.

Inductive DeliverStep :=
  | Attempt (n : Z) (err : option string)
  | Backoff (d : Duration).

Inductive DeliverResult :=
  | Sent
  | Cancelled (err : string)
  | CancelledDuringBackoff (err : string)
  | Exhausted (lastErr : option string).

Fixpoint deliver_loop (maxAttempts baseDelay : Z) (env : Env) (fuel : nat)
    (attempt : Z) (lastErr : option string) : option (list DeliverStep * DeliverResult) :=
  match fuel with
  | O => None
  | S fuel =>
      if maxAttempts <? attempt then Some ([], Exhausted lastErr)
      else
        match env_ctx_err env attempt with
        | Some e => Some ([], Cancelled e)
        | None =>
            match safeNotify (env_notify env attempt) with
            | None => Some ([Attempt attempt None], Sent)
            | Some err =>
                if attempt <? maxAttempts then
                  match env_backoff_err env attempt with
                  | Some e =>
                      Some ([Attempt attempt (Some err); Backoff (backoff baseDelay attempt)],
                            CancelledDuringBackoff e)
                  | None =>
                      '(steps, res) ← deliver_loop maxAttempts baseDelay env fuel
                                        (int_add attempt 1) (Some err);
                      Some (Attempt attempt (Some err) ::
                            Backoff (backoff baseDelay attempt) :: steps, res)
                  end
                else
                  '(steps, res) ← deliver_loop maxAttempts baseDelay env fuel
                                    (int_add attempt 1) (Some err);
                  Some (Attempt attempt (Some err) :: steps, res)
            end
        end
  end.

(** The line logged when a delivery does not succeed. *)
Definition deliver_log (name : string) (maxAttempts : Z) (res : DeliverResult)
    : list LogRecord :=
  match res with
  | Sent => []
  | Cancelled e =>
      [MkLogRecord LevelWarn "dispatch cancelled"
         [("channel", SString name); ("error", SError e)]]
  | CancelledDuringBackoff e =>
      [MkLogRecord LevelWarn "dispatch cancelled during backoff"
         [("channel", SString name); ("error", SError e)]]
  | Exhausted lastErr =>
      [MkLogRecord LevelError "dispatch exhausted retries"
         [("channel", SString name); ("attempts", SInt maxAttempts);
          ("error", match lastErr with Some e => SError e | None => SString "<nil>" end)]]
  end.

Definition deliver {Service} (d : Dispatcher Service) (name : string) (env : Env)
    : option (list DeliverStep * DeliverResult * list LogRecord) :=
  '(steps, res) ← deliver_loop (d_maxAttempts d) (d_baseDelay d) env
                    (S (Z.to_nat (d_maxAttempts d))) 1 None;
  Some (steps, res, deliver_log name (d_maxAttempts d) res).

(** [Dispatch] before [wg.Wait]: the goroutines it starts, and a warning per
    unknown name. *)
Definition spawned {Service} (d : Dispatcher Service) (names : list string)
    : list (string * Service) :=
  omap (λ n, svc ← d_channels d !! n; Some (n, svc)) names.

Definition unknown_warnings {Service} (d : Dispatcher Service) (names : list string)
    : list LogRecord :=
  omap (λ n, match d_channels d !! n with
             | Some _ => None
             | None => Some (MkLogRecord LevelWarn "dispatch to unknown channel"
                               [("channel", SString n)])
             end) names.

(** ** Concurrent deliveries: every interleaving of the goroutines *)

(** Where a delivery goroutine is. *)
Inductive DState :=
  | Checking (attempt : Z) (lastErr : option string)
  | Notifying (attempt : Z)
  | Waiting (attempt : Z) (err : string)
  | Finished (res : DeliverResult).

Record Pool := MkPool {
  p_threads : list DState;
  p_ctx : option string;  (* ctx.Err() *)
}.

Section pool.
Context (maxAttempts : Z).
(** What channel [i] does on an attempt, given the state of the context. *)
Context (notify : nat → Z → option string → outcome).
(** Does attempt [a] on channel [i] wait until the context is done? *)
Context (waits : nat → Z → bool).

(** [Notify] comes back. *)
Definition returns (i : nat) (a : Z) (ctx : option string) : bool :=
  negb (waits i a) || match ctx with Some _ => true | None => false end.

Inductive thread_step (i : nat) (ctx : option string) : DState → DState → Prop :=
  | ts_exhausted a le :
      maxAttempts < a → thread_step i ctx (Checking a le) (Finished (Exhausted le))
  | ts_cancelled a le e :
      a ≤ maxAttempts → ctx = Some e →
      thread_step i ctx (Checking a le) (Finished (Cancelled e))
  | ts_check a le :
      a ≤ maxAttempts → ctx = None → thread_step i ctx (Checking a le) (Notifying a)
  | ts_sent a :
      returns i a ctx = true → safeNotify (notify i a ctx) = None →
      thread_step i ctx (Notifying a) (Finished Sent)
  | ts_failed a err :
      returns i a ctx = true → safeNotify (notify i a ctx) = Some err → a < maxAttempts →
      thread_step i ctx (Notifying a) (Waiting a err)
  | ts_failed_last a err :
      returns i a ctx = true → safeNotify (notify i a ctx) = Some err → maxAttempts ≤ a →
      thread_step i ctx (Notifying a) (Checking (int_add a 1) (Some err))
  | ts_timer a err :
      thread_step i ctx (Waiting a err) (Checking (int_add a 1) (Some err))
  | ts_backoff_cancelled a err e :
      ctx = Some e → thread_step i ctx (Waiting a err) (Finished (CancelledDuringBackoff e)).

Inductive pool_step : Pool → Pool → Prop :=
  | ps_thread ts ctx i s s' :
      ts !! i = Some s → thread_step i ctx s s' →
      pool_step (MkPool ts ctx) (MkPool (<[i := s']> ts) ctx)
  | ps_cancel ts e : pool_step (MkPool ts None) (MkPool ts (Some e)).

Definition initial_pool (n : nat) : Pool := MkPool (replicate n (Checking 1 None)) None.

Definition is_finished (s : DState) : bool :=
  match s with Finished _ => true | _ => false end.

(** [wg.Wait] returns when every goroutine has finished. *)
Definition wg_done (p : Pool) : Prop := Forall (λ s, is_finished s = true) (p_threads p).

(** A goroutine that has not finished can go on, unless it is inside an attempt
    that does not come back. *)
Definition can_move (i : nat) (ctx : option string) (s : DState) : bool :=
  match s with
  | Finished _ => false
  | Notifying a => returns i a ctx
  | _ => true
  end.

(** Nothing is cancelled, and every goroutine that has not finished, and there
    is one, is inside an attempt that waits for that. *)
Definition held_up (p : Pool) : Prop :=
  p_ctx p = None ∧ ¬ wg_done p ∧
  ∀ i s, p_threads p !! i = Some s → is_finished s = false →
    ∃ a, s = Notifying a ∧ waits i a = true.

(** Steps a goroutine can still take. *)
Definition thread_fuel (s : DState) : Z :=
  match s with
  | Checking a _ => 3 * (maxAttempts + 1 - a) + 1
  | Notifying a => 3 * (maxAttempts + 1 - a)
  | Waiting a _ => 3 * (maxAttempts + 1 - a) - 1
  | Finished _ => 0
  end.

Definition attempt_ok (s : DState) : Prop :=
  match s with
  | Checking a _ => 1 ≤ a ≤ maxAttempts + 1
  | Notifying a => 1 ≤ a ≤ maxAttempts
  | Waiting a _ => 1 ≤ a < maxAttempts
  | Finished _ => True
  end.

Definition sum_fuel (ts : list DState) : Z := foldr (λ s n, thread_fuel s + n) 0 ts.

Definition pool_fuel (p : Pool) : Z :=
  sum_fuel (p_threads p) + (if p_ctx p then 0 else 1).

Definition pool_ok (p : Pool) : Prop := Forall attempt_ok (p_threads p).

End pool.

(** ** Lemmas: the sequential loop *)

Definition attempts_of (steps : list DeliverStep) : list (Z * option string) :=
  omap (λ s, match s with Attempt n e => Some (n, e) | Backoff _ => None end) steps.

Definition backoffs_of (steps : list DeliverStep) : list Duration :=
  omap (λ s, match s with Backoff d => Some d | Attempt _ _ => None end) steps.

(** What a run that starts at attempt [a] and makes [n] attempts is. *)
Record run_spec (maxAttempts baseDelay : Z) (env : Env) (a : Z) (lastErr : option string)
    (n : Z) (steps : list DeliverStep) (res : DeliverResult) : Prop := {
  run_count : 0 ≤ n ≤ maxAttempts + 1 - a;
  run_attempts :
    attempts_of steps = (λ i, (i, safeNotify (env_notify env i))) <$> seqZ a n;
  run_uncancelled i : a ≤ i < a + n → env_ctx_err env i = None;
  run_failed i :
    a ≤ i < a + n - 1 → safeNotify (env_notify env i) ≠ None ∧ env_backoff_err env i = None;
  run_result :
    match res with
    | Sent => 0 < n ∧ safeNotify (env_notify env (a + n - 1)) = None ∧
              backoffs_of steps = backoff baseDelay <$> seqZ a (n - 1)
    | Exhausted e =>
        a + n - 1 = maxAttempts ∧
        (if decide (n = 0) then e = lastErr
         else e = safeNotify (env_notify env maxAttempts) ∧ e ≠ None) ∧
        backoffs_of steps = backoff baseDelay <$> seqZ a (n - 1)
    | Cancelled e =>
        a + n ≤ maxAttempts ∧ env_ctx_err env (a + n) = Some e ∧
        (0 < n → safeNotify (env_notify env (a + n - 1)) ≠ None ∧
                 env_backoff_err env (a + n - 1) = None) ∧
        backoffs_of steps = backoff baseDelay <$> seqZ a n
    | CancelledDuringBackoff e =>
        0 < n ∧ a + n - 1 < maxAttempts ∧ env_backoff_err env (a + n - 1) = Some e ∧
        safeNotify (env_notify env (a + n - 1)) ≠ None ∧
        backoffs_of steps = backoff baseDelay <$> seqZ a n
    end;
}.

Section loop.
Context (maxAttempts baseDelay : Z) (env : Env).
Hypothesis Hmax : 1 ≤ maxAttempts < int64_max.

Notation loop := (deliver_loop maxAttempts baseDelay env).
Notation err i := (safeNotify (env_notify env i)).

Lemma seqZ_cons' a n : 0 < n → seqZ a n = a :: seqZ (a + 1) (n - 1).
Proof. intros. rewrite seqZ_cons by lia. do 2 f_equal; lia. Qed.

(** A failed attempt followed by a run from the next attempt. *)
Lemma run_spec_cons a e lastErr n steps res :
  1 ≤ a ≤ maxAttempts →
  env_ctx_err env a = None → err a = Some e →
  (a < maxAttempts → env_backoff_err env a = None) →
  run_spec maxAttempts baseDelay env (a + 1) (Some e) n steps res →
  run_spec maxAttempts baseDelay env a lastErr (n + 1)
    (Attempt a (Some e) ::
     (if a <? maxAttempts then Backoff (backoff baseDelay a) :: steps else steps)) res.
Proof.
  intros Ha Hc He Hb [Hn Hatt Hunc Hfail Hres].
  assert (Hin : ∀ i, a ≤ i < a + (n + 1) → i = a ∨ a + 1 ≤ i < a + 1 + n) by (intros; lia).
  split.
  - lia.
  - rewrite seqZ_cons' by lia. rewrite fmap_cons, He. unfold attempts_of in *.
    replace (n + 1 - 1) with n by lia. rewrite <-Hatt. by destruct (a <? maxAttempts).
  - intros i Hi. destruct (Hin i Hi) as [->|]; [done|by apply Hunc].
  - intros i Hi. destruct (decide (i = a)) as [->|].
    + rewrite He. split; [done|apply Hb; lia].
    + apply Hfail. lia.
  - assert (Hbk : ∀ k, 0 ≤ k → backoffs_of steps = backoff baseDelay <$> seqZ (a + 1) k →
        a < maxAttempts →
        backoffs_of (Attempt a (Some e) ::
          (if a <? maxAttempts then Backoff (backoff baseDelay a) :: steps else steps))
        = backoff baseDelay <$> seqZ a (k + 1)).
    { intros k Hk Hs Hlt. rewrite seqZ_cons' by lia. rewrite fmap_cons.
      replace (k + 1 - 1) with k by lia. rewrite <-Hs.
      destruct (Z.ltb_spec a maxAttempts); [done|lia]. }
    destruct res as [|e'|e'|e'].
    + destruct Hres as (Hn0 & Hr1 & Hr2). replace (a + (n + 1) - 1) with (a + 1 + n - 1) by lia.
      split_and!; [lia|done|]. replace (n + 1 - 1) with (n - 1 + 1) by lia.
      apply Hbk; [lia|done|lia].
    + destruct Hres as (Hr1 & Hr2 & Hr3 & Hr4). replace (a + (n + 1)) with (a + 1 + n) by lia.
      split_and!; [lia|done| |apply Hbk; [lia|done|lia]].
      intros _. destruct (decide (n = 0)) as [->|].
      * replace (a + 1 + 0 - 1) with a by lia. rewrite He. split; [done|apply Hb; lia].
      * apply Hr3. lia.
    + destruct Hres as (Hr0 & Hr1 & Hr2 & Hr3 & Hr4).
      replace (a + (n + 1) - 1) with (a + 1 + n - 1) by lia.
      split_and!; [lia|lia|done|done|apply Hbk; [lia|done|lia]].
    + destruct Hres as (Hr1 & Hr2 & Hr3). split_and!; [lia| |].
      * rewrite decide_False by lia. destruct (decide (n = 0)) as [->|]; [|done].
        subst e'. assert (maxAttempts = a) as -> by lia. by rewrite He.
      * destruct (decide (n = 0)) as [->|].
        -- replace (0 + 1 - 1) with 0 by lia. unfold backoffs_of in *. simpl in *.
           destruct (Z.ltb_spec a maxAttempts); [lia|done].
        -- replace (n + 1 - 1) with (n - 1 + 1) by lia. apply Hbk; [lia|done|lia].
Qed.

Lemma seqZ_one a : seqZ a 1 = [a].
Proof. rewrite seqZ_cons' by lia. done. Qed.

Lemma deliver_loop_spec fuel a lastErr :
  1 ≤ a ≤ maxAttempts + 1 → maxAttempts + 1 - a < Z.of_nat fuel →
  ∃ n steps res, loop fuel a lastErr = Some (steps, res) ∧
    run_spec maxAttempts baseDelay env a lastErr n steps res.
Proof.
  revert a lastErr. induction fuel as [|fuel IH]; intros a lastErr Ha Hf; [lia|]. simpl.
  destruct (Z.ltb_spec maxAttempts a).
  { exists 0. eexists _, _; split; [done|]. split; simpl; try done; try lia.
    split_and!; done || lia. }
  destruct (env_ctx_err env a) as [e|] eqn:Hc.
  { exists 0. eexists _, _; split; [done|]. split; simpl; try done; try lia.
    rewrite Z.add_0_r. split_and!; done || lia. }
  destruct (err a) as [e|] eqn:He.
  - assert (Hnext : int_add a 1 = a + 1) by (apply int_add_id; int64_lia). rewrite Hnext.
    assert (Hrec : (a < maxAttempts → env_backoff_err env a = None) →
      ∃ n steps res, loop fuel (a + 1) (Some e) = Some (steps, res) ∧
        run_spec maxAttempts baseDelay env a lastErr n (Attempt a (Some e) ::
          (if a <? maxAttempts then Backoff (backoff baseDelay a) :: steps else steps)) res).
    { intros Hb. destruct (IH (a + 1) (Some e)) as (n & steps & res & Hl & Hr); [lia..|].
      exists (n + 1), steps, res. split; [done|]. apply run_spec_cons; done || lia. }
    destruct (Z.ltb_spec a maxAttempts) as [Hlt|Hlt].
    + destruct (env_backoff_err env a) as [e'|] eqn:Hb.
      * exists 1. eexists _, _; split; [done|].
        split; rewrite ?seqZ_one; simpl; rewrite ?He; try done; try lia.
        -- intros i Hi. by replace i with a by lia.
        -- replace (a + 1 - 1) with a by lia. rewrite He. split_and!; done || lia.
      * destruct Hrec as (n & steps & res & -> & Hr); [done|].
        simpl. eexists n, _, _; split; [done|done].
    + destruct Hrec as (n & steps & res & -> & Hr); [lia|].
      simpl. eexists n, _, _; split; [done|done].
  - exists 1. eexists _, _; split; [done|].
    split; rewrite ?seqZ_one; simpl; rewrite ?He; try done; try lia.
    + intros i Hi. by replace i with a by lia.
    + replace (a + 1 - 1) with a by lia. split_and!; done || lia.
Qed.

Lemma deliver_loop_fuel fuel fuel' a lastErr r :
  loop fuel a lastErr = Some r → (fuel ≤ fuel')%nat → loop fuel' a lastErr = Some r.
Proof.
  revert fuel' a lastErr r. induction fuel as [|fuel IH]; intros fuel' a lastErr r H Hle; [done|].
  destruct fuel' as [|fuel']; [lia|]. simpl in *.
  repeat case_match; try done;
    destruct (loop fuel _ _) as [[steps res]|] eqn:E; try done;
    by rewrite (IH fuel' _ _ _ E) by lia.
Qed.
End loop.

(** ** Lemmas: interleavings *)

Section schedules.
Context (maxAttempts : Z).
Context (notify : nat → Z → option string → outcome).
Context (waits : nat → Z → bool).
Hypothesis Hmax : 1 ≤ maxAttempts < int64_max.

Notation tstep := (thread_step maxAttempts notify waits).
Notation pstep := (pool_step maxAttempts notify waits).

Lemma thread_step_fuel i ctx s s' :
  tstep i ctx s s' → attempt_ok maxAttempts s →
  attempt_ok maxAttempts s' ∧ 0 ≤ thread_fuel maxAttempts s' < thread_fuel maxAttempts s.
Proof.
  destruct 1; simpl; intros; rewrite ?int_add_id by int64_lia; lia.
Qed.

Lemma thread_progress i ctx s :
  can_move waits i ctx s = true → ∃ s', tstep i ctx s s'.
Proof.
  destruct s as [a le|a|a e|r]; simpl; intros H; [| | |done].
  - destruct (decide (maxAttempts < a)); [eexists; by apply ts_exhausted|].
    destruct ctx as [e|]; [|eexists; apply ts_check; done || lia].
    eexists. eapply ts_cancelled; done || lia.
  - destruct (safeNotify (notify i a ctx)) as [e|] eqn:E; [|eexists; by apply ts_sent].
    destruct (decide (a < maxAttempts)); [eexists; by eapply ts_failed|].
    eexists; eapply ts_failed_last; done || lia.
  - eexists; by apply ts_timer.
Qed.

Lemma thread_step_moves i ctx s s' : tstep i ctx s s' → can_move waits i ctx s = true.
Proof. by destruct 1. Qed.

(** Once the context is done, every goroutine can go on. *)
Lemma cancelled_moves i e s : is_finished s = false → can_move waits i (Some e) s = true.
Proof. destruct s; simpl; unfold returns; intros; rewrite ?orb_true_r; done. Qed.

Lemma sum_fuel_insert ts i s s' :
  ts !! i = Some s →
  sum_fuel maxAttempts (<[i := s']> ts)
  = sum_fuel maxAttempts ts - thread_fuel maxAttempts s + thread_fuel maxAttempts s'.
Proof.
  revert i. induction ts as [|t ts IH]; intros [|i] H; simplify_eq/=; [lia|].
  rewrite (IH i) by done. lia.
Qed.

Lemma pool_step_fuel p p' :
  pstep p p' → pool_ok maxAttempts p →
  pool_ok maxAttempts p' ∧ pool_fuel maxAttempts p' + 1 ≤ pool_fuel maxAttempts p.
Proof.
  destruct 1 as [ts ctx i s s' Hs Hstep|ts e]; unfold pool_ok, pool_fuel; simpl; intros Hok.
  - pose proof (Forall_lookup_1 _ _ _ _ Hok Hs) as Hs_ok.
    destruct (thread_step_fuel _ _ _ _ Hstep Hs_ok) as [Hok' Hf].
    split; [by apply Forall_insert|]. rewrite (sum_fuel_insert _ _ s) by done. lia.
  - split; [done|lia].
Qed.

Lemma sum_fuel_nonneg ts : Forall (attempt_ok maxAttempts) ts → 0 ≤ sum_fuel maxAttempts ts.
Proof.
  induction 1 as [|s ts Hs Hts IH]; simpl; [done|]. destruct s; simpl in *; lia.
Qed.

Lemma pool_nsteps_fuel n p p' :
  nsteps pstep n p p' → pool_ok maxAttempts p →
  pool_ok maxAttempts p' ∧ Z.of_nat n + pool_fuel maxAttempts p' ≤ pool_fuel maxAttempts p.
Proof.
  induction 1 as [p|n p1 p2 p3 Hstep _ IH]; intros Hok; [split; [done|lia]|].
  destruct (pool_step_fuel _ _ Hstep Hok) as [Hok2 ?].
  destruct (IH Hok2) as [? ?]. split; [done|lia].
Qed.

Lemma not_done_unfinished ts ctx :
  ¬ wg_done (MkPool ts ctx) → ∃ i s, ts !! i = Some s ∧ is_finished s = false.
Proof.
  unfold wg_done; simpl. intros Hn. apply not_Forall_Exists in Hn; [|intros s; apply _].
  apply Exists_exists in Hn as (s & [i Hi]%list_elem_of_lookup & Hs%not_true_is_false). eauto.
Qed.

Lemma pool_progress p :
  ¬ wg_done p → (∃ p', pstep p p' ∧ p_ctx p' = p_ctx p) ∨ held_up waits p.
Proof.
  destruct p as [ts ctx]. intros Hn.
  destruct (decide (Exists (λ x, can_move waits x.1 ctx x.2 = true) (imap pair ts))) as [He|He].
  - left. apply Exists_exists in He as ([i s] & [k Hk]%list_elem_of_lookup & Hm).
    rewrite list_lookup_imap in Hk. apply fmap_Some in Hk as (s0 & Hs & [= -> ->]).
    destruct (thread_progress _ _ _ Hm) as [s' Hstep]. eexists. split; [by eapply ps_thread|done].
  - right. assert (Hstill : ∀ i s, ts !! i = Some s → can_move waits i ctx s = false).
    { intros i s Hi. apply not_true_is_false. intros Hm. apply He, Exists_exists. exists (i, s).
      split; [|done]. apply list_elem_of_lookup. exists i. by rewrite list_lookup_imap, Hi. }
    split_and!; [|done|].
    + destruct (not_done_unfinished _ _ Hn) as (i & s & Hi & Hs). simpl.
      destruct ctx as [e|]; [|done]. specialize (Hstill i s Hi). by rewrite cancelled_moves in Hstill.
    + simpl. intros i s Hi Hs. specialize (Hstill i s Hi). destruct s as [| a | |]; try done.
      exists a. split; [done|]. simpl in Hstill. unfold returns in Hstill.
      by destruct (waits i a).
Qed.

(** Goroutines held up do not move until something is cancelled. *)
Lemma held_up_step p p' :
  held_up waits p → pstep p p' → ∃ e, p' = MkPool (p_threads p) (Some e).
Proof.
  intros (Hc & _ & Hall) Hs. destruct Hs as [ts ctx i s s' Hi Ht|ts e]; simpl in *; [|by exists e].
  pose proof (thread_step_moves _ _ _ _ Ht) as Hm. subst ctx. exfalso.
  destruct (is_finished s) eqn:Hf; [by destruct s|].
  destruct (Hall i s Hi Hf) as (a & -> & Hw). simpl in Hm. unfold returns in Hm. by rewrite Hw in Hm.
Qed.

Lemma initial_pool_ok n : pool_ok maxAttempts (initial_pool n).
Proof. unfold pool_ok, initial_pool; simpl. apply Forall_replicate. simpl. lia. Qed.

Lemma initial_pool_fuel n :
  pool_fuel maxAttempts (initial_pool n) = Z.of_nat n * (3 * maxAttempts + 1) + 1.
Proof.
  unfold pool_fuel, initial_pool. cbn [p_threads p_ctx].
  assert (sum_fuel maxAttempts (replicate n (Checking 1 None)) = Z.of_nat n * (3 * maxAttempts + 1))
    as ->; [|lia].
  induction n as [|n IH]; [done|]. unfold sum_fuel in *. cbn [replicate foldr].
  rewrite IH. cbn [thread_fuel]. lia.
Qed.

(** Without cancellation every goroutine is deterministic: what remains to be
    done from its current point leads to the result of the sequential loop. *)
Definition sequential_env (i : nat) : Env :=
  {| env_notify a := notify i a None; env_ctx_err _ := None; env_backoff_err _ := None |}.

Definition result_from (i : nat) (a : Z) (le : option string) : option DeliverResult :=
  snd <$> deliver_loop maxAttempts 0 (sequential_env i) (S (Z.to_nat maxAttempts)) a le.

Definition leads_to (i : nat) (res : DeliverResult) (s : DState) : Prop :=
  match s with
  | Checking a le => result_from i a le = Some res
  | Notifying a => ∀ le, result_from i a le = Some res
  | Waiting a err => result_from i (int_add a 1) (Some err) = Some res
  | Finished r => r = res
  end.

Lemma result_from_unfold i a le :
  1 ≤ a ≤ maxAttempts + 1 →
  result_from i a le =
    if maxAttempts <? a then Some (Exhausted le)
    else match safeNotify (notify i a None) with
         | None => Some Sent
         | Some e => result_from i (int_add a 1) (Some e)
         end.
Proof.
  intros Ha. unfold result_from at 1. cbn [deliver_loop sequential_env env_ctx_err env_notify env_backoff_err].
  destruct (Z.ltb_spec maxAttempts a); [done|].
  destruct (safeNotify (notify i a None)) as [e|]; [|done].
  destruct (deliver_loop_spec maxAttempts 0 (sequential_env i) Hmax (Z.to_nat maxAttempts)
              (a + 1) (Some e)) as (n & steps & res & Hl & _); [lia..|].
  unfold result_from. rewrite (int_add_id a 1) by int64_lia.
  rewrite (deliver_loop_fuel _ _ _ _ (S (Z.to_nat maxAttempts)) _ _ _ Hl) by lia.
  rewrite Hl. by destruct (a <? maxAttempts).
Qed.

Lemma thread_step_leads i s s' res :
  tstep i None s s' → attempt_ok maxAttempts s → leads_to i res s → leads_to i res s'.
Proof.
  destruct 1 as [a le|a le e ? [=]|a le Hle _|a _ Hs|a e _ Hs|a e _ Hs|a e|a e e' [=]];
    simpl; intros Hok Hl; try done.
  - rewrite result_from_unfold in Hl by lia.
    by destruct (Z.ltb_spec maxAttempts a); [simplify_eq|lia].
  - intros le'. rewrite result_from_unfold in Hl |- * by lia.
    destruct (Z.ltb_spec maxAttempts a); [lia|]. done.
  - specialize (Hl None). rewrite result_from_unfold, Hs in Hl by lia.
    by destruct (Z.ltb_spec maxAttempts a); [lia|simplify_eq].
  - specialize (Hl None). rewrite result_from_unfold, Hs in Hl by lia.
    by destruct (Z.ltb_spec maxAttempts a); [lia|].
  - specialize (Hl None). rewrite result_from_unfold, Hs in Hl by lia.
    by destruct (Z.ltb_spec maxAttempts a); [lia|].
Qed.

(** No cancellation has happened yet: it would be visible in [p_ctx]. *)
Lemma uncancelled_back p p' : pstep p p' → p_ctx p' = None → p_ctx p = None.
Proof. by destruct 1. Qed.

Lemma pool_leads p p' :
  rtc pstep p p' → p_ctx p' = None → pool_ok maxAttempts p →
  ∀ f, (∀ i s, p_threads p !! i = Some s → leads_to i (f i) s) →
  length (p_threads p') = length (p_threads p) ∧
  (∀ i s, p_threads p' !! i = Some s → leads_to i (f i) s).
Proof.
  induction 1 as [p|p1 p2 p3 Hstep Hrtc IH]; intros Hctx Hok f Hf; [done|].
  assert (p_ctx p2 = None) as Hc2.
  { clear -Hrtc Hctx. induction Hrtc as [|p q r Hs _ IH]; [done|].
    eapply uncancelled_back; eauto. }
  destruct (pool_step_fuel _ _ Hstep Hok) as [Hok2 _].
  destruct (IH Hctx Hok2 f) as [Hlen Hall]; [|split; [|done]].
  - inversion Hstep as [ts ctx i s s' Hs Hts|]; subst; simpl in *; [|done].
    intros j t. subst ctx. destruct (decide (j = i)) as [->|].
    + rewrite list_lookup_insert_eq by (by eapply lookup_lt_Some). intros [= <-].
      eapply thread_step_leads; [done| |by apply Hf]. by eapply (Forall_lookup_1 _ _ _ _ Hok).
    + rewrite list_lookup_insert_ne by done. apply Hf.
  - rewrite Hlen. inversion Hstep; subst; simpl; [by rewrite length_insert|done].
Qed.
End schedules.

Lemma NewDispatcher_bounds {Service} (ch : gmap string Service) m b :
  d_maxAttempts (NewDispatcher ch m b) = Z.max 1 m ∧
  d_baseDelay (NewDispatcher ch m b) = Z.max 0 b ∧
  d_channels (NewDispatcher ch m b) = ch.
Proof.
  unfold NewDispatcher; simpl.
  destruct (Z.ltb_spec m 1), (Z.ltb_spec b 0); split_and!; lia || done.
Qed.

(** The largest base delay, in nanoseconds, whose backoffs all fit. *)
Definition max_safe_base : Z := 8589934591.

Lemma backoff_value b attempt :
  1 ≤ attempt ≤ int64_max → 0 ≤ b ≤ max_safe_base →
  backoff b attempt = b * 2 ^ (Z.min 30 (attempt - 1)).
Proof.
  unfold max_safe_base. intros Ha Hb. unfold backoff, maxBackoffShift, shl_one.
  rewrite int_sub_id by int64_lia.
  assert ((if 30 <? attempt - 1 then 30 else attempt - 1) = Z.min 30 (attempt - 1)) as ->.
  { destruct (Z.ltb_spec 30 (attempt - 1)); lia. }
  set (s := Z.min 30 (attempt - 1)). assert (0 ≤ s ≤ 30) by lia.
  destruct (Z.ltb_spec s 0), (Z.leb_spec 64 s); simpl; try lia.
  rewrite Z.shiftl_1_l. assert (1 ≤ 2 ^ s ≤ 2 ^ 30).
  { split; [change 1 with (2 ^ 0)|]; apply Z.pow_le_mono_r; lia. }
  rewrite int_wrap_id by int64_lia. apply int_mul_id. unfold in_int64, int64_min, int64_max. nia.
Qed.

(** Every complete schedule without cancellation gives each goroutine the
    result of its own sequential loop. *)
Lemma dispatch_results maxAttempts notify waits n p i :
  1 ≤ maxAttempts < int64_max →
  rtc (pool_step maxAttempts notify waits) (initial_pool n) p →
  wg_done p → p_ctx p = None → (i < n)%nat →
  ∃ steps res, p_threads p !! i = Some (Finished res) ∧
    deliver_loop maxAttempts 0 (sequential_env notify i) (S (Z.to_nat maxAttempts)) 1 None
    = Some (steps, res).
Proof.
  intros Hm Hrtc Hdone Hctx Hi.
  assert (Hseq : ∀ j, ∃ steps res,
    deliver_loop maxAttempts 0 (sequential_env notify j) (S (Z.to_nat maxAttempts)) 1 None
    = Some (steps, res)).
  { intros j. destruct (deliver_loop_spec maxAttempts 0 (sequential_env notify j) Hm
      (S (Z.to_nat maxAttempts)) 1 None) as (? & steps & res & ? & _); [lia..|]. eauto. }
  set (f := λ j, match result_from maxAttempts notify j 1 None with Some r => r | None => Sent end).
  destruct (pool_leads maxAttempts notify waits Hm _ p Hrtc Hctx (initial_pool_ok maxAttempts Hm n) f)
    as [Hlen Hall].
  { intros j s Hs. apply lookup_replicate in Hs as [-> _]. simpl. unfold f, result_from.
    destruct (Hseq j) as (steps & res & ->). done. }
  simpl in Hlen. rewrite length_replicate in Hlen.
  destruct (lookup_lt_is_Some_2 (p_threads p) i) as [s Hs]; [lia|].
  pose proof (Forall_lookup_1 _ _ _ _ Hdone Hs) as Hfin. destruct s as [| | |res]; try done.
  specialize (Hall i _ Hs). simpl in Hall. unfold f, result_from in Hall.
  destruct (Hseq i) as (steps & res' & Heq). rewrite Heq in Hall. simpl in Hall. subst res.
  eauto.
Qed.

(** A schedule in which every attempt comes back, as it does once the context is
    done, can be completed. *)
Lemma schedule_completes maxAttempts notify waits ts ctx :
  1 ≤ maxAttempts < int64_max → Forall (attempt_ok maxAttempts) ts →
  (∀ i a, returns waits i a ctx = true) →
  ∃ p, rtc (pool_step maxAttempts notify waits) (MkPool ts ctx) p ∧ wg_done p ∧ p_ctx p = ctx.
Proof.
  intros Hm Hok Hback. revert Hok. remember (Z.to_nat (sum_fuel maxAttempts ts)) as n eqn:Hn. revert ts Hn.
  induction n as [n IH] using lt_wf_ind. intros ts -> Hok.
  destruct (decide (wg_done (MkPool ts ctx))) as [Hd|Hd]; [by exists (MkPool ts ctx)|].
  destruct (not_done_unfinished _ _ Hd) as (i & s & Hi & Hs).
  destruct (thread_progress maxAttempts notify waits i ctx s) as [s' Hstep]; [by destruct s; simpl|].
  pose proof (Forall_lookup_1 _ _ _ _ Hok Hi) as Hs_ok.
  destruct (thread_step_fuel maxAttempts notify waits Hm _ _ _ _ Hstep Hs_ok) as [Hok' Hf].
  assert (Hins : Forall (attempt_ok maxAttempts) (<[i := s']> ts)) by (by apply Forall_insert).
  pose proof (sum_fuel_nonneg maxAttempts _ Hins).
  rewrite (sum_fuel_insert maxAttempts ts i s s' Hi) in *.
  destruct (IH (Z.to_nat (sum_fuel maxAttempts (<[i := s']> ts)))
    ltac:(rewrite (sum_fuel_insert maxAttempts ts i s s' Hi); lia) _ eq_refl Hins) as (p & Hp & ?).
  exists p. split; [|done]. eapply rtc_l; [by eapply ps_thread|exact Hp].
Qed.

(** A delivery that nothing cancels succeeds exactly if some attempt does. *)
Lemma sent_iff maxAttempts baseDelay env fuel steps res :
  1 ≤ maxAttempts < int64_max →
  deliver_loop maxAttempts baseDelay env fuel 1 None = Some (steps, res) →
  maxAttempts < Z.of_nat fuel →
  (∀ a, env_ctx_err env a = None) → (∀ a, env_backoff_err env a = None) →
  res = Sent ↔ ∃ k, 1 ≤ k ≤ maxAttempts ∧ env_notify env k = Delivered.
Proof.
  intros Hm Hl Hf Hc Hb.
  destruct (deliver_loop_spec maxAttempts baseDelay env Hm fuel 1 None) as (n & st & r & Hl' & Hs); [lia..|].
  rewrite Hl in Hl'. injection Hl' as <- <-. destruct Hs as [Hn _ _ Hfail Hres].
  assert (Hsafe : ∀ k, safeNotify (env_notify env k) = None ↔ env_notify env k = Delivered)
    by (intros k; by destruct (env_notify env k)).
  destruct res as [|e|e|e].
  - destruct Hres as (Hn0 & Hlast & _). split; [|done]. intros _. exists (1 + n - 1).
    split; [lia|]. by apply Hsafe.
  - destruct Hres as (_ & Hx & _). by rewrite Hc in Hx.
  - destruct Hres as (_ & _ & Hx & _). by rewrite Hb in Hx.
  - destruct Hres as (Hlast & Hlast' & _). split; [done|]. intros (k & Hk & Hd). exfalso.
    apply Hsafe in Hd. rewrite decide_False in Hlast' by lia. destruct Hlast' as [-> Hne].
    destruct (decide (k = maxAttempts)) as [->|]; [done|]. by apply (Hfail k ltac:(lia)).
Qed.

(** ** Properties *)

(** C19: the retry loop.  For every number of attempts below the largest
    [int] and every behaviour of the channel, its attempts coming back, and of the
    context, [deliver] returns; it makes consecutive attempts 1, 2, ... (at most
    [max 1 max_attempts]), each after checking the context, waits the backoff
    of each failed attempt that is not the last, stops at the first success,
    and otherwise reports cancellation or the error of the last attempt. *)
Theorem deliver_spec {Service} (ch : gmap string Service) m b name env :
  m < int64_max →
  let d := NewDispatcher ch m b in
  ∃ n steps res,
    deliver d name env = Some (steps, res, deliver_log name (Z.max 1 m) res) ∧
    run_spec (Z.max 1 m) (Z.max 0 b) env 1 None n steps res.
Proof.
  intros Hm d. destruct (NewDispatcher_bounds ch m b) as (H1 & H2 & _).
  fold d in H1, H2. unfold deliver. rewrite H1, H2.
  destruct (deliver_loop_spec (Z.max 1 m) (Z.max 0 b) env ltac:(int64_lia)
              (S (Z.to_nat (Z.max 1 m))) 1 None) as (n & steps & res & -> & Hr); [lia..|].
  simpl. eauto.
Qed.

Definition flaky_env : Env :=
  {| env_notify a := if a <? 3 then Failed "timeout" else Delivered;
     env_ctx_err _ := None; env_backoff_err _ := None |}.

Lemma deliver_spec_witness :
  ∃ steps, deliver (NewDispatcher (∅ : gmap string unit) 3 500000000) "hook" flaky_env
           = Some (steps, Sent, []) ∧
    attempts_of steps = [(1, Some "timeout"); (2, Some "timeout"); (3, None)] ∧
    backoffs_of steps = [500000000; 1000000000].
Proof.
  destruct (deliver_spec (∅ : gmap string unit) 3 500000000 "hook" flaky_env ltac:(reflexivity))
    as (n & steps & res & Hd & Hr).
  exists steps. pose proof Hd as Hd'. vm_compute in Hd'. injection Hd' as <- <-.
  split; [exact Hd|]. split; reflexivity.
Defined.

(** C39: exponential backoff without overflow.  For a base delay up to
    8.589934591 s the delay after attempt [k] is [base * 2^(k-1)], capped at
    [base * 2^30]; it never decreases and never wraps around. *)
Theorem backoff_exponential b attempt :
  1 ≤ attempt < int64_max → 0 ≤ b ≤ max_safe_base →
  backoff b attempt = b * 2 ^ (Z.min 30 (attempt - 1)) ∧
  b ≤ backoff b attempt ≤ backoff b (attempt + 1) ∧
  backoff b (attempt + 1) ≤ int64_max ∧
  (attempt ≤ 30 → backoff b (attempt + 1) = 2 * backoff b attempt).
Proof.
  intros Ha Hb. rewrite !backoff_value by (done || lia).
  replace (attempt + 1 - 1) with attempt by lia.
  assert (H0 : 1 ≤ 2 ^ Z.min 30 (attempt - 1)).
  { change 1 with (2 ^ 0) at 1. apply Z.pow_le_mono_r; lia. }
  assert (H1 : 2 ^ Z.min 30 (attempt - 1) ≤ 2 ^ Z.min 30 attempt ≤ 2 ^ 30).
  { split; apply Z.pow_le_mono_r; lia. }
  unfold max_safe_base, int64_max in *. split_and!; [done|nia..|].
  intros Hle. replace (Z.min 30 attempt) with (Z.succ (Z.min 30 (attempt - 1))) by lia.
  rewrite Z.pow_succ_r by lia. lia.
Qed.

Lemma backoff_exponential_witness :
  backoff 500000000 3 = 2000000000 ∧ backoff 500000000 4 = 2 * backoff 500000000 3.
Proof.
  destruct (backoff_exponential 500000000 3) as (H1 & _ & _ & H2);
    [unfold int64_max; lia|unfold max_safe_base; lia|].
  split; [rewrite H1; reflexivity|apply H2; lia].
Defined.

(** The clamp on the exponent does not exclude overflow.  With the
    admissible base delay of 10 s the delay computed after attempt 31 is
    negative, and with 2^34 ns it is zero: the timer fires at once. *)
Theorem backoff_overflow :
  backoff (int_mul 10000 Millisecond) 31 < 0 ∧ backoff (2 ^ 34) 31 = 0.
Proof. vm_compute. split; reflexivity. Qed.

(** The goroutines of [n] channels, from their start: a number of steps that no
    schedule exceeds, what is possible after [k] steps, and that a cancellation
    lets all finish. *)
Lemma pool_terminates maxAttempts notify waits n k p :
  1 ≤ maxAttempts < int64_max →
  nsteps (pool_step maxAttempts notify waits) k (initial_pool n) p →
  Z.of_nat k ≤ Z.of_nat n * (3 * maxAttempts + 1) + 1 ∧
  (wg_done p ∨ (∃ p', pool_step maxAttempts notify waits p p' ∧ p_ctx p' = p_ctx p) ∨
   held_up waits p) ∧
  (held_up waits p → ∀ p', pool_step maxAttempts notify waits p p' →
     ∃ e, p' = MkPool (p_threads p) (Some e)) ∧
  (∀ e, ∃ q, rtc (pool_step maxAttempts notify waits) (MkPool (p_threads p) (Some e)) q ∧ wg_done q).
Proof.
  intros Hm Hk.
  destruct (pool_nsteps_fuel maxAttempts notify waits Hm k _ p Hk (initial_pool_ok maxAttempts Hm n))
    as [Hok Hf].
  rewrite initial_pool_fuel in Hf.
  assert (0 ≤ pool_fuel maxAttempts p).
  { unfold pool_fuel. pose proof (sum_fuel_nonneg maxAttempts (p_threads p) Hok).
    destruct (p_ctx p); lia. }
  split_and!; [lia| |intros Hh p'; by apply held_up_step|].
  - destruct (decide (wg_done p)) as [|Hn]; [by left|right]. by apply pool_progress.
  - intros e. destruct (schedule_completes maxAttempts notify waits (p_threads p) (Some e) Hm Hok)
      as (q & Hq & Hd & _); [|by exists q].
    intros i a. unfold returns. by rewrite orb_true_r.
Qed.

(** C30: when [Dispatch] returns.  However the delivery goroutines of [n]
    channels and a cancellation interleave, at most
    [n * (3 * max_attempts + 1) + 1] steps are possible.  At any point either
    all goroutines have finished ([wg.Wait] returns), or one of them can go on
    without anything being cancelled, or they are held up: nothing is cancelled
    and each that has not finished is inside an attempt that does not come back
    before that ([waits]), and then nothing but a cancellation can happen.
    After a cancellation, from any point, all can finish, whatever waits; and if
    no attempt waits, every point has a way to the end without cancellation. *)
Theorem dispatch_terminates maxAttempts notify waits n k p :
  1 ≤ maxAttempts < int64_max →
  nsteps (pool_step maxAttempts notify waits) k (initial_pool n) p →
  Z.of_nat k ≤ Z.of_nat n * (3 * maxAttempts + 1) + 1 ∧
  (wg_done p ∨ (∃ p', pool_step maxAttempts notify waits p p' ∧ p_ctx p' = p_ctx p) ∨
   held_up waits p) ∧
  (held_up waits p → ∀ p', pool_step maxAttempts notify waits p p' →
     ∃ e, p' = MkPool (p_threads p) (Some e)) ∧
  (∀ e, ∃ q, rtc (pool_step maxAttempts notify waits) (MkPool (p_threads p) (Some e)) q ∧ wg_done q) ∧
  ((∀ i a, waits i a = false) →
   ∃ q, rtc (pool_step maxAttempts notify waits) p q ∧ wg_done q ∧ p_ctx q = p_ctx p).
Proof.
  intros Hm Hk. destruct (pool_terminates _ _ _ _ _ _ Hm Hk) as (H1 & H2 & H3 & H4).
  split_and!; [done..|]. intros Hw.
  destruct (pool_nsteps_fuel maxAttempts notify waits Hm k _ p Hk (initial_pool_ok maxAttempts Hm n))
    as [Hok _].
  destruct p as [ts ctx]. apply (schedule_completes maxAttempts notify waits ts ctx Hm Hok).
  intros i a. unfold returns. by rewrite Hw.
Qed.

(** The second channel's only attempt never comes back by itself. *)
Definition second_hangs (i : nat) (_ : Z) : bool := Nat.eqb i 1.

Lemma dispatch_terminates_witness :
  let p := MkPool [Finished Sent; Notifying 1] None in
  let step := pool_step 1 (λ _ _ _, Delivered) second_hangs in
  nsteps step 3 (initial_pool 2) p ∧ held_up second_hangs p ∧
  (∀ p', step p p' → ∃ e, p' = MkPool (p_threads p) (Some e)) ∧
  ∃ q, rtc step (MkPool (p_threads p) (Some "canceled")) q ∧ wg_done q.
Proof.
  cbv zeta.
  assert (Hs : nsteps (pool_step 1 (λ _ _ _, Delivered) second_hangs) 3 (initial_pool 2)
                 (MkPool [Finished Sent; Notifying 1] None)).
  { eapply nsteps_l. { apply (ps_thread _ _ _ _ None 0 (Checking 1 None)); [reflexivity|].
      apply ts_check; [lia|reflexivity]. }
    eapply nsteps_l. { apply (ps_thread _ _ _ _ None 0 (Notifying 1)); [reflexivity|].
      apply ts_sent; reflexivity. }
    eapply nsteps_l. { apply (ps_thread _ _ _ _ None 1 (Checking 1 None)); [reflexivity|].
      apply ts_check; [lia|reflexivity]. }
    apply nsteps_O. }
  assert (Hh : held_up second_hangs (MkPool [Finished Sent; Notifying 1] None)).
  { split; [reflexivity|]. split.
    - intros Hd. inversion_clear Hd as [|? ? _ Hd']. inversion Hd'. discriminate.
    - intros [|[|i]] s Hi Hf; [injection Hi as <-; discriminate Hf| |discriminate Hi].
      injection Hi as <-. exists 1. split; reflexivity. }
  destruct (dispatch_terminates 1 (λ _ _ _, Delivered) second_hangs 2 3 _
              ltac:(unfold int64_max; lia) Hs) as (_ & _ & Hstill & Hend & _).
  split; [exact Hs|]. split; [exact Hh|]. split; [exact (Hstill Hh)|exact (Hend "canceled")].
Defined.

(** C18: channels are isolated.  In every complete schedule without
    cancellation, whatever the other channels do (fail, panic, be slow), each
    goroutine ends with exactly the result its own channel gives the
    sequential retry loop. *)
Theorem dispatch_isolated maxAttempts notify waits n p i :
  1 ≤ maxAttempts < int64_max →
  rtc (pool_step maxAttempts notify waits) (initial_pool n) p →
  wg_done p → p_ctx p = None → (i < n)%nat →
  ∃ steps res, p_threads p !! i = Some (Finished res) ∧
    deliver_loop maxAttempts 0 (sequential_env notify i) (S (Z.to_nat maxAttempts)) 1 None
    = Some (steps, res).
Proof. apply dispatch_results. Qed.

(** One channel always panics, the other succeeds at its second attempt. *)
Definition mixed_notify (i : nat) (a : Z) (_ : option string) : outcome :=
  match i with
  | O => Panicked "boom"
  | _ => if a <? 2 then Failed "busy" else Delivered
  end.

(** Every attempt comes back. *)
Definition never_waits (_ : nat) (_ : Z) : bool := false.

Lemma dispatch_isolated_witness :
  ∃ p, rtc (pool_step 1 mixed_notify never_waits) (initial_pool 1) p ∧ wg_done p ∧
       p_threads p !! 0%nat = Some (Finished (Exhausted (Some "channel panic: boom"))).
Proof.
  set (p := MkPool [Finished (Exhausted (Some "channel panic: boom"))] None).
  assert (Hr : rtc (pool_step 1 mixed_notify never_waits) (initial_pool 1) p).
  { eapply rtc_l. { apply (ps_thread 1 mixed_notify never_waits _ _ 0 (Checking 1 None)); [reflexivity|].
      apply ts_check; [lia|reflexivity]. }
    eapply rtc_l. { apply (ps_thread 1 mixed_notify never_waits _ _ 0 (Notifying 1)); [reflexivity|].
      eapply ts_failed_last; [reflexivity|reflexivity|lia]. }
    eapply rtc_l. { apply (ps_thread 1 mixed_notify never_waits _ _ 0
        (Checking 2 (Some "channel panic: boom"))); [reflexivity|]. apply ts_exhausted. lia. }
    apply rtc_refl. }
  assert (Hd : wg_done p) by (repeat constructor).
  exists p. split; [exact Hr|]. split; [exact Hd|].
  destruct (dispatch_isolated 1 mixed_notify never_waits 1 p 0 ltac:(unfold int64_max; lia) Hr Hd eq_refl
              ltac:(lia)) as (steps & res & Hp & Hl).
  rewrite Hp. vm_compute in Hl. injection Hl as _ <-. reflexivity.
Defined.
