(* ===== verification/Config.v ===== *)
(** * Configuration: profiles, defaults, validation ([internal/config/config.go])

    The configuration records with the source's fields (an absent JSON field is
    the zero value), profile resolution, defaulting and validation.  A [range]
    over a Go map visits the keys in an unspecified order, so [applyDefaults]
    and [validateChannels] take the order as an argument, any permutation of
    the keys.  An error is a value that says which message it is and for which
    role, target or channel; its rendering as text is not modelled. *)

From S2P Require Import Prelude.
From S2P Require Import Float64.
From S2P Require Import GoString.
From S2P Require Import Url.

#[local] Open Scope healthd_scope.

Definition ChannelConsole : string := "console".
Definition ChannelWebhook : string := "webhook".
Definition ChannelEmail : string := "email".
Definition ChannelSMSGate : string := "smsgate".

Definition TriggerConsecutiveName : string := "consecutive".
Definition TriggerAvailabilityName : string := "availability".

Definition defaultWindowSize : Z := 20.
Definition defaultSummaryIntervalS : Z := 900.

(** ** Data *)

Record Retry := MkRetry { rt_MaxAttempts : Z; rt_BaseDelayMS : Z }.

Record Channel := MkChannel {
  ch_Type : string;
  ch_URL : string;
  ch_SMTPHost : string;
  ch_Port : Z;
  ch_From : string;
  ch_To : list string;
  ch_BaseURL : string;
  ch_Recipients : list string;
  ch_Username : string;
  ch_PasswordEnv : string;
  ch_TimeoutMS : Z;
}.

Record PongServer := MkPongServer {
  ps_Enabled : bool;
  ps_Listen : string;
  ps_ReadTimeoutMS : Z;
}.

Record MonitorParams := MkMonitorParams {
  mp_IntervalS : Z;
  mp_TimeoutMS : Z;
  mp_FailureThreshold : Z;
  mp_Trigger : string;
  mp_WindowSize : Z;
  mp_MinAvailability : float64;
  mp_Notify : list string;
  mp_InsecureSkipVerify : bool;
}.

Record Profile := MkProfile { pf_Params : MonitorParams }.

Record PingTarget := MkPingTarget {
  pt_Target : string;
  pt_Profile : string;
  pt_Params : MonitorParams;
}.

Record PingMonitor := MkPingMonitor {
  pm_Enabled : bool;
  pm_DefaultProfile : string;
  pm_Targets : list PingTarget;
}.

Record URLTarget := MkURLTarget {
  ut_URL : string;
  ut_Profile : string;
  ut_Params : MonitorParams;
}.

Record URLMonitor := MkURLMonitor {
  um_Enabled : bool;
  um_DefaultProfile : string;
  um_Targets : list URLTarget;
}.

Record InternetCheck := MkInternetCheck {
  ic_Enabled : bool;
  ic_Sites : list string;
  ic_IntervalS : Z;
  ic_TimeoutMS : Z;
  ic_FailureThreshold : Z;
  ic_Trigger : string;
  ic_WindowSize : Z;
  ic_MinAvailability : float64;
  ic_Notify : list string;
  ic_InsecureSkipVerify : bool;
}.

Record SpeedCheck := MkSpeedCheck {
  sc_Enabled : bool;
  sc_IntervalS : Z;
  sc_ThresholdMbps : float64;
  sc_Binary : string;
  sc_FailureThreshold : Z;
  sc_Trigger : string;
  sc_WindowSize : Z;
  sc_MinAvailability : float64;
  sc_Notify : list string;
}.

Record Roles := MkRoles {
  r_PongServer : PongServer;
  r_PingMonitor : PingMonitor;
  r_URLMonitor : URLMonitor;
  r_InternetCheck : InternetCheck;
  r_SpeedCheck : SpeedCheck;
}.

Record Config := MkConfig {
  c_Retry : Retry;
  c_SummaryIntervalS : Z;
  c_Profiles : gmap string Profile;
  c_Channels : gmap string Channel;
  c_Roles : Roles;
}.

#[export] Instance Channel_eq_dec : EqDecision Channel.
Proof. solve_decision. Defined.

(** ** Errors *)

(** Whom a message is about: a role, one of its targets ([target %d (%q)]), or
    a channel. *)
Inductive Subject :=
  | Global
  | Role (role : string)
  | Target (role : string) (i : nat) (address : string)
  | ChannelNamed (name type : string).

Inductive ConfigError :=
  | ReadConfig (err : string)
  | ParseConfig (err : string)
  | UndefinedDefaultProfile (role name : string)
  | UndefinedProfile (who : Subject) (name : string)
  | Required (who : Subject) (field : string)       (* "... is required" *)
  | NonEmpty (who : Subject) (field : string)       (* "... must be non-empty" *)
  | Positive (who : Subject) (field : string)       (* "... must be > 0" *)
  | AtLeastOne (who : Subject) (field : string)     (* "... must be >= 1" *)
  | NonNegative (who : Subject) (field : string)    (* "... must be >= 0" *)
  | UnknownType (who : Subject) (type : string)
  | WindowForAvailability (who : Subject)
  | MinAvailabilityRange (who : Subject)
  | UnknownTrigger (who : Subject) (trigger : string)
  | InvalidURL (who : Subject)
  | URLScheme (who : Subject) (scheme : string)
  | URLHost (who : Subject)
  | UndefinedChannel (who : Subject) (name : string).

(** ** Profiles *)

Definition or_int (a b : Z) : Z := if a =? 0 then b else a.
Definition or_string (a b : string) : string := if String.eqb a "" then b else a.
Definition or_float (a b : float64) : float64 := if f_eqb a f_zero then b else a.
Definition or_list {A} (a b : list A) : list A :=
  if (slice_len a =? 0)%Z then b else a.

Definition inheritFrom (p src : MonitorParams) : MonitorParams :=
  MkMonitorParams
    (or_int (mp_IntervalS p) (mp_IntervalS src))
    (or_int (mp_TimeoutMS p) (mp_TimeoutMS src))
    (or_int (mp_FailureThreshold p) (mp_FailureThreshold src))
    (or_string (mp_Trigger p) (mp_Trigger src))
    (or_int (mp_WindowSize p) (mp_WindowSize src))
    (or_float (mp_MinAvailability p) (mp_MinAvailability src))
    (or_list (mp_Notify p) (mp_Notify src))
    (mp_InsecureSkipVerify p || mp_InsecureSkipVerify src).

Record profileRef := MkProfileRef {
  pr_who : Subject;
  pr_profile : string;
  pr_params : MonitorParams;
}.

(** The targets' parameters after the merge; the source updates them through
    pointers, each target having its own. *)
Definition resolve_ref (profiles : gmap string Profile) (defaultProfile : string)
    (r : profileRef) : result ConfigError MonitorParams :=
  let name := or_string (pr_profile r) defaultProfile in
  if String.eqb name "" then Ok (pr_params r)
  else match profiles !! name with
       | None => Err (UndefinedProfile (pr_who r) name)
       | Some p => Ok (inheritFrom (pr_params r) (pf_Params p))
       end.

Definition resolveProfileRefs (profiles : gmap string Profile) (role defaultProfile : string)
    (refs : list profileRef) : result ConfigError (list MonitorParams) :=
  if negb (String.eqb defaultProfile "") && negb (bool_decide (is_Some (profiles !! defaultProfile)))
  then Err (UndefinedDefaultProfile role defaultProfile)
  else mapM (resolve_ref profiles defaultProfile) refs.

Definition set_ping_params (t : PingTarget) (p : MonitorParams) : PingTarget :=
  MkPingTarget (pt_Target t) (pt_Profile t) p.
Definition set_url_params (t : URLTarget) (p : MonitorParams) : URLTarget :=
  MkURLTarget (ut_URL t) (ut_Profile t) p.

Definition ping_refs (pm : PingMonitor) : list profileRef :=
  imap (λ i t, MkProfileRef (Target "ping_monitor" i (pt_Target t)) (pt_Profile t) (pt_Params t))
       (pm_Targets pm).
Definition url_refs (um : URLMonitor) : list profileRef :=
  imap (λ i t, MkProfileRef (Target "url_monitor" i (ut_URL t)) (ut_Profile t) (ut_Params t))
       (um_Targets um).

Definition resolve_ping (profiles : gmap string Profile) (pm : PingMonitor)
    : result ConfigError PingMonitor :=
  if pm_Enabled pm then
    ps ← resolveProfileRefs profiles "ping_monitor" (pm_DefaultProfile pm) (ping_refs pm);
    Ok (MkPingMonitor (pm_Enabled pm) (pm_DefaultProfile pm)
          (zip_with set_ping_params (pm_Targets pm) ps))
  else Ok pm.

Definition resolve_url (profiles : gmap string Profile) (um : URLMonitor)
    : result ConfigError URLMonitor :=
  if um_Enabled um then
    ps ← resolveProfileRefs profiles "url_monitor" (um_DefaultProfile um) (url_refs um);
    Ok (MkURLMonitor (um_Enabled um) (um_DefaultProfile um)
          (zip_with set_url_params (um_Targets um) ps))
  else Ok um.

Definition resolveProfiles (c : Config) : result ConfigError Config :=
  let r := c_Roles c in
  pm ← resolve_ping (c_Profiles c) (r_PingMonitor r);
  um ← resolve_url (c_Profiles c) (r_URLMonitor r);
  Ok (MkConfig (c_Retry c) (c_SummaryIntervalS c) (c_Profiles c) (c_Channels c)
        (MkRoles (r_PongServer r) pm um (r_InternetCheck r) (r_SpeedCheck r))).

(** ** Defaults *)

(** [applyTriggerDefaults]: the two pointers, as a pair. *)
Definition applyTriggerDefaults (trigger : string) (windowSize : Z) : string * Z :=
  (or_string trigger TriggerConsecutiveName, or_int windowSize defaultWindowSize).

Definition applyParamDefaults (p : MonitorParams) : MonitorParams :=
  let '(trigger, windowSize) := applyTriggerDefaults (mp_Trigger p) (mp_WindowSize p) in
  MkMonitorParams (mp_IntervalS p) (mp_TimeoutMS p) (or_int (mp_FailureThreshold p) 1)
    trigger windowSize (mp_MinAvailability p) (mp_Notify p) (mp_InsecureSkipVerify p).

Definition set_timeout (ch : Channel) (t : Z) : Channel :=
  MkChannel (ch_Type ch) (ch_URL ch) (ch_SMTPHost ch) (ch_Port ch) (ch_From ch) (ch_To ch)
    (ch_BaseURL ch) (ch_Recipients ch) (ch_Username ch) (ch_PasswordEnv ch) t.

Definition needs_timeout (ch : Channel) : bool :=
  (String.eqb (ch_Type ch) ChannelWebhook || String.eqb (ch_Type ch) ChannelSMSGate) &&
  (ch_TimeoutMS ch =? 0).

(** The body of the loop over the channels, for the key [name]. *)
Definition default_channel (m : gmap string Channel) (name : string) : gmap string Channel :=
  match m !! name with
  | Some ch => if needs_timeout ch then <[name := set_timeout ch 5000]> m else m
  | None => m
  end.

Definition default_internet (r : InternetCheck) : InternetCheck :=
  let '(trigger, windowSize) := applyTriggerDefaults (ic_Trigger r) (ic_WindowSize r) in
  MkInternetCheck (ic_Enabled r) (ic_Sites r) (ic_IntervalS r) (ic_TimeoutMS r)
    (or_int (ic_FailureThreshold r) 1) trigger windowSize (ic_MinAvailability r)
    (ic_Notify r) (ic_InsecureSkipVerify r).

Definition default_speed (r : SpeedCheck) : SpeedCheck :=
  let '(trigger, windowSize) := applyTriggerDefaults (sc_Trigger r) (sc_WindowSize r) in
  MkSpeedCheck (sc_Enabled r) (sc_IntervalS r) (sc_ThresholdMbps r)
    (or_string (sc_Binary r) "speedtest")
    (or_int (sc_FailureThreshold r) 1) trigger windowSize (sc_MinAvailability r) (sc_Notify r).

Definition applyDefaults (order : list string) (c : Config) : Config :=
  let r := c_Roles c in
  let pm := r_PingMonitor r in
  let um := r_URLMonitor r in
  MkConfig
    (MkRetry (or_int (rt_MaxAttempts (c_Retry c)) 3) (or_int (rt_BaseDelayMS (c_Retry c)) 500))
    (or_int (c_SummaryIntervalS c) defaultSummaryIntervalS)
    (c_Profiles c)
    (foldl default_channel (c_Channels c) order)
    (MkRoles (r_PongServer r)
       (MkPingMonitor (pm_Enabled pm) (pm_DefaultProfile pm)
          (map (λ t, set_ping_params t (applyParamDefaults (pt_Params t))) (pm_Targets pm)))
       (MkURLMonitor (um_Enabled um) (um_DefaultProfile um)
          (map (λ t, set_url_params t (applyParamDefaults (ut_Params t))) (um_Targets um)))
       (default_internet (r_InternetCheck r))
       (default_speed (r_SpeedCheck r))).

(** ** Validation *)

Definition is_empty (s : string) : bool := String.eqb s "".

Definition validateChannel (name : string) (ch : Channel) : option ConfigError :=
  let who := ChannelNamed name (ch_Type ch) in
  if String.eqb (ch_Type ch) ChannelConsole then None
  else if String.eqb (ch_Type ch) ChannelWebhook then
    fail_if (is_empty (ch_URL ch)) (Required who "url") ;!;
    fail_if (ch_TimeoutMS ch <=? 0) (Positive who "timeout_ms")
  else if String.eqb (ch_Type ch) ChannelEmail then
    fail_if (is_empty (ch_SMTPHost ch)) (Required who "smtp_host") ;!;
    fail_if (ch_Port ch <=? 0) (Positive who "port") ;!;
    fail_if (is_empty (ch_From ch)) (Required who "from") ;!;
    fail_if (slice_len (ch_To ch) =? 0) (NonEmpty who "to") ;!;
    fail_if (is_empty (ch_PasswordEnv ch)) (Required who "password_env")
  else if String.eqb (ch_Type ch) ChannelSMSGate then
    fail_if (is_empty (ch_BaseURL ch)) (Required who "base_url") ;!;
    fail_if (is_empty (ch_Username ch)) (Required who "username") ;!;
    fail_if (is_empty (ch_PasswordEnv ch)) (Required who "password_env") ;!;
    fail_if (slice_len (ch_Recipients ch) =? 0) (NonEmpty who "recipients") ;!;
    fail_if (ch_TimeoutMS ch <=? 0) (Positive who "timeout_ms")
  else if is_empty (ch_Type ch) then Some (Required who "type")
  else Some (UnknownType who (ch_Type ch)).

Definition validateChannels (order : list string) (channels : gmap string Channel)
    : option ConfigError :=
  for_each (λ name, ch ← channels !! name; validateChannel name ch) order.

Definition validateTrigger (who : Subject) (trigger : string) (windowSize : Z)
    (minAvailability : float64) : option ConfigError :=
  if String.eqb trigger "" || String.eqb trigger TriggerConsecutiveName then
    fail_if (windowSize <? 0) (NonNegative who "window_size")
  else if String.eqb trigger TriggerAvailabilityName then
    fail_if (windowSize <=? 0) (WindowForAvailability who) ;!;
    fail_if (f_leb minAvailability f_zero || f_ltb f_hundred minAvailability)
      (MinAvailabilityRange who)
  else Some (UnknownTrigger who trigger).

Definition validateHTTPURL (who : Subject) (raw : string) : option ConfigError :=
  match url_Parse raw with
  | None => Some (InvalidURL who)
  | Some u =>
      fail_if (negb (String.eqb (u_Scheme u) "http") && negb (String.eqb (u_Scheme u) "https"))
        (URLScheme who (u_Scheme u)) ;!;
      fail_if (is_empty (u_Host u)) (URLHost who)
  end.

Definition checkNotify (channels : gmap string Channel) (who : Subject) (notify : list string)
    : option ConfigError :=
  for_each (λ name,
    fail_if (negb (bool_decide (is_Some (channels !! name)))) (UndefinedChannel who name)) notify.

(** The checks the source repeats for the ping and for the URL targets. *)
Definition validate_params (channels : gmap string Channel) (who : Subject) (p : MonitorParams)
    : option ConfigError :=
  fail_if (mp_IntervalS p <=? 0) (Positive who "interval_s") ;!;
  fail_if (mp_TimeoutMS p <=? 0) (Positive who "timeout_ms") ;!;
  fail_if (mp_FailureThreshold p <? 1) (AtLeastOne who "failure_threshold") ;!;
  validateTrigger who (mp_Trigger p) (mp_WindowSize p) (mp_MinAvailability p) ;!;
  checkNotify channels who (mp_Notify p).

Definition validate_pong (r : PongServer) : option ConfigError :=
  if ps_Enabled r then
    fail_if (is_empty (ps_Listen r)) (Required (Role "pong_server") "listen") ;!;
    fail_if (ps_ReadTimeoutMS r <=? 0) (Positive (Role "pong_server") "read_timeout_ms")
  else None.

Definition validate_ping (channels : gmap string Channel) (r : PingMonitor)
    : option ConfigError :=
  if pm_Enabled r then
    fail_if (slice_len (pm_Targets r) =? 0) (NonEmpty (Role "ping_monitor") "targets") ;!;
    for_each (λ '(i, tgt),
      let who := Target "ping_monitor" i (pt_Target tgt) in
      fail_if (is_empty (pt_Target tgt)) (Required who "target") ;!;
      validate_params channels who (pt_Params tgt)) (imap pair (pm_Targets r))
  else None.

Definition validate_url (channels : gmap string Channel) (r : URLMonitor)
    : option ConfigError :=
  if um_Enabled r then
    fail_if (slice_len (um_Targets r) =? 0) (NonEmpty (Role "url_monitor") "targets") ;!;
    for_each (λ '(i, tgt),
      let who := Target "url_monitor" i (ut_URL tgt) in
      fail_if (is_empty (ut_URL tgt)) (Required who "url") ;!;
      validateHTTPURL who (ut_URL tgt) ;!;
      validate_params channels who (ut_Params tgt)) (imap pair (um_Targets r))
  else None.

Definition validate_internet (channels : gmap string Channel) (r : InternetCheck)
    : option ConfigError :=
  let who := Role "internet_check" in
  if ic_Enabled r then
    fail_if (slice_len (ic_Sites r) =? 0) (NonEmpty who "sites") ;!;
    fail_if (ic_IntervalS r <=? 0) (Positive who "interval_s") ;!;
    fail_if (ic_TimeoutMS r <=? 0) (Positive who "timeout_ms") ;!;
    fail_if (ic_FailureThreshold r <? 1) (AtLeastOne who "failure_threshold") ;!;
    validateTrigger who (ic_Trigger r) (ic_WindowSize r) (ic_MinAvailability r) ;!;
    checkNotify channels who (ic_Notify r)
  else None.

Definition validate_speed (channels : gmap string Channel) (r : SpeedCheck)
    : option ConfigError :=
  let who := Role "speed_check" in
  if sc_Enabled r then
    fail_if (f_leb (sc_ThresholdMbps r) f_zero) (Positive who "threshold_mbps") ;!;
    fail_if (sc_IntervalS r <=? 0) (Positive who "interval_s") ;!;
    fail_if (sc_FailureThreshold r <? 1) (AtLeastOne who "failure_threshold") ;!;
    validateTrigger who (sc_Trigger r) (sc_WindowSize r) (sc_MinAvailability r) ;!;
    checkNotify channels who (sc_Notify r)
  else None.

Definition validateRoles (c : Config) : option ConfigError :=
  let r := c_Roles c in
  validate_pong (r_PongServer r) ;!;
  validate_ping (c_Channels c) (r_PingMonitor r) ;!;
  validate_url (c_Channels c) (r_URLMonitor r) ;!;
  validate_internet (c_Channels c) (r_InternetCheck r) ;!;
  validate_speed (c_Channels c) (r_SpeedCheck r).

Definition Validate (order : list string) (c : Config) : option ConfigError :=
  fail_if (rt_MaxAttempts (c_Retry c) <? 1) (AtLeastOne Global "retry.max_attempts") ;!;
  fail_if (rt_BaseDelayMS (c_Retry c) <? 0) (NonNegative Global "retry.base_delay_ms") ;!;
  fail_if (c_SummaryIntervalS c <=? 0) (Positive Global "summary_interval_s") ;!;
  validateChannels order (c_Channels c) ;!;
  validateRoles c.

(** ** Loading *)

(** An order in which a [range] may visit the keys of the channel map. *)
Definition range_order (order : list string) (c : Config) : Prop :=
  order ≡ₚ elements (dom (c_Channels c)).

#[export] Instance range_order_dec order c : Decision (range_order order c).
Proof. unfold range_order. apply _. Defined.

(** [Load] after the file has been parsed: [order1] is the iteration order in
    [applyDefaults], [order2] the one in [validateChannels]. *)
Definition load_parsed (order1 order2 : list string) (c : Config) : result ConfigError Config :=
  c ← resolveProfiles c;
  let c := applyDefaults order1 c in
  match Validate order2 c with
  | Some e => Err e
  | None => Ok c
  end.

(** ** What a valid configuration is *)

Definition trigger_ok (trigger : string) (windowSize : Z) (minAvailability : float64) : Prop :=
  (trigger = "" ∨ trigger = TriggerConsecutiveName) ∧ 0 ≤ windowSize ∨
  trigger = TriggerAvailabilityName ∧ 0 < windowSize ∧
    f_leb minAvailability f_zero = false ∧ f_ltb f_hundred minAvailability = false.

Definition notify_ok (channels : gmap string Channel) (notify : list string) : Prop :=
  Forall (λ name, is_Some (channels !! name)) notify.

Record params_ok (channels : gmap string Channel) (p : MonitorParams) : Prop := {
  params_interval : 0 < mp_IntervalS p;
  params_timeout : 0 < mp_TimeoutMS p;
  params_threshold : 1 ≤ mp_FailureThreshold p;
  params_trigger : trigger_ok (mp_Trigger p) (mp_WindowSize p) (mp_MinAvailability p);
  params_notify : notify_ok channels (mp_Notify p);
}.

Definition channel_ok (ch : Channel) : Prop :=
  ch_Type ch = ChannelConsole ∨
  ch_Type ch = ChannelWebhook ∧ ch_URL ch ≠ "" ∧ 0 < ch_TimeoutMS ch ∨
  ch_Type ch = ChannelEmail ∧ ch_SMTPHost ch ≠ "" ∧ 0 < ch_Port ch ∧ ch_From ch ≠ "" ∧
    ch_To ch ≠ [] ∧ ch_PasswordEnv ch ≠ "" ∨
  ch_Type ch = ChannelSMSGate ∧ ch_BaseURL ch ≠ "" ∧ ch_Username ch ≠ "" ∧
    ch_PasswordEnv ch ≠ "" ∧ ch_Recipients ch ≠ [] ∧ 0 < ch_TimeoutMS ch.

(** An absolute [http] or [https] URL with a host. *)
Definition http_url (raw : string) : Prop :=
  ∃ u, url_Parse raw = Some u ∧ (u_Scheme u = "http" ∨ u_Scheme u = "https") ∧ u_Host u ≠ "".

Definition pong_ok (r : PongServer) : Prop :=
  ps_Enabled r = true → ps_Listen r ≠ "" ∧ 0 < ps_ReadTimeoutMS r.

Definition ping_ok channels (r : PingMonitor) : Prop :=
  pm_Enabled r = true →
  pm_Targets r ≠ [] ∧
  Forall (λ t, pt_Target t ≠ "" ∧ params_ok channels (pt_Params t)) (pm_Targets r).

Definition url_ok channels (r : URLMonitor) : Prop :=
  um_Enabled r = true →
  um_Targets r ≠ [] ∧
  Forall (λ t, ut_URL t ≠ "" ∧ http_url (ut_URL t) ∧ params_ok channels (ut_Params t))
         (um_Targets r).

Definition internet_ok channels (r : InternetCheck) : Prop :=
  ic_Enabled r = true →
  ic_Sites r ≠ [] ∧ 0 < ic_IntervalS r ∧ 0 < ic_TimeoutMS r ∧ 1 ≤ ic_FailureThreshold r ∧
  trigger_ok (ic_Trigger r) (ic_WindowSize r) (ic_MinAvailability r) ∧
  notify_ok channels (ic_Notify r).

Definition speed_ok channels (r : SpeedCheck) : Prop :=
  sc_Enabled r = true →
  f_leb (sc_ThresholdMbps r) f_zero = false ∧ 0 < sc_IntervalS r ∧ 1 ≤ sc_FailureThreshold r ∧
  trigger_ok (sc_Trigger r) (sc_WindowSize r) (sc_MinAvailability r) ∧
  notify_ok channels (sc_Notify r).

Record config_ok (c : Config) : Prop := {
  ok_attempts : 1 ≤ rt_MaxAttempts (c_Retry c);
  ok_delay : 0 ≤ rt_BaseDelayMS (c_Retry c);
  ok_summary : 0 < c_SummaryIntervalS c;
  ok_channels : map_Forall (λ _, channel_ok) (c_Channels c);
  ok_pong : pong_ok (r_PongServer (c_Roles c));
  ok_ping : ping_ok (c_Channels c) (r_PingMonitor (c_Roles c));
  ok_url : url_ok (c_Channels c) (r_URLMonitor (c_Roles c));
  ok_internet : internet_ok (c_Channels c) (r_InternetCheck (c_Roles c));
  ok_speed : speed_ok (c_Channels c) (r_SpeedCheck (c_Roles c));
}.

(** ** Lemmas: each check against its specification *)

Lemma is_empty_false s : is_empty s = false ↔ s ≠ "".
Proof. apply String.eqb_neq. Qed.

Lemma slice_len_nonempty {A} (l : list A) : (slice_len l =? 0) = false ↔ l ≠ [].
Proof. rewrite Z.eqb_neq. destruct l; unfold slice_len; simpl; split; intros; done || lia. Qed.

#[local] Hint Rewrite is_empty_false @slice_len_nonempty Z.leb_gt Z.ltb_ge orb_false_iff
  negb_false_iff : healthd_err.

Lemma checkNotify_spec channels who notify :
  checkNotify channels who notify = None ↔ notify_ok channels notify.
Proof.
  unfold checkNotify, notify_ok. rewrite for_each_None. apply Forall_proper; [|done].
  intros n. by rewrite fail_if_None, negb_false_iff, bool_decide_eq_true.
Qed.

Lemma validateTrigger_spec who t w m :
  validateTrigger who t w m = None ↔ trigger_ok t w m.
Proof.
  unfold validateTrigger, trigger_ok.
  destruct (String.eqb_spec t "") as [->|]; simpl.
  { autorewrite with healthd_err. naive_solver. }
  destruct (String.eqb_spec t TriggerConsecutiveName) as [->|]; simpl.
  { autorewrite with healthd_err. naive_solver. }
  destruct (String.eqb_spec t TriggerAvailabilityName) as [->|]; simpl;
    autorewrite with healthd_err; naive_solver.
Qed.

Lemma validateChannel_spec name ch : validateChannel name ch = None ↔ channel_ok ch.
Proof.
  unfold validateChannel, channel_ok.
  repeat match goal with
    | |- context [String.eqb (ch_Type ch) ?t] =>
        destruct (String.eqb_spec (ch_Type ch) t) as [E|];
          [rewrite E; autorewrite with healthd_err; naive_solver|]
    end.
  destruct (is_empty (ch_Type ch)); naive_solver.
Qed.

Lemma validateChannels_spec order channels :
  order ≡ₚ elements (dom channels) →
  validateChannels order channels = None ↔ map_Forall (λ _, channel_ok) channels.
Proof.
  intros Ho. unfold validateChannels. rewrite for_each_None, Forall_forall. split.
  - intros H name ch Hch. specialize (H name).
    rewrite Ho, elem_of_elements, elem_of_dom, Hch in H. simpl in H.
    by apply (validateChannel_spec name), H.
  - intros H name. rewrite Ho, elem_of_elements, elem_of_dom. intros [ch Hch].
    rewrite Hch. simpl. by apply validateChannel_spec, (H name).
Qed.

Lemma validateHTTPURL_spec who raw : validateHTTPURL who raw = None ↔ http_url raw.
Proof.
  unfold validateHTTPURL, http_url. destruct (url_Parse raw) as [u|]; [|naive_solver].
  autorewrite with healthd_err. rewrite andb_false_iff, !negb_false_iff, !String.eqb_eq.
  naive_solver.
Qed.

Lemma validate_params_spec channels who p :
  validate_params channels who p = None ↔ params_ok channels p.
Proof.
  unfold validate_params. autorewrite with healthd_err.
  rewrite validateTrigger_spec, checkNotify_spec. split; [|by intros []; split_and!].
  by intros (? & ? & ? & ? & ?); constructor.
Qed.

Lemma for_each_imap {A E} (f : nat → A → option E) l :
  for_each (λ '(i, x), f i x) (imap pair l) = None ↔ ∀ i x, l !! i = Some x → f i x = None.
Proof.
  rewrite for_each_None, Forall_lookup. setoid_rewrite list_lookup_imap. split.
  - intros H i x Hx. apply (H i (i, x)). by rewrite Hx.
  - intros H i [j x]. destruct (l !! i) eqn:Hl; simpl; intros; simplify_eq. by apply H.
Qed.

Lemma validate_pong_spec r : validate_pong r = None ↔ pong_ok r.
Proof.
  unfold validate_pong, pong_ok. destruct (ps_Enabled r); [|naive_solver].
  autorewrite with healthd_err. naive_solver.
Qed.

Lemma validate_ping_spec channels r : validate_ping channels r = None ↔ ping_ok channels r.
Proof.
  unfold validate_ping, ping_ok. destruct (pm_Enabled r); [|by split].
  rewrite err_then_None, fail_if_None, slice_len_nonempty.
  rewrite (for_each_imap (λ i tgt, _)), Forall_lookup.
  setoid_rewrite err_then_None. setoid_rewrite fail_if_None. setoid_rewrite is_empty_false.
  setoid_rewrite validate_params_spec. split; [done|intros H; by apply H].
Qed.

Lemma validate_url_spec channels r : validate_url channels r = None ↔ url_ok channels r.
Proof.
  unfold validate_url, url_ok. destruct (um_Enabled r); [|by split].
  rewrite err_then_None, fail_if_None, slice_len_nonempty.
  rewrite (for_each_imap (λ i tgt, _)), Forall_lookup.
  setoid_rewrite err_then_None. setoid_rewrite err_then_None.
  setoid_rewrite fail_if_None. setoid_rewrite is_empty_false.
  setoid_rewrite validateHTTPURL_spec. setoid_rewrite validate_params_spec. split; [done|intros H; by apply H].
Qed.

Lemma validate_internet_spec channels r :
  validate_internet channels r = None ↔ internet_ok channels r.
Proof.
  unfold validate_internet, internet_ok. destruct (ic_Enabled r); [|by split].
  autorewrite with healthd_err. rewrite validateTrigger_spec, checkNotify_spec.
  split; [done|intros H; by apply H].
Qed.

Lemma validate_speed_spec channels r :
  validate_speed channels r = None ↔ speed_ok channels r.
Proof.
  unfold validate_speed, speed_ok. destruct (sc_Enabled r); [|by split].
  autorewrite with healthd_err. rewrite validateTrigger_spec, checkNotify_spec.
  split; [done|intros H; by apply H].
Qed.

Lemma Validate_None order c :
  range_order order c → Validate order c = None ↔ config_ok c.
Proof.
  intros Ho. unfold Validate, validateRoles. autorewrite with healthd_err.
  rewrite (validateChannels_spec order) by done.
  rewrite validate_pong_spec, validate_ping_spec, validate_url_spec, validate_internet_spec,
    validate_speed_spec.
  split; [|by intros []; split_and!]. intros (? & ? & ? & ? & ? & ? & ? & ? & ?). by constructor.
Qed.

(** ** Lemmas: defaults *)

Lemma or_int_twice a d : or_int (or_int a d) d = or_int a d.
Proof. unfold or_int. repeat case_match; bool_to_prop; congruence || lia. Qed.

Lemma or_string_twice a d : or_string (or_string a d) d = or_string a d.
Proof. unfold or_string. repeat case_match; congruence. Qed.

Lemma or_int_set a d b : d ≠ 0 → or_int (or_int a d) b = or_int a d.
Proof. unfold or_int. intros. repeat case_match; bool_to_prop; congruence || lia. Qed.

Lemma or_string_set a d b : d ≠ "" → or_string (or_string a d) b = or_string a d.
Proof.
  unfold or_string. intros. destruct (String.eqb_spec a ""); [|by destruct (String.eqb_spec a "")].
  by destruct (String.eqb_spec d "").
Qed.

Lemma or_float_twice a b : or_float (or_float a b) b = or_float a b.
Proof. unfold or_float. repeat case_match; congruence. Qed.

Lemma or_list_twice {A} (a b : list A) : or_list (or_list a b) b = or_list a b.
Proof. unfold or_list. repeat case_match; congruence. Qed.

Lemma or_bool_twice (a b : bool) : (a || b) || b = a || b.
Proof. by destruct a, b. Qed.

Lemma applyParamDefaults_idem p : applyParamDefaults (applyParamDefaults p) = applyParamDefaults p.
Proof.
  unfold applyParamDefaults, applyTriggerDefaults. simpl.
  by rewrite !or_int_twice, or_string_twice.
Qed.

Lemma inheritFrom_resolved p q :
  inheritFrom (applyParamDefaults (inheritFrom p q)) q = applyParamDefaults (inheritFrom p q).
Proof.
  unfold applyParamDefaults, applyTriggerDefaults, inheritFrom. simpl.
  rewrite !or_int_twice, or_float_twice, or_list_twice, or_bool_twice.
  by rewrite (or_int_set _ 1), (or_int_set _ defaultWindowSize),
    (or_string_set _ TriggerConsecutiveName) by done.
Qed.

Definition fix_channel (ch : Channel) : Channel :=
  if needs_timeout ch then set_timeout ch 5000 else ch.

Lemma fix_channel_idem ch : fix_channel (fix_channel ch) = fix_channel ch.
Proof.
  unfold fix_channel. destruct (needs_timeout ch) eqn:H; [|by rewrite H].
  by replace (needs_timeout (set_timeout ch 5000)) with false
    by (unfold needs_timeout; simpl; by rewrite andb_false_r).
Qed.

Lemma default_channels_lookup order m name :
  foldl default_channel m order !! name =
    if bool_decide (name ∈ order) then fix_channel <$> m !! name else m !! name.
Proof.
  revert m. induction order as [|n order IH]; intros m; [done|]. cbn [foldl]. rewrite IH.
  assert (default_channel m n !! name = if decide (name = n) then fix_channel <$> m !! name
                                        else m !! name) as ->.
  { unfold default_channel, fix_channel. destruct (decide (name = n)) as [->|Hn].
    - destruct (m !! n) as [ch|] eqn:Hm; [|exact Hm].
      simpl. destruct (needs_timeout ch); [by rewrite lookup_insert_eq|by rewrite Hm].
    - destruct (m !! n) as [ch|]; [|done].
      destruct (needs_timeout ch); [by rewrite lookup_insert_ne by done|done]. }
  destruct (decide (name = n)) as [->|]; repeat case_bool_decide; try set_solver; try done.
  destruct (m !! n) as [ch|]; [|done]. simpl. by rewrite fix_channel_idem.
Qed.

Lemma default_channels order m :
  order ≡ₚ elements (dom m) → foldl default_channel m order = fix_channel <$> m.
Proof.
  intros Ho. apply map_eq. intros name. rewrite default_channels_lookup, lookup_fmap.
  case_bool_decide as Hn; [done|].
  rewrite Ho, elem_of_elements, not_elem_of_dom in Hn. by rewrite Hn.
Qed.

(** The result of [applyDefaults] does not depend on the iteration order. *)
Lemma applyDefaults_order o1 o2 c :
  range_order o1 c → range_order o2 c → applyDefaults o1 c = applyDefaults o2 c.
Proof. intros H1 H2. unfold applyDefaults. by rewrite !default_channels. Qed.

Lemma applyDefaults_dom order order' c :
  range_order order c → range_order order' (applyDefaults order c) ↔ range_order order' c.
Proof.
  intros Ho. unfold range_order. simpl. rewrite default_channels by done. by rewrite dom_fmap_L.
Qed.

Lemma default_internet_idem r : default_internet (default_internet r) = default_internet r.
Proof.
  unfold default_internet, applyTriggerDefaults. simpl.
  by rewrite !or_int_twice, or_string_twice.
Qed.

Lemma default_speed_idem r : default_speed (default_speed r) = default_speed r.
Proof.
  unfold default_speed, applyTriggerDefaults. simpl.
  by rewrite !or_int_twice, !or_string_twice.
Qed.

Lemma applyDefaults_idem o1 o2 c :
  range_order o1 c → range_order o2 (applyDefaults o1 c) →
  applyDefaults o2 (applyDefaults o1 c) = applyDefaults o1 c.
Proof.
  intros H1 H2. unfold applyDefaults at 1. rewrite default_channels by done.
  unfold applyDefaults. simpl. rewrite default_channels by done.
  rewrite !map_map, !or_int_twice, default_internet_idem, default_speed_idem.
  f_equal.
  - rewrite <- map_fmap_compose. apply map_fmap_ext. intros n ch _. simpl.
    apply fix_channel_idem.
  - f_equal; f_equal; apply map_ext; intros t; unfold set_ping_params, set_url_params; simpl;
      by rewrite applyParamDefaults_idem.
Qed.

(** ** Lemmas: profile resolution *)

(** The profile a target uses: its own, else the role's default, else none. *)
Definition chosen_profile (profiles : gmap string Profile) (dflt own : string) : option Profile :=
  let name := or_string own dflt in
  if String.eqb name "" then None else profiles !! name.

Definition inherit (p : MonitorParams) (prof : option Profile) : MonitorParams :=
  match prof with Some q => inheritFrom p (pf_Params q) | None => p end.

Definition undefined (profiles : gmap string Profile) (name : string) : Prop :=
  name ≠ "" ∧ profiles !! name = None.

Lemma or_string_empty a b : or_string a b = "" ↔ a = "" ∧ b = "".
Proof. unfold or_string. destruct (String.eqb_spec a ""); naive_solver. Qed.

Lemma resolve_ref_Ok profiles dflt r p :
  resolve_ref profiles dflt r = Ok p →
  p = inherit (pr_params r) (chosen_profile profiles dflt (pr_profile r)).
Proof.
  unfold resolve_ref, chosen_profile. destruct (String.eqb _ ""); [by intros [= <-]|].
  by destruct (profiles !! _); intros; simplify_eq/=.
Qed.

Lemma resolve_ref_defined profiles dflt r :
  ¬ undefined profiles (or_string (pr_profile r) dflt) →
  resolve_ref profiles dflt r =
    Ok (inherit (pr_params r) (chosen_profile profiles dflt (pr_profile r))).
Proof.
  unfold resolve_ref, chosen_profile, undefined.
  destruct (String.eqb_spec (or_string (pr_profile r) dflt) ""); [done|].
  destruct (profiles !! _); [done|naive_solver].
Qed.

Lemma resolveProfileRefs_Ok profiles role dflt refs ps :
  resolveProfileRefs profiles role dflt refs = Ok ps ↔
  ¬ undefined profiles dflt ∧
  Forall (λ r, ¬ undefined profiles (or_string (pr_profile r) dflt)) refs ∧
  ps = map (λ r, inherit (pr_params r) (chosen_profile profiles dflt (pr_profile r))) refs.
Proof.
  unfold resolveProfileRefs.
  assert ((negb (String.eqb dflt "") && negb (bool_decide (is_Some (profiles !! dflt))) = true)
          ↔ undefined profiles dflt) as Hd.
  { unfold undefined. rewrite andb_true_iff, !negb_true_iff, String.eqb_neq, bool_decide_eq_false.
    by rewrite eq_None_not_Some. }
  destruct (_ && _).
  { split; [done|]. intros (Hn & _). exfalso. by apply Hn, Hd. }
  rewrite mapM_Ok. split.
  - intros H. split; [intros Hu; by apply Hd in Hu|]. split.
    + apply Forall_forall. intros r Hr [Hne Hnone].
      apply list_elem_of_lookup in Hr as [i Hi].
      destruct (Forall2_lookup_l _ _ _ _ _ H Hi) as (p & _ & Hp). cbv [resolve_ref] in Hp.
      apply String.eqb_neq in Hne. by rewrite Hne, Hnone in Hp.
    + apply list_eq. intros i. rewrite list_lookup_fmap.
      destruct (refs !! i) as [r|] eqn:Hr; simpl.
      * destruct (Forall2_lookup_l _ _ _ _ _ H Hr) as (p & -> & Hp).
        by apply resolve_ref_Ok in Hp as ->.
      * apply lookup_ge_None in Hr. apply lookup_ge_None.
        by rewrite <- (Forall2_length _ _ _ H).
  - intros (_ & Hall & ->). apply Forall2_fmap_r. apply Forall_Forall2_diag.
    eapply Forall_impl; [exact Hall|]. intros r Hr. by apply resolve_ref_defined.
Qed.

(** What resolution makes of the parameters [own] of a target whose profile
    reference is [prof]. *)
Definition resolved_params (profiles : gmap string Profile) (dflt prof : string)
    (own : MonitorParams) : MonitorParams :=
  inherit own (chosen_profile profiles dflt prof).

(** No enabled role references a profile that does not exist. *)
Definition no_dangling (profiles : gmap string Profile) (enabled : bool) (dflt : string)
    (profs : list string) : Prop :=
  enabled = true →
  ¬ undefined profiles dflt ∧ Forall (λ p, ¬ undefined profiles p) profs.

Lemma undefined_or profiles dflt p :
  ¬ undefined profiles dflt → ¬ undefined profiles (or_string p dflt) ↔ ¬ undefined profiles p.
Proof.
  unfold or_string. intros Hd. destruct (String.eqb_spec p "") as [->|]; [|done].
  split; intros; [by intros []|done].
Qed.

Lemma zip_with_map_l {A B C} (f : A → B → C) (g : A → B) l :
  zip_with f l (map g l) = map (λ x, f x (g x)) l.
Proof. induction l as [|x l IH]; simpl; [done|]. by rewrite IH. Qed.

Lemma map_imap {A B C} (f : nat → A → B) (g : B → C) l :
  map g (imap f l) = imap (λ i x, g (f i x)) l.
Proof. revert f. induction l as [|x l IH]; intros f; simpl; [done|]. by rewrite IH. Qed.

Lemma imap_const {A B} (f : A → B) l : imap (λ _, f) l = map f l.
Proof. induction l as [|x l IH]; simpl; [done|]. by rewrite <- IH. Qed.

Lemma Forall_imap_const {A B} (P : B → Prop) (Q : A → Prop) (f : nat → A → B) l :
  (∀ i x, P (f i x) ↔ Q x) → Forall P (imap f l) ↔ Forall Q l.
Proof.
  revert f. induction l as [|x l IH]; intros f Hf; simpl; [done|].
  rewrite !Forall_cons, Hf. by rewrite (IH (f ∘ S)) by (intros; apply Hf).
Qed.

Definition resolved_ping (profiles : gmap string Profile) (r : PingMonitor) : PingMonitor :=
  if pm_Enabled r then
    MkPingMonitor (pm_Enabled r) (pm_DefaultProfile r)
      (map (λ t, set_ping_params t
              (resolved_params profiles (pm_DefaultProfile r) (pt_Profile t) (pt_Params t)))
           (pm_Targets r))
  else r.

Definition resolved_url (profiles : gmap string Profile) (r : URLMonitor) : URLMonitor :=
  if um_Enabled r then
    MkURLMonitor (um_Enabled r) (um_DefaultProfile r)
      (map (λ t, set_url_params t
              (resolved_params profiles (um_DefaultProfile r) (ut_Profile t) (ut_Params t)))
           (um_Targets r))
  else r.

Lemma resolve_ping_Ok profiles r r' :
  resolve_ping profiles r = Ok r' ↔
  no_dangling profiles (pm_Enabled r) (pm_DefaultProfile r) (map pt_Profile (pm_Targets r)) ∧
  r' = resolved_ping profiles r.
Proof.
  unfold resolve_ping, resolved_ping, no_dangling. destruct (pm_Enabled r); [|naive_solver].
  rewrite bind_Ok. setoid_rewrite resolveProfileRefs_Ok. unfold ping_refs.
  rewrite map_imap. simpl. rewrite (imap_const (λ t, inherit _ _)).
  setoid_rewrite (Forall_imap_const _
    (λ t, ¬ undefined profiles (or_string (pt_Profile t) (pm_DefaultProfile r))));
    [|by intros..]. rewrite Forall_map. split.
  - intros (ps & (Hd & Hall & ->) & [= <-]). rewrite zip_with_map_l. split; [|done]. intros _.
    split; [done|]. eapply Forall_impl; [exact Hall|]. intros t. simpl. by rewrite undefined_or.
  - intros [H ->]. destruct (H eq_refl) as [Hd Hall]. eexists. split; [split_and!|]; [done| |done|].
    + eapply Forall_impl; [exact Hall|]. intros t. simpl. by rewrite undefined_or.
    + by rewrite zip_with_map_l.
Qed.

Lemma resolve_url_Ok profiles r r' :
  resolve_url profiles r = Ok r' ↔
  no_dangling profiles (um_Enabled r) (um_DefaultProfile r) (map ut_Profile (um_Targets r)) ∧
  r' = resolved_url profiles r.
Proof.
  unfold resolve_url, resolved_url, no_dangling. destruct (um_Enabled r); [|naive_solver].
  rewrite bind_Ok. setoid_rewrite resolveProfileRefs_Ok. unfold url_refs.
  rewrite map_imap. simpl. rewrite (imap_const (λ t, inherit _ _)).
  setoid_rewrite (Forall_imap_const _
    (λ t, ¬ undefined profiles (or_string (ut_Profile t) (um_DefaultProfile r))));
    [|by intros..]. rewrite Forall_map. split.
  - intros (ps & (Hd & Hall & ->) & [= <-]). rewrite zip_with_map_l. split; [|done]. intros _.
    split; [done|]. eapply Forall_impl; [exact Hall|]. intros t. simpl. by rewrite undefined_or.
  - intros [H ->]. destruct (H eq_refl) as [Hd Hall]. eexists. split; [split_and!|]; [done| |done|].
    + eapply Forall_impl; [exact Hall|]. intros t. simpl. by rewrite undefined_or.
    + by rewrite zip_with_map_l.
Qed.

Definition references_ok (c : Config) : Prop :=
  let r := c_Roles c in
  no_dangling (c_Profiles c) (pm_Enabled (r_PingMonitor r)) (pm_DefaultProfile (r_PingMonitor r))
    (map pt_Profile (pm_Targets (r_PingMonitor r))) ∧
  no_dangling (c_Profiles c) (um_Enabled (r_URLMonitor r)) (um_DefaultProfile (r_URLMonitor r))
    (map ut_Profile (um_Targets (r_URLMonitor r))).

Definition resolved (c : Config) : Config :=
  let r := c_Roles c in
  MkConfig (c_Retry c) (c_SummaryIntervalS c) (c_Profiles c) (c_Channels c)
    (MkRoles (r_PongServer r) (resolved_ping (c_Profiles c) (r_PingMonitor r))
       (resolved_url (c_Profiles c) (r_URLMonitor r)) (r_InternetCheck r) (r_SpeedCheck r)).

Lemma resolveProfiles_Ok c c' :
  resolveProfiles c = Ok c' ↔ references_ok c ∧ c' = resolved c.
Proof.
  unfold resolveProfiles, references_ok. cbv zeta. rewrite bind_Ok.
  setoid_rewrite bind_Ok. setoid_rewrite resolve_ping_Ok. setoid_rewrite resolve_url_Ok.
  split.
  - intros (pm & [H1 ->] & um & [H2 ->] & [= <-]). done.
  - intros [[H1 H2] ->]. eauto 10.
Qed.

Lemma load_parsed_Ok o1 o2 c c' :
  range_order o1 c → range_order o2 c →
  load_parsed o1 o2 c = Ok c' ↔
  references_ok c ∧ c' = applyDefaults o1 (resolved c) ∧ config_ok c'.
Proof.
  intros H1 H2. unfold load_parsed. rewrite bind_Ok. setoid_rewrite resolveProfiles_Ok.
  assert (Ho : range_order o2 (applyDefaults o1 (resolved c))) by (by apply applyDefaults_dom).
  pose proof (Validate_None o2 (applyDefaults o1 (resolved c)) Ho) as Hv. split.
  - intros (c1 & [Hr ->] & Hc). destruct (Validate o2 _) eqn:E; [done|]. injection Hc as <-.
    split_and!; [done..|by apply Hv].
  - intros (Hr & -> & Hok). exists (resolved c). split; [done|].
    by rewrite (proj2 Hv Hok).
Qed.

(** Resolving again what has been resolved and defaulted changes nothing. *)
Lemma params_settled profiles dflt prof own :
  resolved_params profiles dflt prof (applyParamDefaults (resolved_params profiles dflt prof own))
  = applyParamDefaults (resolved_params profiles dflt prof own).
Proof.
  unfold resolved_params, inherit. destruct (chosen_profile _ _ _); [|done].
  apply inheritFrom_resolved.
Qed.

Lemma resolved_applyDefaults order c :
  resolved (applyDefaults order (resolved c)) = applyDefaults order (resolved c).
Proof.
  unfold applyDefaults. simpl. unfold resolved at 1. simpl. f_equal. f_equal.
  - unfold resolved_ping at 1. simpl. destruct (pm_Enabled _) eqn:E; [|done].
    unfold resolved_ping in *. destruct (pm_Enabled (r_PingMonitor (c_Roles c))) eqn:E';
      [|by rewrite E' in E]. simpl. f_equal. rewrite !map_map. apply map_ext.
    intros t. unfold set_ping_params. simpl. f_equal. apply params_settled.
  - unfold resolved_url at 1. simpl. destruct (um_Enabled _) eqn:E; [|done].
    unfold resolved_url in *. destruct (um_Enabled (r_URLMonitor (c_Roles c))) eqn:E';
      [|by rewrite E' in E]. simpl. f_equal. rewrite !map_map. apply map_ext.
    intros t. unfold set_url_params. simpl. f_equal. apply params_settled.
Qed.

Lemma references_settled order c :
  references_ok c → references_ok (applyDefaults order (resolved c)).
Proof.
  unfold references_ok, no_dangling, applyDefaults, resolved, resolved_ping, resolved_url. simpl.
  intros [Hp Hu]. split; simpl.
  - destruct (pm_Enabled _) eqn:E; simpl; rewrite ?E; [|done]. by rewrite !map_map.
  - destruct (um_Enabled _) eqn:E; simpl; rewrite ?E; [|done]. by rewrite !map_map.
Qed.

(** ** Lemmas: an error message is true of its subject *)

(** The values a message about a subject can refer to, by their JSON names. *)
Record Fields := {
  fd_ints : list (string * Z);
  fd_floats : list (string * float64);
  fd_strings : list (string * string);
  fd_lengths : list (string * Z);
  fd_trigger : option (string * Z * float64);
  fd_notify : list string;
  fd_url : option string;
}.

Definition params_fields (strings : list (string * string)) (url : option string)
    (p : MonitorParams) : Fields :=
  {| fd_ints := [("interval_s", mp_IntervalS p); ("timeout_ms", mp_TimeoutMS p);
                 ("failure_threshold", mp_FailureThreshold p); ("window_size", mp_WindowSize p)];
     fd_floats := []; fd_strings := strings; fd_lengths := [];
     fd_trigger := Some (mp_Trigger p, mp_WindowSize p, mp_MinAvailability p);
     fd_notify := mp_Notify p; fd_url := url |}.

Definition channel_fields (ch : Channel) : Fields :=
  {| fd_ints := [("timeout_ms", ch_TimeoutMS ch); ("port", ch_Port ch)];
     fd_floats := [];
     fd_strings := [("type", ch_Type ch); ("url", ch_URL ch); ("smtp_host", ch_SMTPHost ch);
                    ("from", ch_From ch); ("password_env", ch_PasswordEnv ch);
                    ("base_url", ch_BaseURL ch); ("username", ch_Username ch)];
     fd_lengths := [("to", slice_len (ch_To ch)); ("recipients", slice_len (ch_Recipients ch))];
     fd_trigger := None; fd_notify := []; fd_url := None |}.

Definition role_fields (r : Roles) (role : string) : option Fields :=
  if String.eqb role "pong_server" then
    guard (ps_Enabled (r_PongServer r) = true);;
    Some {| fd_ints := [("read_timeout_ms", ps_ReadTimeoutMS (r_PongServer r))]; fd_floats := [];
            fd_strings := [("listen", ps_Listen (r_PongServer r))]; fd_lengths := [];
            fd_trigger := None; fd_notify := []; fd_url := None |}
  else if String.eqb role "ping_monitor" then
    guard (pm_Enabled (r_PingMonitor r) = true);;
    Some {| fd_ints := []; fd_floats := []; fd_strings := [];
            fd_lengths := [("targets", slice_len (pm_Targets (r_PingMonitor r)))];
            fd_trigger := None; fd_notify := []; fd_url := None |}
  else if String.eqb role "url_monitor" then
    guard (um_Enabled (r_URLMonitor r) = true);;
    Some {| fd_ints := []; fd_floats := []; fd_strings := [];
            fd_lengths := [("targets", slice_len (um_Targets (r_URLMonitor r)))];
            fd_trigger := None; fd_notify := []; fd_url := None |}
  else if String.eqb role "internet_check" then
    let i := r_InternetCheck r in
    guard (ic_Enabled i = true);;
    Some {| fd_ints := [("interval_s", ic_IntervalS i); ("timeout_ms", ic_TimeoutMS i);
                        ("failure_threshold", ic_FailureThreshold i);
                        ("window_size", ic_WindowSize i)];
            fd_floats := []; fd_strings := []; fd_lengths := [("sites", slice_len (ic_Sites i))];
            fd_trigger := Some (ic_Trigger i, ic_WindowSize i, ic_MinAvailability i);
            fd_notify := ic_Notify i; fd_url := None |}
  else if String.eqb role "speed_check" then
    let i := r_SpeedCheck r in
    guard (sc_Enabled i = true);;
    Some {| fd_ints := [("interval_s", sc_IntervalS i);
                        ("failure_threshold", sc_FailureThreshold i);
                        ("window_size", sc_WindowSize i)];
            fd_floats := [("threshold_mbps", sc_ThresholdMbps i)];
            fd_strings := []; fd_lengths := [];
            fd_trigger := Some (sc_Trigger i, sc_WindowSize i, sc_MinAvailability i);
            fd_notify := sc_Notify i; fd_url := None |}
  else None.

Definition subject_fields (c : Config) (who : Subject) : option Fields :=
  match who with
  | Global =>
      Some {| fd_ints := [("retry.max_attempts", rt_MaxAttempts (c_Retry c));
                          ("retry.base_delay_ms", rt_BaseDelayMS (c_Retry c));
                          ("summary_interval_s", c_SummaryIntervalS c)];
              fd_floats := []; fd_strings := []; fd_lengths := []; fd_trigger := None;
              fd_notify := []; fd_url := None |}
  | Role role => role_fields (c_Roles c) role
  | Target role i address =>
      if String.eqb role "ping_monitor" then
        guard (pm_Enabled (r_PingMonitor (c_Roles c)) = true);;
        t ← pm_Targets (r_PingMonitor (c_Roles c)) !! i;
        guard (pt_Target t = address);;
        Some (params_fields [("target", address)] None (pt_Params t))
      else if String.eqb role "url_monitor" then
        guard (um_Enabled (r_URLMonitor (c_Roles c)) = true);;
        t ← um_Targets (r_URLMonitor (c_Roles c)) !! i;
        guard (ut_URL t = address);;
        Some (params_fields [("url", address)] (Some address) (ut_Params t))
      else None
  | ChannelNamed name type =>
      ch ← c_Channels c !! name; guard (ch_Type ch = type);; Some (channel_fields ch)
  end.

Definition subject_of (e : ConfigError) : Subject :=
  match e with
  | ReadConfig _ | ParseConfig _ | UndefinedDefaultProfile _ _ => Global
  | UndefinedProfile w _ | Required w _ | NonEmpty w _ | Positive w _ | AtLeastOne w _
  | NonNegative w _ | UnknownType w _ | WindowForAvailability w | MinAvailabilityRange w
  | UnknownTrigger w _ | InvalidURL w | URLScheme w _ | URLHost w | UndefinedChannel w _ => w
  end.

(** What an error says, read on the values of its subject. *)
Definition complaint (channels : gmap string Channel) (v : Fields) (e : ConfigError) : Prop :=
  match e with
  | Required _ f => (f, "") ∈ fd_strings v
  | NonEmpty _ f => (f, 0) ∈ fd_lengths v
  | Positive _ f =>
      (∃ z, (f, z) ∈ fd_ints v ∧ z ≤ 0) ∨
      (∃ x, (f, x) ∈ fd_floats v ∧ f_leb x f_zero = true)
  | AtLeastOne _ f => ∃ z, (f, z) ∈ fd_ints v ∧ z < 1
  | NonNegative _ f => ∃ z, (f, z) ∈ fd_ints v ∧ z < 0
  | UnknownType _ t =>
      ("type", t) ∈ fd_strings v ∧
      t ∉ [ChannelConsole; ChannelWebhook; ChannelEmail; ChannelSMSGate]
  | WindowForAvailability _ =>
      ∃ w m, fd_trigger v = Some (TriggerAvailabilityName, w, m) ∧ w ≤ 0
  | MinAvailabilityRange _ =>
      ∃ w m, fd_trigger v = Some (TriggerAvailabilityName, w, m) ∧
        (f_leb m f_zero = true ∨ f_ltb f_hundred m = true)
  | UnknownTrigger _ t =>
      (∃ w m, fd_trigger v = Some (t, w, m)) ∧
      t ∉ [""; TriggerConsecutiveName; TriggerAvailabilityName]
  | InvalidURL _ => ∃ raw, fd_url v = Some raw ∧ url_Parse raw = None
  | URLScheme _ s =>
      ∃ raw u, fd_url v = Some raw ∧ url_Parse raw = Some u ∧ u_Scheme u = s ∧
        s ∉ ["http"; "https"]
  | URLHost _ => ∃ raw u, fd_url v = Some raw ∧ url_Parse raw = Some u ∧ u_Host u = ""
  | UndefinedChannel _ n => n ∈ fd_notify v ∧ channels !! n = None
  | ReadConfig _ | ParseConfig _ | UndefinedDefaultProfile _ _ | UndefinedProfile _ _ => False
  end.

Definition true_error (c : Config) (e : ConfigError) : Prop :=
  ∃ v, subject_fields c (subject_of e) = Some v ∧ complaint (c_Channels c) v e.

(** Unfold a sequence of checks that ended in an error. *)
Ltac failed_checks :=
  repeat match goal with
    | H : err_then _ _ = Some _ |- _ => apply err_then_Some in H as [H|[_ H]]
    | H : fail_if _ _ = Some _ |- _ => apply fail_if_Some in H as [? ->]
    end.

Ltac find_field :=
  simpl; unfold is_empty in *; bool_to_prop; subst;
  repeat match goal with
    | H : _ = "" |- _ => rewrite H; clear H
    | H : slice_len _ = 0 |- _ => rewrite H; clear H
    end;
  first [set_solver | (eexists; split; [set_solver|lia])].

Lemma validateTrigger_error chs v who t w m e :
  validateTrigger who t w m = Some e →
  fd_trigger v = Some (t, w, m) → ("window_size", w) ∈ fd_ints v →
  subject_of e = who ∧ complaint chs v e.
Proof.
  unfold validateTrigger. intros He Ht Hw.
  destruct (String.eqb_spec t ""), (String.eqb_spec t TriggerConsecutiveName); simpl in He;
    try solve [failed_checks; split; [done|]; exists w; bool_to_prop; done].
  destruct (String.eqb_spec t TriggerAvailabilityName) as [->|]; failed_checks.
  - split; [done|]. exists w, m. bool_to_prop. done.
  - split; [done|]. exists w, m. apply orb_true_iff in H. done.
  - injection He as <-. split; [done|]. split; [eauto|set_solver].
Qed.

Lemma checkNotify_error chs v who notify e :
  checkNotify chs who notify = Some e → fd_notify v = notify →
  subject_of e = who ∧ complaint chs v e.
Proof.
  unfold checkNotify. intros (i & n & Hn & He)%for_each_Some Hv.
  apply fail_if_Some in He as [Hb ->]. split; [done|]. simpl. rewrite Hv.
  split; [by eapply list_elem_of_lookup_2|].
  apply negb_true_iff, bool_decide_eq_false in Hb. by apply eq_None_not_Some.
Qed.

Lemma validate_params_error chs who strs url p e :
  validate_params chs who p = Some e →
  subject_of e = who ∧ complaint chs (params_fields strs url p) e.
Proof.
  unfold validate_params. intros H. failed_checks.
  - split; [done|]. left. find_field.
  - split; [done|]. left. find_field.
  - split; [done|]. find_field.
  - eapply validateTrigger_error; [done..|]. simpl. set_solver.
  - by eapply checkNotify_error.
Qed.

Lemma validateHTTPURL_error chs v who raw e :
  validateHTTPURL who raw = Some e → fd_url v = Some raw →
  subject_of e = who ∧ complaint chs v e.
Proof.
  unfold validateHTTPURL. intros He Hv. destruct (url_Parse raw) as [u|] eqn:Hu.
  - failed_checks; (split; [done|]); exists raw, u; split_and!; try done.
    + bool_to_prop. set_solver.
    + by apply String.eqb_eq.
  - injection He as <-. split; [done|]. by exists raw.
Qed.

Lemma validateChannel_error chs name ch e :
  validateChannel name ch = Some e →
  subject_of e = ChannelNamed name (ch_Type ch) ∧ complaint chs (channel_fields ch) e.
Proof.
  unfold validateChannel. intros H.
  repeat match type of H with
    | context [String.eqb (ch_Type ch) ?t] => destruct (String.eqb_spec (ch_Type ch) t)
    end; cbn match in H; [done| | | |].
  1-3: failed_checks; (split; [done|]); simpl; try (left; find_field); find_field.
  unfold is_empty in H. destruct (String.eqb_spec (ch_Type ch) ""); injection H as <-;
    (split; [done|]); simpl; [find_field|]. set_solver.
Qed.
Lemma for_each_imap_Some {A E} (f : nat → A → option E) l e :
  for_each (λ '(i, x), f i x) (imap pair l) = Some e →
  ∃ i x, l !! i = Some x ∧ f i x = Some e.
Proof.
  intros (j & [i x] & Hl & Hf)%for_each_Some. rewrite list_lookup_imap in Hl.
  destruct (l !! j) eqn:Hj; simplify_eq/=. eauto.
Qed.

Lemma validate_pong_error c e :
  validate_pong (r_PongServer (c_Roles c)) = Some e → true_error c e.
Proof.
  unfold validate_pong, true_error. destruct (ps_Enabled _) eqn:E; [|done]. intros H. failed_checks;
    simpl; unfold role_fields; simpl; rewrite option_guard_True by done; simpl;
    eexists; (split; [done|]); [|left]; find_field.
Qed.

Lemma validate_ping_error c e :
  validate_ping (c_Channels c) (r_PingMonitor (c_Roles c)) = Some e → true_error c e.
Proof.
  unfold validate_ping, true_error. destruct (pm_Enabled _) eqn:E; [|done]. intros H. failed_checks.
  - simpl. unfold role_fields; simpl. rewrite option_guard_True by done. simpl.
    eexists. split; [done|]. find_field.
  - apply (for_each_imap_Some (λ i tgt, _)) in H as (i & t & Ht & H).
    assert (subject_fields c (Target "ping_monitor" i (pt_Target t)) =
      Some (params_fields [("target", pt_Target t)] None (pt_Params t))) as Hf.
    { simpl. rewrite option_guard_True by done. simpl. rewrite Ht. simpl.
      by rewrite option_guard_True by done. }
    failed_checks.
    + eexists. split; [exact Hf|]. find_field.
    + edestruct validate_params_error as [Hs Hc]; [exact H|]. rewrite Hs. eauto.
Qed.

Lemma validate_url_error c e :
  validate_url (c_Channels c) (r_URLMonitor (c_Roles c)) = Some e → true_error c e.
Proof.
  unfold validate_url, true_error. destruct (um_Enabled _) eqn:E; [|done]. intros H. failed_checks.
  - simpl. unfold role_fields; simpl. rewrite option_guard_True by done. simpl.
    eexists. split; [done|]. find_field.
  - apply (for_each_imap_Some (λ i tgt, _)) in H as (i & t & Ht & H).
    assert (subject_fields c (Target "url_monitor" i (ut_URL t)) =
      Some (params_fields [("url", ut_URL t)] (Some (ut_URL t)) (ut_Params t))) as Hf.
    { simpl. rewrite option_guard_True by done. simpl. rewrite Ht. simpl.
      by rewrite option_guard_True by done. }
    failed_checks.
    + eexists. split; [exact Hf|]. find_field.
    + destruct (validateHTTPURL_error (c_Channels c)
        (params_fields [("url", ut_URL t)] (Some (ut_URL t)) (ut_Params t)) _ _ _ H) as [Hs Hc];
        [done|rewrite Hs; eauto].
    + edestruct validate_params_error as [Hs Hc]; [exact H|]. rewrite Hs. eauto.
Qed.

Lemma validate_internet_error c e :
  validate_internet (c_Channels c) (r_InternetCheck (c_Roles c)) = Some e → true_error c e.
Proof.
  unfold validate_internet, true_error. destruct (ic_Enabled _) eqn:E; [|done]. intros H.
  assert (is_Some (subject_fields c (Role "internet_check"))) as [v Hv].
  { simpl. unfold role_fields; simpl. rewrite option_guard_True by done. simpl. eauto. }
  pose proof Hv as Hv'. simpl in Hv'. unfold role_fields in Hv'; simpl in Hv'.
  rewrite option_guard_True in Hv' by done. injection Hv' as Hv'.
  failed_checks; try (eexists; split; [exact Hv|]; rewrite <- Hv'; try left; find_field).
  - destruct (validateTrigger_error (c_Channels c) v _ _ _ _ _ H) as [Hs Hc];
      [by rewrite <- Hv'|rewrite <- Hv'; simpl; set_solver|rewrite Hs; eauto].
  - destruct (checkNotify_error (c_Channels c) v _ _ _ H) as [Hs Hc];
      [by rewrite <- Hv'|rewrite Hs; eauto].
Qed.

Lemma validate_speed_error c e :
  validate_speed (c_Channels c) (r_SpeedCheck (c_Roles c)) = Some e → true_error c e.
Proof.
  unfold validate_speed, true_error. destruct (sc_Enabled _) eqn:E; [|done]. intros H.
  assert (is_Some (subject_fields c (Role "speed_check"))) as [v Hv].
  { simpl. unfold role_fields; simpl. rewrite option_guard_True by done. simpl. eauto. }
  pose proof Hv as Hv'. simpl in Hv'. unfold role_fields in Hv'; simpl in Hv'.
  rewrite option_guard_True in Hv' by done. injection Hv' as Hv'.
  failed_checks.
  - eexists; split; [exact Hv|]. rewrite <- Hv'. right. eexists. split; [by apply list_elem_of_here|done].
  - eexists; split; [exact Hv|]. rewrite <- Hv'. left. find_field.
  - eexists; split; [exact Hv|]. rewrite <- Hv'. find_field.
  - destruct (validateTrigger_error (c_Channels c) v _ _ _ _ _ H) as [Hs Hc];
      [by rewrite <- Hv'|rewrite <- Hv'; simpl; set_solver|rewrite Hs; eauto].
  - destruct (checkNotify_error (c_Channels c) v _ _ _ H) as [Hs Hc];
      [by rewrite <- Hv'|rewrite Hs; eauto].
Qed.

Lemma Validate_error_true order c e : Validate order c = Some e → true_error c e.
Proof.
  unfold Validate, validateRoles. intros H. failed_checks.
  - eexists. split; [done|]. find_field.
  - eexists. split; [done|]. find_field.
  - eexists. split; [done|]. left. find_field.
  - unfold validateChannels in H. apply for_each_Some in H as (i & name & _ & H).
    destruct (c_Channels c !! name) as [ch|] eqn:Hch; simpl in H; [|done].
    edestruct validateChannel_error as [Hs Hc]; [exact H|].
    exists (channel_fields ch). rewrite Hs. simpl. rewrite Hch. simpl.
    rewrite option_guard_True by done. eauto.
  - by apply validate_pong_error.
  - by apply validate_ping_error.
  - by apply validate_url_error.
  - by apply validate_internet_error.
  - by apply validate_speed_error.
Qed.
(** The final value of one setting: inline, else the profile's, else the
    default. *)
Definition effective {A} (unset : A → bool) (get : MonitorParams → A) (own : MonitorParams)
    (prof : option Profile) (dflt : A) : A :=
  if negb (unset (get own)) then get own
  else match prof with
       | Some q => if negb (unset (get (pf_Params q))) then get (pf_Params q) else dflt
       | None => dflt
       end.

Definition unset_int (z : Z) : bool := z =? 0.
Definition unset_string (s : string) : bool := String.eqb s "".
Definition unset_list (l : list string) : bool := slice_len l =? 0.

Record precedence (own : MonitorParams) (prof : option Profile) (final : MonitorParams) : Prop := {
  prec_interval : mp_IntervalS final = effective unset_int mp_IntervalS own prof 0;
  prec_timeout : mp_TimeoutMS final = effective unset_int mp_TimeoutMS own prof 0;
  prec_threshold : mp_FailureThreshold final = effective unset_int mp_FailureThreshold own prof 1;
  prec_trigger :
    mp_Trigger final = effective unset_string mp_Trigger own prof TriggerConsecutiveName;
  prec_window : mp_WindowSize final = effective unset_int mp_WindowSize own prof 20;
  prec_min : mp_MinAvailability final =
    if f_eqb (mp_MinAvailability own) f_zero
    then match prof with
         | Some q => mp_MinAvailability (pf_Params q)
         | None => mp_MinAvailability own
         end
    else mp_MinAvailability own;
  prec_notify : mp_Notify final = effective unset_list mp_Notify own prof [];
  prec_insecure : mp_InsecureSkipVerify final =
    mp_InsecureSkipVerify own || match prof with
                                 | Some q => mp_InsecureSkipVerify (pf_Params q)
                                 | None => false
                                 end;
}.


Lemma precedence_resolved own prof : precedence own prof (applyParamDefaults (inherit own prof)).
Proof.
  constructor; unfold effective, unset_int, unset_string, unset_list, defaultWindowSize,
    applyParamDefaults, inherit, inheritFrom, applyTriggerDefaults, or_int, or_string, or_float, or_list;
    destruct prof as [q|]; simpl;
    repeat (case_match; bool_to_prop; simplify_eq/=; try congruence).
  all: try done. all: first [by rewrite orb_false_r|by apply slice_len_zero].
Qed.

(** ** Properties *)

(** C26: [Validate] accepts exactly the valid configurations, whatever order
    the channel map is visited in: every channel has its type's required
    fields, every enabled role has positive intervals and timeouts, a
    threshold of at least 1, a known trigger with a usable window and minimum,
    absolute http(s) URLs, and references only defined channels.  An error it
    reports is true of the channel, role or target it names. *)
Theorem Validate_correct order c :
  range_order order c →
  (Validate order c = None ↔ config_ok c) ∧
  (∀ e, Validate order c = Some e → true_error c e).
Proof. intros Ho. split; [by apply Validate_None|apply Validate_error_true]. Qed.

Definition console_channel : Channel :=
  MkChannel ChannelConsole "" "" 0 "" [] "" [] "" "" 0.
Definition hook_channel : Channel :=
  MkChannel ChannelWebhook "http://hooks.local/x" "" 0 "" [] "" [] "" "" 0.
Definition no_params : MonitorParams := MkMonitorParams 0 0 0 "" 0 f_zero [] false.

(** One profile, two channels, a ping target overriding the profile's interval
    and a URL target using the default profile; the other roles disabled. *)
Definition sample_config : Config :=
  MkConfig (MkRetry 0 0) 0
    {[ "fast" := MkProfile (MkMonitorParams 5 1000 3 "" 0 f_zero ["log"; "hook"] false) ]}
    (<["hook" := hook_channel]> {[ "log" := console_channel ]})
    (MkRoles (MkPongServer true ":7777" 2000)
       (MkPingMonitor true "" [MkPingTarget "db:7777" "fast"
          (MkMonitorParams 60 0 0 "" 0 f_zero [] false)])
       (MkURLMonitor true "fast" [MkURLTarget "https://example.org/health" "" no_params])
       (MkInternetCheck false [] 0 0 0 "" 0 f_zero [] false)
       (MkSpeedCheck false 0 f_zero "" 0 "" 0 f_zero [])).

Definition sample_order : list string := ["log"; "hook"].

Lemma sample_range : range_order sample_order sample_config.
Proof. apply (bool_decide_unpack _). vm_compute. exact I. Qed.

Lemma Validate_correct_witness :
  ∃ c, load_parsed sample_order sample_order sample_config = Ok c ∧
       range_order sample_order c ∧ config_ok c.
Proof.
  set (c := applyDefaults sample_order (resolved sample_config)).
  assert (Hr : range_order sample_order c) by (apply (bool_decide_unpack _); vm_compute; exact I).
  exists c. split; [vm_compute; reflexivity|]. split; [exact Hr|].
  apply (Validate_correct sample_order c Hr). vm_compute. reflexivity.
Defined.

(** C27: where the settings of a target come from.  After loading, every setting
    of every ping and URL target of an enabled role is the inline value if that
    is set, else the value of the one profile that applies to the target if that
    is set, else the default; [insecure_skip_verify] is on if either turns it on,
    and the addresses and the number of targets are unchanged.  A value counts as
    set if it is not Go's zero value (an explicit 0, an empty text or an empty
    list is unset), and the profile that applies is the target's own if it names
    one, otherwise the role's [default_profile], never both.  The README's chain
    from the inline field to the target's profile to the [default_profile] and
    its rule that an inline field always overrides promise more
    ([profiles_not_chained] and [inline_zero_inherits] of ConfigFile.v). *)
Theorem profile_precedence order1 order2 c c' :
  range_order order1 c → range_order order2 c →
  load_parsed order1 order2 c = Ok c' →
  (pm_Enabled (r_PingMonitor (c_Roles c)) = true →
   Forall2 (λ t t',
     pt_Target t' = pt_Target t ∧
     precedence (pt_Params t)
       (chosen_profile (c_Profiles c) (pm_DefaultProfile (r_PingMonitor (c_Roles c)))
          (pt_Profile t)) (pt_Params t'))
     (pm_Targets (r_PingMonitor (c_Roles c))) (pm_Targets (r_PingMonitor (c_Roles c')))) ∧
  (um_Enabled (r_URLMonitor (c_Roles c)) = true →
   Forall2 (λ t t',
     ut_URL t' = ut_URL t ∧
     precedence (ut_Params t)
       (chosen_profile (c_Profiles c) (um_DefaultProfile (r_URLMonitor (c_Roles c)))
          (ut_Profile t)) (ut_Params t'))
     (um_Targets (r_URLMonitor (c_Roles c))) (um_Targets (r_URLMonitor (c_Roles c')))).
Proof.
  intros H1 H2 (_ & -> & _)%load_parsed_Ok; [|done..]. simpl.
  unfold resolved_ping, resolved_url. split; intros ->; simpl; rewrite map_map;
    apply Forall2_fmap_r, Forall_Forall2_diag, Forall_true; intros t; simpl;
    (split; [done|]); apply precedence_resolved.
Qed.

Lemma profile_precedence_witness :
  ∃ c t, load_parsed sample_order sample_order sample_config = Ok c ∧
    pm_Targets (r_PingMonitor (c_Roles c)) !! 0%nat = Some t ∧
    mp_IntervalS (pt_Params t) = 60 ∧ mp_FailureThreshold (pt_Params t) = 3 ∧
    mp_WindowSize (pt_Params t) = 20 ∧ mp_Notify (pt_Params t) = ["log"; "hook"].
Proof.
  set (c := applyDefaults sample_order (resolved sample_config)).
  assert (Hl : load_parsed sample_order sample_order sample_config = Ok c)
    by (vm_compute; reflexivity).
  destruct (profile_precedence sample_order sample_order sample_config c sample_range sample_range
              Hl) as [Hp _]. specialize (Hp eq_refl).
  destruct (Forall2_lookup_l _ _ _ 0%nat _ Hp eq_refl) as (t & Ht & _ & Hprec).
  exists c, t. split; [exact Hl|]. split; [exact Ht|].
  destruct Hprec as [Hi _ Hf _ Hw _ Hn _]. rewrite Hi, Hf, Hw, Hn.
  vm_compute. split_and!; reflexivity.
Defined.

(** C10: what [Load] accepts, and what it guarantees.  Loading succeeds exactly
    when no enabled role references an undefined profile and the resolved and
    defaulted configuration is valid; it then returns that configuration,
    which is the same for every iteration order. *)
Theorem load_correct order1 order2 order1' order2' c :
  range_order order1 c → range_order order2 c →
  range_order order1' c → range_order order2' c →
  ((∃ c', load_parsed order1 order2 c = Ok c') ↔
     references_ok c ∧ config_ok (applyDefaults order1 (resolved c))) ∧
  (∀ c', load_parsed order1 order2 c = Ok c' →
     config_ok c' ∧ load_parsed order1' order2' c = Ok c').
Proof.
  intros H1 H2 H3 H4. setoid_rewrite load_parsed_Ok; [|done..]. split; [split|].
  - intros (c' & Hr & -> & Hok). done.
  - intros [Hr Hok]. eauto.
  - intros c' (Hr & -> & Hok). rewrite (applyDefaults_order order1 order1') in * by done. done.
Qed.

Lemma load_correct_witness :
  ∃ c, load_parsed sample_order sample_order sample_config = Ok c ∧ config_ok c ∧
       load_parsed (rev sample_order) sample_order sample_config = Ok c.
Proof.
  set (c := applyDefaults sample_order (resolved sample_config)).
  assert (Hl : load_parsed sample_order sample_order sample_config = Ok c)
    by (vm_compute; reflexivity).
  assert (Hrev : range_order (rev sample_order) sample_config).
  { apply (bool_decide_unpack _). vm_compute. exact I. }
  exists c. split; [exact Hl|].
  exact (proj2 (load_correct sample_order sample_order (rev sample_order) sample_order
                  sample_config sample_range sample_range Hrev sample_range) c Hl).
Defined.

(** Loading is idempotent: a loaded configuration, loaded again in any
    iteration orders, is returned unchanged. *)
Theorem load_idempotent order1 order2 order1' order2' c c' :
  range_order order1 c → range_order order2 c →
  load_parsed order1 order2 c = Ok c' →
  range_order order1' c' → range_order order2' c' →
  load_parsed order1' order2' c' = Ok c'.
Proof.
  intros H1 H2 (Hr & -> & Hok)%load_parsed_Ok H3 H4; [|done..].
  apply load_parsed_Ok; [done..|]. rewrite resolved_applyDefaults.
  split; [by apply references_settled|]. rewrite applyDefaults_idem by done. done.
Qed.

Lemma load_idempotent_witness :
  ∃ c, load_parsed sample_order sample_order sample_config = Ok c ∧
       load_parsed sample_order sample_order c = Ok c ∧
       ch_TimeoutMS <$> c_Channels c !! "hook" = Some 5000.
Proof.
  set (c := applyDefaults sample_order (resolved sample_config)).
  assert (Hl : load_parsed sample_order sample_order sample_config = Ok c)
    by (vm_compute; reflexivity).
  assert (Hr : range_order sample_order c) by (apply (bool_decide_unpack _); vm_compute; exact I).
  exists c. split; [exact Hl|]. split; [|vm_compute; reflexivity].
  apply (load_idempotent sample_order sample_order sample_order sample_order sample_config c
           sample_range sample_range Hl Hr Hr).
Defined.

(** Only absolute URLs pass [validateHTTPURL]: an accepted text is a
    scheme (http or https in any case), [://] and more. *)
Theorem validateHTTPURL_absolute who raw :
  validateHTTPURL who raw = None →
  ∃ scheme rest, raw = scheme +:+ "://" +:+ rest ∧
    (str_lower scheme = "http" ∨ str_lower scheme = "https").
Proof.
  intros (u & Hu & Hs & Hh)%validateHTTPURL_spec.
  destruct (url_Parse_absolute raw u Hu) as (scheme & rest & -> & Hl);
    [by destruct Hs as [->| ->]|done|].
  exists scheme, rest. by rewrite Hl.
Qed.

Lemma validateHTTPURL_absolute_witness :
  ∃ scheme rest, "HTTPS://example.org:8443/a?b#c"%string = scheme +:+ "://" +:+ rest ∧
    (str_lower scheme = "http" ∨ str_lower scheme = "https").
Proof. apply (validateHTTPURL_absolute Global). vm_compute. reflexivity. Defined.

(** Ordinary URLs pass: an http(s) scheme, a non-empty host of letters,
    digits, dots and dashes, an optional numeric port and a plain path. *)
Theorem validateHTTPURL_accepts who scheme h port path :
  (scheme = "http" ∨ scheme = "https") →
  h ≠ "" → str_forall host_char h = true →
  (port = "" ∨ ∃ ds, port = String ":"%char ds ∧ str_forall is_digit ds = true) →
  (path = "" ∨ ∃ p, path = String "/"%char p ∧ str_forall path_char p = true) →
  validateHTTPURL who (scheme +:+ "://" +:+ h +:+ port +:+ path) = None.
Proof.
  intros Hs Hne Hh Hport Hpath. apply validateHTTPURL_spec.
  exists (MkURL scheme (h +:+ port)). split; [by apply url_Parse_plain|]. split; [done|].
  simpl. by destruct h.
Qed.

Lemma validateHTTPURL_accepts_witness :
  validateHTTPURL Global ("http" +:+ "://" +:+ "10.0.0.1" +:+ ":80" +:+ "/up") = None.
Proof.
  apply validateHTTPURL_accepts; [left; reflexivity|discriminate|reflexivity| |].
  - right. exists "80". split; reflexivity.
  - right. exists "up". split; reflexivity.
Defined.
