(* ===== verification/Schema.v ===== *)
(** * What a strict decoder accepts

    A [schema] is the shape of the JSON a Go type decodes under
    [DisallowUnknownFields]: the names an object may have, the kind of each
    value.  [Accepts A s] says that decoding into an [A] succeeds exactly on
    the values that conform to [s], whatever value is decoded into; it is
    derived from the codec, one field at a time. *)

From S2P Require Import Prelude GoString Utf8 Float64 Strconv Json GoJson.

Local Open Scope string_scope.
Local Open Scope Z_scope.

Inductive schema :=
  | SBool | SInt | SFloat | SString
  | SArr (s : schema)
  | SMap (s : schema)
  | SObj (fields : list (string * schema)).

(** Names are compared up to letter case. *)
Definition same_name (name key : string) : bool := String.eqb (fold_name name) (fold_name key).

(** [null] conforms to every schema; an integer is a literal without fraction
    and exponent in the range of [int64], a float one that does not overflow. *)
Fixpoint conforms (s : schema) (j : json) {struct s} : bool :=
  match s, j with
  | _, JNull => true
  | SBool, JBool _ => true
  | SInt, JNum n => bool_decide (is_Some (ParseInt n))
  | SFloat, JNum n => f_is_finite (numlit_float n)
  | SString, JStr _ => true
  | SArr s, JArr l => forallb (conforms s) l
  | SMap s, JObj l => forallb (λ kv, conforms s kv.2) l
  | SObj fs, JObj l =>
      forallb (λ kv,
        (fix at_key (fs : list (string * schema)) : bool :=
           match fs with
           | [] => false
           | (name, s) :: fs => if same_name name kv.1 then conforms s kv.2 else at_key fs
           end) fs) l
  | _, _ => false
  end.

(** The value of a member with key [key], against the fields of an object. *)
Fixpoint member_conforms (fs : list (string * schema)) (key : string) (v : json) : bool :=
  match fs with
  | [] => false
  | (name, s) :: fs => if same_name name key then conforms s v else member_conforms fs key v
  end.

Lemma conforms_obj fs l :
  conforms (SObj fs) (JObj l) = forallb (λ kv, member_conforms fs kv.1 kv.2) l.
Proof.
  simpl. induction l as [|kv l IH]; [done|]. simpl. rewrite IH. f_equal.
  clear IH. induction fs as [|[n s] fs IH]; [done|]. simpl. by rewrite IH.
Qed.

Class Accepts (A : Type) `{JsonCodec A} (s : schema) :=
  accepts (cur : A) j : is_Some (jdec cur j) ↔ conforms s j = true.

(** ** Basic types *)

#[export] Instance string_accepts : Accepts string SString.
Proof. intros cur []; simpl; split; intros H; try done; by destruct H. Qed.
#[export] Instance bool_accepts : Accepts bool SBool.
Proof. intros cur []; simpl; split; intros H; try done; by destruct H. Qed.
#[export] Instance int_accepts : Accepts Z SInt.
Proof.
  intros cur []; simpl; try (split; intros H; done || by destruct H).
  by rewrite bool_decide_eq_true.
Qed.
#[export] Instance float_accepts : Accepts float64 SFloat.
Proof.
  intros cur []; simpl; try (split; intros H; done || by destruct H).
  unfold ParseFloat. case_match; split; intros H'; done || by destruct H'.
Qed.

(** A fold succeeds when every step does, whatever the state. *)
Lemma foldl_is_Some {A B} (f : A → B → option A) (ok : B → bool) l a0 :
  (∀ a b, is_Some (f a b) ↔ ok b = true) →
  is_Some (foldl (λ a b, a ← a; f a b) (Some a0) l) ↔ forallb ok l = true.
Proof.
  intros Hf. revert a0. induction l as [|b l IH]; intros a0; [done|].
  simpl. rewrite andb_true_iff, <- (Hf a0 b). destruct (f a0 b) as [a1|].
  - rewrite IH. naive_solver.
  - rewrite foldl_None. split; [by intros []|by intros [? _]].
Qed.

Lemma mapM_is_Some {A B} (f : A → option B) l : is_Some (mapM f l) ↔ Forall (λ a, is_Some (f a)) l.
Proof. split; [intros [k Hk]; by eapply mapM_is_Some_1|apply mapM_is_Some_2]. Qed.

#[export] Instance slice_accepts {A} `{Accepts A s} : Accepts (list A) (SArr s).
Proof.
  intros cur j. destruct j; simpl; try (split; intros Hj; done || by destruct Hj).
  unfold dec_elems. rewrite mapM_is_Some, forallb_forall, Forall_lookup. split.
  - intros Hl j [i Hi]%list_elem_of_In%list_elem_of_lookup.
    apply (accepts (default jzero (cur !! i))), (Hl i (i, j)). by rewrite list_lookup_imap, Hi.
  - intros Hl i [k j] Hk. rewrite list_lookup_imap in Hk.
    destruct (l !! i) as [j'|] eqn:Hj; simplify_eq/=. apply accepts, Hl, list_elem_of_In.
    by eapply list_elem_of_lookup_2.
Qed.

Lemma map_dec_accepts {A} `{Accepts A s} (cur : gmap string A) j :
  is_Some (map_dec cur j) ↔ conforms (SMap s) j = true.
Proof.
  destruct j; simpl; try (split; intros Hj; done || by destruct Hj).
  unfold dec_map. apply (foldl_is_Some (λ m kv, x ← jdec jzero kv.2; Some (<[kv.1 := x]> m))).
  intros m kv. rewrite <- (accepts jzero). destruct (jdec jzero kv.2); simpl; [done|].
  split; by intros [].
Qed.

(** ** Structs *)

(** A field has a name and accepts a schema. *)
Definition field_accepts {A} (f : field A) (ns : string * schema) : Prop :=
  fd_name f = ns.1 ∧ ∀ cur j, is_Some (fd_dec f cur j) ↔ conforms ns.2 j = true.

Lemma bind_is_Some {A B} (o : option A) (f : A → B) : is_Some (a ← o; Some (f a)) ↔ is_Some o.
Proof. destruct o; simpl; [done|]. split; by intros []. Qed.

Lemma mk_field_accepts {A B} `{Accepts B s} name omit (get : A → B) set :
  field_accepts (mk_field name omit get set) (name, s).
Proof. split; [done|]. intros cur j. simpl. rewrite bind_is_Some. apply accepts. Qed.

Lemma map_field_accepts {A B} `{Accepts B s} name (get : A → gmap string B) set :
  field_accepts (map_field name get set) (name, SMap s).
Proof. split; [done|]. intros cur j. cbn [map_field fd_dec snd]. rewrite bind_is_Some. apply map_dec_accepts. Qed.

Lemma promote_accepts {A B} (get : A → B) set f ns :
  field_accepts f ns → field_accepts (promote get set f) ns.
Proof. intros [Hn Hf]. split; [done|]. intros cur j. simpl. rewrite bind_is_Some. apply Hf. Qed.

Lemma promotes_accept {A B} (get : A → B) set fs ss :
  Forall2 field_accepts fs ss → Forall2 field_accepts (map (promote get set) fs) ss.
Proof. intros Hf. apply Forall2_fmap_l. eapply Forall2_impl; [done|]. intros f ns. apply promote_accepts. Qed.

(** Fields whose names differ up to letter case: a member has at most one. *)
Definition distinct_names (ss : list (string * schema)) : Prop := NoDup (map (fold_name ∘ fst) ss).

#[export] Instance distinct_names_dec ss : Decision (distinct_names ss).
Proof. unfold distinct_names. apply _. Defined.

Lemma find_field_fold {A} (fs : list (field A)) key :
  NoDup (map (fold_name ∘ fd_name) fs) →
  find_field fs key = List.find (λ f, same_name (fd_name f) key) fs.
Proof.
  intros Hnd. unfold find_field. destruct (List.find (λ f, String.eqb _ _) fs) as [f|] eqn:E; [|done].
  induction fs as [|g fs IH]; [done|]. simpl in *. apply NoDup_cons in Hnd as [Hg Hnd].
  destruct (String.eqb_spec (fd_name g) key) as [<-|Hne]; simplify_eq.
  - unfold same_name. by rewrite String.eqb_refl.
  - unfold same_name at 1. destruct (String.eqb_spec (fold_name (fd_name g)) (fold_name key)) as [Hk|]; [|auto].
    apply find_some in E as [Hin Hf]. apply String.eqb_eq in Hf. exfalso. apply Hg. simpl. rewrite Hk, <- Hf.
    apply list_elem_of_fmap. exists f. split; [done|]. by apply list_elem_of_In.
Qed.

Lemma dec_member_accepts {A} (fs : list (field A)) ss cur kv :
  Forall2 field_accepts fs ss → distinct_names ss →
  is_Some (dec_member true fs cur kv) ↔ member_conforms ss kv.1 kv.2 = true.
Proof.
  intros Hf Hnd. unfold dec_member. rewrite find_field_fold.
  2:{ unfold distinct_names in Hnd. replace (map (fold_name ∘ fd_name) fs) with (map (fold_name ∘ fst) ss); [done|].
      clear Hnd. induction Hf as [|f ns fs ss [Hn _] _ IH]; [done|]. simpl. by rewrite Hn, IH. }
  clear Hnd. induction Hf as [|f [n s] fs ss [Hn Hs] Hf IH]; simpl; [split; [by intros [? [=]]|done]|].
  rewrite Hn. simpl. destruct (same_name n kv.1); [apply Hs|apply IH].
Qed.

Lemma strict_accepts {A} (fs : list (field A)) zero ss :
  Forall2 field_accepts fs ss → distinct_names ss → @Accepts A (strict_codec fs zero) (SObj ss).
Proof.
  intros Hf Hnd cur j. destruct j as [| | | | |l]; try (simpl; split; intros Hj; done || by destruct Hj).
  rewrite conforms_obj. cbn [jdec strict_codec dec_struct]. apply foldl_is_Some. intros a kv.
  by apply dec_member_accepts.
Qed.

(** Decoding succeeds exactly on a text that starts with a conforming value. *)
Lemma Decode_accepts {A} `{Accepts A s} data :
  is_Some (Decode (A := A) data) ↔ ∃ j rest, parse_prefix data = Some (j, rest) ∧ conforms s j = true.
Proof.
  unfold Decode. destruct (parse_prefix data) as [[j rest]|]; simpl.
  - rewrite accepts. naive_solver.
  - split; [by intros []|]. by intros (? & ? & ? & _).
Qed.
