(* ===== verification/ConfigFile.v ===== *)
(** * The configuration file ([internal/config/config.go]: the JSON tags, [Load])

    The tags of every configuration struct as a strict codec
    ([DisallowUnknownFields]), and [Load] from the bytes of the file.  An
    embedded [MonitorParams] is promoted: its keys are keys of the struct that
    embeds it.  [readFile] is [os.ReadFile] and [json_error] the text of the
    decoder's error. *)

From S2P Require Import Prelude GoString Utf8 Float64 Strconv Json GoJson Schema Config.

Local Open Scope string_scope.
Local Open Scope Z_scope.

(** ** Codecs *)

Definition retry_tags : list (field Retry) := [
  mk_field "max_attempts" false rt_MaxAttempts (λ x v, MkRetry x (rt_BaseDelayMS v));
  mk_field "base_delay_ms" false rt_BaseDelayMS (λ x v, MkRetry (rt_MaxAttempts v) x)].
#[export] Instance retry_codec : JsonCodec Retry := strict_codec retry_tags
  (MkRetry 0 0).

Definition channel_tags : list (field Channel) := [
  mk_field "type" false ch_Type (λ x v, MkChannel x (ch_URL v) (ch_SMTPHost v) (ch_Port v)
    (ch_From v) (ch_To v) (ch_BaseURL v) (ch_Recipients v) (ch_Username v) (ch_PasswordEnv v)
    (ch_TimeoutMS v));
  mk_field "url" true ch_URL (λ x v, MkChannel (ch_Type v) x (ch_SMTPHost v) (ch_Port v)
    (ch_From v) (ch_To v) (ch_BaseURL v) (ch_Recipients v) (ch_Username v) (ch_PasswordEnv v)
    (ch_TimeoutMS v));
  mk_field "smtp_host" true ch_SMTPHost (λ x v, MkChannel (ch_Type v) (ch_URL v) x (ch_Port v)
    (ch_From v) (ch_To v) (ch_BaseURL v) (ch_Recipients v) (ch_Username v) (ch_PasswordEnv v)
    (ch_TimeoutMS v));
  mk_field "port" true ch_Port (λ x v, MkChannel (ch_Type v) (ch_URL v) (ch_SMTPHost v) x
    (ch_From v) (ch_To v) (ch_BaseURL v) (ch_Recipients v) (ch_Username v) (ch_PasswordEnv v)
    (ch_TimeoutMS v));
  mk_field "from" true ch_From (λ x v, MkChannel (ch_Type v) (ch_URL v) (ch_SMTPHost v)
    (ch_Port v) x (ch_To v) (ch_BaseURL v) (ch_Recipients v) (ch_Username v) (ch_PasswordEnv v)
    (ch_TimeoutMS v));
  mk_field "to" true ch_To (λ x v, MkChannel (ch_Type v) (ch_URL v) (ch_SMTPHost v) (ch_Port v)
    (ch_From v) x (ch_BaseURL v) (ch_Recipients v) (ch_Username v) (ch_PasswordEnv v)
    (ch_TimeoutMS v));
  mk_field "base_url" true ch_BaseURL (λ x v, MkChannel (ch_Type v) (ch_URL v) (ch_SMTPHost v)
    (ch_Port v) (ch_From v) (ch_To v) x (ch_Recipients v) (ch_Username v) (ch_PasswordEnv v)
    (ch_TimeoutMS v));
  mk_field "recipients" true ch_Recipients (λ x v, MkChannel (ch_Type v) (ch_URL v)
    (ch_SMTPHost v) (ch_Port v) (ch_From v) (ch_To v) (ch_BaseURL v) x (ch_Username v)
    (ch_PasswordEnv v) (ch_TimeoutMS v));
  mk_field "username" true ch_Username (λ x v, MkChannel (ch_Type v) (ch_URL v) (ch_SMTPHost v)
    (ch_Port v) (ch_From v) (ch_To v) (ch_BaseURL v) (ch_Recipients v) x (ch_PasswordEnv v)
    (ch_TimeoutMS v));
  mk_field "password_env" true ch_PasswordEnv (λ x v, MkChannel (ch_Type v) (ch_URL v)
    (ch_SMTPHost v) (ch_Port v) (ch_From v) (ch_To v) (ch_BaseURL v) (ch_Recipients v)
    (ch_Username v) x (ch_TimeoutMS v));
  mk_field "timeout_ms" true ch_TimeoutMS (λ x v, MkChannel (ch_Type v) (ch_URL v) (ch_SMTPHost v)
    (ch_Port v) (ch_From v) (ch_To v) (ch_BaseURL v) (ch_Recipients v) (ch_Username v)
    (ch_PasswordEnv v) x)].
#[export] Instance channel_codec : JsonCodec Channel := strict_codec channel_tags
  (MkChannel "" "" "" 0 "" [] "" [] "" "" 0).

Definition pong_tags : list (field PongServer) := [
  mk_field "enabled" false ps_Enabled (λ x v, MkPongServer x (ps_Listen v) (ps_ReadTimeoutMS v));
  mk_field "listen" false ps_Listen (λ x v, MkPongServer (ps_Enabled v) x (ps_ReadTimeoutMS v));
  mk_field "read_timeout_ms" false ps_ReadTimeoutMS (λ x v, MkPongServer (ps_Enabled v)
    (ps_Listen v) x)].
#[export] Instance pong_codec : JsonCodec PongServer := strict_codec pong_tags
  (MkPongServer false "" 0).

Definition params_tags : list (field MonitorParams) := [
  mk_field "interval_s" true mp_IntervalS (λ x v, MkMonitorParams x (mp_TimeoutMS v)
    (mp_FailureThreshold v) (mp_Trigger v) (mp_WindowSize v) (mp_MinAvailability v) (mp_Notify v)
    (mp_InsecureSkipVerify v));
  mk_field "timeout_ms" true mp_TimeoutMS (λ x v, MkMonitorParams (mp_IntervalS v) x
    (mp_FailureThreshold v) (mp_Trigger v) (mp_WindowSize v) (mp_MinAvailability v) (mp_Notify v)
    (mp_InsecureSkipVerify v));
  mk_field "failure_threshold" true mp_FailureThreshold (λ x v, MkMonitorParams (mp_IntervalS v)
    (mp_TimeoutMS v) x (mp_Trigger v) (mp_WindowSize v) (mp_MinAvailability v) (mp_Notify v)
    (mp_InsecureSkipVerify v));
  mk_field "trigger" true mp_Trigger (λ x v, MkMonitorParams (mp_IntervalS v) (mp_TimeoutMS v)
    (mp_FailureThreshold v) x (mp_WindowSize v) (mp_MinAvailability v) (mp_Notify v)
    (mp_InsecureSkipVerify v));
  mk_field "window_size" true mp_WindowSize (λ x v, MkMonitorParams (mp_IntervalS v)
    (mp_TimeoutMS v) (mp_FailureThreshold v) (mp_Trigger v) x (mp_MinAvailability v) (mp_Notify v)
    (mp_InsecureSkipVerify v));
  mk_field "min_availability" true mp_MinAvailability (λ x v, MkMonitorParams (mp_IntervalS v)
    (mp_TimeoutMS v) (mp_FailureThreshold v) (mp_Trigger v) (mp_WindowSize v) x (mp_Notify v)
    (mp_InsecureSkipVerify v));
  mk_field "notify" true mp_Notify (λ x v, MkMonitorParams (mp_IntervalS v) (mp_TimeoutMS v)
    (mp_FailureThreshold v) (mp_Trigger v) (mp_WindowSize v) (mp_MinAvailability v) x
    (mp_InsecureSkipVerify v));
  mk_field "insecure_skip_verify" true mp_InsecureSkipVerify (λ x v, MkMonitorParams
    (mp_IntervalS v) (mp_TimeoutMS v) (mp_FailureThreshold v) (mp_Trigger v) (mp_WindowSize v)
    (mp_MinAvailability v) (mp_Notify v) x)].
#[export] Instance params_codec : JsonCodec MonitorParams := strict_codec params_tags
  (MkMonitorParams 0 0 0 "" 0 f_zero [] false).

Definition profile_tags : list (field Profile) :=
  map (promote pf_Params (λ p _, MkProfile p)) params_tags.
#[export] Instance profile_codec : JsonCodec Profile := strict_codec profile_tags (MkProfile jzero).

Definition ping_target_tags : list (field PingTarget) := ([
  mk_field "target" false pt_Target (λ x v, MkPingTarget x (pt_Profile v) (pt_Params v));
  mk_field "profile" true pt_Profile (λ x v, MkPingTarget (pt_Target v) x (pt_Params v))]
  ++ map (promote pt_Params (λ x v, MkPingTarget (pt_Target v) (pt_Profile v) x)) params_tags)%list.
#[export] Instance ping_target_codec : JsonCodec PingTarget := strict_codec ping_target_tags
  (MkPingTarget "" "" jzero).

Definition ping_monitor_tags : list (field PingMonitor) := [
  mk_field "enabled" false pm_Enabled (λ x v, MkPingMonitor x (pm_DefaultProfile v) (pm_Targets v));
  mk_field "default_profile" true pm_DefaultProfile (λ x v, MkPingMonitor (pm_Enabled v) x
    (pm_Targets v));
  mk_field "targets" false pm_Targets (λ x v, MkPingMonitor (pm_Enabled v) (pm_DefaultProfile v) x)].
#[export] Instance ping_monitor_codec : JsonCodec PingMonitor := strict_codec ping_monitor_tags
  (MkPingMonitor false "" []).

Definition url_target_tags : list (field URLTarget) := ([
  mk_field "url" false ut_URL (λ x v, MkURLTarget x (ut_Profile v) (ut_Params v));
  mk_field "profile" true ut_Profile (λ x v, MkURLTarget (ut_URL v) x (ut_Params v))]
  ++ map (promote ut_Params (λ x v, MkURLTarget (ut_URL v) (ut_Profile v) x)) params_tags)%list.
#[export] Instance url_target_codec : JsonCodec URLTarget := strict_codec url_target_tags
  (MkURLTarget "" "" jzero).

Definition url_monitor_tags : list (field URLMonitor) := [
  mk_field "enabled" false um_Enabled (λ x v, MkURLMonitor x (um_DefaultProfile v) (um_Targets v));
  mk_field "default_profile" true um_DefaultProfile (λ x v, MkURLMonitor (um_Enabled v) x
    (um_Targets v));
  mk_field "targets" false um_Targets (λ x v, MkURLMonitor (um_Enabled v) (um_DefaultProfile v) x)].
#[export] Instance url_monitor_codec : JsonCodec URLMonitor := strict_codec url_monitor_tags
  (MkURLMonitor false "" []).

Definition internet_tags : list (field InternetCheck) := [
  mk_field "enabled" false ic_Enabled (λ x v, MkInternetCheck x (ic_Sites v) (ic_IntervalS v)
    (ic_TimeoutMS v) (ic_FailureThreshold v) (ic_Trigger v) (ic_WindowSize v)
    (ic_MinAvailability v) (ic_Notify v) (ic_InsecureSkipVerify v));
  mk_field "sites" false ic_Sites (λ x v, MkInternetCheck (ic_Enabled v) x (ic_IntervalS v)
    (ic_TimeoutMS v) (ic_FailureThreshold v) (ic_Trigger v) (ic_WindowSize v)
    (ic_MinAvailability v) (ic_Notify v) (ic_InsecureSkipVerify v));
  mk_field "interval_s" false ic_IntervalS (λ x v, MkInternetCheck (ic_Enabled v) (ic_Sites v) x
    (ic_TimeoutMS v) (ic_FailureThreshold v) (ic_Trigger v) (ic_WindowSize v)
    (ic_MinAvailability v) (ic_Notify v) (ic_InsecureSkipVerify v));
  mk_field "timeout_ms" false ic_TimeoutMS (λ x v, MkInternetCheck (ic_Enabled v) (ic_Sites v)
    (ic_IntervalS v) x (ic_FailureThreshold v) (ic_Trigger v) (ic_WindowSize v)
    (ic_MinAvailability v) (ic_Notify v) (ic_InsecureSkipVerify v));
  mk_field "failure_threshold" false ic_FailureThreshold (λ x v, MkInternetCheck (ic_Enabled v)
    (ic_Sites v) (ic_IntervalS v) (ic_TimeoutMS v) x (ic_Trigger v) (ic_WindowSize v)
    (ic_MinAvailability v) (ic_Notify v) (ic_InsecureSkipVerify v));
  mk_field "trigger" true ic_Trigger (λ x v, MkInternetCheck (ic_Enabled v) (ic_Sites v)
    (ic_IntervalS v) (ic_TimeoutMS v) (ic_FailureThreshold v) x (ic_WindowSize v)
    (ic_MinAvailability v) (ic_Notify v) (ic_InsecureSkipVerify v));
  mk_field "window_size" true ic_WindowSize (λ x v, MkInternetCheck (ic_Enabled v) (ic_Sites v)
    (ic_IntervalS v) (ic_TimeoutMS v) (ic_FailureThreshold v) (ic_Trigger v) x
    (ic_MinAvailability v) (ic_Notify v) (ic_InsecureSkipVerify v));
  mk_field "min_availability" true ic_MinAvailability (λ x v, MkInternetCheck (ic_Enabled v)
    (ic_Sites v) (ic_IntervalS v) (ic_TimeoutMS v) (ic_FailureThreshold v) (ic_Trigger v)
    (ic_WindowSize v) x (ic_Notify v) (ic_InsecureSkipVerify v));
  mk_field "notify" false ic_Notify (λ x v, MkInternetCheck (ic_Enabled v) (ic_Sites v)
    (ic_IntervalS v) (ic_TimeoutMS v) (ic_FailureThreshold v) (ic_Trigger v) (ic_WindowSize v)
    (ic_MinAvailability v) x (ic_InsecureSkipVerify v));
  mk_field "insecure_skip_verify" true ic_InsecureSkipVerify (λ x v, MkInternetCheck
    (ic_Enabled v) (ic_Sites v) (ic_IntervalS v) (ic_TimeoutMS v) (ic_FailureThreshold v)
    (ic_Trigger v) (ic_WindowSize v) (ic_MinAvailability v) (ic_Notify v) x)].
#[export] Instance internet_codec : JsonCodec InternetCheck := strict_codec internet_tags
  (MkInternetCheck false [] 0 0 0 "" 0 f_zero [] false).

Definition speed_check_tags : list (field SpeedCheck) := [
  mk_field "enabled" false sc_Enabled (λ x v, MkSpeedCheck x (sc_IntervalS v) (sc_ThresholdMbps v)
    (sc_Binary v) (sc_FailureThreshold v) (sc_Trigger v) (sc_WindowSize v) (sc_MinAvailability v)
    (sc_Notify v));
  mk_field "interval_s" false sc_IntervalS (λ x v, MkSpeedCheck (sc_Enabled v) x
    (sc_ThresholdMbps v) (sc_Binary v) (sc_FailureThreshold v) (sc_Trigger v) (sc_WindowSize v)
    (sc_MinAvailability v) (sc_Notify v));
  mk_field "threshold_mbps" false sc_ThresholdMbps (λ x v, MkSpeedCheck (sc_Enabled v)
    (sc_IntervalS v) x (sc_Binary v) (sc_FailureThreshold v) (sc_Trigger v) (sc_WindowSize v)
    (sc_MinAvailability v) (sc_Notify v));
  mk_field "binary" false sc_Binary (λ x v, MkSpeedCheck (sc_Enabled v) (sc_IntervalS v)
    (sc_ThresholdMbps v) x (sc_FailureThreshold v) (sc_Trigger v) (sc_WindowSize v)
    (sc_MinAvailability v) (sc_Notify v));
  mk_field "failure_threshold" false sc_FailureThreshold (λ x v, MkSpeedCheck (sc_Enabled v)
    (sc_IntervalS v) (sc_ThresholdMbps v) (sc_Binary v) x (sc_Trigger v) (sc_WindowSize v)
    (sc_MinAvailability v) (sc_Notify v));
  mk_field "trigger" true sc_Trigger (λ x v, MkSpeedCheck (sc_Enabled v) (sc_IntervalS v)
    (sc_ThresholdMbps v) (sc_Binary v) (sc_FailureThreshold v) x (sc_WindowSize v)
    (sc_MinAvailability v) (sc_Notify v));
  mk_field "window_size" true sc_WindowSize (λ x v, MkSpeedCheck (sc_Enabled v) (sc_IntervalS v)
    (sc_ThresholdMbps v) (sc_Binary v) (sc_FailureThreshold v) (sc_Trigger v) x
    (sc_MinAvailability v) (sc_Notify v));
  mk_field "min_availability" true sc_MinAvailability (λ x v, MkSpeedCheck (sc_Enabled v)
    (sc_IntervalS v) (sc_ThresholdMbps v) (sc_Binary v) (sc_FailureThreshold v) (sc_Trigger v)
    (sc_WindowSize v) x (sc_Notify v));
  mk_field "notify" false sc_Notify (λ x v, MkSpeedCheck (sc_Enabled v) (sc_IntervalS v)
    (sc_ThresholdMbps v) (sc_Binary v) (sc_FailureThreshold v) (sc_Trigger v) (sc_WindowSize v)
    (sc_MinAvailability v) x)].
#[export] Instance speed_check_codec : JsonCodec SpeedCheck := strict_codec speed_check_tags
  (MkSpeedCheck false 0 f_zero "" 0 "" 0 f_zero []).

Definition roles_tags : list (field Roles) := [
  mk_field "pong_server" false r_PongServer (λ x v, MkRoles x (r_PingMonitor v) (r_URLMonitor v)
    (r_InternetCheck v) (r_SpeedCheck v));
  mk_field "ping_monitor" false r_PingMonitor (λ x v, MkRoles (r_PongServer v) x (r_URLMonitor v)
    (r_InternetCheck v) (r_SpeedCheck v));
  mk_field "url_monitor" false r_URLMonitor (λ x v, MkRoles (r_PongServer v) (r_PingMonitor v) x
    (r_InternetCheck v) (r_SpeedCheck v));
  mk_field "internet_check" false r_InternetCheck (λ x v, MkRoles (r_PongServer v)
    (r_PingMonitor v) (r_URLMonitor v) x (r_SpeedCheck v));
  mk_field "speed_check" false r_SpeedCheck (λ x v, MkRoles (r_PongServer v) (r_PingMonitor v)
    (r_URLMonitor v) (r_InternetCheck v) x)].
#[export] Instance roles_codec : JsonCodec Roles := strict_codec roles_tags
  (MkRoles jzero jzero jzero jzero jzero).

Definition config_tags : list (field Config) := [
  mk_field "retry" false c_Retry (λ x v, MkConfig x (c_SummaryIntervalS v) (c_Profiles v)
    (c_Channels v) (c_Roles v));
  mk_field "summary_interval_s" true c_SummaryIntervalS (λ x v, MkConfig (c_Retry v) x
    (c_Profiles v) (c_Channels v) (c_Roles v));
  map_field "profiles" c_Profiles (λ x v, MkConfig (c_Retry v) (c_SummaryIntervalS v) x
    (c_Channels v) (c_Roles v));
  map_field "channels" c_Channels (λ x v, MkConfig (c_Retry v) (c_SummaryIntervalS v)
    (c_Profiles v) x (c_Roles v));
  mk_field "roles" false c_Roles (λ x v, MkConfig (c_Retry v) (c_SummaryIntervalS v)
    (c_Profiles v) (c_Channels v) x)].
#[export] Instance config_codec : JsonCodec Config := strict_codec config_tags
  (MkConfig jzero 0 ∅ ∅ jzero).

(** ** Load *)

Definition Load (readFile : string → result string string) (json_error : string → string)
    (order1 order2 : list string) (path : string) : result ConfigError Config :=
  match readFile path with
  | Err e => Err (ReadConfig e)
  | Ok data =>
      match Decode (A := Config) data with
      | None => Err (ParseConfig (json_error data))
      | Some c => load_parsed order1 order2 c
      end
  end.

(** [config.example.json], with the quotes written ['] here. *)
Fixpoint double_quotes (s : string) : string :=
  match s with
  | "" => ""
  | String c s => String (if Ascii.eqb c "'" then dquote else c) (double_quotes s)
  end.

Definition example_text : string := double_quotes
"{
  'retry': {
    'max_attempts': 3,
    'base_delay_ms': 500
  },
  'summary_interval_s': 900,
  'profiles': {
    'standard': { 'interval_s': 30, 'timeout_ms': 2000, 'failure_threshold': 3, 'notify': ['log'] },
    'fast':     { 'interval_s': 5,  'timeout_ms': 1000, 'failure_threshold': 2, 'notify': ['log'] },
    'web':      { 'interval_s': 60, 'timeout_ms': 5000, 'failure_threshold': 2, 'notify': ['log'] }
  },
  'channels': {
    'log': {
      'type': 'console'
    },
    'hook': {
      'type': 'webhook',
      'url': 'https://example.com/hook',
      'timeout_ms': 5000
    },
    'ops-mail': {
      'type': 'email',
      'smtp_host': 'smtp.example.com',
      'port': 587,
      'from': 'healthd@example.com',
      'to': [
        'oncall@example.com'
      ],
      'username': 'healthd@example.com',
      'password_env': 'SMTP_PASS'
    },
    'sms': {
      'type': 'smsgate',
      'base_url': 'http://127.0.0.1:8080/3rdparty/v1',
      'username': 'sms-user',
      'password_env': 'SMSGATE_PASS',
      'recipients': [
        '+447947891692'
      ],
      'timeout_ms': 5000
    }
  },
  'roles': {
    'pong_server': {
      'enabled': true,
      'listen': ':9000',
      'read_timeout_ms': 2000
    },
    'ping_monitor': {
      'enabled': true,
      'default_profile': 'standard',
      'targets': [
        { 'target': '192.168.2.3:9000' },
        { 'target': '192.168.2.5:9000' },
        { 'target': '192.168.2.7:9000' },
        { 'target': '192.168.2.9:9000'},
        { 'target': '192.168.2.13:9000'},
        { 'target': '192.168.2.15:9000', 'profile': 'fast', 'failure_threshold': 5 }
      ]
    },
    'url_monitor': {
      'enabled': true,
      'default_profile': 'web',
      'targets': [
        { 'url': 'https://gweru-pc.local:5443/health/live', 'profile':'fast',  'insecure_skip_verify': true }
      ]
    },
    'internet_check': {
      'enabled': true,
      'sites': [
        'https://www.google.com',
        'https://www.cloudflare.com',
        'https://www.amazon.com',
        'https://www.cnn.com',
        'https://www.bbc.co.uk'
      ],
      'interval_s': 60,
      'timeout_ms': 5000,
      'failure_threshold': 3,
      'notify': [
        'log'
      ]
    },
    'speed_check': {
      'enabled': true,
      'interval_s': 60,
      'threshold_mbps': 500,
      'binary': 'speedtest',
      'failure_threshold': 1,
      'notify': [
        'log'
      ]
    }
  }
}".

(** ** The documented shape of the file *)

Definition retry_schema : schema := SObj [("max_attempts", SInt); ("base_delay_ms", SInt)].

Definition channel_schema : schema := SObj [
  ("type", SString); ("url", SString); ("smtp_host", SString); ("port", SInt); ("from", SString);
  ("to", SArr SString); ("base_url", SString); ("recipients", SArr SString);
  ("username", SString); ("password_env", SString); ("timeout_ms", SInt)].

Definition params_schema : list (string * schema) := [
  ("interval_s", SInt); ("timeout_ms", SInt); ("failure_threshold", SInt); ("trigger", SString);
  ("window_size", SInt); ("min_availability", SFloat); ("notify", SArr SString);
  ("insecure_skip_verify", SBool)].

(** A role with [targets], each addressed by the key [address]. *)
Definition targets_schema (address : string) : schema := SObj [
  ("enabled", SBool); ("default_profile", SString);
  ("targets", SArr (SObj ((address, SString) :: ("profile", SString) :: params_schema)))].

Definition internet_schema : schema := SObj
  (("enabled", SBool) :: ("sites", SArr SString) :: params_schema).

Definition speed_schema : schema := SObj [
  ("enabled", SBool); ("interval_s", SInt); ("threshold_mbps", SFloat); ("binary", SString);
  ("failure_threshold", SInt); ("trigger", SString); ("window_size", SInt);
  ("min_availability", SFloat); ("notify", SArr SString)].

Definition roles_schema : schema := SObj [
  ("pong_server", SObj [("enabled", SBool); ("listen", SString); ("read_timeout_ms", SInt)]);
  ("ping_monitor", targets_schema "target"); ("url_monitor", targets_schema "url");
  ("internet_check", internet_schema); ("speed_check", speed_schema)].

Definition config_schema : schema := SObj [
  ("retry", retry_schema); ("summary_interval_s", SInt);
  ("profiles", SMap (SObj params_schema)); ("channels", SMap channel_schema);
  ("roles", roles_schema)].

(** *** The codecs accept exactly these shapes *)

Ltac accept_fields :=
  repeat (apply Forall2_cons; split; [apply mk_field_accepts || apply map_field_accepts|]);
  try apply Forall2_nil_2.

Ltac accept_struct := apply strict_accepts; [accept_fields|by apply (bool_decide_unpack _)].

#[export] Instance retry_accepts : Accepts Retry retry_schema.
Proof. accept_struct. Qed.
#[export] Instance channel_accepts : Accepts Channel channel_schema.
Proof. accept_struct. Qed.

Lemma params_accept : Forall2 field_accepts params_tags params_schema.
Proof. unfold params_tags, params_schema. accept_fields. Qed.

#[export] Instance profile_accepts : Accepts Profile (SObj params_schema).
Proof.
  apply strict_accepts; [|by apply (bool_decide_unpack _)]. apply promotes_accept, params_accept.
Qed.

Lemma target_accept {A} `{JsonCodec A} (own : list (field A)) (get : A → MonitorParams) set zero ss :
  Forall2 field_accepts own ss → distinct_names (ss ++ params_schema) →
  @Accepts A (strict_codec (own ++ map (promote get set) params_tags) zero)
    (SObj (ss ++ params_schema)).
Proof. intros Ho Hn. apply strict_accepts; [|done]. by apply Forall2_app, promotes_accept, params_accept. Qed.

#[export] Instance ping_target_accepts :
  Accepts PingTarget (SObj (("target", SString) :: ("profile", SString) :: params_schema)).
Proof.
  refine (target_accept _ pt_Params _ _ [("target", SString); ("profile", SString)] _ _);
    [accept_fields|by apply (bool_decide_unpack _)].
Qed.
#[export] Instance url_target_accepts :
  Accepts URLTarget (SObj (("url", SString) :: ("profile", SString) :: params_schema)).
Proof.
  refine (target_accept _ ut_Params _ _ [("url", SString); ("profile", SString)] _ _);
    [accept_fields|by apply (bool_decide_unpack _)].
Qed.

#[export] Instance pong_accepts : Accepts PongServer
  (SObj [("enabled", SBool); ("listen", SString); ("read_timeout_ms", SInt)]).
Proof. accept_struct. Qed.
#[export] Instance ping_monitor_accepts : Accepts PingMonitor (targets_schema "target").
Proof. accept_struct. Qed.
#[export] Instance url_monitor_accepts : Accepts URLMonitor (targets_schema "url").
Proof. accept_struct. Qed.
#[export] Instance internet_accepts : Accepts InternetCheck internet_schema.
Proof. unfold internet_schema, params_schema. accept_struct. Qed.
#[export] Instance speed_accepts : Accepts SpeedCheck speed_schema.
Proof. accept_struct. Qed.
#[export] Instance roles_accepts : Accepts Roles roles_schema.
Proof. accept_struct. Qed.
#[export] Instance config_accepts : Accepts Config config_schema.
Proof. accept_struct. Qed.

(** ** Well-typed configurations

    Integers fit an [int], floats are finite, strings are valid UTF-8. *)

Definition params_typed (p : MonitorParams) : Prop :=
  in_int64 (mp_IntervalS p) ∧ in_int64 (mp_TimeoutMS p) ∧ in_int64 (mp_FailureThreshold p) ∧
  valid_utf8 (mp_Trigger p) ∧ in_int64 (mp_WindowSize p) ∧ f_is_finite (mp_MinAvailability p) = true ∧
  Forall valid_utf8 (mp_Notify p).

Definition channel_typed (ch : Channel) : Prop :=
  valid_utf8 (ch_Type ch) ∧ valid_utf8 (ch_URL ch) ∧ valid_utf8 (ch_SMTPHost ch) ∧
  in_int64 (ch_Port ch) ∧ valid_utf8 (ch_From ch) ∧ Forall valid_utf8 (ch_To ch) ∧
  valid_utf8 (ch_BaseURL ch) ∧ Forall valid_utf8 (ch_Recipients ch) ∧
  valid_utf8 (ch_Username ch) ∧ valid_utf8 (ch_PasswordEnv ch) ∧ in_int64 (ch_TimeoutMS ch).

Definition retry_typed (r : Retry) : Prop :=
  in_int64 (rt_MaxAttempts r) ∧ in_int64 (rt_BaseDelayMS r).

Definition profile_typed (p : Profile) : Prop := params_typed (pf_Params p).

Definition pong_typed (r : PongServer) : Prop :=
  valid_utf8 (ps_Listen r) ∧ in_int64 (ps_ReadTimeoutMS r).

Definition ping_target_typed (t : PingTarget) : Prop :=
  valid_utf8 (pt_Target t) ∧ valid_utf8 (pt_Profile t) ∧ params_typed (pt_Params t).

Definition url_target_typed (t : URLTarget) : Prop :=
  valid_utf8 (ut_URL t) ∧ valid_utf8 (ut_Profile t) ∧ params_typed (ut_Params t).

Definition ping_typed (r : PingMonitor) : Prop :=
  valid_utf8 (pm_DefaultProfile r) ∧ Forall ping_target_typed (pm_Targets r).

Definition url_typed (r : URLMonitor) : Prop :=
  valid_utf8 (um_DefaultProfile r) ∧ Forall url_target_typed (um_Targets r).

Definition internet_typed (r : InternetCheck) : Prop :=
  Forall valid_utf8 (ic_Sites r) ∧ in_int64 (ic_IntervalS r) ∧ in_int64 (ic_TimeoutMS r) ∧
  in_int64 (ic_FailureThreshold r) ∧ valid_utf8 (ic_Trigger r) ∧ in_int64 (ic_WindowSize r) ∧
  f_is_finite (ic_MinAvailability r) = true ∧ Forall valid_utf8 (ic_Notify r).

Definition speed_typed (r : SpeedCheck) : Prop :=
  in_int64 (sc_IntervalS r) ∧ f_is_finite (sc_ThresholdMbps r) = true ∧ valid_utf8 (sc_Binary r) ∧
  in_int64 (sc_FailureThreshold r) ∧ valid_utf8 (sc_Trigger r) ∧ in_int64 (sc_WindowSize r) ∧
  f_is_finite (sc_MinAvailability r) = true ∧ Forall valid_utf8 (sc_Notify r).

Definition roles_typed (r : Roles) : Prop :=
  pong_typed (r_PongServer r) ∧ ping_typed (r_PingMonitor r) ∧ url_typed (r_URLMonitor r) ∧
  internet_typed (r_InternetCheck r) ∧ speed_typed (r_SpeedCheck r).

(** Every field; of the maps' keys nothing is said. *)
Definition config_typed (c : Config) : Prop :=
  retry_typed (c_Retry c) ∧ in_int64 (c_SummaryIntervalS c) ∧
  map_Forall (λ _, profile_typed) (c_Profiles c) ∧ map_Forall (λ _, channel_typed) (c_Channels c) ∧
  roles_typed (c_Roles c).

(** *** The decoders produce well-typed values *)

Lemma valid_nil : valid_utf8 "".
Proof. by apply valid_ascii. Qed.

(** The zero value, and each field in turn. *)
Ltac typed_zero :=
  split_and!; first [done | apply valid_nil | apply map_Forall_empty
    | lazymatch goal with |- ?P _ => exact (decodes_zero (P := P)) end].

Ltac typed_field :=
  first
    [ eapply mk_field_preserves; [apply _|..]
    | eapply map_field_preserves ];
  [ let H := fresh in intros ? H; hnf in H; decompose [and] H; done
  | let H := fresh in intros ? ? ? H; hnf in H; decompose [and] H; split_and!; done ].

Ltac typed_fields := repeat (apply Forall_cons; split; [typed_field|]); try apply Forall_nil_2.

Ltac typed_struct := apply strict_decodes; [typed_zero|typed_fields].

#[export] Instance retry_decodes : Decodes Retry retry_typed.
Proof. typed_struct. Qed.
#[export] Instance channel_decodes : Decodes Channel channel_typed.
Proof. typed_struct. Qed.

Lemma params_tags_typed : Forall (field_preserves params_typed) params_tags.
Proof. unfold params_tags. typed_fields. Qed.
#[export] Instance params_decodes : Decodes MonitorParams params_typed.
Proof. apply strict_decodes; [typed_zero|apply params_tags_typed]. Qed.

(** A struct that embeds [MonitorParams]. *)
Lemma params_preserved {A} (P : A → Prop) (get : A → MonitorParams) set :
  (∀ a, P a → params_typed (get a)) → (∀ p a, params_typed p → P a → P (set p a)) →
  Forall (field_preserves P) (map (promote get set) params_tags).
Proof.
  intros Hg Hs. apply Forall_fmap. eapply Forall_impl; [apply params_tags_typed|].
  intros f. by apply promote_preserves.
Qed.

#[export] Instance profile_decodes : Decodes Profile profile_typed.
Proof. apply strict_decodes; [typed_zero|]. apply params_preserved; by intros. Qed.

Ltac typed_target :=
  apply strict_decodes; [typed_zero|]; apply Forall_app; split;
  [ typed_fields
  | apply params_preserved;
    [ let H := fresh in intros ? H; hnf in H; decompose [and] H; done
    | let H := fresh in intros ? ? ? H; hnf in H; decompose [and] H; split_and!; done ] ].

#[export] Instance ping_target_decodes : Decodes PingTarget ping_target_typed.
Proof. typed_target. Qed.
#[export] Instance url_target_decodes : Decodes URLTarget url_target_typed.
Proof. typed_target. Qed.
#[export] Instance pong_decodes : Decodes PongServer pong_typed.
Proof. typed_struct. Qed.
#[export] Instance ping_decodes : Decodes PingMonitor ping_typed.
Proof. typed_struct. Qed.
#[export] Instance url_decodes : Decodes URLMonitor url_typed.
Proof. typed_struct. Qed.
#[export] Instance internet_decodes : Decodes InternetCheck internet_typed.
Proof. typed_struct. Qed.
#[export] Instance speed_decodes : Decodes SpeedCheck speed_typed.
Proof. typed_struct. Qed.
#[export] Instance roles_decodes : Decodes Roles roles_typed.
Proof. typed_struct. Qed.
#[export] Instance config_decodes : Decodes Config config_typed.
Proof. typed_struct. Qed.

(** *** Resolution and defaults keep a configuration well-typed *)

Lemma or_int_typed a b : in_int64 a → in_int64 b → in_int64 (or_int a b).
Proof. unfold or_int. by case_match. Qed.
Lemma or_string_typed a b : valid_utf8 a → valid_utf8 b → valid_utf8 (or_string a b).
Proof. unfold or_string. by case_match. Qed.
Lemma or_float_typed a b :
  f_is_finite a = true → f_is_finite b = true → f_is_finite (or_float a b) = true.
Proof. unfold or_float. by case_match. Qed.
Lemma or_list_typed {A} (P : A → Prop) a b : Forall P a → Forall P b → Forall P (or_list a b).
Proof. unfold or_list. by case_match. Qed.

Create HintDb typed.
#[local] Hint Resolve or_int_typed or_string_typed or_float_typed or_list_typed : typed.

#[local] Hint Extern 2 (in_int64 _) => done : typed.
#[local] Hint Extern 2 (valid_utf8 _) => by apply valid_ascii : typed.

Ltac typed_default := split_and!; auto with typed.

Lemma inherit_typed p prof :
  params_typed p → (∀ q, prof = Some q → profile_typed q) → params_typed (inherit p prof).
Proof.
  intros Hp Hq. destruct prof as [[q]|]; [|done]. specialize (Hq _ eq_refl).
  hnf in Hp, Hq. simpl in Hq. destruct_and!. hnf. simpl. split_and!; auto with typed.
Qed.

Lemma chosen_typed profiles dflt own q :
  map_Forall (λ _, profile_typed) profiles → chosen_profile profiles dflt own = Some q →
  profile_typed q.
Proof. unfold chosen_profile. intros Hp. case_match; [done|]. apply Hp. Qed.

Lemma param_defaults_typed p : params_typed p → params_typed (applyParamDefaults p).
Proof. intros Hp. hnf in Hp. destruct_and!. hnf. simpl. typed_default. Qed.

Lemma resolved_params_typed profiles dflt prof own :
  map_Forall (λ _, profile_typed) profiles → params_typed own →
  params_typed (resolved_params profiles dflt prof own).
Proof. intros Hp Ho. apply inherit_typed; [done|]. intros q. by apply chosen_typed. Qed.

Lemma resolved_ping_typed profiles r :
  map_Forall (λ _, profile_typed) profiles → ping_typed r → ping_typed (resolved_ping profiles r).
Proof.
  intros Hp Hr. unfold resolved_ping. case_match; [|done]. destruct Hr as [Hd Ht].
  split; [done|]. apply Forall_fmap. eapply Forall_impl; [exact Ht|].
  intros t (? & ? & ?). split_and!; try done. by apply resolved_params_typed.
Qed.

Lemma resolved_url_typed profiles r :
  map_Forall (λ _, profile_typed) profiles → url_typed r → url_typed (resolved_url profiles r).
Proof.
  intros Hp Hr. unfold resolved_url. case_match; [|done]. destruct Hr as [Hd Ht].
  split; [done|]. apply Forall_fmap. eapply Forall_impl; [exact Ht|].
  intros t (? & ? & ?). split_and!; try done. by apply resolved_params_typed.
Qed.

Lemma resolved_typed c : config_typed c → config_typed (resolved c).
Proof.
  intros (Hr & Hs & Hp & Hch & Hpong & Hpm & Hum & Hic & Hsc). split_and!; try done.
  split_and!; try done; [by apply resolved_ping_typed|by apply resolved_url_typed].
Qed.

Lemma default_channels_typed order m :
  map_Forall (λ _, channel_typed) m → map_Forall (λ _, channel_typed) (foldl default_channel m order).
Proof.
  revert m. induction order as [|n order IH]; intros m Hm; [done|]. apply IH.
  unfold default_channel. destruct (m !! n) as [ch|] eqn:E; [|done].
  case_match; [|done]. apply map_Forall_insert_2; [|done].
  specialize (Hm n ch E). hnf in Hm. destruct_and!. hnf. simpl. by split_and!.
Qed.

Lemma applyDefaults_typed order c : config_typed c → config_typed (applyDefaults order c).
Proof.
  intros ([Hma Hbd] & Hs & Hp & Hch & Hpong & [Hpd Hpt] & [Hud Hut] & Hic & Hsc).
  split_and!; simpl; try done.
  - split; simpl; auto with typed.
  - auto with typed.
  - by apply default_channels_typed.
  - split_and!; simpl; [done|..].
    + split; [done|]. apply Forall_fmap. eapply Forall_impl; [exact Hpt|].
      intros t (? & ? & ?). split_and!; try done. by apply param_defaults_typed.
    + split; [done|]. apply Forall_fmap. eapply Forall_impl; [exact Hut|].
      intros t (? & ? & ?). split_and!; try done. by apply param_defaults_typed.
    + hnf in Hic. destruct_and!. hnf. simpl. typed_default.
    + hnf in Hsc. destruct_and!. hnf. simpl. typed_default.
Qed.

Lemma load_parsed_typed order1 order2 c c' :
  config_typed c → load_parsed order1 order2 c = Ok c' → config_typed c'.
Proof.
  intros Hc. unfold load_parsed. intros (c1 & [_ ->]%resolveProfiles_Ok & H)%bind_Ok.
  destruct (Validate _ _); [done|]. injection H as <-. by apply applyDefaults_typed, resolved_typed.
Qed.

Lemma resolveProfileRefs_not_parse profiles role dflt refs err :
  resolveProfileRefs profiles role dflt refs ≠ Err (ParseConfig err).
Proof.
  unfold resolveProfileRefs. case_match; [done|]. intros (i & r & _ & Hr)%mapM_Err.
  unfold resolve_ref in Hr. by repeat case_match.
Qed.

Lemma load_parsed_not_parse order1 order2 c err :
  load_parsed order1 order2 c ≠ Err (ParseConfig err).
Proof.
  unfold load_parsed, resolveProfiles, resolve_ping, resolve_url.
  intros [H|(c1 & _ & H)]%bind_Err.
  - apply bind_Err in H as [H|(pm & _ & H)];
      [|apply bind_Err in H as [H|(um & _ & H)]; [|done]]; case_match; try done;
      apply bind_Err in H as [H|(? & _ & H)]; try done; by eapply resolveProfileRefs_not_parse.
  - destruct (Validate _ _) as [e|] eqn:Hv; [|done]. injection H as ->.
    by apply Validate_error_true in Hv as (v & _ & Hf).
Qed.

(** An order in which a [range] may visit the channels of the file at [path]. *)
Definition file_order (readFile : string → result string string) (path : string)
    (order : list string) : Prop :=
  ∀ data c, readFile path = Ok data → Decode (A := Config) data = Some c → range_order order c.

Lemma Load_Ok readFile json_error order1 order2 path cfg :
  Load readFile json_error order1 order2 path = Ok cfg →
  ∃ data c, readFile path = Ok data ∧ Decode (A := Config) data = Some c ∧ config_typed c ∧
    load_parsed order1 order2 c = Ok cfg.
Proof.
  unfold Load. destruct (readFile path) as [data|e]; [|done].
  destruct (Decode data) as [c|] eqn:E; [|done]. intros H. exists data, c. split_and!; try done.
  by apply Decode_decodes in E.
Qed.

(** A loaded configuration is valid, well-typed, and ranged over like the file. *)
Lemma Load_sound readFile json_error order1 order2 order path cfg :
  file_order readFile path order1 → file_order readFile path order2 →
  file_order readFile path order → Load readFile json_error order1 order2 path = Ok cfg →
  config_ok cfg ∧ config_typed cfg ∧ range_order order cfg.
Proof.
  intros H1 H2 H3 (data & c & Hf & Hd & Ht & Hl)%Load_Ok.
  pose proof (load_parsed_typed _ _ _ _ Ht Hl) as Ht'.
  specialize (H1 _ _ Hf Hd). specialize (H2 _ _ Hf Hd). specialize (H3 _ _ Hf Hd).
  apply load_parsed_Ok in Hl as (_ & -> & Hok); [|done..].
  split_and!; [done..|]. by apply applyDefaults_dom.
Qed.

(** ** Properties *)

(** C24: which files parse.  [Load] reports a parse error exactly when the file
    can be read and does not start with a JSON value of the documented shape:
    an unknown key at any level, a value of the wrong kind, an integer or a
    float out of range; the error is the decoder's.  In every other case the
    outcome is that of profile resolution, defaults and validation. *)
Theorem Load_parse_error readFile json_error order1 order2 path err :
  Load readFile json_error order1 order2 path = Err (ParseConfig err) ↔
  ∃ data, readFile path = Ok data ∧ err = json_error data ∧
    ¬ ∃ j rest, parse_prefix data = Some (j, rest) ∧ conforms config_schema j = true.
Proof.
  unfold Load. destruct (readFile path) as [data|e]; [|naive_solver].
  setoid_rewrite <- (Decode_accepts (A := Config)). destruct (Decode data) as [c|] eqn:E.
  - split; [intros H; by apply load_parsed_not_parse in H|]. intros (? & [= <-] & _ & Hn). exfalso. apply Hn. by eexists.
  - split; [|naive_solver]. intros [= <-]. exists data. split_and!; try done. rewrite E. by intros [? [=]].
Qed.

Definition example_order : list string := ["log"; "hook"; "ops-mail"; "sms"].

Definition one_file (text path : string) : result string string :=
  if String.eqb path "config.json" then Ok text else Err "no such file".

Lemma one_file_order text c order :
  Decode (A := Config) text = Some c → range_order order c →
  file_order (one_file text) "config.json" order.
Proof. intros Hd Ho data c' [= <-] Hd'. congruence. Qed.

Lemma example_order_ok : file_order (one_file example_text) "config.json" example_order.
Proof.
  eapply one_file_order; [vm_compute; reflexivity|]. apply (bool_decide_unpack _). by vm_compute.
Qed.

(** Only the first value of the file is read: what follows it is ignored. *)
Lemma trailing_data_ignored :
  Load (one_file (example_text +:+ "} this is not JSON")) (λ _, "") example_order example_order
    "config.json" =
  Load (one_file example_text) (λ _, "") example_order example_order "config.json".
Proof. vm_compute. reflexivity. Qed.

(** A key of the wrong name is an error at any depth, one in another case not. *)
Example strict_keys :
  map (λ t, bool_decide (is_Some (Decode (A := Config) (double_quotes t))))
    ["{'roles':{'speed_check':{'interval':60}}}"; "{'Roles':{'Speed_Check':{'INTERVAL_S':60}}}";
     "{'retry':{'max_attempts':3.0}}"; "{'roles':{'ping_monitor':{'targets':[{'interval_s':null}]}}}"] =
  [false; true; false; true].
Proof. vm_compute. reflexivity. Qed.

(** *** Profiles as the documentation describes them *)

(** A target of the ping monitor, in a file with two profiles, the role's
    [default_profile] the complete one; what is loaded for it. *)
Definition profiles_text (target : string) : string := double_quotes (
"{ 'channels': { 'log': { 'type': 'console' } },
   'profiles': {
     'standard': { 'interval_s': 30, 'timeout_ms': 2000, 'window_size': 50,
                   'min_availability': 90, 'notify': ['log'] },
     'slow':     { 'interval_s': 600 } },
   'roles': { 'ping_monitor': { 'enabled': true, 'default_profile': 'standard', 'targets': [ " +:+
  target +:+ " ] } } }").

Definition loaded_target (target : string) : result ConfigError MonitorParams :=
  match Load (one_file (profiles_text target)) (λ _, "") ["log"] ["log"] "config.json" with
  | Ok c =>
      match pm_Targets (r_PingMonitor (c_Roles c)) with
      | t :: _ => Ok (pt_Params t)
      | [] => Err (Required (Role "ping_monitor") "target")
      end
  | Err e => Err e
  end.

(** One profile applies, not a chain of them: a setting that the target's own
    profile leaves open does not come from the role's [default_profile].  A
    required one is missing, and the file does not load; another gets its
    default. *)
Lemma profiles_not_chained :
  loaded_target "{ 'target': 'a:1', 'profile': 'slow' }" =
    Err (Positive (Target "ping_monitor" 0 "a:1") "timeout_ms") ∧
  ∃ m, loaded_target "{ 'target': 'a:1', 'profile': 'slow', 'timeout_ms': 2000 }" = Ok m ∧
    mp_IntervalS m = 600 ∧ mp_WindowSize m = 20 ∧ mp_Notify m = [].
Proof.
  split; [vm_compute; reflexivity|].
  destruct (loaded_target "{ 'target': 'a:1', 'profile': 'slow', 'timeout_ms': 2000 }") as [m|e] eqn:E;
    vm_compute in E; [|discriminate E].
  exists m. split; [reflexivity|]. injection E as <-. by split_and!.
Qed.

(** An inline field overrides the profile only if it is not Go's zero value: a
    target can neither turn the alerts of its profile off with an empty
    [notify], nor set [window_size] or [min_availability] back to 0. *)
Lemma inline_zero_inherits :
  loaded_target "{ 'target': 'a:1', 'window_size': 0, 'min_availability': 0, 'notify': [] }" =
    loaded_target "{ 'target': 'a:1' }" ∧
  ∃ m, loaded_target "{ 'target': 'a:1' }" = Ok m ∧
    mp_WindowSize m = 50 ∧ mp_MinAvailability m = f_of_int 90 ∧ mp_Notify m = ["log"].
Proof.
  split; [vm_compute; reflexivity|].
  destruct (loaded_target "{ 'target': 'a:1' }") as [m|e] eqn:E; vm_compute in E; [|discriminate E].
  exists m. split; [reflexivity|]. injection E as <-. vm_compute. by split_and!.
Qed.
