(* ===== verification/Protocol.v ===== *)
(** * The wire protocol ([internal/protocol/protocol.go])

    Requests and responses, their JSON codecs with the source's tags, and the
    constructors of responses.  A message is the text of its line; a nil
    [Units] slice, which no caller builds, would be encoded as an empty one. *)

From S2P Require Import Prelude GoString Utf8 Float64 Strconv Json GoJson.

Local Open Scope string_scope.
Local Open Scope Z_scope.

Definition Version : string := "0.1".
Definition TypePing : string := "ping".
Definition TypePong : string := "pong".
Definition TypeGetSummary : string := "get-summary".
Definition TypeSummary : string := "summary".
Definition TypeError : string := "error".

Record Payload := MkPayload { pl_Timestamp : Z; pl_Message : string }.

Record Request := MkRequest {
  rq_Version : string;
  rq_ID : string;
  rq_Type : string;
  rq_Payload : Payload;
}.

Record CheckSample := MkCheckSample { wc_TimeMS : Z; wc_Success : bool }.
Record SpeedSample := MkSpeedSample { ws_TimeMS : Z; ws_Mbps : float64 }.

Record SpeedSummary := MkSpeedSummary {
  sp_Count : Z;
  sp_MinMbps : float64;
  sp_AvgMbps : float64;
  sp_MaxMbps : float64;
  sp_LatestMbps : float64;
}.

Record UnitSummary := MkUnitSummary {
  wu_Name : string;
  wu_State : string;
  wu_Availability : float64;
  wu_HistoryAvailability : float64;
  wu_ConsecutiveFailures : Z;
  wu_LastSuccessMS : Z;
  wu_Speed : option SpeedSummary;
  wu_Checks : list CheckSample;
  wu_Speeds : list SpeedSample;
}.

Record Summary := MkSummary { sm_GeneratedAtMS : Z; sm_Units : list UnitSummary }.

Record Response := MkResponse {
  rs_Version : string;
  rs_ID : string;
  rs_Type : string;
  rs_Payload : Payload;
  rs_Summary : option Summary;
}.

(** ** Codecs *)

Definition payload_fields : list (field Payload) := [
  mk_field "timestamp" true pl_Timestamp (λ x p, MkPayload x (pl_Message p));
  mk_field "message" true pl_Message (λ x p, MkPayload (pl_Timestamp p) x)].

#[export] Instance payload_codec : JsonCodec Payload := struct_codec payload_fields (MkPayload 0 "").

Definition request_fields : list (field Request) := [
  mk_field "version" false rq_Version (λ x r, MkRequest x (rq_ID r) (rq_Type r) (rq_Payload r));
  mk_field "id" false rq_ID (λ x r, MkRequest (rq_Version r) x (rq_Type r) (rq_Payload r));
  mk_field "type" false rq_Type (λ x r, MkRequest (rq_Version r) (rq_ID r) x (rq_Payload r));
  mk_field "payload" false rq_Payload (λ x r, MkRequest (rq_Version r) (rq_ID r) (rq_Type r) x)].

Definition zero_request : Request := MkRequest "" "" "" (MkPayload 0 "").
#[export] Instance request_codec : JsonCodec Request := struct_codec request_fields zero_request.

Definition check_fields : list (field CheckSample) := [
  mk_field "time_ms" false wc_TimeMS (λ x c, MkCheckSample x (wc_Success c));
  mk_field "success" false wc_Success (λ x c, MkCheckSample (wc_TimeMS c) x)].

#[export] Instance check_codec : JsonCodec CheckSample :=
  struct_codec check_fields (MkCheckSample 0 false).

Definition speed_fields : list (field SpeedSample) := [
  mk_field "time_ms" false ws_TimeMS (λ x c, MkSpeedSample x (ws_Mbps c));
  mk_field "mbps" false ws_Mbps (λ x c, MkSpeedSample (ws_TimeMS c) x)].

#[export] Instance speed_codec : JsonCodec SpeedSample :=
  struct_codec speed_fields (MkSpeedSample 0 f_zero).

Definition speed_summary_fields : list (field SpeedSummary) := [
  mk_field "count" false sp_Count (λ x s,
    MkSpeedSummary x (sp_MinMbps s) (sp_AvgMbps s) (sp_MaxMbps s) (sp_LatestMbps s));
  mk_field "min_mbps" false sp_MinMbps (λ x s,
    MkSpeedSummary (sp_Count s) x (sp_AvgMbps s) (sp_MaxMbps s) (sp_LatestMbps s));
  mk_field "avg_mbps" false sp_AvgMbps (λ x s,
    MkSpeedSummary (sp_Count s) (sp_MinMbps s) x (sp_MaxMbps s) (sp_LatestMbps s));
  mk_field "max_mbps" false sp_MaxMbps (λ x s,
    MkSpeedSummary (sp_Count s) (sp_MinMbps s) (sp_AvgMbps s) x (sp_LatestMbps s));
  mk_field "latest_mbps" false sp_LatestMbps (λ x s,
    MkSpeedSummary (sp_Count s) (sp_MinMbps s) (sp_AvgMbps s) (sp_MaxMbps s) x)].

#[export] Instance speed_summary_codec : JsonCodec SpeedSummary :=
  struct_codec speed_summary_fields (MkSpeedSummary 0 f_zero f_zero f_zero f_zero).

Definition unit_fields : list (field UnitSummary) := [
  mk_field "name" false wu_Name (λ x u,
    MkUnitSummary x (wu_State u) (wu_Availability u) (wu_HistoryAvailability u)
      (wu_ConsecutiveFailures u) (wu_LastSuccessMS u) (wu_Speed u) (wu_Checks u) (wu_Speeds u));
  mk_field "state" false wu_State (λ x u,
    MkUnitSummary (wu_Name u) x (wu_Availability u) (wu_HistoryAvailability u)
      (wu_ConsecutiveFailures u) (wu_LastSuccessMS u) (wu_Speed u) (wu_Checks u) (wu_Speeds u));
  mk_field "availability_pct" false wu_Availability (λ x u,
    MkUnitSummary (wu_Name u) (wu_State u) x (wu_HistoryAvailability u)
      (wu_ConsecutiveFailures u) (wu_LastSuccessMS u) (wu_Speed u) (wu_Checks u) (wu_Speeds u));
  mk_field "history_availability_pct" false wu_HistoryAvailability (λ x u,
    MkUnitSummary (wu_Name u) (wu_State u) (wu_Availability u) x
      (wu_ConsecutiveFailures u) (wu_LastSuccessMS u) (wu_Speed u) (wu_Checks u) (wu_Speeds u));
  mk_field "consecutive_failures" false wu_ConsecutiveFailures (λ x u,
    MkUnitSummary (wu_Name u) (wu_State u) (wu_Availability u) (wu_HistoryAvailability u)
      x (wu_LastSuccessMS u) (wu_Speed u) (wu_Checks u) (wu_Speeds u));
  mk_field "last_success_ms" true wu_LastSuccessMS (λ x u,
    MkUnitSummary (wu_Name u) (wu_State u) (wu_Availability u) (wu_HistoryAvailability u)
      (wu_ConsecutiveFailures u) x (wu_Speed u) (wu_Checks u) (wu_Speeds u));
  mk_field "speed" true wu_Speed (λ x u,
    MkUnitSummary (wu_Name u) (wu_State u) (wu_Availability u) (wu_HistoryAvailability u)
      (wu_ConsecutiveFailures u) (wu_LastSuccessMS u) x (wu_Checks u) (wu_Speeds u));
  mk_field "checks" true wu_Checks (λ x u,
    MkUnitSummary (wu_Name u) (wu_State u) (wu_Availability u) (wu_HistoryAvailability u)
      (wu_ConsecutiveFailures u) (wu_LastSuccessMS u) (wu_Speed u) x (wu_Speeds u));
  mk_field "speeds" true wu_Speeds (λ x u,
    MkUnitSummary (wu_Name u) (wu_State u) (wu_Availability u) (wu_HistoryAvailability u)
      (wu_ConsecutiveFailures u) (wu_LastSuccessMS u) (wu_Speed u) (wu_Checks u) x)].

#[export] Instance unit_codec : JsonCodec UnitSummary :=
  struct_codec unit_fields (MkUnitSummary "" "" f_zero f_zero 0 0 None [] []).

Definition summary_fields : list (field Summary) := [
  mk_field "generated_at_ms" false sm_GeneratedAtMS (λ x s, MkSummary x (sm_Units s));
  mk_field "units" false sm_Units (λ x s, MkSummary (sm_GeneratedAtMS s) x)].

#[export] Instance summary_codec : JsonCodec Summary := struct_codec summary_fields (MkSummary 0 []).

Definition response_fields : list (field Response) := [
  mk_field "version" false rs_Version (λ x r,
    MkResponse x (rs_ID r) (rs_Type r) (rs_Payload r) (rs_Summary r));
  mk_field "id" false rs_ID (λ x r,
    MkResponse (rs_Version r) x (rs_Type r) (rs_Payload r) (rs_Summary r));
  mk_field "type" false rs_Type (λ x r,
    MkResponse (rs_Version r) (rs_ID r) x (rs_Payload r) (rs_Summary r));
  mk_field "payload" false rs_Payload (λ x r,
    MkResponse (rs_Version r) (rs_ID r) (rs_Type r) x (rs_Summary r));
  mk_field "summary" true rs_Summary (λ x r,
    MkResponse (rs_Version r) (rs_ID r) (rs_Type r) (rs_Payload r) x)].

#[export] Instance response_codec : JsonCodec Response :=
  struct_codec response_fields (MkResponse "" "" "" (MkPayload 0 "") None).

(** ** Operations *)

Definition EncodeRequest (r : Request) : option string := Marshal r.
Definition EncodeResponse (r : Response) : option string := Marshal r.

Inductive DecodeError :=
  | Malformed
  | ErrVersionMismatch (got : string).

(** Both results of the source: the request is meaningful on a version
    mismatch. *)
Definition DecodeRequest (line : string) : Request * option DecodeError :=
  match Unmarshal line with
  | None => (zero_request, Some Malformed)
  | Some r =>
      if negb (String.eqb (rq_Version r) Version) then (r, Some (ErrVersionMismatch (rq_Version r)))
      else (r, None)
  end.

Definition DecodeResponse (line : string) : option Response := Unmarshal line.

Definition NewPong (req : Request) : Response :=
  MkResponse Version (rq_ID req) TypePong (MkPayload (pl_Timestamp (rq_Payload req)) "") None.

Definition NewSummary (id : string) (s : Summary) : Response :=
  MkResponse Version id TypeSummary (MkPayload 0 "") (Some s).

Definition NewError (id msg : string) : Response :=
  MkResponse Version id TypeError (MkPayload 0 msg) None.

Example decode_lenient :
  DecodeRequest ("{" +:+ quote "VERSION" +:+ ":" +:+ quote "0.1" +:+ "," +:+ quote "id" +:+ ":"
    +:+ quote "7" +:+ "," +:+ quote "extra" +:+ ":[1]," +:+ quote "type" +:+ ":null}")
  = (MkRequest "0.1" "7" "" (MkPayload 0 ""), None).
Proof. vm_compute. reflexivity. Qed.

Example encode_ping :
  EncodeRequest (MkRequest Version "1" TypePing (MkPayload 5 "")) =
  Some ("{" +:+ quote "version" +:+ ":" +:+ quote "0.1" +:+ "," +:+ quote "id" +:+ ":" +:+
    quote "1" +:+ "," +:+ quote "type" +:+ ":" +:+ quote "ping" +:+ "," +:+ quote "payload" +:+
    ":{" +:+ quote "timestamp" +:+ ":5}}").
Proof. vm_compute. reflexivity. Qed.

(** ** Lemmas: what survives encoding and decoding *)

Lemma survives_payload p :
  in_int64 (pl_Timestamp p) → valid_utf8 (pl_Message p) → survives 1 p.
Proof.
  destruct p as [t m]. simpl. intros Ht Hm. apply (struct_survives 0); [lia|].
  next_field ltac:(by apply survives_int). next_field ltac:(by apply survives_string). done.
Qed.

Definition request_ok (r : Request) : Prop :=
  valid_utf8 (rq_Version r) ∧ valid_utf8 (rq_ID r) ∧ valid_utf8 (rq_Type r) ∧
  in_int64 (pl_Timestamp (rq_Payload r)) ∧ valid_utf8 (pl_Message (rq_Payload r)).

Lemma survives_request r : request_ok r → survives 2 r.
Proof.
  destruct r as [v i t p]. unfold request_ok. simpl. intros (Hv & Hi & Ht & H1 & H2).
  apply (struct_survives 1); [lia|]. do 3 next_field ltac:(by apply survives_string).
  next_field ltac:(by apply survives_payload). done.
Qed.

Lemma survives_check c : in_int64 (wc_TimeMS c) → survives 1 c.
Proof.
  destruct c as [t b]. simpl. intros Ht. apply (struct_survives 0); [lia|].
  next_field ltac:(by apply survives_int). next_field ltac:(by apply survives_bool). done.
Qed.

Lemma survives_speed c : in_int64 (ws_TimeMS c) → float_ok (ws_Mbps c) → survives 1 c.
Proof.
  destruct c as [t b]. simpl. intros Ht Hb. apply (struct_survives 0); [lia|].
  next_field ltac:(by apply survives_int). next_field ltac:(by apply survives_float). done.
Qed.

Definition speed_summary_ok (s : SpeedSummary) : Prop :=
  in_int64 (sp_Count s) ∧ float_ok (sp_MinMbps s) ∧ float_ok (sp_AvgMbps s) ∧
  float_ok (sp_MaxMbps s) ∧ float_ok (sp_LatestMbps s).

Lemma survives_speed_summary s : speed_summary_ok s → survives 1 s.
Proof.
  destruct s as [c mi av ma la]. unfold speed_summary_ok. simpl. intros (? & ? & ? & ? & ?).
  apply (struct_survives 0); [lia|]. next_field ltac:(by apply survives_int).
  do 4 next_field ltac:(by apply survives_float). done.
Qed.

Record unit_ok (u : UnitSummary) : Prop := {
  uo_name : valid_utf8 (wu_Name u);
  uo_state : valid_utf8 (wu_State u);
  uo_availability : float_ok (wu_Availability u);
  uo_history : float_ok (wu_HistoryAvailability u);
  uo_consecutive : in_int64 (wu_ConsecutiveFailures u);
  uo_last : in_int64 (wu_LastSuccessMS u);
  uo_speed : ∀ s, wu_Speed u = Some s → speed_summary_ok s;
  uo_checks : Forall (λ c, in_int64 (wc_TimeMS c)) (wu_Checks u);
  uo_speeds : Forall (λ c, in_int64 (ws_TimeMS c) ∧ float_ok (ws_Mbps c)) (wu_Speeds u);
}.

Lemma survives_unit u : unit_ok u → survives 3 u.
Proof.
  destruct u as [n st av ha cf ls sp ch sps]. intros [Hn Hst Hav Hha Hcf Hls Hsp Hch Hsps].
  simpl in *. apply (struct_survives 2); [lia|].
  do 2 next_field ltac:(by apply survives_string).
  do 2 next_field ltac:(by apply survives_float).
  do 2 next_field ltac:(by apply survives_int).
  next_field ltac:(apply survives_pointer; [lia|]; intros s Hs; split;
    [by apply (survives_mono _ 1), survives_speed_summary, Hsp|
     exact (struct_not_null speed_summary_fields _ s)]).
  apply decodes_to_cons; [find_name|reflexivity| | |eval_decoded].
  { intros _ Hl. by apply Z.eqb_eq, slice_len_zero in Hl as ->. }
  { apply (survives_slice _ 1); [lia|]. eapply Forall_impl; [exact Hch|].
    intros c. apply survives_check. }
  apply decodes_to_cons; [find_name|reflexivity| | |done].
  { intros _ Hl. by apply Z.eqb_eq, slice_len_zero in Hl as ->. }
  { apply (survives_slice _ 1); [lia|]. eapply Forall_impl; [exact Hsps|].
    intros c [? ?]. by apply survives_speed. }
Qed.

Definition summary_ok (s : Summary) : Prop :=
  in_int64 (sm_GeneratedAtMS s) ∧ Forall unit_ok (sm_Units s).

Lemma survives_summary s : summary_ok s → survives 5 s.
Proof.
  destruct s as [g us]. intros [Hg Hus]. simpl in *. apply (struct_survives 4); [lia|].
  next_field ltac:(by apply survives_int).
  next_field ltac:(apply (survives_slice _ 3); [lia|]; eapply Forall_impl; [exact Hus|];
    apply survives_unit). done.
Qed.

Definition response_ok (r : Response) : Prop :=
  valid_utf8 (rs_Version r) ∧ valid_utf8 (rs_ID r) ∧ valid_utf8 (rs_Type r) ∧
  in_int64 (pl_Timestamp (rs_Payload r)) ∧ valid_utf8 (pl_Message (rs_Payload r)) ∧
  ∀ s, rs_Summary r = Some s → summary_ok s.

Lemma survives_response r : response_ok r → survives 6 r.
Proof.
  destruct r as [v i t p s]. unfold response_ok. simpl. intros (Hv & Hi & Ht & H1 & H2 & Hs).
  apply (struct_survives 5); [lia|]. do 3 next_field ltac:(by apply survives_string).
  next_field ltac:(apply (survives_mono _ 1); [lia|]; by apply survives_payload).
  next_field ltac:(apply survives_pointer; [lia|]; intros x Hx; split;
    [by apply survives_summary, Hs|exact (struct_not_null summary_fields _ x)]).
  done.
Qed.

(** ** Lemmas: encoders and decoders *)

Ltac all_fields tac := apply Forall_forall; intros f Hf; 
  repeat (apply elem_of_cons in Hf as [->|Hf]; [tac|]); by apply elem_of_nil in Hf.

#[export] Instance payload_encodes : Encodes Payload.
Proof. apply struct_encodes. all_fields ltac:(apply mk_field_encodes). Qed.
#[export] Instance request_encodes : Encodes Request.
Proof. apply struct_encodes. all_fields ltac:(apply mk_field_encodes). Qed.
#[export] Instance check_encodes : Encodes CheckSample.
Proof. apply struct_encodes. all_fields ltac:(apply mk_field_encodes). Qed.
#[export] Instance speed_encodes : Encodes SpeedSample.
Proof. apply struct_encodes. all_fields ltac:(apply mk_field_encodes). Qed.
#[export] Instance speed_summary_encodes : Encodes SpeedSummary.
Proof. apply struct_encodes. all_fields ltac:(apply mk_field_encodes). Qed.
#[export] Instance unit_encodes : Encodes UnitSummary.
Proof. apply struct_encodes. all_fields ltac:(apply mk_field_encodes). Qed.
#[export] Instance summary_encodes : Encodes Summary.
Proof. apply struct_encodes. all_fields ltac:(apply mk_field_encodes). Qed.
#[export] Instance response_encodes : Encodes Response.
Proof. apply struct_encodes. all_fields ltac:(apply mk_field_encodes). Qed.

Definition payload_ok (p : Payload) : Prop := in_int64 (pl_Timestamp p) ∧ valid_utf8 (pl_Message p).

#[export] Instance payload_decodes : Decodes Payload payload_ok.
Proof.
  apply struct_decodes; [split; [done|by apply valid_ascii]|].
  apply Forall_cons. split; [|apply Forall_cons; split; [|done]].
  - apply (mk_field_preserves _ in_int64); [by intros a []|]. by intros b a Hb [].
  - apply (mk_field_preserves _ valid_utf8); [by intros a []|]. by intros b a Hb [].
Qed.

Definition request_wf (r : Request) : Prop :=
  (valid_utf8 (rq_Version r) ∧ valid_utf8 (rq_ID r) ∧ valid_utf8 (rq_Type r)) ∧
  payload_ok (rq_Payload r).

#[export] Instance request_decodes : Decodes Request request_wf.
Proof.
  apply struct_decodes; [split; [split_and!; by apply valid_ascii|exact decodes_zero]|].
  repeat (apply Forall_cons; split); [..|done].
  1-3: apply (mk_field_preserves _ valid_utf8); [by intros a [(? & ? & ?) ?]|];
    by intros b a Hb [(? & ? & ?) ?].
  apply (mk_field_preserves _ payload_ok); [by intros a [? ?]|]. by intros b a Hb [(? & ? & ?) ?].
Qed.

Lemma request_wf_ok r : request_wf r → request_ok r.
Proof. intros [(? & ? & ?) [? ?]]. done. Qed.

Definition line_end : string := String newline "".

Lemma request_line r :
  request_ok r →
  ∃ line, EncodeRequest r = Some line ∧ str_forall printable line = true ∧
    Unmarshal (line +:+ line_end) = Some r.
Proof. intros Hr. by apply (Unmarshal_Marshal r 2 line_end); [apply survives_request|..]. Qed.

Lemma response_line r :
  response_ok r →
  ∃ line, EncodeResponse r = Some line ∧ str_forall printable line = true ∧
    DecodeResponse (line +:+ line_end) = Some r.
Proof. intros Hr. by apply (Unmarshal_Marshal r 6 line_end); [apply survives_response|..]. Qed.

(** ** Properties *)

(** C33: request round trip.  A request whose strings are valid UTF-8 (and whose
    timestamp fits an int64) is encoded, and decoding the encoded line, with
    its newline, gives it back; an error is reported exactly when its version
    is not the supported one. *)
Theorem request_roundtrip r :
  request_ok r →
  ∃ line, EncodeRequest r = Some line ∧
    DecodeRequest (line +:+ line_end) =
      (r, if decide (rq_Version r = Version) then None else Some (ErrVersionMismatch (rq_Version r))).
Proof.
  intros Hr. destruct (request_line r Hr) as (line & He & _ & Hd). exists line. split; [done|].
  unfold DecodeRequest. rewrite Hd. destruct (String.eqb_spec (rq_Version r) Version), (decide _); done.
Qed.

Definition sample_request : Request :=
  MkRequest "0.1" "42" "ping" (MkPayload 1700000000123 "a<b> line" ).

Lemma sample_request_ok : request_ok sample_request.
Proof. unfold request_ok. split_and!; try done; by apply valid_ascii. Qed.

Lemma request_roundtrip_witness :
  ∃ line, EncodeRequest sample_request = Some line ∧
    DecodeRequest (line +:+ line_end) = (sample_request, None).
Proof. exact (request_roundtrip sample_request sample_request_ok). Defined.

(** C21: response round trip.  A response with valid strings, integers in range
    and finite numbers, with or without a summary, is decoded from its encoded
    line unchanged: every unit, its history, speed figures and omitted fields. *)
Theorem response_roundtrip r :
  response_ok r →
  ∃ line, EncodeResponse r = Some line ∧ DecodeResponse (line +:+ line_end) = Some r.
Proof.
  intros Hr. destruct (response_line r Hr) as (line & He & _ & Hd). by exists line.
Qed.

Definition sample_response : Response :=
  NewSummary "7" (MkSummary 1700000000123
    [MkUnitSummary "ping_monitor:db:7777" "UNHEALTHY" (f_of_int 50) (f_of_dec false 995 (-1)) 3 0 None
       [MkCheckSample 1700000000000 true; MkCheckSample 1700000001000 false] [];
     MkUnitSummary "speed_check" "HEALTHY" f_hundred f_hundred 0 1700000000000
       (Some (MkSpeedSummary 1 (f_of_dec false 93125 (-3)) (f_of_dec false 93125 (-3))
                (f_of_dec false 93125 (-3)) (f_of_dec false 93125 (-3))))
       [] [MkSpeedSample 1700000000000 (f_of_dec false 93125 (-3))]]).

Lemma sample_response_ok : response_ok sample_response.
Proof.
  unfold response_ok, sample_response. simpl. split_and!; try by apply valid_ascii. { done. }
  intros s [= <-]. split; [done|]. simpl.
  repeat (apply Forall_cons; split); [..|done]; split; simpl;
    try (by apply valid_ascii); try done;
    try (apply (bool_decide_unpack _); vm_compute; exact I).
  - intros s [= <-]. repeat split; try done; apply (bool_decide_unpack _); vm_compute; exact I.
Qed.

Lemma response_roundtrip_witness :
  ∃ line, EncodeResponse sample_response = Some line ∧
    DecodeResponse (line +:+ line_end) = Some sample_response.
Proof. exact (response_roundtrip sample_response sample_response_ok). Defined.

(** Framing.  Whatever the strings, numbers and histories of a message
    (even bytes that are not UTF-8, quotes or newlines in an id), what
    [EncodeRequest] and [EncodeResponse] return has no control byte, hence no
    newline: one message is exactly one line. *)
Theorem encoded_is_one_line :
  (∀ r s, EncodeRequest r = Some s → str_forall printable s = true ∧ ∀ u v, s ≠ u +:+ String newline v) ∧
  (∀ r s, EncodeResponse r = Some s → str_forall printable s = true ∧ ∀ u v, s ≠ u +:+ String newline v).
Proof.
  split; intros r s Hs; apply Marshal_printable in Hs; (split; [done|]);
    intros u v; by apply (printable_no_newline s v).
Qed.

(** [DecodeRequest] on any input.  Malformed text gives the empty request;
    otherwise the decoded request is returned, with valid UTF-8 strings and a
    timestamp that fits an int64, and the version error is reported exactly
    when the version differs, so the id can be echoed. *)
Theorem DecodeRequest_total line :
  match DecodeRequest line with
  | (r, None) => rq_Version r = Version ∧ request_ok r
  | (r, Some (ErrVersionMismatch got)) => got = rq_Version r ∧ got ≠ Version ∧ request_ok r
  | (r, Some Malformed) => r = zero_request ∧ Unmarshal (A:=Request) line = None
  end.
Proof.
  unfold DecodeRequest. destruct (Unmarshal line) as [r|] eqn:E; [|done].
  apply (Unmarshal_decodes (P:=request_wf)), request_wf_ok in E.
  by destruct (String.eqb_spec (rq_Version r) Version).
Qed.
