(* ===== verification/Handlers.v ===== *)
(** * Request handlers ([internal/roles/message_dispatcher.go], [message_handler.go])

    A handler serves one request type; the summary handler reads the shared
    registry at the time of the request, so [Handle] takes the registry and the
    clock ([None]: the code panics).  [Dispatch] decodes a line and routes it. *)

From S2P Require Import Prelude GoTime Float64 GoString Utf8 Json GoJson Protocol.
From S2P Require History StateMachine Registry.

Record MessageHandler := MkHandler {
  mh_Type : string;
  mh_Handle : option Registry.Registry → Time → Request → option Response;
}.

Definition PingHandler : MessageHandler :=
  MkHandler TypePing (λ _ _ req, Some (NewPong req)).

(** ** The wire summary *)

Definition wire_check (c : History.CheckSample) : CheckSample :=
  MkCheckSample (Time_UnixMilli (History.cs_Time c)) (History.cs_Success c).

Definition wire_speed (s : History.SpeedSample) : SpeedSample :=
  MkSpeedSample (Time_UnixMilli (History.ss_Time s)) (History.ss_Mbps s).

Definition wire_stats (s : Registry.SpeedStats) : SpeedSummary :=
  MkSpeedSummary (Registry.st_Count s) (Registry.st_Min s) (Registry.st_Avg s)
    (Registry.st_Max s) (Registry.st_Latest s).

Definition wire_unit (u : Registry.UnitSummary) : UnitSummary :=
  let st := Registry.su_Status u in
  MkUnitSummary (Registry.us_Name st) (StateMachine.State_String (Registry.us_State st))
    (Registry.us_Availability st) (Registry.su_HistoryAvailability u)
    (Registry.us_Consecutive st)
    (if Time_IsZero (Registry.us_LastSuccess st) then 0
     else Time_UnixMilli (Registry.us_LastSuccess st))
    (wire_stats <$> Registry.su_Speed u)
    (wire_check <$> Registry.su_Checks u)
    (wire_speed <$> Registry.su_Speeds u).

Definition toWireSummary (fs : Registry.FleetSummary) : Summary :=
  MkSummary (Time_UnixMilli (Registry.fs_GeneratedAt fs)) (wire_unit <$> Registry.fs_Units fs).

Definition SummaryHandler : MessageHandler :=
  MkHandler TypeGetSummary (λ reg now req,
    fs ← Registry.Summary reg now; Some (NewSummary (rq_ID req) (toWireSummary fs))).

(** ** The dispatcher *)

Record MessageDispatcher := MkMessageDispatcher { md_handlers : gmap string MessageHandler }.

(** A later handler of the same type overrides an earlier one. *)
Definition NewMessageDispatcher (handlers : list MessageHandler) : MessageDispatcher :=
  MkMessageDispatcher (foldl (λ m h, <[mh_Type h := h]> m) ∅ handlers).

Definition Dispatch (d : MessageDispatcher) (reg : option Registry.Registry) (now : Time)
    (line : string) : option Response :=
  match DecodeRequest line with
  | (req, Some (ErrVersionMismatch _)) => Some (NewError (rq_ID req) "unsupported protocol version")
  | (_, Some Malformed) => Some (NewError "" "malformed request")
  | (req, None) =>
      match md_handlers d !! rq_Type req with
      | None => Some (NewError (rq_ID req) "unsupported request type")
      | Some h => mh_Handle h reg now req
      end
  end.

(** ** Lemmas *)

Lemma NewMessageDispatcher_lookup hs ty :
  md_handlers (NewMessageDispatcher hs) !! ty =
    List.find (λ h, String.eqb (mh_Type h) ty) (rev hs).
Proof.
  unfold NewMessageDispatcher. simpl.
  induction hs as [|h l IH] using rev_ind; simpl; [apply lookup_empty|].
  rewrite foldl_snoc, rev_unit. simpl.
  destruct (String.eqb_spec (mh_Type h) ty) as [<-|Hne].
  - by rewrite lookup_insert_eq.
  - by rewrite lookup_insert_ne.
Qed.

Lemma Time_UnixMilli_int64 t : in_int64 (Time_UnixMilli t).
Proof. apply int_wrap_range. Qed.

(** A unit's data that the wire format can carry. *)
Record wire_ready (u : Registry.UnitSummary) : Prop := {
  wr_name : valid_utf8 (Registry.us_Name (Registry.su_Status u));
  wr_availability : float_ok (Registry.us_Availability (Registry.su_Status u));
  wr_history : float_ok (Registry.su_HistoryAvailability u);
  wr_consecutive : in_int64 (Registry.us_Consecutive (Registry.su_Status u));
  wr_speed s : Registry.su_Speed u = Some s → speed_summary_ok (wire_stats s);
  wr_speeds : Forall (λ s, float_ok (History.ss_Mbps s)) (Registry.su_Speeds u);
}.

Lemma wire_unit_ok u : wire_ready u → unit_ok (wire_unit u).
Proof.
  intros []. split; simpl; try done.
  - destruct (Registry.us_State _); by apply valid_ascii.
  - case_match; [done|apply Time_UnixMilli_int64].
  - intros s. destruct (Registry.su_Speed u) as [s'|]; simpl; [|done].
    intros [= <-]. by apply wr_speed0.
  - apply Forall_fmap, Forall_true. intros c. apply Time_UnixMilli_int64.
  - apply Forall_fmap. eapply Forall_impl; [done|]. intros s Hs. split; [apply Time_UnixMilli_int64|done].
Qed.

Lemma toWireSummary_ok fs : Forall wire_ready (Registry.fs_Units fs) → summary_ok (toWireSummary fs).
Proof.
  intros H. split; [apply Time_UnixMilli_int64|]. apply Forall_fmap.
  eapply Forall_impl; [exact H|]. apply wire_unit_ok.
Qed.

(** The answer to a decoded ping. *)
Lemma answer_to_ping hs reg now req :
  request_ok req → rq_Version req = Version → rq_Type req = TypePing →
  PingHandler ∈ hs → (∀ h, h ∈ hs → mh_Type h = TypePing → h = PingHandler) →
  ∀ line, Unmarshal line = Some req →
  ∃ answer, Dispatch (NewMessageDispatcher hs) reg now line = Some (NewPong req) ∧
    EncodeResponse (NewPong req) = Some answer ∧ str_forall printable answer = true ∧
    DecodeResponse (answer +:+ line_end) = Some (NewPong req).
Proof.
  intros Hok Hv Ht Hin Huniq line Hd. destruct Hok as (_ & Hi & _ & Hts & _).
  assert (Hresp : response_ok (NewPong req)).
  { unfold response_ok, NewPong. simpl. split_and!; try done; by apply valid_ascii. }
  destruct (response_line _ Hresp) as (answer & Ha & Hp & Hda).
  exists answer. split; [|done].
  unfold Dispatch, DecodeRequest. rewrite Hd, Hv, String.eqb_refl. cbn [negb].
  rewrite NewMessageDispatcher_lookup, Ht.
  destruct (List.find _ (rev hs)) as [h|] eqn:E.
  - apply find_some in E as [Hh Hty%String.eqb_eq]. rewrite <- in_rev in Hh.
    apply list_elem_of_In in Hh. by rewrite (Huniq h Hh Hty).
  - apply list_elem_of_In in Hin. rewrite in_rev in Hin.
    by specialize (find_none _ _ E _ Hin).
Qed.

(** The answer to a decoded get-summary request. *)
Lemma answer_to_summary hs reg now req fs line :
  Unmarshal line = Some req → rq_Version req = Version → rq_Type req = TypeGetSummary →
  List.find (λ h, String.eqb (mh_Type h) TypeGetSummary) (rev hs) = Some SummaryHandler →
  Registry.Summary reg now = Some fs →
  Dispatch (NewMessageDispatcher hs) reg now line = Some (NewSummary (rq_ID req) (toWireSummary fs)).
Proof.
  intros Hd Hv Ht Hh Hfs. unfold Dispatch, DecodeRequest. rewrite Hd, Hv, String.eqb_refl. cbn [negb].
  rewrite NewMessageDispatcher_lookup, Ht, Hh. simpl. by rewrite Hfs.
Qed.

(** ** Properties *)

(** Routing.  Whatever line arrives, the dispatcher answers: malformed text
    and unsupported versions with an error (echoing the id when there is one),
    a type no handler serves with an error echoing the id, and every other
    request with the answer of the last registered handler of its type. *)
Theorem Dispatch_routes hs reg now line :
  Dispatch (NewMessageDispatcher hs) reg now line =
    match DecodeRequest line with
    | (_, Some Malformed) => Some (NewError "" "malformed request")
    | (req, Some (ErrVersionMismatch got)) =>
        Some (NewError (rq_ID req) "unsupported protocol version")
    | (req, None) =>
        match List.find (λ h, String.eqb (mh_Type h) (rq_Type req)) (rev hs) with
        | Some h => mh_Handle h reg now req
        | None => Some (NewError (rq_ID req) "unsupported request type")
        end
    end.
Proof.
  unfold Dispatch. destruct (DecodeRequest line) as [req [[|got]|]]; [done..|].
  by rewrite NewMessageDispatcher_lookup.
Qed.

(** A ping is answered by its pong.  For every valid ping request, the
    server's answer to the encoded line echoes id and timestamp, and the
    encoded answer decodes at the client to exactly that pong, whichever other
    handlers of other types are registered. *)
Theorem ping_pong hs reg now req :
  request_ok req → rq_Version req = Version → rq_Type req = TypePing →
  PingHandler ∈ hs → (∀ h, h ∈ hs → mh_Type h = TypePing → h = PingHandler) →
  ∃ line resp answer,
    EncodeRequest req = Some line ∧
    Dispatch (NewMessageDispatcher hs) reg now (line +:+ line_end) = Some resp ∧
    resp = MkResponse Version (rq_ID req) TypePong
             (MkPayload (pl_Timestamp (rq_Payload req)) "") None ∧
    EncodeResponse resp = Some answer ∧
    DecodeResponse (answer +:+ line_end) = Some resp.
Proof.
  intros Hok Hv Ht Hin Huniq. destruct (request_line req Hok) as (line & He & _ & Hd).
  destruct (answer_to_ping hs reg now req Hok Hv Ht Hin Huniq _ Hd) as (answer & Hdis & Ha & _ & Hda).
  by exists line, (NewPong req), answer.
Qed.

Lemma ping_pong_witness :
  ∃ line resp, EncodeRequest (MkRequest Version "17" TypePing (MkPayload 1700000000123 "")) = Some line ∧
    Dispatch (NewMessageDispatcher [PingHandler; SummaryHandler]) None 0 (line +:+ line_end) = Some resp ∧
    rs_ID resp = "17" ∧ pl_Timestamp (rs_Payload resp) = 1700000000123.
Proof.
  destruct (ping_pong [PingHandler; SummaryHandler] None 0
    (MkRequest Version "17" TypePing (MkPayload 1700000000123 "")))
    as (line & resp & answer & He & Hd & Hr & _).
  - unfold request_ok. split_and!; try done; by apply valid_ascii.
  - reflexivity.
  - reflexivity.
  - set_solver.
  - intros h Hh. apply elem_of_cons in Hh as [->|Hh]; [done|].
    apply list_elem_of_singleton in Hh as ->. done.
  - exists line, resp. split; [exact He|]. split; [exact Hd|]. rewrite Hr. done.
Defined.

(** C22: the summary over the wire.  A get-summary request is answered from the
    registry, and when the registry's names and numbers can be written the
    client decodes the very summary the server computed: every unit in order
    with its state, availabilities, counters, last success and histories. *)
Theorem summary_over_wire hs reg now req fs :
  request_ok req → rq_Version req = Version → rq_Type req = TypeGetSummary →
  List.find (λ h, String.eqb (mh_Type h) TypeGetSummary) (rev hs) = Some SummaryHandler →
  Registry.Summary reg now = Some fs → Forall wire_ready (Registry.fs_Units fs) →
  ∃ line answer,
    EncodeRequest req = Some line ∧
    (resp ← Dispatch (NewMessageDispatcher hs) reg now (line +:+ line_end);
     EncodeResponse resp) = Some answer ∧
    DecodeResponse (answer +:+ line_end) =
      Some (NewSummary (rq_ID req) (toWireSummary fs)).
Proof.
  intros Hok Hv Ht Hh Hfs Hready. destruct (request_line req Hok) as (line & He & _ & Hd).
  assert (Hresp : response_ok (NewSummary (rq_ID req) (toWireSummary fs))).
  { destruct Hok as (_ & Hi & _). unfold response_ok, NewSummary. simpl.
    split_and!; try done; try by apply valid_ascii.
    intros s [= <-]. by apply toWireSummary_ok. }
  destruct (response_line _ Hresp) as (answer & Ha & _ & Hda).
  exists line, answer. split; [done|]. split; [|done].
  by rewrite (answer_to_summary hs reg now req fs).
Qed.

Definition sample_registry : option Registry.Registry :=
  '(r, _) ← Registry.Register (Some Registry.NewRegistry) "ping_monitor:db:7777"; r.

Lemma summary_over_wire_witness :
  ∃ line answer,
    EncodeRequest (MkRequest Version "s1" TypeGetSummary (MkPayload 0 "")) = Some line ∧
    (resp ← Dispatch (NewMessageDispatcher [PingHandler; SummaryHandler]) sample_registry
              (time_of_unix_milli 5) (line +:+ line_end); EncodeResponse resp) = Some answer ∧
    DecodeResponse (answer +:+ line_end) =
      Some (NewSummary "s1" (MkSummary 5
        [MkUnitSummary "ping_monitor:db:7777" "HEALTHY" f_zero f_hundred 0 0 None [] []])).
Proof.
  set (u := Registry.MkUnitSummary (Registry.MkUnitStatus "ping_monitor:db:7777"
              StateMachine.Healthy false f_zero 0 0) f_hundred None [] []).
  assert (Hfs : Registry.Summary sample_registry (time_of_unix_milli 5) =
                Some (Registry.MkFleetSummary (time_of_unix_milli 5) [u])) by (vm_compute; reflexivity).
  apply (summary_over_wire [PingHandler; SummaryHandler] sample_registry (time_of_unix_milli 5)
    (MkRequest Version "s1" TypeGetSummary (MkPayload 0 "")) _ ltac:(
       unfold request_ok; split_and!; try done; by apply valid_ascii)
    eq_refl eq_refl eq_refl Hfs).
  apply Forall_singleton. split; simpl.
  - by apply valid_ascii.
  - apply (bool_decide_unpack _). vm_compute. exact I.
  - apply (bool_decide_unpack _). vm_compute. exact I.
  - done.
  - done.
  - constructor.
Defined.
