(* ===== verification/Listener.v ===== *)
(** * The TCP listener ([internal/roles/tcp_listener.go])

    A connection is the text that arrives on it before a read fails (end of
    stream, timeout or shutdown), cut by [bufio.Reader.ReadSlice] over a buffer
    of fixed size, whatever the sizes of the packets.  [handle] is the loop of
    one connection: [answer n line] is what the message dispatcher answers to
    the [n]-th request (the registry and the clock move between requests) and
    [wr n] says whether the [n]-th write succeeds.  It runs on fuel, the length
    of the text being enough ([handle_responds]). *)

From S2P Require Import Prelude GoTime Slog Float64 GoString Utf8 Json GoJson Protocol Handlers.
From S2P Require Registry.

Local Open Scope string_scope.
Local Open Scope Z_scope.

Definition defaultMaxRequestBytes : Z := 64 * 1024.

Record TCPListener := MkTCPListener {
  tl_listen : string;
  tl_readTimeout : Duration;
  tl_maxRequest : Z;
  tl_dispatcher : MessageDispatcher;
}.

Definition NewTCPListener (listen : string) (readTimeout : Duration) (d : MessageDispatcher)
    : TCPListener :=
  MkTCPListener listen readTimeout defaultMaxRequestBytes d.

(** ** [ReadSlice] *)

(** The text up to and including the first newline, and the rest. *)
Fixpoint split_line (s : string) : option (string * string) :=
  match s with
  | "" => None
  | String c rest =>
      if Ascii.eqb c newline then Some (String c "", rest)
      else '(line, rest) ← split_line rest; Some (String c line, rest)
  end.

Inductive ReadResult :=
  | Line (line rest : string)
  | BufferFull
  | ReadError.

Definition strlen (s : string) : Z := Z.of_nat (String.length s).

Definition ReadSlice (size : Z) (stream : string) : ReadResult :=
  match split_line stream with
  | Some (line, rest) => if strlen line <=? size then Line line rest else BufferFull
  | None => if size <=? strlen stream then BufferFull else ReadError
  end.

(** ** The connection loop *)

(** What a connection does: a successful write, or the warning for a response
    that cannot be encoded. *)
Inductive ConnEvent :=
  | Wrote (out : string)
  | EncodeFailed (resp : Response).

(** [ok] says whether the write succeeds; also returned is whether the
    connection goes on. *)
Definition writeResponse (ok : bool) (resp : Response) : list ConnEvent * bool :=
  match EncodeResponse resp with
  | None => ([EncodeFailed resp], false)
  | Some out => if ok then ([Wrote (out +:+ String newline "")], true) else ([], false)
  end.

Fixpoint handle_loop (size : Z) (answer : nat → string → option Response) (wr : nat → bool)
    (fuel : nat) (n : nat) (stream : string) : option (list ConnEvent) :=
  match fuel with
  | O => None
  | S fuel =>
      match ReadSlice size stream with
      | ReadError => Some []
      | BufferFull => Some (writeResponse (wr n) (NewError "" "request too large")).1
      | Line line rest =>
          resp ← answer n line;
          let '(out, ok) := writeResponse (wr n) resp in
          if ok then more ← handle_loop size answer wr fuel (S n) rest; Some (out ++ more)%list
          else Some out
      end
  end.

(** [bufio.NewReaderSize] never uses less than 16 bytes. *)
Definition buffer_size (s : TCPListener) : Z := Z.max 16 (tl_maxRequest s).

(** One connection of a listener; the [n]-th request sees the registry and the
    clock [world n]. *)
Definition handle (s : TCPListener) (world : nat → option Registry.Registry * Time)
    (wr : nat → bool) (stream : string) : option (list ConnEvent) :=
  handle_loop (buffer_size s)
    (λ n line, Dispatch (tl_dispatcher s) (world n).1 (world n).2 line) wr
    (S (String.length stream)) 0 stream.

(** [Run]: bind, then accept until the context is done.  The connections are
    those that get a goroutine. *)
Inductive AcceptEvent :=
  | Accepted (stream : string)
  | AcceptFailed (err : string)
  | AcceptShutdown.

Fixpoint accept_loop (events : list AcceptEvent) : list string * list LogRecord :=
  match events with
  | [] | AcceptShutdown :: _ => ([], [])
  | Accepted stream :: events => let '(cs, l) := accept_loop events in (stream :: cs, l)
  | AcceptFailed err :: events =>
      let '(cs, l) := accept_loop events in
      (cs, MkLogRecord LevelWarn "tcp_listener accept error" [("error", SError err)] :: l)
  end.

(** [bind] is the result of [Listen]: an error, or the bound address. *)
Definition TCPListener_Run (bind : result string string) (events : list AcceptEvent)
    : option string * (list string * list LogRecord) :=
  match bind with
  | Err err => (Some err, ([], []))
  | Ok addr =>
      let '(cs, l) := accept_loop events in
      (None, (cs, MkLogRecord LevelInfo "tcp_listener listening" [("addr", SString addr)] :: l))
  end.

(** ** Lemmas *)

Definition has_newline (s : string) : bool := negb (str_forall (λ c, negb (Ascii.eqb c newline)) s).

(** A request line: its only newline is its last byte, and it fits. *)
Definition is_request (size : Z) (line : string) : Prop :=
  ∃ body, line = body +:+ line_end ∧ has_newline body = false ∧ strlen line ≤ size.

(** What is left on a connection when it ends. *)
Definition too_large (size : Z) (tail : string) : bool :=
  match ReadSlice size tail with BufferFull => true | _ => false end.

Lemma split_line_spec s line rest :
  split_line s = Some (line, rest) →
  s = line +:+ rest ∧ ∃ body, line = body +:+ line_end ∧ has_newline body = false.
Proof.
  revert line. induction s as [|c s IH]; intros line; cbn [split_line]; [done|].
  destruct (Ascii.eqb_spec c newline) as [->|Hne].
  - intros [= <- <-]. split; [done|]. by exists "".
  - intros ([l r] & Hs & H)%bind_Some. simplify_eq. destruct (IH _ Hs) as (-> & body & -> & Hb).
    split; [done|]. exists (String c body). split; [done|]. unfold has_newline in *. simpl.
    apply negb_false_iff in Hb. rewrite Hb. by destruct (Ascii.eqb_spec c newline).
Qed.

Lemma split_line_app body rest :
  has_newline body = false →
  split_line (body +:+ String newline rest) = Some (body +:+ line_end, rest).
Proof.
  unfold has_newline. intros H%negb_false_iff. induction body as [|c body IH]; [done|].
  simpl in H. apply andb_true_iff in H as [Hc H].
  change ((String c body) +:+ ?x) with (String c (body +:+ x)). cbn [split_line].
  apply negb_true_iff in Hc. by rewrite Hc, IH.
Qed.

Lemma ReadSlice_shorter size stream line rest :
  ReadSlice size stream = Line line rest → (String.length rest < String.length stream)%nat.
Proof.
  unfold ReadSlice. destruct (split_line stream) as [[l r]|] eqn:Hs; [|by case_match].
  case_match; [|done]. intros [= <- <-].
  destruct (split_line_spec _ _ _ Hs) as (-> & body & -> & _).
  rewrite !length_app. cbn [String.length line_end]. lia.
Qed.

Lemma ReadSlice_request size line rest :
  is_request size line → ReadSlice size (line +:+ rest) = Line line rest.
Proof.
  intros (body & -> & Hb & Hlen). unfold ReadSlice, line_end. rewrite string_app_assoc.
  change (String newline "" +:+ rest) with (String newline rest). rewrite split_line_app by done.
  destruct (Z.leb_spec (strlen (body +:+ line_end)) size); [done|]. unfold line_end in *. lia.
Qed.

(** A line of printable text. *)
Definition one_line (out : string) : Prop :=
  ∃ text, out = text +:+ line_end ∧ str_forall printable text = true.

Definition writes_line (ev : ConnEvent) : Prop :=
  match ev with Wrote out => one_line out | EncodeFailed resp => EncodeResponse resp = None end.

Lemma writeResponse_line ok resp : Forall writes_line (writeResponse ok resp).1.
Proof.
  unfold writeResponse. destruct (EncodeResponse resp) as [text|] eqn:E; [destruct ok|]; simpl;
    repeat constructor; [|done].
  exists text. split; [done|]. by eapply Marshal_printable.
Qed.

(** The answer to one request, as written. *)
Definition reply (resp : option Response) : string :=
  default "" (r ← resp; text ← EncodeResponse r; Some (text +:+ line_end)).

Lemma reply_encoded resp text :
  EncodeResponse resp = Some text → reply (Some resp) = text +:+ line_end.
Proof. unfold reply. cbn [mbind option_bind]. by intros ->. Qed.

Section loop.
Context (size : Z) (answer : nat → string → option Response).
Hypothesis Hanswer : ∀ n line, is_request size line →
  ∃ resp text, answer n line = Some resp ∧ EncodeResponse resp = Some text.

Lemma handle_loop_responds fuel n stream :
  (String.length stream < fuel)%nat →
  ∃ lines tail,
    stream = concat_str lines +:+ tail ∧ Forall (is_request size) lines ∧
    (∀ line rest, ReadSlice size tail ≠ Line line rest) ∧
    handle_loop size answer (λ _, true) fuel n stream =
      Some (imap (λ i line, Wrote (reply (answer (n + i)%nat line))) lines ++
            (if too_large size tail then [Wrote (reply (Some (NewError "" "request too large")))]
             else []))%list.
Proof.
  revert n stream. induction fuel as [|fuel IH]; intros n stream Hlen; [lia|]. cbn [handle_loop].
  destruct (ReadSlice size stream) as [line rest| |] eqn:Hread.
  - unfold ReadSlice in Hread. destruct (split_line stream) as [[l r]|] eqn:Hs; [|by case_match].
    destruct (Z.leb_spec (strlen l) size); simplify_eq.
    destruct (split_line_spec _ _ _ Hs) as (-> & body & -> & Hb).
    assert (Hreq : is_request size (body +:+ line_end)) by by exists body.
    destruct (Hanswer n _ Hreq) as (resp & text & Ha & He). rewrite Ha. cbn [mbind option_bind].
    unfold writeResponse. rewrite He.
    destruct (IH (S n) rest) as (lines & tail & -> & Hl & Ht & ->).
    { rewrite !length_app in Hlen. cbn [String.length line_end] in Hlen. lia. }
    exists ((body +:+ line_end) :: lines), tail. split; [by rewrite <- string_app_assoc|].
    split; [by constructor|]. split; [done|]. cbn [mbind option_bind imap]. rewrite Nat.add_0_r, Ha.
    rewrite (reply_encoded _ _ He). simpl. do 3 f_equal.
    apply imap_ext. intros i x _. simpl. do 3 f_equal. lia.
  - exists [], stream. split_and!; [done|done|by rewrite Hread|]. unfold too_large. by rewrite Hread.
  - exists [], stream. split_and!; [done|done|by rewrite Hread|]. unfold too_large. by rewrite Hread.
Qed.
End loop.

Lemma handle_loop_lines size answer wr fuel n stream :
  (∀ n line, is_Some (answer n line)) → (String.length stream < fuel)%nat →
  ∃ evs, handle_loop size answer wr fuel n stream = Some evs ∧ Forall writes_line evs.
Proof.
  intros Ha. revert n stream. induction fuel as [|fuel IH]; intros n stream Hlen; [lia|].
  cbn [handle_loop]. destruct (ReadSlice size stream) as [line rest| |] eqn:Hread.
  - destruct (Ha n line) as [resp ->]. cbn [mbind option_bind].
    pose proof (writeResponse_line (wr n) resp) as Hout.
    destruct (writeResponse (wr n) resp) as [out ok]. destruct ok; [|by exists out].
    destruct (IH (S n) rest) as (more & -> & Hm); [by eapply ReadSlice_shorter in Hread; lia|].
    exists (out ++ more)%list. split; [done|]. by apply Forall_app.
  - eexists. split; [done|]. apply writeResponse_line.
  - exists []. split; [done|]. constructor.
Qed.

(** Every answer of a pong-only instance can be encoded. *)
Lemma pong_only_answers reg now line :
  ∃ resp text, Dispatch (NewMessageDispatcher [PingHandler]) reg now line = Some resp ∧
    EncodeResponse resp = Some text.
Proof.
  assert (Henc : ∀ r, response_ok r → ∃ resp text, Some r = Some resp ∧ EncodeResponse resp = Some text).
  { intros r H. destruct (response_line r H) as (text & Ht & _). eauto. }
  assert (Herr : ∀ id msg, valid_utf8 id → valid_utf8 msg → response_ok (NewError id msg)).
  { intros id msg Hi Hm. unfold response_ok, NewError. simpl. split_and!; try done; by apply valid_ascii. }
  unfold Dispatch, DecodeRequest. destruct (Unmarshal line) as [req|] eqn:Hd.
  - apply (Unmarshal_decodes (P:=request_wf)) in Hd as [(_ & Hid & _) [Hts _]].
    destruct (negb _).
    { apply Henc, Herr; [done|by apply valid_ascii]. }
    cbn. destruct (decide (TypePing = rq_Type req)) as [<-|Hne].
    + rewrite lookup_insert_eq. simpl. apply Henc.
      unfold response_ok, NewPong. simpl. split_and!; try done; by apply valid_ascii.
    + rewrite lookup_insert_ne, lookup_empty by done.
      apply Henc, Herr; [done|by apply valid_ascii].
  - apply Henc, Herr; by apply valid_ascii.
Qed.

(** ** Properties *)

(** C20: the connection loop.  Any text that arrives on a connection is a
    sequence of request lines of at most [maxRequest] bytes, each answered by
    exactly one response line in order, and a rest without such a line; the
    rest is answered by one "request too large" when it fills the buffer, else
    by nothing, and the loop ends.  (Writes succeeding and the answers being
    encodable.) *)
Theorem handle_responds s world stream :
  (∀ n line, is_request (buffer_size s) line →
     ∃ resp text, Dispatch (tl_dispatcher s) (world n).1 (world n).2 line = Some resp ∧
       EncodeResponse resp = Some text) →
  ∃ lines tail,
    stream = concat_str lines +:+ tail ∧ Forall (is_request (buffer_size s)) lines ∧
    (∀ line rest, ReadSlice (buffer_size s) tail ≠ Line line rest) ∧
    handle s world (λ _, true) stream =
      Some (imap (λ i line,
              Wrote (reply (Dispatch (tl_dispatcher s) (world i).1 (world i).2 line))) lines ++
            (if too_large (buffer_size s) tail
             then [Wrote (reply (Some (NewError "" "request too large")))] else []))%list.
Proof.
  intros Ha. unfold handle.
  by destruct (handle_loop_responds (buffer_size s)
    (λ n line, Dispatch (tl_dispatcher s) (world n).1 (world n).2 line) Ha
    (S (String.length stream)) 0 stream) as (lines & tail & H); [lia|]; exists lines, tail.
Qed.

Definition pong_listener : TCPListener :=
  NewTCPListener ":7777" (5 * Second) (NewMessageDispatcher [PingHandler]).

Definition idle_world (n : nat) : option Registry.Registry * Time := (None, 0).

Lemma handle_responds_witness :
  ∃ lines tail,
    "junk" +:+ line_end +:+ "half" = concat_str lines +:+ tail ∧
    Forall (is_request 65536) lines ∧
    handle pong_listener idle_world (λ _, true) ("junk" +:+ line_end +:+ "half") =
      Some (imap (λ i line, Wrote (reply (Dispatch (tl_dispatcher pong_listener) None 0 line))) lines ++
            (if too_large 65536 tail
             then [Wrote (reply (Some (NewError "" "request too large")))] else []))%list.
Proof.
  destruct (handle_responds pong_listener idle_world ("junk" +:+ line_end +:+ "half"))
    as (lines & tail & Hs & Hl & _ & Hh); [intros; apply pong_only_answers|].
  exists lines, tail. split; [exact Hs|]. split; [exact Hl|exact Hh].
Defined.

(** Every answer is one line.  Whatever arrives on a connection and
    however its writes fail, the loop ends (when the dispatcher does not panic)
    and each write is printable text followed by a single newline, so a client
    reads exactly one response per line. *)
Theorem handle_writes_lines s world wr stream :
  (∀ n line, is_Some (Dispatch (tl_dispatcher s) (world n).1 (world n).2 line)) →
  ∃ evs, handle s world wr stream = Some evs ∧ Forall writes_line evs.
Proof. intros Ha. apply handle_loop_lines; [done|lia]. Qed.

Lemma handle_writes_lines_witness :
  ∃ evs, handle pong_listener idle_world (λ _, false) ("x" +:+ line_end) = Some evs ∧
    Forall writes_line evs.
Proof.
  apply handle_writes_lines. intros n line.
  destruct (pong_only_answers None 0 line) as (resp & _ & H & _). exists resp. exact H.
Defined.

(** A pong-only instance is safe against any input: it never panics,
    answers every request line, and rejects get-summary as unsupported. *)
Theorem pong_only_rejects_summary reg now req line :
  Unmarshal line = Some req → rq_Version req = Version → rq_Type req = TypeGetSummary →
  Dispatch (NewMessageDispatcher [PingHandler]) reg now line =
    Some (NewError (rq_ID req) "unsupported request type") ∧
  ∀ s world stream, tl_dispatcher s = NewMessageDispatcher [PingHandler] →
    is_Some (handle s world (λ _, true) stream).
Proof.
  intros Hd Hv Ht. split.
  - unfold Dispatch, DecodeRequest. rewrite Hd, Hv, String.eqb_refl. cbn [negb]. by rewrite Ht.
  - intros s world stream Hs. unfold handle. rewrite Hs.
    destruct (handle_loop_responds (buffer_size s)
      (λ n line, Dispatch (NewMessageDispatcher [PingHandler]) (world n).1 (world n).2 line)
      ltac:(intros; apply pong_only_answers)
      (S (String.length stream)) 0 stream) as (lines & tail & _ & _ & _ & ->); [lia|]. eauto.
Qed.

Lemma pong_only_rejects_summary_witness :
  ∃ line, EncodeRequest (MkRequest Version "9" TypeGetSummary (MkPayload 0 "")) = Some line ∧
    Dispatch (NewMessageDispatcher [PingHandler]) None 0 (line +:+ line_end) =
      Some (NewError "9" "unsupported request type").
Proof.
  destruct (request_line (MkRequest Version "9" TypeGetSummary (MkPayload 0 "")))
    as (line & He & _ & Hd).
  { unfold request_ok. split_and!; try done; by apply valid_ascii. }
  exists line. split; [exact He|].
  exact (proj1 (pong_only_rejects_summary None 0 _ _ Hd eq_refl eq_refl)).
Defined.
