(* ===== verification/Checks.v ===== *)
(** * The monitoring roles ([internal/roles]: [roles.go], [ping_monitor.go],
    [url_monitor.go], [internet_check.go], [http_probe.go], [speed_check.go],
    [summary_reporter.go])

    One check is a function of the monitor, the shared [World] (registry, log,
    alerts handed to the notifier) and what the outside world does during it:
    the network exchange, the clock readings.  [None] is a panic.  A [Run] loop
    is a list of ticks ended by the context.  [go_quote] ([%q]) and the texts of
    errors raised by the standard library are parameters: they only appear in
    messages. *)

From S2P Require Import Prelude GoTime Slog Float64 GoString Utf8 Strconv Json GoJson.
From S2P Require Import Url Window History StateMachine Registry Dispatcher.
From S2P Require Protocol.

Local Open Scope string_scope.
Local Open Scope Z_scope.

(** ** Alerts ([roles.go]) *)

Definition stateName (s : State) : string :=
  if bool_decide (s = Unhealthy) then "UNHEALTHY" else "HEALTHY".

(** The calls of [Notifier.Dispatch], in order. *)
Notation Dispatched := (Alert * list string)%type.

Definition dispatchEvent (channels : list string) (role detail : string) (ev : Event)
    (consecutive : Z) (now : Time) : list Dispatched :=
  match ev with
  | AlertUnhealthy => [(MkAlert role "UNHEALTHY" now detail consecutive, channels)]
  | RecoveryHealthy => [(MkAlert role "HEALTHY" now detail 0, channels)]
  | EvNone => []
  end.

(** What the checks share. *)
Record World := MkWorld {
  w_registry : option Registry;
  w_logger : Logger;
  w_alerts : list Dispatched;
}.

Definition log (lv : Level) (msg : string) (attrs : list Attr) (w : World) : World :=
  MkWorld (w_registry w) (Logger_log lv msg attrs (w_logger w)) (w_alerts w).

(** The clock during one check: in [Observe], at [RecordCheck], in the alert. *)
Record Clock := MkClock { ck_observe : Time; ck_record : Time; ck_alert : Time }.

(** The end of every [runCheck], once the check's result is known; [mbps] is
    the measurement a speed check also records. *)
Definition conclude (role : string) (channels : list string) (h : option Handle) (clk : Clock)
    (success : bool) (detail : string) (mbps : option float64) (sm : StateMachine) (w : World)
    : option (StateMachine * World) :=
  '(sm, ev) ← Observe (ck_observe clk) success sm;
  let reg := Handle_Update h sm (w_registry w) in
  reg ← Handle_RecordCheck h (ck_record clk) success reg;
  reg ← (match mbps with
         | Some x => Handle_RecordSpeed h (ck_record clk) x reg
         | None => Some reg
         end);
  let logger :=
    if bool_decide (ev ≠ EvNone)
    then default (w_logger w) (Handle_LogSnapshot h reg (Some (w_logger w))) else w_logger w in
  Some (sm, MkWorld reg logger
    (w_alerts w ++ dispatchEvent channels role detail ev (sm_consecutive sm) (ck_alert clk))%list).

(** ** The ticker loop of every [Run] *)

Inductive TickEvent (A : Type) :=
  | Tick (a : A)
  | CtxDone.
Arguments Tick {_}.
Arguments CtxDone {_}.

Fixpoint tick_loop {A S} (step : A → S → option S) (events : list (TickEvent A)) (s : S)
    : option S :=
  match events with
  | [] | CtxDone :: _ => Some s
  | Tick a :: events => s ← step a s; tick_loop step events s
  end.

(** [time.NewTicker] panics on a non-positive interval. *)
Definition run_ticker {A S} (interval : Duration) (step : A → S → option S)
    (events : list (TickEvent A)) (s : S) : option S :=
  if interval <=? 0 then None else tick_loop step events s.

(** ** Probes *)

Inductive ProbeError :=
  | ErrDial (e : string)
  | ErrEncode
  | ErrWrite (e : string)
  | ErrRead (e : string)
  | ErrDecode (line : string)
  | ErrNotPong (type : string)
  | ErrIDMismatch (sent got : string)
  | ErrRequest (url : string)
  | ErrGet (e : string)
  | ErrStatus (code : Z)
  | ErrSpeedtest (e : string)
  | ErrSpeedJSON (out : string).

(** The peer of one exchange: whether it can be dialled and written to, and
    what [ReadBytes] returns after the given bytes were written. *)
Record PingNet := MkPingNet {
  pn_dial : option string;
  pn_write : option string;
  pn_read : string → result string string;
}.

(** [http.Client] as built by [NewHTTPClient]. *)
Record HTTPClient := MkHTTPClient { hc_Timeout : Duration; hc_InsecureSkipVerify : bool }.

Definition NewHTTPClient (timeout : Duration) (insecureSkipVerify : bool) : HTTPClient :=
  MkHTTPClient timeout insecureSkipVerify.

(** [http.Client.Do] of a GET: a transport error or a status code. *)
Notation HTTPNet := (HTTPClient → string → result string Z).

Definition httpProbe (net : HTTPNet) (client : HTTPClient) (url : string) : option ProbeError :=
  match url_Parse url with
  | None => Some (ErrRequest url)
  | Some _ =>
      match net client url with
      | Err e => Some (ErrGet e)
      | Ok code => if (code <? 200) || (300 <=? code) then Some (ErrStatus code) else None
      end
  end.

(** [ooklaResult]. *)
Record ooklaDownload := MkOoklaDownload { ok_Bandwidth : float64 }.
Record ooklaResult := MkOoklaResult { ok_Download : ooklaDownload }.

#[export] Instance download_codec : JsonCodec ooklaDownload :=
  struct_codec [mk_field "bandwidth" false ok_Bandwidth (λ x _, MkOoklaDownload x)]
    (MkOoklaDownload f_zero).
#[export] Instance ookla_codec : JsonCodec ooklaResult :=
  struct_codec [mk_field "download" false ok_Download (λ x _, MkOoklaResult x)]
    (MkOoklaResult (MkOoklaDownload f_zero)).

Definition measure (out : result string string) : result ProbeError float64 :=
  match out with
  | Err e => Err (ErrSpeedtest e)
  | Ok text =>
      match Unmarshal (A:=ooklaResult) text with
      | None => Err (ErrSpeedJSON text)
      | Some res =>
          Ok (f_div (f_mul (ok_Bandwidth (ok_Download res)) (f_of_int 8)) (f_of_int 1000000))
      end
  end.

(** The command of the default runner. *)
Definition execRunner (run : string → list string → result string string) (binary : string)
    : result string string :=
  run binary ["--accept-license"; "--accept-gdpr"; "--format=json"].

Section texts.
Context (go_quote : string → string).
Context (json_error url_error : string → string).

Definition error_text (e : ProbeError) : string :=
  match e with
  | ErrDial e => "dial: " +:+ e
  | ErrEncode => "encode: unsupported value"
  | ErrWrite e => "write: " +:+ e
  | ErrRead e => "read: " +:+ e
  | ErrDecode line => "decode: decode response: " +:+ json_error line
  | ErrNotPong ty => "expected pong, got type " +:+ go_quote ty
  | ErrIDMismatch sent got => "id mismatch: sent " +:+ go_quote sent +:+ " got " +:+ go_quote got
  | ErrRequest url => "request: " +:+ url_error url
  | ErrGet e => "get: " +:+ e
  | ErrStatus code => "non-2xx status: " +:+ print_int code
  | ErrSpeedtest e => "run speedtest: " +:+ e
  | ErrSpeedJSON out => "parse speedtest json: " +:+ json_error out
  end.

(** ** Ping ([ping_monitor.go]) *)

Record PingTarget := MkPingTarget {
  pt_Target : string;
  pt_Interval : Duration;
  pt_Timeout : Duration;
  pt_Channels : list string;
  pt_Mon : MonitorConfig;
}.

Record pingTargetMonitor := MkPingTargetMonitor {
  pm_target : string;
  pm_interval : Duration;
  pm_timeout : Duration;
  pm_channels : list string;
  pm_sm : StateMachine;
  pm_handle : option Handle;
  pm_idCounter : Z;
}.

(** One target: its state machine, then its registration. *)
Definition new_ping (t : PingTarget) (reg : option Registry)
    : option (pingTargetMonitor * option Registry) :=
  sm ← NewWithConfig (pt_Mon t);
  '(reg, h) ← Register reg ("ping_monitor:" +:+ pt_Target t);
  Some (MkPingTargetMonitor (pt_Target t) (pt_Interval t) (pt_Timeout t) (pt_Channels t) sm h 0, reg).

Fixpoint NewPingMonitor (targets : list PingTarget) (reg : option Registry)
    : option (list pingTargetMonitor * option Registry) :=
  match targets with
  | [] => Some ([], reg)
  | t :: targets =>
      '(m, reg) ← new_ping t reg;
      '(ms, reg) ← NewPingMonitor targets reg;
      Some (m :: ms, reg)
  end.

(** The exchange, with the counter after it; [now] is the request's time. *)
Definition ping_probe (net : PingNet) (now : Time) (counter : Z) : Z * option ProbeError :=
  match pn_dial net with
  | Some e => (counter, Some (ErrDial e))
  | None =>
      let counter := (counter + 1) mod 2 ^ 64 in
      let id := print_nat counter in
      let req := Protocol.MkRequest Protocol.Version id Protocol.TypePing
                   (Protocol.MkPayload (Time_UnixMilli now) "") in
      (counter,
       match Protocol.EncodeRequest req with
       | None => Some ErrEncode
       | Some line =>
           let line := line +:+ String newline "" in
           match pn_write net with
           | Some e => Some (ErrWrite e)
           | None =>
               match pn_read net line with
               | Err e => Some (ErrRead e)
               | Ok respLine =>
                   match Protocol.DecodeResponse respLine with
                   | None => Some (ErrDecode respLine)
                   | Some resp =>
                       if negb (String.eqb (Protocol.rs_Type resp) Protocol.TypePong)
                       then Some (ErrNotPong (Protocol.rs_Type resp))
                       else if negb (String.eqb (Protocol.rs_ID resp) id)
                       then Some (ErrIDMismatch id (Protocol.rs_ID resp))
                       else None
                   end
               end
           end
       end)
  end.

Definition ping_runCheck (net : PingNet) (now : Time) (clk : Clock)
    (st : pingTargetMonitor * World) : option (pingTargetMonitor * World) :=
  let '(m, w) := st in
  let '(counter, err) := ping_probe net now (pm_idCounter m) in
  let '(success, detail, w) :=
    match err with
    | None => (true, "ping to " +:+ pm_target m +:+ " succeeded", w)
    | Some e =>
        (false, "ping to " +:+ pm_target m +:+ " failed: " +:+ error_text e,
         log LevelWarn "ping_monitor check failed"
           [("target", SString (pm_target m)); ("error", SError (error_text e))] w)
    end in
  '(sm, w) ← conclude "ping_monitor" (pm_channels m) (pm_handle m) clk success detail None
               (pm_sm m) w;
  Some (MkPingTargetMonitor (pm_target m) (pm_interval m) (pm_timeout m) (pm_channels m) sm
          (pm_handle m) counter, w).

Definition ping_run (events : list (TickEvent (PingNet * Time * Clock)))
    (st : pingTargetMonitor * World) : option (pingTargetMonitor * World) :=
  run_ticker (pm_interval st.1) (λ '(net, now, clk), ping_runCheck net now clk) events st.

(** ** URL ([url_monitor.go]) *)

Record URLTarget := MkURLTarget {
  ut_URL : string;
  ut_Interval : Duration;
  ut_Timeout : Duration;
  ut_Channels : list string;
  ut_Mon : MonitorConfig;
  ut_InsecureSkipVerify : bool;
}.

Record urlTargetMonitor := MkURLTargetMonitor {
  um_url : string;
  um_interval : Duration;
  um_timeout : Duration;
  um_channels : list string;
  um_sm : StateMachine;
  um_handle : option Handle;
  um_client : HTTPClient;
}.

Definition new_url (t : URLTarget) (reg : option Registry)
    : option (urlTargetMonitor * option Registry) :=
  sm ← NewWithConfig (ut_Mon t);
  '(reg, h) ← Register reg ("url_monitor:" +:+ ut_URL t);
  Some (MkURLTargetMonitor (ut_URL t) (ut_Interval t) (ut_Timeout t) (ut_Channels t) sm h
          (NewHTTPClient (ut_Timeout t) (ut_InsecureSkipVerify t)), reg).

Fixpoint NewURLMonitor (targets : list URLTarget) (reg : option Registry)
    : option (list urlTargetMonitor * option Registry) :=
  match targets with
  | [] => Some ([], reg)
  | t :: targets =>
      '(m, reg) ← new_url t reg;
      '(ms, reg) ← NewURLMonitor targets reg;
      Some (m :: ms, reg)
  end.

Definition url_probe (net : HTTPNet) (m : urlTargetMonitor) : option ProbeError :=
  httpProbe net (um_client m) (um_url m).

Definition url_runCheck (net : HTTPNet) (clk : Clock) (st : urlTargetMonitor * World)
    : option (urlTargetMonitor * World) :=
  let '(m, w) := st in
  let '(success, detail, w) :=
    match url_probe net m with
    | None => (true, um_url m +:+ " healthy", w)
    | Some e =>
        (false, um_url m +:+ " unhealthy: " +:+ error_text e,
         log LevelWarn "url_monitor check failed"
           [("url", SString (um_url m)); ("error", SError (error_text e))] w)
    end in
  '(sm, w) ← conclude "url_monitor" (um_channels m) (um_handle m) clk success detail None
               (um_sm m) w;
  Some (MkURLTargetMonitor (um_url m) (um_interval m) (um_timeout m) (um_channels m) sm
          (um_handle m) (um_client m), w).

Definition url_run (events : list (TickEvent (HTTPNet * Clock)))
    (st : urlTargetMonitor * World) : option (urlTargetMonitor * World) :=
  run_ticker (um_interval st.1) (λ '(net, clk), url_runCheck net clk) events st.

(** ** Internet ([internet_check.go]) *)

Record InternetCheck := MkInternetCheck {
  ic_sites : list string;
  ic_interval : Duration;
  ic_timeout : Duration;
  ic_channels : list string;
  ic_sm : StateMachine;
  ic_handle : option Handle;
  ic_client : HTTPClient;
  ic_next : Z;
}.

(** A nil client is replaced by a plain one. *)
Definition NewInternetCheck (sites : list string) (interval timeout : Duration)
    (mon : MonitorConfig) (channels : list string) (client : option HTTPClient)
    (reg : option Registry) : option (InternetCheck * option Registry) :=
  sm ← NewWithConfig mon;
  '(reg, h) ← Register reg "internet_check";
  Some (MkInternetCheck sites interval timeout channels sm h
          (default (MkHTTPClient timeout false) client) 0, reg).

Definition nextSite (c : InternetCheck) : option (string * InternetCheck) :=
  i ← go_rem (ic_next c) (slice_len (ic_sites c));
  site ← slice_get (ic_sites c) i;
  Some (site, MkInternetCheck (ic_sites c) (ic_interval c) (ic_timeout c) (ic_channels c)
                (ic_sm c) (ic_handle c) (ic_client c) (int_add (ic_next c) 1)).

Definition checkSite (net : HTTPNet) (c : InternetCheck) (site : string) : option ProbeError :=
  httpProbe net (ic_client c) site.

Definition internet_runCheck (net : HTTPNet) (clk : Clock) (st : InternetCheck * World)
    : option (InternetCheck * World) :=
  let '(c, w) := st in
  '(site, c) ← nextSite c;
  let '(success, detail, w) :=
    match checkSite net c site with
    | None => (true, site +:+ " reachable", w)
    | Some e =>
        (false, site +:+ " unreachable: " +:+ error_text e,
         log LevelWarn "internet_check failed"
           [("site", SString site); ("error", SError (error_text e))] w)
    end in
  '(sm, w) ← conclude "internet_check" (ic_channels c) (ic_handle c) clk success detail None
               (ic_sm c) w;
  Some (MkInternetCheck (ic_sites c) (ic_interval c) (ic_timeout c) (ic_channels c) sm
          (ic_handle c) (ic_client c) (ic_next c), w).

Definition internet_run (events : list (TickEvent (HTTPNet * Clock)))
    (st : InternetCheck * World) : option (InternetCheck * World) :=
  run_ticker (ic_interval st.1) (λ '(net, clk), internet_runCheck net clk) events st.

(** ** Speed ([speed_check.go]) *)

Record SpeedCheck := MkSpeedCheck {
  sc_binary : string;
  sc_interval : Duration;
  sc_threshold : float64;
  sc_channels : list string;
  sc_sm : StateMachine;
  sc_handle : option Handle;
}.

Definition NewSpeedCheck (binary : string) (interval : Duration) (threshold : float64)
    (mon : MonitorConfig) (channels : list string) (reg : option Registry)
    : option (SpeedCheck * option Registry) :=
  sm ← NewWithConfig mon;
  '(reg, h) ← Register reg "speed_check";
  Some (MkSpeedCheck binary interval threshold channels sm h, reg).

(** Success and detail of a measurement. *)
Definition speed_result (threshold : float64) (m : result ProbeError float64) : bool * string :=
  match m with
  | Err e => (false, "speedtest failed: " +:+ error_text e)
  | Ok mbps =>
      if f_ltb mbps threshold then
        (false, "download " +:+ sprintf_f2 mbps +:+ " Mbps below threshold " +:+
                sprintf_f2 threshold +:+ " Mbps")
      else
        (true, "download " +:+ sprintf_f2 mbps +:+ " Mbps at/above threshold " +:+
               sprintf_f2 threshold +:+ " Mbps")
  end.

Definition speed_runCheck (out : result string string) (clk : Clock) (st : SpeedCheck * World)
    : option (SpeedCheck * World) :=
  let '(s, w) := st in
  let m := measure out in
  let mbps := match m with Ok x => x | Err _ => f_zero end in
  let '(success, detail) := speed_result (sc_threshold s) m in
  let attrs :=
    ([("mbps", SFloat64 mbps); ("threshold_mbps", SFloat64 (sc_threshold s));
      ("success", SBool success); ("detail", SString detail)] ++
     match m with Err e => [("error", SError (error_text e))] | Ok _ => [] end)%list in
  let w := log (if success then LevelInfo else LevelWarn) "speed_check result" attrs w in
  '(sm, w) ← conclude "speed_check" (sc_channels s) (sc_handle s) clk success detail
               (match m with Ok x => Some x | Err _ => None end) (sc_sm s) w;
  Some (MkSpeedCheck (sc_binary s) (sc_interval s) (sc_threshold s) (sc_channels s) sm
          (sc_handle s), w).

Definition speed_run (events : list (TickEvent (result string string * Clock)))
    (st : SpeedCheck * World) : option (SpeedCheck * World) :=
  run_ticker (sc_interval st.1) (λ '(out, clk), speed_runCheck out clk) events st.
End texts.

(** ** The summary reporter ([summary_reporter.go]) *)

Record SummaryReporter := MkSummaryReporter { rp_interval : Duration }.

Definition NewSummaryReporter (interval : Duration) : SummaryReporter := MkSummaryReporter interval.

Definition reporter_run (r : SummaryReporter) (events : list (TickEvent Time)) (w : World)
    : option World :=
  run_ticker (rp_interval r) (λ now w,
    l ← LogSummary (w_registry w) (Some (w_logger w)) now;
    Some (MkWorld (w_registry w) (default (w_logger w) l) (w_alerts w))) events w.

(** ** The interface of a monitoring role

    What a role contributes to a check: the result of its probe, its lines in
    the log, and its own state (a counter, a position) after it; the rest is
    [conclude].  [mr_ok n] is what the role needs for [n] more checks.  The
    theorems about runs are proved against this interface. *)

Record CheckResult := MkCheckResult {
  cr_success : bool;
  cr_detail : string;
  cr_mbps : option float64;
  cr_clock : Clock;
}.

Class MonitorRole (A M : Type) := {
  mr_role : M → string;
  mr_channels : M → list string;
  mr_handle : M → option Handle;
  mr_sm : M → StateMachine;
  mr_set_sm : StateMachine → M → M;
  mr_ok : nat → M → Prop;
  mr_step : A → M * World → option (M * World);
  mr_result : A → M → CheckResult;
  mr_log : A → M → World → World;
  mr_next : A → M → M;
}.

Class MonitorRoleLaws (A M : Type) `{MonitorRole A M} := {
  mr_step_spec n a m w :
    mr_ok (S n) m →
    let r := mr_result a m in
    mr_step a (m, w) =
      '(sm, w) ← conclude (mr_role m) (mr_channels m) (mr_handle m) (cr_clock r) (cr_success r)
                   (cr_detail r) (cr_mbps r) (mr_sm m) (mr_log a m w);
      Some (mr_set_sm sm (mr_next a m), w);
  mr_log_world a m w :
    w_registry (mr_log a m w) = w_registry w ∧ w_alerts (mr_log a m w) = w_alerts w;
  mr_frame a m sm :
    mr_role (mr_set_sm sm (mr_next a m)) = mr_role m ∧
    mr_channels (mr_set_sm sm (mr_next a m)) = mr_channels m ∧
    mr_handle (mr_set_sm sm (mr_next a m)) = mr_handle m ∧
    mr_sm (mr_set_sm sm (mr_next a m)) = sm;
  mr_ok_le n k m : (n ≤ k)%nat → mr_ok k m → mr_ok n m;
  mr_ok_next n a m sm : mr_ok (S n) m → mr_ok n (mr_set_sm sm (mr_next a m));
  mr_result_sm a m sm : mr_result a (mr_set_sm sm m) = mr_result a m;
  mr_next_sm a m sm : mr_next a (mr_set_sm sm m) = mr_set_sm sm (mr_next a m);
}.

(** The results of a sequence of checks. *)
Fixpoint role_results {A M} `{MonitorRole A M} (inputs : list A) (m : M) : list CheckResult :=
  match inputs with
  | [] => []
  | a :: inputs => mr_result a m :: role_results inputs (mr_next a m)
  end.

Definition observed (r : CheckResult) : Time * bool := (ck_observe (cr_clock r), cr_success r).

Definition sample_of (r : CheckResult) : CheckSample :=
  {| cs_Time := ck_record (cr_clock r); cs_Success := cr_success r |}.

Definition speeds_of (r : CheckResult) : list SpeedSample :=
  match cr_mbps r with
  | Some x => [{| ss_Time := ck_record (cr_clock r); ss_Mbps := x |}]
  | None => []
  end.

(** The alerts a history calls for: one per change of the specified state. *)
Fixpoint alerts_spec (cfg : MonitorConfig) (role : string) (channels : list string)
    (tr : list (Time * bool)) (results : list CheckResult) : list Dispatched :=
  match results with
  | [] => []
  | r :: results =>
      let tr' := (tr ++ [observed r])%list in
      (dispatchEvent channels role (cr_detail r)
         (event_between (state_spec cfg tr.*2) (state_spec cfg tr'.*2))
         (int_wrap (trailing_failures tr'.*2)) (ck_alert (cr_clock r)) ++
       alerts_spec cfg role channels tr' results)%list
  end.

(** The ticks a run serves: those before the context is done. *)
Fixpoint ticks {A} (events : list (TickEvent A)) : list A :=
  match events with
  | Tick a :: events => a :: ticks events
  | _ => []
  end.

(** The registry operations of one check. *)
Definition check_ops (name : string) (sm : StateMachine) (r : CheckResult) : list RegOp :=
  ([OpSet (status_of name sm); OpCheck name (ck_record (cr_clock r)) (cr_success r)] ++
   match cr_mbps r with
   | Some x => [OpSpeed name (ck_record (cr_clock r)) x]
   | None => []
   end)%list.

(** ** Lemmas *)

Lemma conclude_spec cfg tr role channels name sm w reg r :
  MonitorConfig_ok cfg → sm_repr cfg tr sm →
  w_registry w = Some reg → Registry_wf reg →
  ∃ sm' reg' l,
    conclude role channels (Some (MkHandle name)) (cr_clock r) (cr_success r) (cr_detail r)
      (cr_mbps r) sm w =
      Some (sm', MkWorld (Some reg') l
        (w_alerts w ++ dispatchEvent channels role (cr_detail r)
           (event_between (state_spec cfg tr.*2) (state_spec cfg (tr ++ [observed r]).*2))
           (int_wrap (trailing_failures (tr ++ [observed r]).*2)) (ck_alert (cr_clock r)))%list) ∧
    sm_repr cfg (tr ++ [observed r]) sm' ∧
    apply_ops reg (check_ops name sm' r) = Some reg'.
Proof.
  intros Hok Hr Hreg Hwf.
  destruct (Observe_repr cfg tr sm (ck_observe (cr_clock r)) (cr_success r) Hok Hr)
    as (sm' & Ho & Hr').
  destruct (apply_ops_spec reg (check_ops name sm' r) Hwf) as (reg' & Hops & _ & _ & _).
  exists sm', reg'. unfold conclude. rewrite Ho. cbn [mbind option_bind].
  rewrite Hreg. cbn [Handle_Update h_name].
  pose proof Hops as Hops'. unfold check_ops, apply_ops in Hops.
  rewrite foldl_app in Hops. cbn [foldl mbind option_bind apply_op] in Hops.
  unfold Handle_RecordCheck. cbn [h_name].
  destruct (recordCheck _ _ _ _) as [reg1|] eqn:Hc.
  2:{ exfalso. by destruct (cr_mbps r). }
  cbn [fmap option_fmap option_map mbind option_bind].
  rewrite (repr_consecutive _ _ _ Hr').
  destruct (cr_mbps r) as [x|]; cbn [foldl mbind option_bind apply_op] in Hops.
  - unfold Handle_RecordSpeed. cbn [h_name]. rewrite Hops.
    cbn [fmap option_fmap option_map mbind option_bind]. eexists. by split.
  - injection Hops as ->. cbn [mbind option_bind]. eexists. by split.
Qed.

Section role_run.
Context {A M : Type} `{MonitorRoleLaws A M} (cfg : MonitorConfig).
Hypothesis Hcfg : MonitorConfig_ok cfg.

Lemma role_results_sm inputs m sm : role_results inputs (mr_set_sm sm m) = role_results inputs m.
Proof.
  revert m. induction inputs as [|a inputs IH]; intros m; simpl; [done|].
  by rewrite mr_result_sm, mr_next_sm, IH.
Qed.

Lemma view_after v name sm r :
  us_Name (status_of name sm) = name →
  foldl view_step v (check_ops name sm r) =
    MkUnitView (status_of name sm) (lastn 100 (uv_checks v ++ [sample_of r]))
      (match cr_mbps r with
       | Some _ => lastn 100 (uv_speeds v ++ speeds_of r)
       | None => uv_speeds v
       end).
Proof. intros _. unfold check_ops, speeds_of. by destruct (cr_mbps r). Qed.

Lemma ops_of_check name n sm r :
  ops_of n (check_ops name sm r) = if decide (name = n) then check_ops name sm r else [].
Proof.
  unfold ops_of, check_ops. destruct (cr_mbps r); simpl;
    repeat (rewrite filter_cons; simpl); rewrite ?filter_nil; by destruct (decide (name = n)).
Qed.

(** What a run leaves: the machine, the registry and the alerts. *)
Record run_post (name : string) (tr : list (Time * bool)) (m : M) (w : World) (reg : Registry)
    (inputs : list A) (m' : M) (w' : World) (reg' : Registry) : Prop := {
  rp_repr : sm_repr cfg (tr ++ (observed <$> role_results inputs m)) (mr_sm m');
  rp_registry : w_registry w' = Some reg';
  rp_wf : Registry_wf reg';
  rp_order : r_order reg' = r_order reg;
  rp_alerts : w_alerts w' =
    (w_alerts w ++ alerts_spec cfg (mr_role m) (mr_channels m) tr (role_results inputs m))%list;
  rp_others n : n ≠ name → unit_view reg' n = unit_view reg n;
  rp_unit v : unit_view reg name = Some v → ∃ v',
    unit_view reg' name = Some v' ∧
    lastn 100 (uv_checks v') = lastn 100 (uv_checks v ++ (sample_of <$> role_results inputs m)) ∧
    lastn 100 (uv_speeds v') = lastn 100 (uv_speeds v ++ (role_results inputs m ≫= speeds_of)) ∧
    uv_status v' = if decide (inputs = []) then uv_status v else status_of name (mr_sm m');
}.

Lemma tick_loop_run name inputs tr m w reg :
  sm_repr cfg tr (mr_sm m) → mr_ok (length inputs) m → mr_handle m = Some (MkHandle name) →
  w_registry w = Some reg → Registry_wf reg →
  ∃ m' w' reg',
    tick_loop mr_step (Tick <$> inputs) (m, w) = Some (m', w') ∧
    run_post name tr m w reg inputs m' w' reg'.
Proof.
  revert tr m w reg. induction inputs as [|a inputs IH]; intros tr m w reg Hr Hok Hh Hreg Hwf.
  { exists m, w, reg. split; [done|]. split; simpl; rewrite ?app_nil_r; try done.
    intros v Hv. exists v. by rewrite !app_nil_r. }
  set (r := mr_result a m).
  destruct (mr_log_world a m w) as [Hlr Hla].
  destruct (conclude_spec cfg tr (mr_role m) (mr_channels m) name (mr_sm m) (mr_log a m w) reg r
              Hcfg Hr ltac:(by rewrite Hlr) Hwf) as (sm' & reg1 & l & Hc & Hr' & Hops).
  destruct (mr_frame a m sm') as (Hfr & Hfc & Hfh & Hfs).
  destruct (apply_ops_spec reg (check_ops name sm' r) Hwf) as (reg1' & Hops' & Hwf1 & Ho1 & Hv1).
  assert (reg1' = reg1) as -> by congruence.
  match type of Hc with _ = Some (_, MkWorld _ _ ?x) => set (al := x) in Hc end.
  destruct (IH (tr ++ [observed r])%list (mr_set_sm sm' (mr_next a m)) _ reg1
    ltac:(by rewrite Hfs) ltac:(by apply mr_ok_next) ltac:(by rewrite Hfh)
    (eq_refl : w_registry (MkWorld (Some reg1) l al) = Some reg1) Hwf1)
    as (m' & w' & reg' & Hl & Hp).
  exists m', w', reg'. split.
  { cbn [fmap list_fmap tick_loop]. rewrite (mr_step_spec (length inputs)) by done. cbv zeta. fold r.
    rewrite Hh, Hc. exact Hl. }
  destruct Hp as [P1 P2 P3 P4 P5 P6 P7]. rewrite role_results_sm in *. rewrite Hfr, Hfc in *.
  cbn [role_results] in *. fold r. split; try done.
  - cbn [fmap list_fmap]. by rewrite <- app_assoc in P1.
  - by rewrite P4.
  - rewrite P5. unfold al. simpl. by rewrite Hla, <- app_assoc.
  - intros n Hn. rewrite P6, Hv1, ops_of_check by done. rewrite decide_False by done. simpl.
    by destruct (unit_view reg n).
  - intros v Hv. destruct (P7 (foldl view_step v (check_ops name sm' r))) as (v' & Hv' & Hck & Hsp & Hst).
    { by rewrite Hv1, Hv, ops_of_check, decide_True by done. }
    rewrite view_after in Hck, Hsp, Hst by done. simpl in Hck, Hsp, Hst.
    exists v'. split; [done|]. split; [|split].
    + rewrite Hck. cbn [fmap list_fmap]. rewrite lastn_lastn_app. by rewrite <- app_assoc.
    + rewrite Hsp. cbn [role_results mbind list_bind]. fold r. unfold speeds_of at 1 3.
      destruct (cr_mbps r).
      * rewrite lastn_lastn_app. by rewrite <- app_assoc.
      * done.
    + rewrite Hst. rewrite (decide_False (P := a :: inputs = [])) by done.
      destruct (decide (inputs = [])) as [->|]; [|done].
      assert (mr_sm m' = sm') as ->; [|done].
      cbn in Hl. injection Hl as <- _. exact Hfs.
Qed.
End role_run.

Lemma tick_loop_ticks {A S} (step : A → S → option S) events s :
  tick_loop step events s = tick_loop step (Tick <$> ticks events) s.
Proof.
  revert s. induction events as [|[a|] events IH]; intros s; [done| |done].
  cbn [ticks fmap list_fmap tick_loop]. destruct (step a s); [apply IH|done].
Qed.

Lemma run_ticker_run {A M} `{MonitorRoleLaws A M} cfg interval name events m w reg :
  MonitorConfig_ok cfg → 0 < interval → sm_repr cfg [] (mr_sm m) →
  mr_ok (length (ticks events)) m → mr_handle m = Some (MkHandle name) →
  w_registry w = Some reg → Registry_wf reg →
  ∃ m' w' reg', run_ticker interval mr_step events (m, w) = Some (m', w') ∧
    run_post cfg name [] m w reg (ticks events) m' w' reg'.
Proof.
  intros Hc Hi Hr Hok Hh Hreg Hwf. unfold run_ticker.
  destruct (Z.leb_spec interval 0) as [|_]; [lia|]. rewrite tick_loop_ticks.
  by apply tick_loop_run.
Qed.

(** ** The roles as instances *)

Section roles.
Context (go_quote json_error url_error : string → string).
Notation error_text := (error_text go_quote json_error url_error).

Definition probe_log (msg key subject : string) (err : option ProbeError) (w : World) : World :=
  match err with
  | None => w
  | Some e =>
      log LevelWarn msg [(key, SString subject); ("error", SError (error_text e))] w
  end.

Definition probe_detail (good bad : string) (err : option ProbeError) : string :=
  match err with None => good | Some e => bad +:+ error_text e end.

Definition succeeded (err : option ProbeError) : bool := if err then false else true.

#[local] Instance ping_role : MonitorRole (PingNet * Time * Clock) pingTargetMonitor := {
  mr_role _ := "ping_monitor";
  mr_channels := pm_channels;
  mr_handle := pm_handle;
  mr_sm := pm_sm;
  mr_set_sm sm m := MkPingTargetMonitor (pm_target m) (pm_interval m) (pm_timeout m)
                      (pm_channels m) sm (pm_handle m) (pm_idCounter m);
  mr_ok _ _ := True;
  mr_step '(net, now, clk) := ping_runCheck go_quote json_error url_error net now clk;
  mr_result '(net, now, clk) m :=
    let err := (ping_probe net now (pm_idCounter m)).2 in
    MkCheckResult (succeeded err)
      (probe_detail ("ping to " +:+ pm_target m +:+ " succeeded")
                    ("ping to " +:+ pm_target m +:+ " failed: ") err) None clk;
  mr_log '(net, now, _) m :=
    probe_log "ping_monitor check failed" "target" (pm_target m)
      (ping_probe net now (pm_idCounter m)).2;
  mr_next '(net, now, _) m :=
    MkPingTargetMonitor (pm_target m) (pm_interval m) (pm_timeout m) (pm_channels m) (pm_sm m)
      (pm_handle m) (ping_probe net now (pm_idCounter m)).1;
}.

#[local] Instance url_role : MonitorRole (HTTPNet * Clock) urlTargetMonitor := {
  mr_role _ := "url_monitor";
  mr_channels := um_channels;
  mr_handle := um_handle;
  mr_sm := um_sm;
  mr_set_sm sm m := MkURLTargetMonitor (um_url m) (um_interval m) (um_timeout m)
                      (um_channels m) sm (um_handle m) (um_client m);
  mr_ok _ _ := True;
  mr_step '(net, clk) := url_runCheck go_quote json_error url_error net clk;
  mr_result '(net, clk) m :=
    MkCheckResult (succeeded (url_probe net m))
      (probe_detail (um_url m +:+ " healthy") (um_url m +:+ " unhealthy: ") (url_probe net m))
      None clk;
  mr_log '(net, _) m := probe_log "url_monitor check failed" "url" (um_url m) (url_probe net m);
  mr_next _ m := m;
}.

(** The site of a check that can run. *)
Definition site_of (c : InternetCheck) : string :=
  default "" (ic_sites c !! Z.to_nat (ic_next c mod slice_len (ic_sites c))).

#[local] Instance internet_role : MonitorRole (HTTPNet * Clock) InternetCheck := {
  mr_role _ := "internet_check";
  mr_channels := ic_channels;
  mr_handle := ic_handle;
  mr_sm := ic_sm;
  mr_set_sm sm c := MkInternetCheck (ic_sites c) (ic_interval c) (ic_timeout c) (ic_channels c)
                      sm (ic_handle c) (ic_client c) (ic_next c);
  mr_ok n c := ic_sites c ≠ [] ∧ 0 ≤ ic_next c ∧ ic_next c + Z.of_nat n < 2 ^ 63;
  mr_step '(net, clk) := internet_runCheck go_quote json_error url_error net clk;
  mr_result '(net, clk) c :=
    let err := checkSite net c (site_of c) in
    MkCheckResult (succeeded err)
      (probe_detail (site_of c +:+ " reachable") (site_of c +:+ " unreachable: ") err) None clk;
  mr_log '(net, _) c :=
    probe_log "internet_check failed" "site" (site_of c) (checkSite net c (site_of c));
  mr_next _ c := MkInternetCheck (ic_sites c) (ic_interval c) (ic_timeout c) (ic_channels c)
                   (ic_sm c) (ic_handle c) (ic_client c) (int_add (ic_next c) 1);
}.

Definition speed_attrs_of (s : SpeedCheck) (m : result ProbeError float64) : list Attr :=
  ([("mbps", SFloat64 (match m with Ok x => x | Err _ => f_zero end));
    ("threshold_mbps", SFloat64 (sc_threshold s));
    ("success", SBool (speed_result go_quote json_error url_error (sc_threshold s) m).1);
    ("detail", SString (speed_result go_quote json_error url_error (sc_threshold s) m).2)] ++
   match m with Err e => [("error", SError (error_text e))] | Ok _ => [] end)%list.

#[local] Instance speed_role : MonitorRole (result string string * Clock) SpeedCheck := {
  mr_role _ := "speed_check";
  mr_channels := sc_channels;
  mr_handle := sc_handle;
  mr_sm := sc_sm;
  mr_set_sm sm s := MkSpeedCheck (sc_binary s) (sc_interval s) (sc_threshold s) (sc_channels s)
                      sm (sc_handle s);
  mr_ok _ _ := True;
  mr_step '(out, clk) := speed_runCheck go_quote json_error url_error out clk;
  mr_result '(out, clk) s :=
    let res := speed_result go_quote json_error url_error (sc_threshold s) (measure out) in
    MkCheckResult res.1 res.2 (match measure out with Ok x => Some x | Err _ => None end) clk;
  mr_log '(out, _) s :=
    log (if (speed_result go_quote json_error url_error (sc_threshold s) (measure out)).1
         then LevelInfo else LevelWarn) "speed_check result" (speed_attrs_of s (measure out));
  mr_next _ s := s;
}.

Lemma nextSite_in_range c :
  ic_sites c ≠ [] → 0 ≤ ic_next c →
  nextSite c = Some (site_of c,
    MkInternetCheck (ic_sites c) (ic_interval c) (ic_timeout c) (ic_channels c)
      (ic_sm c) (ic_handle c) (ic_client c) (int_add (ic_next c) 1)).
Proof.
  intros Hs Hn. unfold nextSite, site_of.
  assert (0 < slice_len (ic_sites c)).
  { unfold slice_len. destruct (ic_sites c); [done|]. simpl. lia. }
  rewrite go_rem_nonneg by done. cbn [mbind option_bind]. unfold slice_get.
  pose proof (Z.mod_pos_bound (ic_next c) (slice_len (ic_sites c)) ltac:(lia)) as Hm.
  destruct (Z.ltb_spec (ic_next c mod slice_len (ic_sites c)) 0) as [|_]; [lia|].
  destruct (ic_sites c !! _) eqn:E; [done|].
  exfalso. apply lookup_ge_None in E. unfold slice_len in *. lia.
Qed.

Lemma probe_log_world msg key subject err w :
  w_registry (probe_log msg key subject err w) = w_registry w ∧
  w_alerts (probe_log msg key subject err w) = w_alerts w.
Proof. by destruct err. Qed.

#[local] Instance ping_laws : MonitorRoleLaws (PingNet * Time * Clock) pingTargetMonitor.
Proof.
  split; try (by intros; repeat match goal with H : _ * _ |- _ => destruct H end).
  - intros n [[net now] clk] m w _. cbn. unfold ping_runCheck.
    destruct (ping_probe net now (pm_idCounter m)) as [counter [e|]]; cbn; rewrite ?string_app_assoc; by destruct conclude as [[??]|].
  - intros [[net now] clk] m w. apply probe_log_world.
Qed.

#[local] Instance url_laws : MonitorRoleLaws (HTTPNet * Clock) urlTargetMonitor.
Proof.
  split; try (by intros; repeat match goal with H : _ * _ |- _ => destruct H end).
  - intros n [net clk] m w _. cbn. unfold url_runCheck.
    destruct (url_probe net m) as [e|]; cbn; rewrite ?string_app_assoc; by destruct conclude as [[??]|].
  - intros [net clk] m w. apply probe_log_world.
Qed.

#[local] Instance internet_laws : MonitorRoleLaws (HTTPNet * Clock) InternetCheck.
Proof.
  split; try (by intros; repeat match goal with H : _ * _ |- _ => destruct H end).
  - intros n [net clk] c w (Hs & Hn & _). cbn. unfold internet_runCheck.
    rewrite nextSite_in_range by done. cbn [mbind option_bind].
    unfold checkSite. cbn [ic_client].
    destruct (httpProbe net (ic_client c) (site_of c)) as [e|]; cbn;
      rewrite ?string_app_assoc; by destruct conclude as [[??]|].
  - intros [net clk] c w. apply probe_log_world.
  - intros n k c Hk (? & ? & ?). split_and!; [done..|lia].
  - intros n [net clk] c sm (Hs & Hn & Hb). cbn. split; [done|].
    rewrite int_add_id by int64_lia. lia.
Qed.

#[local] Instance speed_laws : MonitorRoleLaws (result string string * Clock) SpeedCheck.
Proof.
  split; try (by intros; repeat match goal with H : _ * _ |- _ => destruct H end).
  intros n [out clk] s w _. cbn. unfold speed_runCheck, speed_attrs_of.
  destruct (speed_result _ _ _ _ _) as [ok detail]. cbn. by destruct conclude as [[??]|].
Qed.

(** The effect of one registration. *)
Definition registers (name : string) (reg reg' : Registry) : Prop :=
  Registry_wf reg' ∧
  r_order reg' = if decide (name ∈ r_order reg) then r_order reg else (r_order reg ++ [name])%list.

Lemma Register_registers name reg :
  Registry_wf reg →
  ∃ reg', Register (Some reg) name = Some (Some reg', Some (MkHandle name)) ∧ registers name reg reg'.
Proof.
  intros Hwf. unfold registers. destruct (decide (name ∈ r_order reg)).
  - exists reg. split; [by apply Register_again|done].
  - destruct (Register_new reg name) as (r & ? & ? & ? & _); [done|done|]. by exists r.
Qed.

(** Construction followed by any run. *)
Lemma constructed_run {A M} `{MonitorRoleLaws A M} cfg interval name sm (m : M) reg0 :
  MonitorConfig_ok cfg → 0 < interval → Registry_wf reg0 →
  NewWithConfig cfg = Some sm → mr_sm m = sm → mr_handle m = Some (MkHandle name) →
  ∃ reg1, Register (Some reg0) name = Some (Some reg1, Some (MkHandle name)) ∧
    registers name reg0 reg1 ∧
    ∀ events w reg, mr_ok (length (ticks events)) m → w_registry w = Some reg → Registry_wf reg →
      ∃ m' w' reg', run_ticker interval mr_step events (m, w) = Some (m', w') ∧
        run_post cfg name [] m w reg (ticks events) m' w' reg'.
Proof.
  intros Hc Hi Hwf Hnew Hsm Hh.
  destruct (Register_registers name reg0 Hwf) as (reg1 & Hreg & Hwf1).
  exists reg1. split; [done|]. split; [done|]. intros events w reg Hok Hw Hwr.
  apply run_ticker_run; try done. rewrite Hsm.
  destruct (NewWithConfig_repr cfg Hc) as (sm' & Hnew' & Hr). congruence.
Qed.

Lemma url_run_correct t reg0 :
  MonitorConfig_ok (ut_Mon t) → 0 < ut_Interval t → Registry_wf reg0 →
  ∃ m reg1, new_url t (Some reg0) = Some (m, Some reg1) ∧
    um_channels m = ut_Channels t ∧ registers ("url_monitor:" +:+ ut_URL t) reg0 reg1 ∧
    ∀ events w reg, w_registry w = Some reg → Registry_wf reg →
      ∃ m' w' reg',
        url_run go_quote json_error url_error events (m, w) = Some (m', w') ∧
        run_post (ut_Mon t) ("url_monitor:" +:+ ut_URL t) [] m w reg (ticks events) m' w' reg'.
Proof.
  intros Hc Hi Hwf. destruct (NewWithConfig_repr _ Hc) as (sm & Hnew & _).
  set (name := "url_monitor:" +:+ ut_URL t).
  set (m := MkURLTargetMonitor (ut_URL t) (ut_Interval t) (ut_Timeout t) (ut_Channels t) sm
              (Some (MkHandle name)) (NewHTTPClient (ut_Timeout t) (ut_InsecureSkipVerify t))).
  destruct (constructed_run (A := HTTPNet * Clock) (ut_Mon t) (ut_Interval t) name sm m reg0 Hc Hi Hwf Hnew ltac:(done) ltac:(done))
    as (reg1 & Hreg & Hwf1 & Hrun).
  exists m, reg1. split; [|split; [done|split; [done|]]].
  - unfold new_url. rewrite Hnew. cbn [mbind option_bind]. fold name. by rewrite Hreg.
  - intros events w reg. by apply Hrun.
Qed.

Lemma internet_results inputs c (n : nat) i net clk :
  ic_sites c ≠ [] → ic_next c = Z.of_nat n → Z.of_nat n + Z.of_nat (length inputs) < 2 ^ 63 →
  inputs !! i = Some (net, clk) →
  ∃ site, ic_sites c !! ((n + i) mod length (ic_sites c))%nat = Some site ∧
    cr_success <$> role_results inputs c !! i =
      Some (succeeded (httpProbe net (ic_client c) site)).
Proof.
  revert c n i. induction inputs as [|[net0 clk0] inputs IH]; intros c n i Hs Hn Hb Hi; [done|].
  assert (0 < length (ic_sites c))%nat by (destruct (ic_sites c); [done|simpl; lia]).
  destruct i as [|i]; simpl in Hi; simplify_eq.
  - destruct (lookup_lt_is_Some_2 (ic_sites c) (n mod length (ic_sites c))) as [site Hsite].
    { apply Nat.mod_upper_bound. lia. }
    exists site. rewrite Nat.add_0_r. split; [done|]. cbn. unfold site_of, slice_len, checkSite.
    by rewrite Hn, <- Nat2Z.inj_mod, Nat2Z.id, Hsite.
  - rewrite Nat.add_succ_r, <- Nat.add_succ_l.
    refine (IH (mr_next (MonitorRole := internet_role) (net0, clk0) c) (S n) i Hs _ _ Hi);
      simpl in *; [|lia].
    rewrite int_add_id by int64_lia. lia.
Qed.

(** A measurement that is taken and not below the threshold. *)
Definition speed_ok (threshold : float64) (m : result ProbeError float64) : bool :=
  match m with Ok mbps => negb (f_ltb mbps threshold) | Err _ => false end.

Definition speed_results (threshold : float64) (inputs : list (result string string * Clock))
    : list CheckResult :=
  (λ '(out, clk),
     MkCheckResult (speed_ok threshold (measure out))
       (speed_result go_quote json_error url_error threshold (measure out)).2
       (match measure out with Ok x => Some x | Err _ => None end) clk) <$> inputs.

Lemma role_results_speed inputs s : role_results inputs s = speed_results (sc_threshold s) inputs.
Proof.
  revert s. induction inputs as [|[out clk] inputs IH]; intros s; [done|].
  cbn [role_results mr_next speed_role]. rewrite IH. unfold speed_results at 2. cbn [fmap list_fmap].
  f_equal. cbn. unfold speed_ok. destruct (measure out) as [x|e]; simpl; [by destruct f_ltb|done].
Qed.

(** The request of a probe whose counter becomes [counter]. *)
Definition ping_request (now : Time) (counter : Z) : Protocol.Request :=
  Protocol.MkRequest Protocol.Version (print_nat counter) Protocol.TypePing
    (Protocol.MkPayload (Time_UnixMilli now) "").

Lemma print_nat_valid z : 0 ≤ z → valid_utf8 (print_nat z).
Proof.
  intros Hz. apply valid_ascii. pose proof (print_nat_digits z Hz) as H.
  unfold digits_ok in H. apply andb_true_iff in H as [_ H]. byte_class H.
Qed.

Lemma ping_request_ok now counter : 0 ≤ counter → Protocol.request_ok (ping_request now counter).
Proof.
  intros Hc. unfold Protocol.request_ok, ping_request. simpl.
  split_and!; try (by apply valid_ascii); [|apply int_wrap_range].
  by apply print_nat_valid.
Qed.

Lemma new_ping_life t reg0 :
  MonitorConfig_ok (pt_Mon t) → 0 < pt_Interval t → Registry_wf reg0 →
  ∃ m reg1, new_ping t (Some reg0) = Some (m, Some reg1) ∧
    pm_channels m = pt_Channels t ∧ registers ("ping_monitor:" +:+ pt_Target t) reg0 reg1 ∧
    ∀ events w reg, w_registry w = Some reg → Registry_wf reg →
      ∃ m' w' reg',
        ping_run go_quote json_error url_error events (m, w) = Some (m', w') ∧
        run_post (pt_Mon t) ("ping_monitor:" +:+ pt_Target t) [] m w reg (ticks events) m' w' reg'.
Proof.
  intros Hc Hi Hwf. destruct (NewWithConfig_repr _ Hc) as (sm & Hnew & _).
  set (name := "ping_monitor:" +:+ pt_Target t).
  set (m := MkPingTargetMonitor (pt_Target t) (pt_Interval t) (pt_Timeout t) (pt_Channels t) sm
              (Some (MkHandle name)) 0).
  destruct (constructed_run (A := PingNet * Time * Clock) (pt_Mon t) (pt_Interval t) name sm m reg0 Hc Hi Hwf Hnew ltac:(done) ltac:(done))
    as (reg1 & Hreg & Hwf1 & Hrun).
  exists m, reg1. split; [|split; [done|split; [done|]]].
  - unfold new_ping. rewrite Hnew. cbn [mbind option_bind]. fold name. by rewrite Hreg.
  - intros events w reg. by apply Hrun.
Qed.

Lemma new_internet_life sites interval timeout mon channels client reg0 :
  MonitorConfig_ok mon → 0 < interval → Registry_wf reg0 → sites ≠ [] →
  ∃ c reg1,
    NewInternetCheck sites interval timeout mon channels client (Some reg0) = Some (c, Some reg1) ∧
    ic_channels c = channels ∧ ic_sites c = sites ∧ ic_next c = 0 ∧
    registers "internet_check" reg0 reg1 ∧
    ∀ events w reg, w_registry w = Some reg → Registry_wf reg →
      Z.of_nat (length (ticks events)) < 2 ^ 63 →
      ∃ c' w' reg',
        internet_run go_quote json_error url_error events (c, w) = Some (c', w') ∧
        run_post mon "internet_check" [] c w reg (ticks events) c' w' reg'.
Proof.
  intros Hc Hi Hwf Hs. destruct (NewWithConfig_repr _ Hc) as (sm & Hnew & _).
  set (c := MkInternetCheck sites interval timeout channels sm (Some (MkHandle "internet_check"))
              (default (MkHTTPClient timeout false) client) 0).
  destruct (constructed_run (A := HTTPNet * Clock) mon interval "internet_check" sm c reg0 Hc Hi Hwf Hnew ltac:(done) ltac:(done))
    as (reg1 & Hreg & Hwf1 & Hrun).
  exists c, reg1. split; [|split_and!; try done].
  - unfold NewInternetCheck. rewrite Hnew. cbn [mbind option_bind]. by rewrite Hreg.
  - intros events w reg Hw Hwr Hlen. apply Hrun; [|done|done]. split; [done|]. simpl. lia.
Qed.

Lemma new_speed_life binary interval threshold mon channels reg0 :
  MonitorConfig_ok mon → 0 < interval → Registry_wf reg0 →
  ∃ s reg1,
    NewSpeedCheck binary interval threshold mon channels (Some reg0) = Some (s, Some reg1) ∧
    sc_channels s = channels ∧ sc_threshold s = threshold ∧ registers "speed_check" reg0 reg1 ∧
    ∀ events w reg, w_registry w = Some reg → Registry_wf reg →
      ∃ s' w' reg',
        speed_run go_quote json_error url_error events (s, w) = Some (s', w') ∧
        run_post mon "speed_check" [] s w reg (ticks events) s' w' reg'.
Proof.
  intros Hc Hi Hwf. destruct (NewWithConfig_repr _ Hc) as (sm & Hnew & _).
  set (s := MkSpeedCheck binary interval threshold channels sm (Some (MkHandle "speed_check"))).
  destruct (constructed_run (A := result string string * Clock) mon interval "speed_check" sm s reg0 Hc Hi Hwf Hnew ltac:(done) ltac:(done))
    as (reg1 & Hreg & Hwf1 & Hrun).
  exists s, reg1. split; [|split_and!; try done].
  - unfold NewSpeedCheck. rewrite Hnew. cbn [mbind option_bind]. by rewrite Hreg.
  - intros events w reg Hw Hwr. by apply Hrun.
Qed.

(** ** Properties *)

(** The ping probe.  A probe's request line decodes at the peer to a ping
    of the supported version carrying the counter and the time; the probe
    succeeds exactly when the peer was dialled and written to and its line
    decodes to a pong with this very counter; and no other counter value has
    the same identifier, so the answer to an earlier probe never passes. *)
Theorem ping_probe_accepts net now counter :
  let counter' := (counter + 1) mod 2 ^ 64 in
  ∃ line,
    Protocol.DecodeRequest (line +:+ Protocol.line_end) = (ping_request now counter', None) ∧
    ((ping_probe net now counter).2 = None ↔
       pn_dial net = None ∧ pn_write net = None ∧
       ∃ answer resp, pn_read net (line +:+ Protocol.line_end) = Ok answer ∧
         Protocol.DecodeResponse answer = Some resp ∧
         Protocol.rs_Type resp = Protocol.TypePong ∧
         Protocol.rs_ID resp = print_nat counter') ∧
    (∀ old, 0 ≤ old → print_nat old = print_nat counter' → old = counter').
Proof.
  cbv zeta. set (counter' := (counter + 1) mod 2 ^ 64).
  assert (Hc : 0 ≤ counter') by (apply Z.mod_pos_bound; lia).
  destruct (Protocol.request_line _ (ping_request_ok now counter' Hc)) as (line & He & _ & Hd).
  exists line. split_and!.
  - unfold Protocol.DecodeRequest. by rewrite Hd.
  - unfold ping_probe. fold counter'. unfold ping_request in He. rewrite He.
    change (String newline "") with Protocol.line_end.
    destruct (pn_dial net); [split; [done|naive_solver]|].
    destruct (pn_write net); [split; [done|naive_solver]|]. cbn [snd].
    destruct (pn_read net _) as [answer|e]; [|split; [done|naive_solver]].
    destruct (Protocol.DecodeResponse answer) as [resp|] eqn:Hr.
    2:{ split; [done|]. intros (_ & _ & ? & ? & [= <-] & ? & _). congruence. }
    destruct (String.eqb_spec (Protocol.rs_Type resp) Protocol.TypePong); simpl.
    2:{ split; [done|]. intros (_ & _ & ? & ? & [= <-] & ? & ? & _). congruence. }
    destruct (String.eqb_spec (Protocol.rs_ID resp) (print_nat counter')); simpl.
    2:{ split; [done|]. intros (_ & _ & ? & ? & [= <-] & ? & _ & ?). congruence. }
    split; [|done]. intros _. split_and!; [done|done|]. by exists answer, resp.
  - intros old Ho Heq. by rewrite <- (print_nat_value old), <- (print_nat_value counter'), Heq.
Qed.

(** The life of a ping monitor.  A target built from a valid configuration
    registers under its name and then, for any ticks and any outcome of the
    exchanges, never panics: its machine follows the specified state of its own
    check history, the registry keeps its latest status and its last hundred
    checks and leaves every other unit alone, and the alerts are exactly the
    changes of the specified state, to its channels. *)
Theorem ping_run_correct t reg0 :
  MonitorConfig_ok (pt_Mon t) → 0 < pt_Interval t → Registry_wf reg0 →
  ∃ m reg1, new_ping t (Some reg0) = Some (m, Some reg1) ∧ Registry_wf reg1 ∧
    ∀ events w reg, w_registry w = Some reg → Registry_wf reg →
      ∃ m' w' reg',
        ping_run go_quote json_error url_error events (m, w) = Some (m', w') ∧
        run_post (pt_Mon t) ("ping_monitor:" +:+ pt_Target t) [] m w reg (ticks events) m' w' reg'.
Proof.
  intros Hc Hi Hwf. destruct (new_ping_life t reg0 Hc Hi Hwf) as (m & reg1 & Hn & _ & [Hwf1 _] & Hrun).
  by exists m, reg1.
Qed.

(** C31: the life of an internet check.  Built from a valid configuration with
    at least one site, its runs (of fewer than 2^63 checks) never panic and
    satisfy the same contract; the i-th check probes the i-th site in
    round-robin order, and only that one. *)
Theorem internet_run_correct sites interval timeout mon channels client reg0 :
  MonitorConfig_ok mon → 0 < interval → Registry_wf reg0 → sites ≠ [] →
  ∃ c reg1,
    NewInternetCheck sites interval timeout mon channels client (Some reg0) = Some (c, Some reg1) ∧
    Registry_wf reg1 ∧
    ∀ events w reg, w_registry w = Some reg → Registry_wf reg →
      Z.of_nat (length (ticks events)) < 2 ^ 63 →
      (∃ c' w' reg',
        internet_run go_quote json_error url_error events (c, w) = Some (c', w') ∧
        run_post mon "internet_check" [] c w reg (ticks events) c' w' reg') ∧
      ∀ i net clk, ticks events !! i = Some (net, clk) →
        ∃ site, sites !! (i mod length sites)%nat = Some site ∧
          cr_success <$> role_results (ticks events) c !! i =
            Some (succeeded (httpProbe net (ic_client c) site)).
Proof.
  intros Hc Hi Hwf Hs.
  destruct (new_internet_life sites interval timeout mon channels client reg0 Hc Hi Hwf Hs)
    as (c & reg1 & Hn & _ & Hsites & Hnext & [Hwf1 _] & Hrun).
  exists c, reg1. split; [done|]. split; [done|]. intros events w reg Hw Hwr Hlen.
  split; [by apply Hrun|]. intros i net clk Ha. rewrite <- Hsites in *.
  by apply (internet_results (ticks events) c 0 i net clk).
Qed.

(** C32: the life of a speed check.  Built from a valid configuration, its runs
    never panic and satisfy the same contract; a check succeeds exactly when
    the tool ran, its output parsed and the measured figure is not below the
    threshold, and the figure is recorded exactly when there is one. *)
Theorem speed_run_correct binary interval threshold mon channels reg0 :
  MonitorConfig_ok mon → 0 < interval → Registry_wf reg0 →
  ∃ s reg1,
    NewSpeedCheck binary interval threshold mon channels (Some reg0) = Some (s, Some reg1) ∧
    Registry_wf reg1 ∧
    ∀ events w reg, w_registry w = Some reg → Registry_wf reg →
      (∃ s' w' reg',
        speed_run go_quote json_error url_error events (s, w) = Some (s', w') ∧
        run_post mon "speed_check" [] s w reg (ticks events) s' w' reg') ∧
      role_results (ticks events) s = speed_results threshold (ticks events).
Proof.
  intros Hc Hi Hwf. destruct (new_speed_life binary interval threshold mon channels reg0 Hc Hi Hwf)
    as (s & reg1 & Hn & _ & Hth & [Hwf1 _] & Hrun).
  exists s, reg1. split; [done|]. split; [done|]. intros events w reg Hw Hwr. split; [by apply Hrun|].
  rewrite <- Hth. apply role_results_speed.
Qed.

End roles.

(** ** Witnesses *)

Definition plain (s : string) : string := s.

Definition sample_target : PingTarget :=
  MkPingTarget "10.0.0.2:7777" (5 * Second) (2 * Second) ["console"] example_config.

(** Three refused connections: enough to alert under [example_config]. *)
Definition refused : PingNet := MkPingNet (Some "connection refused") None (λ _, Err "EOF").
Definition clock_at (t : Time) : Clock := MkClock t t t.
Definition refused_ticks : list (TickEvent (PingNet * Time * Clock)) :=
  [Tick (refused, 5, clock_at 5); Tick (refused, 10, clock_at 10); Tick (refused, 15, clock_at 15);
   CtxDone].

Lemma ping_run_correct_witness :
  ∃ m reg1 m' w' reg',
    new_ping sample_target (Some NewRegistry) = Some (m, Some reg1) ∧
    ping_run plain plain plain refused_ticks (m, MkWorld (Some reg1) [] []) = Some (m', w') ∧
    w_registry w' = Some reg' ∧ Registry_wf reg' ∧ r_order reg' = r_order reg1.
Proof.
  destruct (ping_run_correct plain plain plain sample_target NewRegistry example_config_ok
    ltac:(reflexivity) NewRegistry_wf) as (m & reg1 & Hm & Hwf & Hrun).
  destruct (Hrun refused_ticks (MkWorld (Some reg1) [] []) reg1 eq_refl Hwf)
    as (m' & w' & reg' & Hr & Hpost).
  exists m, reg1, m', w', reg'. split; [exact Hm|]. split; [exact Hr|].
  destruct Hpost as [_ Hreg Hwf' Hord _ _ _].
  split; [exact Hreg|]. split; [exact Hwf'|exact Hord].
Defined.

Definition status_net (code : Z) : HTTPNet := λ _ _, Ok code.

Lemma internet_run_correct_witness :
  ∃ c reg1 c' w',
    NewInternetCheck ["https://a.example"; "https://b.example"] (30 * Second) (5 * Second)
      example_config ["console"] None (Some NewRegistry) = Some (c, Some reg1) ∧
    internet_run plain plain plain
      [Tick (status_net 200, clock_at 30); Tick (status_net 503, clock_at 60)]
      (c, MkWorld (Some reg1) [] []) = Some (c', w').
Proof.
  destruct (internet_run_correct plain plain plain ["https://a.example"; "https://b.example"]
    (30 * Second) (5 * Second) example_config ["console"] None NewRegistry example_config_ok
    ltac:(reflexivity) NewRegistry_wf ltac:(discriminate)) as (c & reg1 & Hc & Hwf & Hrun).
  destruct (Hrun [Tick (status_net 200, clock_at 30); Tick (status_net 503, clock_at 60)]
    (MkWorld (Some reg1) [] []) reg1 eq_refl Hwf ltac:(reflexivity))
    as [(c' & w' & reg' & Hr & _) _].
  exists c, reg1, c', w'. split; [exact Hc|exact Hr].
Defined.

Lemma speed_run_correct_witness :
  ∃ s reg1 s' w',
    NewSpeedCheck "speedtest" (3600 * Second) (f_of_int 50) example_config ["console"]
      (Some NewRegistry) = Some (s, Some reg1) ∧
    speed_run plain plain plain [Tick (Err "exit status 2", clock_at 3600)]
      (s, MkWorld (Some reg1) [] []) = Some (s', w').
Proof.
  destruct (speed_run_correct plain plain plain "speedtest" (3600 * Second) (f_of_int 50)
    example_config ["console"] NewRegistry example_config_ok ltac:(reflexivity) NewRegistry_wf)
    as (s & reg1 & Hs & Hwf & Hrun).
  destruct (Hrun [Tick (Err "exit status 2", clock_at 3600)] (MkWorld (Some reg1) [] []) reg1
    eq_refl Hwf) as [(s' & w' & reg' & Hr & _) _].
  exists s, reg1, s', w'. split; [exact Hs|exact Hr].
Defined.
