(* ===== verification/Group.v ===== *)
(** * The goroutines of a monitor ([PingMonitor.Run], [URLMonitor.Run])

    [Run] starts one goroutine per target and waits for them.  A schedule is a
    list of events: the ticker of a goroutine fires (one whole check), it sees
    the context done and returns, or another part of the program writes to the
    log.  The goroutines share the [World].  Section [isolation] shows that
    sharing makes no difference: every monitor behaves as it would alone.  A whole
    check is one event here; Steps.v takes checks apart. *)

From S2P Require Import Prelude GoTime Slog Float64 GoString History StateMachine Registry.
From S2P Require Import Dispatcher Checks.

Local Open Scope string_scope.
Local Open Scope Z_scope.

Inductive GroupEvent (A : Type) :=
  | On (i : nat) (ev : TickEvent A)
  | Logged (logger : Logger).
Arguments On {_}.
Arguments Logged {_}.

Record Goroutine (M : Type) := MkGoroutine { g_monitor : M; g_returned : bool }.
Arguments MkGoroutine {_}.
Arguments g_monitor {_}.
Arguments g_returned {_}.

Section group.
Context {A M : Type} (interval : M → Duration) (check : A → M * World → option (M * World)).

Definition group_state : Type := list (Goroutine M) * World.

(** Every goroutine creates its ticker; one that panics ends the program. *)
Definition group_start (ms : list M) : option (list (Goroutine M)) :=
  if existsb (λ m, interval m <=? 0) ms then None else Some (map (λ m, MkGoroutine m false) ms).

(** One event; nothing happens to a goroutine that has returned. *)
Definition group_step (st : group_state) (ev : GroupEvent A) : option group_state :=
  let '(gs, w) := st in
  match ev with
  | Logged l => Some (gs, MkWorld (w_registry w) l (w_alerts w))
  | On i ev =>
      match gs !! i with
      | Some (MkGoroutine m false) =>
          match ev with
          | CtxDone => Some (<[i := MkGoroutine m true]> gs, w)
          | Tick a => '(m, w) ← check a (m, w); Some (<[i := MkGoroutine m false]> gs, w)
          end
      | _ => Some st
      end
  end.

Definition group_steps (events : list (GroupEvent A)) (st : group_state) : option group_state :=
  foldl (λ st ev, st ← st; group_step st ev) (Some st) events.

Definition group_run (events : list (GroupEvent A)) (ms : list M) (w : World)
    : option group_state :=
  gs ← group_start ms; group_steps events (gs, w).

(** [wg.Wait] lets [Run] return. *)
Definition all_returned (gs : list (Goroutine M)) : bool := forallb g_returned gs.
End group.

Section monitors.
Context (go_quote json_error url_error : string → string).

Definition PingMonitor_Run (events : list (GroupEvent (PingNet * Time * Clock)))
    (ms : list pingTargetMonitor) (w : World) : option (group_state (M := pingTargetMonitor)) :=
  group_run pm_interval (λ '(net, now, clk), ping_runCheck go_quote json_error url_error net now clk)
    events ms w.

Definition URLMonitor_Run (events : list (GroupEvent (HTTPNet * Clock)))
    (ms : list urlTargetMonitor) (w : World) : option (group_state (M := urlTargetMonitor)) :=
  group_run um_interval (λ '(net, clk), url_runCheck go_quote json_error url_error net clk)
    events ms w.
End monitors.

(** The events of one goroutine, in order. *)
Definition own {A} (i : nat) (events : list (GroupEvent A)) : list (TickEvent A) :=
  omap (λ ev, match ev with
              | On k ev => if decide (k = i) then Some ev else None
              | Logged _ => None
              end) events.

Definition stopped {A} (events : list (TickEvent A)) : bool :=
  existsb (λ ev, match ev with CtxDone => true | Tick _ => false end) events.

Lemma group_steps_cons {A M} (check : A → M * World → option (M * World)) ev events st :
  group_steps check (ev :: events) st = st ← group_step check st ev; group_steps check events st.
Proof. unfold group_steps. simpl. destruct (group_step check st ev); [done|]. by induction events. Qed.

(** ** One check, in any world *)

Lemma conclude_observe role channels h clk b detail mbps sm w sm' w' :
  conclude role channels h clk b detail mbps sm w = Some (sm', w') →
  fst <$> Observe (ck_observe clk) b sm = Some sm'.
Proof.
  unfold conclude. intros ([sm1 ev] & Ho & H)%bind_Some. rewrite Ho.
  by option_inv.
Qed.

Section step.
Context {A M : Type} `{MonitorRoleLaws A M}.

(** The new state and the alerts are functions of the monitor; of the registry
    only the unit's own entry changes. *)
Lemma check_anywhere cfg tr name a m :
  MonitorConfig_ok cfg → sm_repr cfg tr (mr_sm m) → mr_handle m = Some (MkHandle name) →
  mr_ok 1 m →
  ∃ sm alerts,
    sm_repr cfg (tr ++ [observed (mr_result a m)]) sm ∧
    ∀ w reg, w_registry w = Some reg → Registry_wf reg →
    ∃ reg' l,
      mr_step a (m, w) =
        Some (mr_set_sm sm (mr_next a m), MkWorld (Some reg') l (w_alerts w ++ alerts)) ∧
      Registry_wf reg' ∧ r_order reg' = r_order reg ∧
      ∀ n, unit_view reg' n =
        (λ v, if decide (name = n) then foldl view_step v (check_ops name sm (mr_result a m)) else v)
          <$> unit_view reg n.
Proof.
  intros Hcfg Hr Hh Hok. set (r := mr_result a m).
  destruct (Observe_repr cfg tr (mr_sm m) (ck_observe (cr_clock r)) (cr_success r) Hcfg Hr)
    as (sm & Ho & Hr').
  exists sm. eexists. split; [exact Hr'|]. intros w reg Hreg Hwf.
  destruct (mr_log_world a m w) as [Hlr Hla].
  destruct (conclude_spec cfg tr (mr_role m) (mr_channels m) name (mr_sm m) (mr_log a m w) reg r Hcfg Hr
    ltac:(by rewrite Hlr) Hwf) as (sm' & reg' & l & Hc & _ & Hops).
  pose proof (conclude_observe _ _ _ _ _ _ _ _ _ _ _ Hc) as Ho'. rewrite Ho in Ho'. simplify_eq/=.
  destruct (apply_ops_spec reg (check_ops name sm' r) Hwf) as (reg1 & Hops' & Hwf1 & Ho1 & Hv1).
  assert (reg1 = reg') as -> by congruence. exists reg', l. split.
  - rewrite (mr_step_spec 0) by done. cbv zeta. fold r. rewrite Hh, Hc. simpl. by rewrite Hla.
  - split_and!; [done..|]. intros n. rewrite Hv1, ops_of_check. destruct (unit_view reg n); simpl; [|done].
    by case_decide.
Qed.
End step.

(** ** Every target as if alone *)

Lemma own_cons {A} i k (e : TickEvent A) events :
  own i (On k e :: events) = if decide (k = i) then e :: own i events else own i events.
Proof. unfold own. simpl. by destruct (decide (k = i)). Qed.

Lemma own_length {A} i (events : list (GroupEvent A)) :
  (length (ticks (own i events)) ≤ length events)%nat.
Proof.
  induction events as [|[k e|l] events IH]; [done| |by apply le_S].
  rewrite own_cons. destruct (decide (k = i)); [destruct e|]; cbn [ticks length]; lia.
Qed.

(** Two registries that show the same unit. *)
Definition same_unit (w : World) (reg : Registry) (name : string) : Prop :=
  ∃ regw, w_registry w = Some regw ∧ Registry_wf regw ∧ unit_view regw name = unit_view reg name.

(** The alerts of goroutine [i] among alerts tagged with their goroutine. *)
Definition alerts_of (i : nat) (tagged : list (nat * Dispatched)) : list Dispatched :=
  (filter (λ t, t.1 = i) tagged).*2.

Lemma alerts_of_app i k alerts tagged :
  alerts_of i (map (pair k) alerts ++ tagged) =
    ((if decide (k = i) then alerts else []) ++ alerts_of i tagged)%list.
Proof.
  unfold alerts_of. rewrite filter_app, fmap_app. f_equal.
  destruct (decide (k = i)) as [Hk|Hk]; induction alerts as [|al alerts IH]; try done.
  - cbn [map]. rewrite filter_cons_True by done. rewrite fmap_cons. by rewrite IH.
  - cbn [map]. by rewrite filter_cons_False.
Qed.

Section isolation.
Context {A M : Type} `{MonitorRoleLaws A M} (specs : list (string * MonitorConfig)).
Notation group_steps := (group_steps (mr_step (A := A) (M := M))).
Notation group_step := (group_step (mr_step (A := A) (M := M))).

(** A goroutine good for [n] more checks: its machine represents some history. *)
Definition running (n : nat) (s : string * MonitorConfig) (g : Goroutine M) : Prop :=
  MonitorConfig_ok s.2 ∧ mr_handle (g_monitor g) = Some (MkHandle s.1) ∧ mr_ok n (g_monitor g) ∧
  ∃ tr, sm_repr s.2 tr (mr_sm (g_monitor g)).

Lemma running_fewer n gs : Forall2 (running (S n)) specs gs → Forall2 (running n) specs gs.
Proof.
  intros Hgs. eapply Forall2_impl; [exact Hgs|]. intros s g (? & ? & ? & ?).
  split_and!; try done. by apply (mr_ok_le n (S n)); [lia|].
Qed.

(** What goroutine [i], now [g], does in the rest of the schedule: the same as
    its own loop from [solo], a world that shows it the same unit. *)
Definition as_alone (events : list (GroupEvent A)) (i : nat) (g : Goroutine M) (solo : World)
    (name : string) (gs' : list (Goroutine M)) (reg' : Registry) (tagged : list (nat * Dispatched))
    : Prop :=
  ∃ m' solo',
    (if g_returned g then (m', solo') = (g_monitor g, solo)
     else tick_loop mr_step (own i events) (g_monitor g, solo) = Some (m', solo')) ∧
    gs' !! i = Some (MkGoroutine m' (g_returned g || stopped (own i events))) ∧
    same_unit solo' reg' name ∧
    w_alerts solo' = (w_alerts solo ++ alerts_of i tagged)%list.

(** The outcome of a schedule. *)
Definition isolated (events : list (GroupEvent A)) (gs : list (Goroutine M)) (w : World)
    (reg : Registry) (solo : nat → World) : Prop :=
  ∃ gs' w' reg' tagged,
    group_steps events (gs, w) = Some (gs', w') ∧ w_registry w' = Some reg' ∧ Registry_wf reg' ∧
    r_order reg' = r_order reg ∧ w_alerts w' = (w_alerts w ++ tagged.*2)%list ∧
    Forall (λ t, (t.1 < length gs)%nat) tagged ∧
    ∀ i g s, gs !! i = Some g → specs !! i = Some s →
      as_alone events i g (solo i) s.1 gs' reg' tagged.

Lemma running_insert n gs k s g :
  Forall2 (running n) specs gs → specs !! k = Some s → running n s g →
  Forall2 (running n) specs (<[k := g]> gs).
Proof. intros Hgs Hs Hg. rewrite <- (list_insert_id specs k s Hs). by apply Forall2_insert. Qed.

Lemma isolated_logged l events gs w reg solo :
  isolated events gs (MkWorld (w_registry w) l (w_alerts w)) reg solo →
  isolated (Logged l :: events) gs w reg solo.
Proof.
  intros (gs' & w' & reg' & tagged & Hs & Hr & Hwf & Ho & Ha & Htag & Hi).
  exists gs', w', reg', tagged. by rewrite group_steps_cons.
Qed.

(** An event that changes nothing for the goroutines still running. *)
Lemma isolated_skip k e events gs w reg solo :
  (∀ m, gs !! k ≠ Some (MkGoroutine m false)) →
  isolated events gs w reg solo → isolated (On k e :: events) gs w reg solo.
Proof.
  intros Hk (gs' & w' & reg' & tagged & Hs & Hr & Hwf & Ho & Ha & Htag & Hi).
  exists gs', w', reg', tagged. split_and!; try done.
  - rewrite group_steps_cons. unfold Group.group_step. simpl.
    destruct (gs !! k) as [[m []]|] eqn:E; [done| |done]. by destruct (Hk m).
  - intros i g s Hg Hspec. destruct (Hi i g s Hg Hspec) as (m' & solo' & Hm & Hg' & Hsame & Hal).
    exists m', solo'. rewrite own_cons. destruct (decide (k = i)) as [->|]; [|done].
    destruct g as [m []]; [done|]. by destruct (Hk m).
Qed.

Lemma isolated_done k m events gs w reg solo :
  gs !! k = Some (MkGoroutine m false) →
  isolated events (<[k := MkGoroutine m true]> gs) w reg solo →
  isolated (On k CtxDone :: events) gs w reg solo.
Proof.
  intros Hk (gs' & w' & reg' & tagged & Hs & Hr & Hwf & Ho & Ha & Htag & Hi).
  rewrite length_insert in Htag. exists gs', w', reg', tagged. split_and!; try done.
  - rewrite group_steps_cons. unfold Group.group_step. simpl. by rewrite Hk.
  - intros i g s Hg Hspec. unfold as_alone. rewrite own_cons. destruct (decide (k = i)) as [->|Hne].
    + assert (g = MkGoroutine m false) as -> by congruence.
      destruct (Hi i (MkGoroutine m true) s) as (m' & solo' & Hm & Hg' & Hsame & Hal); [|done|].
      { apply list_lookup_insert_eq. by eapply lookup_lt_Some. }
      exists m', solo'. simpl in *. simplify_eq. done.
    + apply (Hi i g s); [by rewrite list_lookup_insert_ne|done].
Qed.

Lemma isolated_tick n k a m s events gs w reg solo :
  NoDup specs.*1 → gs !! k = Some (MkGoroutine m false) → specs !! k = Some s →
  running (S n) s (MkGoroutine m false) →
  w_registry w = Some reg → Registry_wf reg →
  (∀ i s, specs !! i = Some s → same_unit (solo i) reg s.1) →
  (∀ gs w reg solo,
     Forall2 (running n) specs gs → w_registry w = Some reg → Registry_wf reg →
     (∀ i s, specs !! i = Some s → same_unit (solo i) reg s.1) → isolated events gs w reg solo) →
  Forall2 (running n) specs gs →
  isolated (On k (Tick a) :: events) gs w reg solo.
Proof.
  intros Hnd Hk Hs (Hcfg & Hh & Hok & tr & Hr) Hreg Hwf Hsolo IH Hgs.
  destruct (check_anywhere s.2 tr s.1 a m Hcfg Hr Hh (mr_ok_le 1 (S n) m ltac:(lia) Hok)) as (sm & alerts & Hr' & Hany).
  destruct (Hany w reg Hreg Hwf) as (reg1 & l & Hstep & Hwf1 & Ho1 & Hv1).
  destruct (Hsolo k s Hs) as (regk & Hregk & Hwfk & Hvk).
  destruct (Hany (solo k) regk Hregk Hwfk) as (regk1 & lk & Hstepk & Hwfk1 & _ & Hvk1).
  set (m1 := mr_set_sm sm (mr_next a m)) in *.
  set (solok := MkWorld (Some regk1) lk (w_alerts (solo k) ++ alerts)) in *.
  set (solo1 := λ i, if decide (i = k) then solok else solo i).
  destruct (mr_frame a m sm) as (_ & _ & Hfh & Hfs).
  destruct (IH (<[k := MkGoroutine m1 false]> gs) (MkWorld (Some reg1) l (w_alerts w ++ alerts))
    reg1 solo1) as (gs' & w' & reg' & tagged & Hst & Hr1 & Hwf' & Ho & Ha & Htag & Hi); [|done|done| |].
  - apply running_insert with s; [done|done|].
    split; [done|]. unfold m1. simpl. rewrite Hfh, Hfs. split_and!; eauto. by apply mr_ok_next.
  - intros i s' Hs'. unfold solo1. destruct (decide (i = k)) as [->|Hne].
    + simplify_eq. exists regk1. split_and!; [done..|]. by rewrite Hvk1, Hv1, Hvk.
    + destruct (Hsolo i s' Hs') as (regi & ? & ? & Hvi). exists regi. split_and!; [done..|].
      rewrite Hv1, Hvi. destruct (unit_view reg s'.1); simpl; [|done].
      rewrite decide_False; [done|].
      intros Heq. apply Hne. eapply (NoDup_lookup specs.*1); [done|..];
        rewrite list_lookup_fmap; [by rewrite Hs'|by rewrite Hs; simpl; rewrite Heq].
  - exists gs', w', reg', (map (pair k) alerts ++ tagged)%list. split_and!; try done.
    + rewrite group_steps_cons. unfold Group.group_step. simpl. rewrite Hk, Hstep. simpl. exact Hst.
    + by rewrite Ho, Ho1.
    + rewrite Ha. simpl. rewrite fmap_app, <- app_assoc. f_equal. f_equal.
      clear. induction alerts; simpl; [done|by f_equal].
    + rewrite length_insert in Htag. apply Forall_app. split; [|done].
      apply Forall_fmap, Forall_true. intros al. simpl. by eapply lookup_lt_Some.
    + intros i g s' Hg Hs'. unfold as_alone. rewrite own_cons, alerts_of_app.
      destruct (decide (k = i)) as [->|Hne].
      * assert (g = MkGoroutine m false) as -> by congruence.
        destruct (Hi i (MkGoroutine m1 false) s') as (m' & solo' & Hm & Hg' & Hsame & Hal); [|done|].
        { apply list_lookup_insert_eq. by eapply lookup_lt_Some. }
        exists m', solo'. unfold solo1 in *. rewrite decide_True in * by done. simpl in *.
        rewrite Hstepk. simpl. split_and!; [done..|]. rewrite Hal. simpl. by rewrite <- app_assoc.
      * destruct (Hi i g s') as (m' & solo' & Hm & Hg' & Hsame & Hal);
          [by rewrite list_lookup_insert_ne|done|].
        exists m', solo'. unfold solo1 in *. rewrite decide_False in * by done. done.
Qed.

Lemma group_isolated events gs w reg solo :
  NoDup specs.*1 → Forall2 (running (length events)) specs gs →
  w_registry w = Some reg → Registry_wf reg →
  (∀ i s, specs !! i = Some s → same_unit (solo i) reg s.1) → isolated events gs w reg solo.
Proof.
  intros Hnd. revert gs w reg solo.
  induction events as [|[k e|l] events IH]; intros gs w reg solo Hgs Hreg Hwf Hsolo.
  - exists gs, w, reg, []. split_and!; try done; [by rewrite app_nil_r|].
    intros i [m b] s Hg Hs. exists m, (solo i). split_and!; simpl; try done.
    + by destruct b.
    + by rewrite orb_false_r.
    + by apply Hsolo.
    + by rewrite app_nil_r.
  - pose proof (running_fewer _ _ Hgs) as Hgs'.
    destruct (gs !! k) as [[m []]|] eqn:Hk; [apply isolated_skip; [naive_solver|by apply IH]| |
      apply isolated_skip; [naive_solver|by apply IH]].
    destruct (Forall2_lookup_r _ _ _ _ _ Hgs Hk) as (s & Hs & Hrun).
    destruct e as [a|]; [by eapply isolated_tick|]. apply (isolated_done k m); [done|]. apply IH; try done.
    eapply running_insert; [done..|]. by destruct (Forall2_lookup_lr _ _ _ _ _ _ Hgs' Hs Hk).
  - apply isolated_logged, IH; try done. by apply running_fewer.
Qed.

(** No check panics, whatever the names. *)
Lemma group_total events gs w reg :
  Forall2 (running (length events)) specs gs → w_registry w = Some reg → Registry_wf reg →
  is_Some (group_steps events (gs, w)).
Proof.
  revert gs w reg. induction events as [|[k e|l] events IH]; intros gs w reg Hgs Hreg Hwf;
    [by eexists| |rewrite group_steps_cons; by eapply IH; [apply running_fewer|..]].
  pose proof (running_fewer _ _ Hgs) as Hgs'.
  rewrite group_steps_cons. unfold Group.group_step. simpl.
  destruct (gs !! k) as [[m []]|] eqn:Hk; simpl; [by eapply IH| |by eapply IH].
  destruct (Forall2_lookup_r _ _ _ _ _ Hgs Hk) as (s & Hs & Hcfg & Hh & Hok & tr & Hr).
  destruct e as [a|]; simpl.
  2:{ eapply IH; [|done..]. eapply running_insert; [done..|].
      by destruct (Forall2_lookup_lr _ _ _ _ _ _ Hgs' Hs Hk). }
  destruct (check_anywhere s.2 tr s.1 a m Hcfg Hr Hh (mr_ok_le 1 (S (length events)) m ltac:(lia) Hok))
    as (sm & alerts & Hr' & Hany).
  destruct (Hany w reg Hreg Hwf) as (reg1 & l & Hstep & Hwf1 & _). rewrite Hstep. simpl.
  destruct (mr_frame a m sm) as (_ & _ & Hfh & Hfs).
  eapply IH; [|done|done]. eapply running_insert; [done..|]. split; [done|]. simpl.
  rewrite Hfh, Hfs. split_and!; eauto. by apply mr_ok_next.
Qed.
End isolation.

(** ** From construction to [Run] *)

Section run.
Context {A M : Type} `{MonitorRoleLaws A M} (specs : list (string * MonitorConfig)).
Context (interval : M → Duration) (check : A → M * World → option (M * World)).
Hypothesis check_step : ∀ a st, check a st = mr_step a st.

(** A monitor as its constructor leaves it. *)
Definition fresh (s : string * MonitorConfig) (m : M) : Prop :=
  MonitorConfig_ok s.2 ∧ 0 < interval m ∧ mr_handle m = Some (MkHandle s.1) ∧
  sm_repr s.2 [] (mr_sm m).

Lemma group_steps_ext events st :
  group_steps check events st = group_steps (mr_step (A := A) (M := M)) events st.
Proof.
  unfold group_steps. generalize (Some st) as o. induction events as [|[k e|l] events IH]; intros o; [done|..].
  - simpl. rewrite <- IH. f_equal. destruct o as [[gs w]|]; [|done]. simpl.
    destruct (gs !! k) as [[m []]|]; [done| |done]. destruct e; [by rewrite check_step|done].
  - simpl. rewrite <- IH. by destruct o as [[gs w]|].
Qed.

Lemma group_steps_length events gs w gs' w' :
  group_steps check events (gs, w) = Some (gs', w') → length gs' = length gs.
Proof.
  revert gs w. induction events as [|[k e|l] events IH]; intros gs w;
    [by intros [= <- <-]| |rewrite group_steps_cons; apply IH].
  rewrite group_steps_cons. unfold group_step. simpl. intros ([gs1 w1] & Hs & Hrest)%bind_Some.
  rewrite (IH _ _ Hrest). destruct (gs !! k) as [[m []]|]; [by simplify_eq| |by simplify_eq].
  destruct e; [|simplify_eq; by rewrite length_insert].
  apply bind_Some in Hs as ([m1 w2] & _ & [= <- <-]). by rewrite length_insert.
Qed.

Lemma group_start_fresh n ms :
  Forall2 fresh specs ms → Forall (mr_ok n) ms →
  group_start interval ms = Some (map (λ m, MkGoroutine m false) ms) ∧
  Forall2 (running n) specs (map (λ m, MkGoroutine m false) ms).
Proof.
  intros Hf Hok. unfold group_start. split.
  - assert (existsb (λ m, interval m <=? 0) ms = false) as ->; [|done].
    clear Hok. induction Hf as [|s m specs' ms' (_ & Hi & _) _ IH]; [done|]. simpl. rewrite IH.
    by destruct (Z.leb_spec (interval m) 0); [lia|].
  - apply Forall2_fmap_r. apply Forall2_same_length_lookup_2;
      [by eapply Forall2_length|]. intros i s m Hs Hm.
    destruct (Forall2_lookup_lr _ _ _ _ _ _ Hf Hs Hm) as (? & _ & ? & ?).
    split_and!; eauto. by eapply Forall_lookup_1.
Qed.

(** What [Run], with outcome [out], promises: it returns when every goroutine
    has seen the context done, and every target did what its own loop, [alone],
    does from the same world. *)
Definition run_promise (alone : list (TickEvent A) → M * World → option (M * World))
    (events : list (GroupEvent A)) (ms : list M) (w : World) (reg : Registry)
    (out : option (group_state (M := M))) : Prop :=
  ∃ gs w' reg' tagged,
    out = Some (gs, w') ∧
    (all_returned gs = true ↔ ∀ i, (i < length ms)%nat → stopped (own i events) = true) ∧
    w_registry w' = Some reg' ∧ Registry_wf reg' ∧ r_order reg' = r_order reg ∧
    w_alerts w' = (w_alerts w ++ tagged.*2)%list ∧
    Forall (λ t, (t.1 < length ms)%nat) tagged ∧
    ∀ i m s, ms !! i = Some m → specs !! i = Some s →
      ∃ m' wi regi,
        alone (own i events) (m, w) = Some (m', wi) ∧
        run_post s.2 s.1 [] m w reg (ticks (own i events)) m' wi regi ∧
        gs !! i = Some (MkGoroutine m' (stopped (own i events))) ∧
        unit_view reg' s.1 = unit_view regi s.1 ∧
        w_alerts wi = (w_alerts w ++ alerts_of i tagged)%list.

Lemma tick_loop_ext events st : tick_loop check events st = tick_loop (mr_step (A := A)) events st.
Proof.
  revert st. induction events as [|[a|] events IH]; intros st; [done| |done]. simpl.
  rewrite check_step. by destruct (mr_step a st); simpl.
Qed.

Lemma group_run_promise events ms w reg :
  NoDup specs.*1 → Forall2 fresh specs ms → Forall (mr_ok (length events)) ms →
  w_registry w = Some reg → Registry_wf reg →
  run_promise (λ evs st, run_ticker (interval st.1) check evs st) events ms w reg
    (group_run interval check events ms w).
Proof.
  intros Hnd Hf Hok Hreg Hwf. destruct (group_start_fresh _ ms Hf Hok) as [Hstart Hrun].
  destruct (group_isolated specs events _ w reg (λ _, w) Hnd Hrun Hreg Hwf)
    as (gs & w' & reg' & tagged & Hs & Hr & Hwf' & Ho & Ha & Htag & Hi).
  { intros i s _. by exists reg. }
  rewrite <- group_steps_ext in Hs. pose proof (group_steps_length _ _ _ _ _ Hs) as Hlen.
  rewrite length_map in Hlen, Htag.
  assert (Halone : ∀ i m s, ms !! i = Some m → specs !! i = Some s →
    as_alone events i (MkGoroutine m false) w s.1 gs reg' tagged).
  { intros i m s Hm Hsp. apply Hi; [|done]. by rewrite list_lookup_fmap, Hm. }
  exists gs, w', reg', tagged. unfold group_run. rewrite Hstart. split_and!; try done.
  - unfold all_returned. rewrite forallb_forall. split.
    + intros Hall i Hlt. destruct (lookup_lt_is_Some_2 ms i Hlt) as [m Hm].
      destruct (Forall2_lookup_r _ _ _ _ _ Hf Hm) as (s & Hsp & _).
      destruct (Halone i m s Hm Hsp) as (m' & solo' & _ & Hg & _).
      apply (Hall _ (proj1 (list_elem_of_In _ _) (list_elem_of_lookup_2 _ _ _ Hg))).
    + intros Hall g [i Hg]%list_elem_of_In%list_elem_of_lookup.
      destruct (lookup_lt_is_Some_2 ms i) as [m Hm]; [rewrite <- Hlen; by eapply lookup_lt_Some|].
      destruct (Forall2_lookup_r _ _ _ _ _ Hf Hm) as (s & Hsp & _).
      destruct (Halone i m s Hm Hsp) as (m' & solo' & _ & Hg' & _). simplify_eq.
      apply Hall. by eapply lookup_lt_Some.
  - intros i m s Hm Hsp. destruct (Halone i m s Hm Hsp) as (m' & alone & Hl & Hg & Hsame & Hal).
    destruct (Forall2_lookup_lr _ _ _ _ _ _ Hf Hsp Hm) as (Hcfg & Hint & Hh & Hsm).
    destruct (run_ticker_run s.2 (interval m) s.1 (own i events) m w reg Hcfg Hint Hsm
      (mr_ok_le _ _ m (own_length i events) (Forall_lookup_1 _ _ _ _ Hok Hm)) Hh Hreg Hwf) as (m1 & w1 & regi & Hrt & Hpost).
    destruct Hsame as (regw & Hrw & _ & Hview).
    assert (run_ticker (interval m) check (own i events) (m, w) =
            run_ticker (interval m) mr_step (own i events) (m, w)) as Hext.
    { unfold run_ticker. by rewrite tick_loop_ext. }
    unfold run_ticker in Hrt. destruct (Z.leb_spec (interval m) 0) as [|_]; [lia|].
    simpl in Hl. rewrite Hl in Hrt. simplify_eq.
    exists m1, w1, regi. split_and!; try done.
    + simpl. rewrite Hext. unfold run_ticker. destruct (Z.leb_spec (interval m) 0); [lia|done].
    + rewrite <- Hview. f_equal. destruct Hpost as [_ Hp _ _ _ _ _]. congruence.
Qed.
End run.

Section targets.
Context (go_quote json_error url_error : string → string).
Notation PingInput := (PingNet * Time * Clock)%type.
Notation URLInput := (HTTPNet * Clock)%type.
#[local] Instance pings : MonitorRole PingInput pingTargetMonitor :=
  ping_role go_quote json_error url_error.
#[local] Instance urls : MonitorRole URLInput urlTargetMonitor :=
  url_role go_quote json_error url_error.
#[local] Instance pings_laws : MonitorRoleLaws PingInput pingTargetMonitor :=
  ping_laws go_quote json_error url_error.
#[local] Instance urls_laws : MonitorRoleLaws URLInput urlTargetMonitor :=
  url_laws go_quote json_error url_error.
Notation ping_check := (λ '((net, now, clk) : PingNet * Time * Clock),
  ping_runCheck go_quote json_error url_error net now clk).
Notation url_check := (λ '((net, clk) : HTTPNet * Clock),
  url_runCheck go_quote json_error url_error net clk).

Definition ping_spec (t : PingTarget) : string * MonitorConfig :=
  ("ping_monitor:" +:+ pt_Target t, pt_Mon t).
Definition url_spec (t : URLTarget) : string * MonitorConfig :=
  ("url_monitor:" +:+ ut_URL t, ut_Mon t).

Lemma NewPingMonitor_fresh ts reg0 :
  Registry_wf reg0 → Forall (λ t, MonitorConfig_ok (pt_Mon t) ∧ 0 < pt_Interval t) ts →
  ∃ ms reg1, NewPingMonitor ts (Some reg0) = Some (ms, Some reg1) ∧ Registry_wf reg1 ∧
    Forall2 (fresh (A := PingInput) pm_interval) (map ping_spec ts) ms.
Proof.
  intros Hwf Hts. revert reg0 Hwf. induction Hts as [|t ts [Hc Hi] _ IH]; intros reg0 Hwf.
  { exists [], reg0. split_and!; [done|done|constructor]. }
  destruct (NewWithConfig_repr _ Hc) as (sm & Hnew & Hr).
  destruct (Register_registers ("ping_monitor:" +:+ pt_Target t) reg0 Hwf) as (reg1 & Hreg & Hwf1 & _).
  destruct (IH reg1 Hwf1) as (ms & reg2 & Hms & Hwf2 & Hf).
  eexists (_ :: ms), reg2. cbn [NewPingMonitor]. unfold new_ping. rewrite Hnew.
  cbn [mbind option_bind]. rewrite Hreg. cbn [mbind option_bind]. rewrite Hms.
  split_and!; [done|done|]. constructor; [|done]. by split_and!.
Qed.

Lemma NewURLMonitor_fresh ts reg0 :
  Registry_wf reg0 → Forall (λ t, MonitorConfig_ok (ut_Mon t) ∧ 0 < ut_Interval t) ts →
  ∃ ms reg1, NewURLMonitor ts (Some reg0) = Some (ms, Some reg1) ∧ Registry_wf reg1 ∧
    Forall2 (fresh (A := URLInput) um_interval) (map url_spec ts) ms.
Proof.
  intros Hwf Hts. revert reg0 Hwf. induction Hts as [|t ts [Hc Hi] _ IH]; intros reg0 Hwf.
  { exists [], reg0. split_and!; [done|done|constructor]. }
  destruct (NewWithConfig_repr _ Hc) as (sm & Hnew & Hr).
  destruct (Register_registers ("url_monitor:" +:+ ut_URL t) reg0 Hwf) as (reg1 & Hreg & Hwf1 & _).
  destruct (IH reg1 Hwf1) as (ms & reg2 & Hms & Hwf2 & Hf).
  eexists (_ :: ms), reg2. cbn [NewURLMonitor]. unfold new_url. rewrite Hnew.
  cbn [mbind option_bind]. rewrite Hreg. cbn [mbind option_bind]. rewrite Hms.
  split_and!; [done|done|]. constructor; [|done]. by split_and!.
Qed.

Lemma prefixed_NoDup {A} (f : A → string * MonitorConfig) (key : A → string) prefix ts :
  (∀ t, (f t).1 = prefix +:+ key t) → NoDup (map key ts) → NoDup (map f ts).*1.
Proof.
  intros Hf Hnd. rewrite <- list_fmap_compose.
  assert (fst ∘ f <$> ts = String.append prefix <$> (key <$> ts)) as ->.
  { rewrite <- list_fmap_compose. apply list_fmap_ext. intros i t _. apply Hf. }
  apply NoDup_fmap; [|done]. intros a b Hab. clear -Hab.
  induction prefix as [|c prefix IH]; [done|]. by injection Hab as Hab%IH.
Qed.

(** [NewPingMonitor] and [Run] never panic, whatever the targets' names. *)
Lemma PingMonitor_Run_total ms specs events w reg :
  Forall2 (fresh (A := PingInput) pm_interval) specs ms → w_registry w = Some reg → Registry_wf reg →
  is_Some (PingMonitor_Run go_quote json_error url_error events ms w).
Proof.
  intros Hf Hreg Hwf. unfold PingMonitor_Run, group_run.
  destruct (group_start_fresh specs pm_interval (length events) ms Hf ltac:(by apply Forall_true)) as [-> Hrun].
  simpl.
  rewrite group_steps_ext by (by intros [[? ?] ?] ?). by eapply group_total.
Qed.

Lemma URLMonitor_Run_total ms specs events w reg :
  Forall2 (fresh (A := URLInput) um_interval) specs ms → w_registry w = Some reg → Registry_wf reg →
  is_Some (URLMonitor_Run go_quote json_error url_error events ms w).
Proof.
  intros Hf Hreg Hwf. unfold URLMonitor_Run, group_run.
  destruct (group_start_fresh specs um_interval (length events) ms Hf ltac:(by apply Forall_true)) as [-> Hrun].
  simpl.
  rewrite group_steps_ext by (by intros [? ?] ?). by eapply group_total.
Qed.

(** ** Properties *)

(** The goroutines of a ping monitor.  For targets of valid configuration
    with distinct addresses and every schedule of their goroutines, [Run] does
    not panic, it returns exactly when every goroutine has seen the context
    done, and sharing the registry and the notifier makes no difference: each
    target ends in the state, with the registry entry and the alerts of its own
    loop run alone, which are those of its own history of checks. *)
Theorem ping_targets_isolated ts reg0 :
  Forall (λ t, MonitorConfig_ok (pt_Mon t) ∧ 0 < pt_Interval t) ts → NoDup (map pt_Target ts) →
  Registry_wf reg0 →
  ∃ ms reg1, NewPingMonitor ts (Some reg0) = Some (ms, Some reg1) ∧ Registry_wf reg1 ∧
    ∀ events w reg, w_registry w = Some reg → Registry_wf reg →
      run_promise (map ping_spec ts) (ping_run go_quote json_error url_error) events ms w reg
        (PingMonitor_Run go_quote json_error url_error events ms w).
Proof.
  intros Hts Hnd Hwf. destruct (NewPingMonitor_fresh ts reg0 Hwf Hts) as (ms & reg1 & Hms & Hwf1 & Hf).
  exists ms, reg1. split_and!; [done..|]. intros events w reg Hreg Hwr.
  apply (group_run_promise (A := PingInput) (map ping_spec ts) pm_interval ping_check); try done.
  - by apply (prefixed_NoDup _ pt_Target "ping_monitor:").
  - by apply Forall_true.
Qed.

(** The goroutines of a URL monitor: the same, for targets with distinct
    URLs. *)
Theorem url_targets_isolated ts reg0 :
  Forall (λ t, MonitorConfig_ok (ut_Mon t) ∧ 0 < ut_Interval t) ts → NoDup (map ut_URL ts) →
  Registry_wf reg0 →
  ∃ ms reg1, NewURLMonitor ts (Some reg0) = Some (ms, Some reg1) ∧ Registry_wf reg1 ∧
    ∀ events w reg, w_registry w = Some reg → Registry_wf reg →
      run_promise (map url_spec ts) (url_run go_quote json_error url_error) events ms w reg
        (URLMonitor_Run go_quote json_error url_error events ms w).
Proof.
  intros Hts Hnd Hwf. destruct (NewURLMonitor_fresh ts reg0 Hwf Hts) as (ms & reg1 & Hms & Hwf1 & Hf).
  exists ms, reg1. split_and!; [done..|]. intros events w reg Hreg Hwr.
  apply (group_run_promise (A := URLInput) (map url_spec ts) um_interval url_check); try done.
  - by apply (prefixed_NoDup _ ut_URL "url_monitor:").
  - by apply Forall_true.
Qed.
End targets.

(** ** Witnesses *)

(** Two targets; the first fails three times while the second is checked. *)
Definition second_target : PingTarget :=
  MkPingTarget "10.0.0.3:7777" (5 * Second) (2 * Second) ["console"] example_config.

Definition sample_schedule : list (GroupEvent (PingNet * Time * Clock)) :=
  [On 0 (Tick (refused, 5, clock_at 5)); On 1 (Tick (refused, 5, clock_at 5));
   On 0 (Tick (refused, 10, clock_at 10)); Logged []; On 0 (Tick (refused, 15, clock_at 15));
   On 1 CtxDone; On 0 CtxDone].

Lemma sample_names : NoDup (map pt_Target [sample_target; second_target]).
Proof. apply (bool_decide_unpack _). by vm_compute. Qed.

Lemma ping_targets_isolated_witness :
  ∃ ms reg1 gs w',
    NewPingMonitor [sample_target; second_target] (Some NewRegistry) = Some (ms, Some reg1) ∧
    PingMonitor_Run plain plain plain sample_schedule ms (MkWorld (Some reg1) [] []) = Some (gs, w').
Proof.
  destruct (ping_targets_isolated plain plain plain [sample_target; second_target] NewRegistry)
    as (ms & reg1 & Hms & Hwf & Hrun).
  - repeat constructor; apply example_config_ok.
  - exact sample_names.
  - exact NewRegistry_wf.
  - destruct (Hrun sample_schedule (MkWorld (Some reg1) [] []) reg1 eq_refl Hwf)
      as (gs & w' & reg' & tagged & Hr & _).
    exists ms, reg1, gs, w'. split; [exact Hms|exact Hr].
Defined.

Definition sample_url : URLTarget :=
  MkURLTarget "https://example.org/health" (60 * Second) (5 * Second) ["console"] example_config false.

Lemma url_targets_isolated_witness :
  ∃ ms reg1 gs w',
    NewURLMonitor [sample_url] (Some NewRegistry) = Some (ms, Some reg1) ∧
    URLMonitor_Run plain plain plain [On 0 (Tick (status_net 204, clock_at 60)); On 0 CtxDone]
      ms (MkWorld (Some reg1) [] []) = Some (gs, w') ∧ all_returned gs = true.
Proof.
  destruct (url_targets_isolated plain plain plain [sample_url] NewRegistry)
    as (ms & reg1 & Hms & Hwf & Hrun).
  - repeat constructor; apply example_config_ok.
  - apply (bool_decide_unpack _). vm_compute. exact I.
  - exact NewRegistry_wf.
  - destruct (Hrun [On 0 (Tick (status_net 204, clock_at 60)); On 0 CtxDone]
      (MkWorld (Some reg1) [] []) reg1 eq_refl Hwf) as (gs & w' & reg' & tagged & Hr & Hret & _).
    exists ms, reg1, gs, w'. split; [exact Hms|]. split; [exact Hr|]. apply Hret.
    vm_compute in Hms. injection Hms as <- _. intros i Hi. simpl in Hi.
    destruct i as [|i]; [reflexivity|lia].
Defined.

(** Two targets with the same address are two monitors, but one unit: they
    share one entry of the registry. *)
Lemma duplicate_targets_share_entry :
  ∃ m1 m2 reg,
    NewPingMonitor [sample_target; sample_target] (Some NewRegistry) = Some ([m1; m2], Some reg) ∧
    r_order reg = ["ping_monitor:10.0.0.2:7777"] ∧ pm_handle m1 = pm_handle m2.
Proof. eexists _, _, _. vm_compute. split_and!; reflexivity. Qed.
