(* ===== verification/Units.v ===== *)
(** * All monitored units together

    A daemon runs ping targets, URL targets, the internet check and the speed
    check side by side; each is a [Unit], a monitoring role in the sense of
    Checks.v, and what the outside world does during one check is an
    [Outside].  All of them are the goroutines of one group, so what Group.v
    shows of a monitor's targets holds across the roles. *)

From S2P Require Import Prelude GoTime Slog Float64 GoString History StateMachine Registry.
From S2P Require Import Dispatcher Checks Group.

Local Open Scope string_scope.
Local Open Scope Z_scope.

(** What one check of any kind may see: a peer, a time, the web, the output of
    the speed test tool, the clock. *)
Record Outside := MkOutside {
  o_ping : PingNet;
  o_now : Time;
  o_http : HTTPNet;
  o_speed : result string string;
  o_clock : Clock;
}.

Inductive Unit :=
  | UPing (m : pingTargetMonitor)
  | UURL (m : urlTargetMonitor)
  | UInternet (c : InternetCheck)
  | USpeed (s : SpeedCheck).

Definition unit_interval (u : Unit) : Duration :=
  match u with
  | UPing m => pm_interval m
  | UURL m => um_interval m
  | UInternet c => ic_interval c
  | USpeed s => sc_interval s
  end.

Definition unit_handle (u : Unit) : option Handle :=
  match u with
  | UPing m => pm_handle m
  | UURL m => um_handle m
  | UInternet c => ic_handle c
  | USpeed s => sc_handle s
  end.

Definition unit_sm (u : Unit) : StateMachine :=
  match u with
  | UPing m => pm_sm m
  | UURL m => um_sm m
  | UInternet c => ic_sm c
  | USpeed s => sc_sm s
  end.

(** A unit as its constructor leaves it. *)
Definition unit_fresh (s : string * MonitorConfig) (u : Unit) : Prop :=
  MonitorConfig_ok s.2 ∧ 0 < unit_interval u ∧ unit_handle u = Some (MkHandle s.1) ∧
  sm_repr s.2 [] (unit_sm u).

Section units.
Context (go_quote json_error url_error : string → string).
Notation pings := (ping_role go_quote json_error url_error).
Notation urls := (url_role go_quote json_error url_error).
Notation internets := (internet_role go_quote json_error url_error).
Notation speeds := (speed_role go_quote json_error url_error).

(** One [runCheck]. *)
Definition unit_check (o : Outside) (st : Unit * World) : option (Unit * World) :=
  match st.1 with
  | UPing m =>
      '(m, w) ← ping_runCheck go_quote json_error url_error (o_ping o) (o_now o) (o_clock o) (m, st.2);
      Some (UPing m, w)
  | UURL m =>
      '(m, w) ← url_runCheck go_quote json_error url_error (o_http o) (o_clock o) (m, st.2);
      Some (UURL m, w)
  | UInternet c =>
      '(c, w) ← internet_runCheck go_quote json_error url_error (o_http o) (o_clock o) (c, st.2);
      Some (UInternet c, w)
  | USpeed s =>
      '(s, w) ← speed_runCheck go_quote json_error url_error (o_speed o) (o_clock o) (s, st.2);
      Some (USpeed s, w)
  end.

(** The loop of one unit. *)
Definition unit_run (events : list (TickEvent Outside)) (st : Unit * World) : option (Unit * World) :=
  run_ticker (unit_interval st.1) unit_check events st.

(** The goroutines of all the units. *)
Definition Units_run (events : list (GroupEvent Outside)) (us : list Unit) (w : World)
    : option (group_state (M := Unit)) :=
  group_run unit_interval unit_check events us w.

Definition ping_input (o : Outside) : PingNet * Time * Clock := (o_ping o, o_now o, o_clock o).
Definition http_input (o : Outside) : HTTPNet * Clock := (o_http o, o_clock o).
Definition speed_input (o : Outside) : result string string * Clock := (o_speed o, o_clock o).

#[export] Instance unit_role : MonitorRole Outside Unit := {
  mr_role u :=
    match u with
    | UPing m => mr_role (MonitorRole := pings) m
    | UURL m => mr_role (MonitorRole := urls) m
    | UInternet c => mr_role (MonitorRole := internets) c
    | USpeed s => mr_role (MonitorRole := speeds) s
    end;
  mr_channels u :=
    match u with
    | UPing m => pm_channels m | UURL m => um_channels m
    | UInternet c => ic_channels c | USpeed s => sc_channels s
    end;
  mr_handle := unit_handle;
  mr_sm := unit_sm;
  mr_set_sm sm u :=
    match u with
    | UPing m => UPing (mr_set_sm (MonitorRole := pings) sm m)
    | UURL m => UURL (mr_set_sm (MonitorRole := urls) sm m)
    | UInternet c => UInternet (mr_set_sm (MonitorRole := internets) sm c)
    | USpeed s => USpeed (mr_set_sm (MonitorRole := speeds) sm s)
    end;
  mr_ok n u :=
    match u with UInternet c => mr_ok (MonitorRole := internets) n c | _ => True end;
  mr_step := unit_check;
  mr_result o u :=
    match u with
    | UPing m => mr_result (MonitorRole := pings) (ping_input o) m
    | UURL m => mr_result (MonitorRole := urls) (http_input o) m
    | UInternet c => mr_result (MonitorRole := internets) (http_input o) c
    | USpeed s => mr_result (MonitorRole := speeds) (speed_input o) s
    end;
  mr_log o u :=
    match u with
    | UPing m => mr_log (MonitorRole := pings) (ping_input o) m
    | UURL m => mr_log (MonitorRole := urls) (http_input o) m
    | UInternet c => mr_log (MonitorRole := internets) (http_input o) c
    | USpeed s => mr_log (MonitorRole := speeds) (speed_input o) s
    end;
  mr_next o u :=
    match u with
    | UPing m => UPing (mr_next (MonitorRole := pings) (ping_input o) m)
    | UURL m => UURL (mr_next (MonitorRole := urls) (http_input o) m)
    | UInternet c => UInternet (mr_next (MonitorRole := internets) (http_input o) c)
    | USpeed s => USpeed (mr_next (MonitorRole := speeds) (speed_input o) s)
    end;
}.

#[export] Instance unit_laws : MonitorRoleLaws Outside Unit.
Proof.
  pose proof (ping_laws go_quote json_error url_error) as Lp.
  pose proof (url_laws go_quote json_error url_error) as Lu.
  pose proof (internet_laws go_quote json_error url_error) as Li.
  pose proof (speed_laws go_quote json_error url_error) as Ls.
  split.
  - intros n o u w Hok. destruct u as [m|m|c|s]; cbn [mr_step unit_role unit_check fst snd].
    + pose proof (mr_step_spec (MonitorRoleLaws := Lp) n (ping_input o) m w I) as E.
      cbv zeta in E. cbn [mr_step ping_role ping_input] in E. rewrite E.
      cbn. by destruct conclude as [[??]|].
    + pose proof (mr_step_spec (MonitorRoleLaws := Lu) n (http_input o) m w I) as E.
      cbv zeta in E. cbn [mr_step url_role http_input] in E. rewrite E.
      cbn. by destruct conclude as [[??]|].
    + pose proof (mr_step_spec (MonitorRoleLaws := Li) n (http_input o) c w Hok) as E.
      cbv zeta in E. cbn [mr_step internet_role http_input] in E. rewrite E.
      cbn. by destruct conclude as [[??]|].
    + pose proof (mr_step_spec (MonitorRoleLaws := Ls) n (speed_input o) s w I) as E.
      cbv zeta in E. cbn [mr_step speed_role speed_input] in E. rewrite E.
      cbn. by destruct conclude as [[??]|].
  - intros o [m|m|c|s] w; cbn [mr_log unit_role];
      [apply (mr_log_world (MonitorRoleLaws := Lp))|apply (mr_log_world (MonitorRoleLaws := Lu))
      |apply (mr_log_world (MonitorRoleLaws := Li))|apply (mr_log_world (MonitorRoleLaws := Ls))].
  - by intros o [m|m|c|s] sm.
  - intros n k [m|m|c|s] Hnk; cbn [mr_ok unit_role]; try done.
    by apply (mr_ok_le (MonitorRoleLaws := Li)).
  - intros n o [m|m|c|s] sm; cbn [mr_ok mr_set_sm mr_next unit_role]; try done.
    by apply (mr_ok_next (MonitorRoleLaws := Li)).
  - by intros o [m|m|c|s] sm.
  - by intros o [m|m|c|s] sm.
Qed.

(** *** A unit's loop is its role's loop *)

Definition see {A} (f : Outside → A) (ev : TickEvent Outside) : TickEvent A :=
  match ev with Tick o => Tick (f o) | CtxDone => CtxDone end.

Lemma tick_loop_unit {A M} (inj : M → Unit) (f : Outside → A) (step : A → M * World → option (M * World)) :
  (∀ o m w, unit_check o (inj m, w) = '(m, w) ← step (f o) (m, w); Some (inj m, w)) →
  ∀ events m w, tick_loop unit_check events (inj m, w) =
    '(m, w) ← tick_loop step (map (see f) events) (m, w); Some (inj m, w).
Proof.
  intros Hs events. induction events as [|[o|] events IH]; intros m w; [done| |done].
  simpl. rewrite Hs. destruct (step (f o) (m, w)) as [[m1 w1]|]; simpl; [apply IH|done].
Qed.

Lemma unit_run_role events w :
  (∀ m, unit_run events (UPing m, w) =
     '(m, w) ← ping_run go_quote json_error url_error (map (see ping_input) events) (m, w);
     Some (UPing m, w)) ∧
  (∀ m, unit_run events (UURL m, w) =
     '(m, w) ← url_run go_quote json_error url_error (map (see http_input) events) (m, w);
     Some (UURL m, w)) ∧
  (∀ c, unit_run events (UInternet c, w) =
     '(c, w) ← internet_run go_quote json_error url_error (map (see http_input) events) (c, w);
     Some (UInternet c, w)) ∧
  (∀ s, unit_run events (USpeed s, w) =
     '(s, w) ← speed_run go_quote json_error url_error (map (see speed_input) events) (s, w);
     Some (USpeed s, w)).
Proof.
  split_and!; intros m; unfold unit_run, ping_run, url_run, internet_run, speed_run, run_ticker;
    cbn [unit_interval fst]; (case_match; [done|]).
  - by apply (tick_loop_unit UPing ping_input).
  - by apply (tick_loop_unit UURL http_input).
  - by apply (tick_loop_unit UInternet http_input).
  - by apply (tick_loop_unit USpeed speed_input).
Qed.

(** *** Constructors *)

Lemma pings_fresh ts reg0 :
  Registry_wf reg0 → Forall (λ t, MonitorConfig_ok (pt_Mon t) ∧ 0 < pt_Interval t) ts →
  ∃ ms reg1, NewPingMonitor ts (Some reg0) = Some (ms, Some reg1) ∧
    Forall2 unit_fresh (map ping_spec ts) (map UPing ms).
Proof.
  intros Hwf Hts. destruct (NewPingMonitor_fresh go_quote json_error url_error ts reg0 Hwf Hts)
    as (ms & reg1 & Hms & _ & Hf).
  exists ms, reg1. split; [done|]. by apply Forall2_fmap_r.
Qed.

Lemma urls_fresh ts reg0 :
  Registry_wf reg0 → Forall (λ t, MonitorConfig_ok (ut_Mon t) ∧ 0 < ut_Interval t) ts →
  ∃ ms reg1, NewURLMonitor ts (Some reg0) = Some (ms, Some reg1) ∧
    Forall2 unit_fresh (map url_spec ts) (map UURL ms).
Proof.
  intros Hwf Hts. destruct (NewURLMonitor_fresh go_quote json_error url_error ts reg0 Hwf Hts)
    as (ms & reg1 & Hms & _ & Hf).
  exists ms, reg1. split; [done|]. by apply Forall2_fmap_r.
Qed.
End units.

Lemma internet_fresh sites interval timeout mon channels client reg0 :
  MonitorConfig_ok mon → 0 < interval → Registry_wf reg0 →
  ∃ c reg1,
    NewInternetCheck sites interval timeout mon channels client (Some reg0) = Some (c, Some reg1) ∧
    unit_fresh ("internet_check", mon) (UInternet c) ∧ ic_sites c = sites ∧ ic_next c = 0.
Proof.
  intros Hc Hi Hwf. destruct (NewWithConfig_repr _ Hc) as (sm & Hnew & Hr).
  destruct (Register_registers "internet_check" reg0 Hwf) as (reg1 & Hreg & _).
  unfold NewInternetCheck. rewrite Hnew. cbn [mbind option_bind]. rewrite Hreg.
  eexists _, reg1. by split_and!.
Qed.

Lemma speed_fresh binary interval threshold mon channels reg0 :
  MonitorConfig_ok mon → 0 < interval → Registry_wf reg0 →
  ∃ s reg1,
    NewSpeedCheck binary interval threshold mon channels (Some reg0) = Some (s, Some reg1) ∧
    unit_fresh ("speed_check", mon) (USpeed s).
Proof.
  intros Hc Hi Hwf. destruct (NewWithConfig_repr _ Hc) as (sm & Hnew & Hr).
  destruct (Register_registers "speed_check" reg0 Hwf) as (reg1 & Hreg & _).
  unfold NewSpeedCheck. rewrite Hnew. cbn [mbind option_bind]. rewrite Hreg.
  eexists _, reg1. by split_and!.
Qed.

(** ** The promise of the group *)

(** Any schedule of fresh units with distinct names, of fewer than 2^63 events. *)
Lemma units_promise go_quote json_error url_error specs us events w reg :
  NoDup specs.*1 → Forall2 unit_fresh specs us →
  Forall (λ u, match u with UInternet c => ic_sites c ≠ [] ∧ ic_next c = 0 | _ => True end) us →
  Z.of_nat (length events) < 2 ^ 63 → w_registry w = Some reg → Registry_wf reg →
  run_promise (H := unit_role go_quote json_error url_error) specs
    (unit_run go_quote json_error url_error) events us w reg
    (Units_run go_quote json_error url_error events us w).
Proof.
  intros Hnd Hf Hus Hlen Hreg Hwf.
  apply (group_run_promise (H := unit_role go_quote json_error url_error) specs unit_interval
    (unit_check go_quote json_error url_error)); try done.
  eapply Forall_impl; [exact Hus|]. intros [m|m|c|s]; try done. intros [Hs Hn].
  cbn. rewrite Hn. split_and!; [done|done|lia].
Qed.
