(* ===== verification/Steps.v ===== *)
(** * Checks that interleave ([runCheck] of the roles, access by access)

    Group.v takes a whole check in one step.  Here a check is what the
    scheduler sees: a local part (the probe, [Observe]) and then a sequence of
    [CheckAction]s, each atomic because the code holds the registry's or the
    log's mutex during it; between two of them any other goroutine may run.  The
    snapshot of a state change is read under the registry's mutex and logged
    after it is released.  [ActDispatch] is the last action of a check: it hands
    the alert to the dispatcher, which then delivers it (Delivery.v) while this
    goroutine waits; [fine_step] lets the goroutine go on at any time, Process.v
    makes it wait.  [check_refines_actions] says that a check run without
    interruption is the check of Checks.v; [units_interleave] that with
    interruptions every unit still behaves as if alone. *)

From S2P Require Import Prelude GoTime Slog Float64 GoString History StateMachine Registry.
From S2P Require Import Dispatcher Checks Group Units.

Local Open Scope string_scope.
Local Open Scope Z_scope.

(** ** Actions *)

Inductive CheckAction :=
  | ActLog (lv : Level) (msg : string) (attrs : list Attr)
  | ActUpdate (h : option Handle) (sm : StateMachine)
  | ActCheck (h : option Handle) (t : Time) (success : bool)
  | ActSpeed (h : option Handle) (t : Time) (mbps : float64)
  | ActSnapshot (h : option Handle)
  | ActLogSnapshot
  | ActDispatch (d : Dispatched).

(** What a goroutine shares, and the snapshot it holds. *)
Notation Local := (option (list UnitStatus)).

Definition with_registry (reg : option Registry) (w : World) : World :=
  MkWorld reg (w_logger w) (w_alerts w).

(** One action; [None] is a panic. *)
Definition perform (a : CheckAction) (st : Local * World) : option (Local * World) :=
  let '(snap, w) := st in
  match a with
  | ActLog lv msg attrs => Some (snap, log lv msg attrs w)
  | ActUpdate h sm => Some (snap, with_registry (Handle_Update h sm (w_registry w)) w)
  | ActCheck h t success =>
      reg ← Handle_RecordCheck h t success (w_registry w); Some (snap, with_registry reg w)
  | ActSpeed h t mbps =>
      reg ← Handle_RecordSpeed h t mbps (w_registry w); Some (snap, with_registry reg w)
  | ActSnapshot h =>
      Some (match h, w_registry w with
            | Some _, Some r => Some (Snapshot (Some r))
            | _, _ => None
            end, w)
  | ActLogSnapshot =>
      Some (None, match snap with
                  | Some s => log LevelInfo "status snapshot"
                                (("units", SInt (slice_len s)) :: (snapshot_attr <$> s)) w
                  | None => w
                  end)
  | ActDispatch d => Some (snap, MkWorld (w_registry w) (w_logger w) (w_alerts w ++ [d])%list)
  end.

Definition run_actions (acts : list CheckAction) (st : Local * World) : option (Local * World) :=
  foldl (λ st a, st ← st; perform a st) (Some st) acts.

(** ** The actions of a check *)

Definition conclude_actions (role : string) (channels : list string) (h : option Handle)
    (clk : Clock) (success : bool) (detail : string) (mbps : option float64) (sm : StateMachine)
    : option (StateMachine * list CheckAction) :=
  '(sm, ev) ← Observe (ck_observe clk) success sm;
  Some (sm,
    ([ActUpdate h sm; ActCheck h (ck_record clk) success] ++
     match mbps with Some x => [ActSpeed h (ck_record clk) x] | None => [] end ++
     (if bool_decide (ev ≠ EvNone) then [ActSnapshot h; ActLogSnapshot] else []) ++
     (ActDispatch <$> dispatchEvent channels role detail ev (sm_consecutive sm) (ck_alert clk)))%list).

Section actions.
Context (go_quote json_error url_error : string → string).
Notation error_text := (error_text go_quote json_error url_error).

Definition ping_actions (net : PingNet) (now : Time) (clk : Clock) (m : pingTargetMonitor)
    : option (pingTargetMonitor * list CheckAction) :=
  let '(counter, err) := ping_probe net now (pm_idCounter m) in
  let '(success, detail, warn) :=
    match err with
    | None => (true, "ping to " +:+ pm_target m +:+ " succeeded", [])
    | Some e =>
        (false, "ping to " +:+ pm_target m +:+ " failed: " +:+ error_text e,
         [ActLog LevelWarn "ping_monitor check failed"
            [("target", SString (pm_target m)); ("error", SError (error_text e))]])
    end in
  '(sm, acts) ← conclude_actions "ping_monitor" (pm_channels m) (pm_handle m) clk success detail None
                  (pm_sm m);
  Some (MkPingTargetMonitor (pm_target m) (pm_interval m) (pm_timeout m) (pm_channels m) sm
          (pm_handle m) counter, (warn ++ acts)%list).

Definition url_actions (net : HTTPNet) (clk : Clock) (m : urlTargetMonitor)
    : option (urlTargetMonitor * list CheckAction) :=
  let '(success, detail, warn) :=
    match url_probe net m with
    | None => (true, um_url m +:+ " healthy", [])
    | Some e =>
        (false, um_url m +:+ " unhealthy: " +:+ error_text e,
         [ActLog LevelWarn "url_monitor check failed"
            [("url", SString (um_url m)); ("error", SError (error_text e))]])
    end in
  '(sm, acts) ← conclude_actions "url_monitor" (um_channels m) (um_handle m) clk success detail None
                  (um_sm m);
  Some (MkURLTargetMonitor (um_url m) (um_interval m) (um_timeout m) (um_channels m) sm
          (um_handle m) (um_client m), (warn ++ acts)%list).

Definition internet_actions (net : HTTPNet) (clk : Clock) (c : InternetCheck)
    : option (InternetCheck * list CheckAction) :=
  '(site, c) ← nextSite c;
  let '(success, detail, warn) :=
    match checkSite net c site with
    | None => (true, site +:+ " reachable", [])
    | Some e =>
        (false, site +:+ " unreachable: " +:+ error_text e,
         [ActLog LevelWarn "internet_check failed"
            [("site", SString site); ("error", SError (error_text e))]])
    end in
  '(sm, acts) ← conclude_actions "internet_check" (ic_channels c) (ic_handle c) clk success detail
                  None (ic_sm c);
  Some (MkInternetCheck (ic_sites c) (ic_interval c) (ic_timeout c) (ic_channels c) sm
          (ic_handle c) (ic_client c) (ic_next c), (warn ++ acts)%list).

Definition speed_actions (out : result string string) (clk : Clock) (s : SpeedCheck)
    : option (SpeedCheck * list CheckAction) :=
  let m := measure out in
  let mbps := match m with Ok x => x | Err _ => f_zero end in
  let '(success, detail) := speed_result go_quote json_error url_error (sc_threshold s) m in
  let attrs :=
    ([("mbps", SFloat64 mbps); ("threshold_mbps", SFloat64 (sc_threshold s));
      ("success", SBool success); ("detail", SString detail)] ++
     match m with Err e => [("error", SError (error_text e))] | Ok _ => [] end)%list in
  '(sm, acts) ← conclude_actions "speed_check" (sc_channels s) (sc_handle s) clk success detail
                  (match m with Ok x => Some x | Err _ => None end) (sc_sm s);
  Some (MkSpeedCheck (sc_binary s) (sc_interval s) (sc_threshold s) (sc_channels s) sm
          (sc_handle s),
        ActLog (if success then LevelInfo else LevelWarn) "speed_check result" attrs :: acts).

Definition unit_actions (o : Outside) (u : Unit) : option (Unit * list CheckAction) :=
  match u with
  | UPing m =>
      '(m, acts) ← ping_actions (o_ping o) (o_now o) (o_clock o) m; Some (UPing m, acts)
  | UURL m => '(m, acts) ← url_actions (o_http o) (o_clock o) m; Some (UURL m, acts)
  | UInternet c => '(c, acts) ← internet_actions (o_http o) (o_clock o) c; Some (UInternet c, acts)
  | USpeed s => '(s, acts) ← speed_actions (o_speed o) (o_clock o) s; Some (USpeed s, acts)
  end.

(** ** Goroutines

    [th_todo] is what is left of the check under way; between two checks it is
    empty and the goroutine waits in its [select]. *)

Record Thread := MkThread {
  th_unit : Unit;
  th_snap : Local;
  th_todo : list CheckAction;
  th_returned : bool;
}.

Inductive FineEvent :=
  | Start (i : nat) (o : Outside)   (* the ticker fires: probe and [Observe] *)
  | Continue (i : nat)              (* the next action of its check *)
  | Leave (i : nat)                 (* it sees the context done *)
  | Elsewhere (logger : Logger).    (* another part of the program logs *)

Inductive Outcome (S : Type) :=
  | Next (s : S)
  | Disabled
  | Panics.
Arguments Next {_}.
Arguments Disabled {_}.
Arguments Panics {_}.

Definition attempt {A B} (x : option A) (k : A → B) : Outcome B :=
  match x with Some a => Next (k a) | None => Panics end.

Definition Fine : Type := list Thread * World.

Definition fine_step (st : Fine) (ev : FineEvent) : Outcome Fine :=
  let '(ts, w) := st in
  match ev with
  | Elsewhere l => Next (ts, MkWorld (w_registry w) l (w_alerts w))
  | Start i o =>
      match ts !! i with
      | Some (MkThread u snap [] false) =>
          attempt (unit_actions o u) (λ '(u, acts), (<[i := MkThread u snap acts false]> ts, w))
      | _ => Disabled
      end
  | Continue i =>
      match ts !! i with
      | Some (MkThread u snap (a :: todo) false) =>
          attempt (perform a (snap, w)) (λ '(snap, w), (<[i := MkThread u snap todo false]> ts, w))
      | _ => Disabled
      end
  | Leave i =>
      match ts !! i with
      | Some (MkThread u snap [] false) => Next (<[i := MkThread u snap [] true]> ts, w)
      | _ => Disabled
      end
  end.

Definition and_then {A B} (x : Outcome A) (k : A → Outcome B) : Outcome B :=
  match x with Next a => k a | Disabled => Disabled | Panics => Panics end.

Definition fine_steps (events : list FineEvent) (st : Fine) : Outcome Fine :=
  foldl (λ st ev, and_then st (λ st, fine_step st ev)) (Next st) events.

(** Every goroutine creates its ticker first. *)
Definition fine_start (us : list Unit) : option (list Thread) :=
  if existsb (λ u, unit_interval u <=? 0) us then None
  else Some (map (λ u, MkThread u None [] false) us).

Definition fine_run (events : list FineEvent) (us : list Unit) (w : World) : Outcome Fine :=
  match fine_start us with
  | Some ts => fine_steps events (ts, w)
  | None => Panics
  end.
End actions.
Arguments Next {_}.
Arguments Disabled {_}.
Arguments Panics {_}.

(** The life of one goroutine, in the terms of its own loop. *)
Definition served (i : nat) (events : list FineEvent) : list (TickEvent Outside) :=
  omap (λ ev, match ev with
              | Start k o => if decide (k = i) then Some (Tick o) else None
              | Leave k => if decide (k = i) then Some CtxDone else None
              | _ => None
              end) events.

(** ** A check without interruption *)

Lemma run_actions_cons a acts st :
  run_actions (a :: acts) st = st ← perform a st; run_actions acts st.
Proof. unfold run_actions. simpl. destruct (perform a st); [done|]. by induction acts. Qed.

Lemma run_actions_app acts1 acts2 st :
  run_actions (acts1 ++ acts2) st = st ← run_actions acts1 st; run_actions acts2 st.
Proof.
  revert st. induction acts1 as [|a acts1 IH]; intros st; [done|].
  cbn [app]. rewrite !run_actions_cons. destruct (perform a st); simpl; [apply IH|done].
Qed.

Lemma run_dispatches ds snap w :
  run_actions (ActDispatch <$> ds) (snap, w) =
    Some (snap, MkWorld (w_registry w) (w_logger w) (w_alerts w ++ ds)%list).
Proof.
  revert w. induction ds as [|d ds IH]; intros w; [by destruct w; simpl; rewrite app_nil_r|].
  cbn [fmap list_fmap]. rewrite run_actions_cons. simpl. rewrite IH. simpl. by rewrite <- app_assoc.
Qed.

(** Outcomes that agree on the world; the snapshot a goroutine holds does not
    outlive the check that took it. *)
Definition finish {A} (x : option (A * list CheckAction)) (st : Local * World) : option (A * World) :=
  '(a, acts) ← x; '(_, w) ← run_actions acts st; Some (a, w).

Lemma conclude_finish role channels h clk success detail mbps sm snap w :
  conclude role channels h clk success detail mbps sm w =
    finish (conclude_actions role channels h clk success detail mbps sm) (snap, w).
Proof.
  unfold conclude, conclude_actions, finish.
  destruct (Observe (ck_observe clk) success sm) as [[sm' ev]|]; [|done].
  cbn [mbind option_bind app]. rewrite !run_actions_cons. cbn [perform mbind option_bind with_registry w_registry].
  rewrite run_actions_cons. cbn [perform mbind option_bind with_registry w_registry].
  destruct (Handle_RecordCheck h (ck_record clk) success _) as [reg|]; [|done].
  cbn [mbind option_bind].
  assert (Htail : ∀ snap reg,
    ('(_, w') ← run_actions ((if bool_decide (ev ≠ EvNone) then [ActSnapshot h; ActLogSnapshot] else []) ++
       (ActDispatch <$> dispatchEvent channels role detail ev (sm_consecutive sm') (ck_alert clk)))
       (snap, MkWorld reg (w_logger w) (w_alerts w)); Some (sm', w')) =
    Some (sm', MkWorld reg
      (if bool_decide (ev ≠ EvNone) then default (w_logger w) (Handle_LogSnapshot h reg (Some (w_logger w)))
       else w_logger w)
      (w_alerts w ++ dispatchEvent channels role detail ev (sm_consecutive sm') (ck_alert clk)))).
  { clear. intros snap reg. rewrite run_actions_app. case_bool_decide.
    - rewrite !run_actions_cons. cbn [perform mbind option_bind w_registry].
      rewrite run_actions_cons. cbn [perform mbind option_bind].
      destruct h, reg; cbn [run_actions foldl mbind option_bind]; by rewrite run_dispatches.
    - cbn [run_actions foldl mbind option_bind]. by rewrite run_dispatches. }
  destruct mbps as [x|]; cbn [app].
  - rewrite run_actions_cons. cbn [perform mbind option_bind with_registry w_registry].
    destruct (Handle_RecordSpeed h (ck_record clk) x reg) as [reg'|]; [|done].
    cbn [mbind option_bind]. symmetry. apply Htail.
  - symmetry. apply Htail.
Qed.

(** What a check logs first, then [conclude]. *)
Lemma conclude_warned {B} warn role channels h clk success detail mbps sm snap w w1
    (wrap : StateMachine → B) :
  run_actions warn (snap, w) = Some (snap, w1) →
  finish ('(sm, acts) ← conclude_actions role channels h clk success detail mbps sm;
          Some (wrap sm, (warn ++ acts)%list)) (snap, w) =
    '(sm, w) ← conclude role channels h clk success detail mbps sm w1; Some (wrap sm, w).
Proof.
  intros Hw. rewrite (conclude_finish _ _ _ _ _ _ _ _ snap). unfold finish.
  destruct (conclude_actions _ _ _ _ _ _ _ _) as [[sm' acts]|]; [|done].
  cbn [mbind option_bind]. rewrite run_actions_app, Hw. cbn [mbind option_bind].
  by destruct (run_actions acts (snap, w1)) as [[??]|].
Qed.

Lemma finish_map {A B} (f : A → B) (x : option (A * list CheckAction)) st :
  finish ('(a, acts) ← x; Some (f a, acts)) st = '(a, w) ← finish x st; Some (f a, w).
Proof.
  unfold finish. destruct x as [[a acts]|]; [|done]. cbn [mbind option_bind].
  by destruct (run_actions acts st) as [[??]|].
Qed.

Section uninterrupted.
Context (go_quote json_error url_error : string → string).
Notation unit_check := (unit_check go_quote json_error url_error).
Notation unit_actions := (unit_actions go_quote json_error url_error).

Lemma ping_finish net now clk m snap w :
  ping_runCheck go_quote json_error url_error net now clk (m, w) =
    finish (ping_actions go_quote json_error url_error net now clk m) (snap, w).
Proof.
  unfold ping_runCheck, ping_actions. destruct (ping_probe _ _ _) as [counter [e|]];
    symmetry; by eapply conclude_warned.
Qed.

Lemma url_finish net clk m snap w :
  url_runCheck go_quote json_error url_error net clk (m, w) =
    finish (url_actions go_quote json_error url_error net clk m) (snap, w).
Proof.
  unfold url_runCheck, url_actions. destruct (url_probe _ _) as [e|];
    symmetry; by eapply conclude_warned.
Qed.

Lemma internet_finish net clk c snap w :
  internet_runCheck go_quote json_error url_error net clk (c, w) =
    finish (internet_actions go_quote json_error url_error net clk c) (snap, w).
Proof.
  unfold internet_runCheck, internet_actions. destruct (nextSite c) as [[site c']|]; [|done].
  cbn [mbind option_bind]. destruct (checkSite _ _ _) as [e|];
    symmetry; by eapply conclude_warned.
Qed.

Lemma speed_finish out clk s snap w :
  speed_runCheck go_quote json_error url_error out clk (s, w) =
    finish (speed_actions go_quote json_error url_error out clk s) (snap, w).
Proof.
  unfold speed_runCheck, speed_actions. destruct (speed_result _ _ _ _ _) as [success detail].
  symmetry. by eapply (conclude_warned [_]).
Qed.

Lemma unit_check_finish o u snap w :
  unit_check o (u, w) = finish (unit_actions o u) (snap, w).
Proof.
  destruct u as [m|m|c|s]; cbn [Units.unit_check Steps.unit_actions fst snd]; rewrite finish_map;
    f_equal; [apply ping_finish|apply url_finish|apply internet_finish|apply speed_finish].
Qed.
End uninterrupted.

(** ** What an action does *)

Definition handle_op (h : option Handle) (op : string → RegOp) : list RegOp :=
  match h with Some h => [op (h_name h)] | None => [] end.

(** On the registry. *)
Definition reg_op (a : CheckAction) : list RegOp :=
  match a with
  | ActUpdate h sm => handle_op h (λ n, OpSet (status_of n sm))
  | ActCheck h t success => handle_op h (λ n, OpCheck n t success)
  | ActSpeed h t mbps => handle_op h (λ n, OpSpeed n t mbps)
  | _ => []
  end.

(** On the notifier. *)
Definition alert_op (a : CheckAction) : list Dispatched :=
  match a with ActDispatch d => [d] | _ => [] end.

Lemma act_spec a snap w reg :
  w_registry w = Some reg → Registry_wf reg →
  ∃ snap' reg' l,
    perform a (snap, w) = Some (snap', MkWorld (Some reg') l (w_alerts w ++ alert_op a)%list) ∧
    apply_ops reg (reg_op a) = Some reg'.
Proof.
  intros Hreg Hwf. destruct (apply_ops_spec reg (reg_op a) Hwf) as (reg' & Hops & _).
  destruct w as [r l al]. simpl in Hreg. subst r.
  unfold apply_ops in *.
  destruct a as [lv msg attrs|[h|] sm|[h|] t b|[h|] t x|[h|]| |d]; simpl in *;
    rewrite ?app_nil_r, ?Hops; try (by eexists _, _, _).
  destruct snap; by eexists _, _, _.
Qed.

Lemma run_actions_spec acts snap w reg :
  w_registry w = Some reg → Registry_wf reg →
  ∃ snap' reg' l,
    run_actions acts (snap, w) =
      Some (snap', MkWorld (Some reg') l (w_alerts w ++ (acts ≫= alert_op))%list) ∧
    apply_ops reg (acts ≫= reg_op) = Some reg'.
Proof.
  revert snap w reg. induction acts as [|a acts IH]; intros snap w reg Hreg Hwf.
  { destruct w as [r l al]. simpl in *. subst r. rewrite app_nil_r. by eexists _, _, _. }
  rewrite run_actions_cons. destruct (act_spec a snap w reg Hreg Hwf) as (snap1 & reg1 & l1 & -> & Hops).
  destruct (apply_ops_spec reg (reg_op a) Hwf) as (reg1' & Hops' & Hwf1 & _).
  assert (reg1' = reg1) as -> by congruence.
  destruct (IH snap1 (MkWorld (Some reg1) l1 (w_alerts w ++ alert_op a)%list) reg1 eq_refl Hwf1)
    as (snap2 & reg2 & l2 & Hrun & Hops2).
  exists snap2, reg2, l2. cbn [mbind option_bind list_bind]. rewrite Hrun. cbn [w_alerts].
  split; [by rewrite <- app_assoc|]. cbn [mbind list_bind]. by rewrite apply_ops_app, Hops.
Qed.

(** ** The shape of a check *)

Section fine.
Context (go_quote json_error url_error : string → string).
#[local] Instance units : MonitorRole Outside Unit := unit_role go_quote json_error url_error.
#[local] Instance units_laws : MonitorRoleLaws Outside Unit := unit_laws go_quote json_error url_error.
Notation unit_check := (unit_check go_quote json_error url_error).
Notation unit_actions := (unit_actions go_quote json_error url_error).
Notation fine_step := (fine_step go_quote json_error url_error).
Notation fine_steps := (fine_steps go_quote json_error url_error).

Definition is_log (a : CheckAction) : Prop := match a with ActLog _ _ _ => True | _ => False end.

Lemma unit_actions_shape n o u :
  mr_ok (S n) u →
  ∃ warn, Forall is_log warn ∧
    unit_actions o u =
      let r := mr_result o u in
      '(sm, acts) ← conclude_actions (mr_role u) (mr_channels u) (unit_handle u) (cr_clock r)
                      (cr_success r) (cr_detail r) (cr_mbps r) (unit_sm u);
      Some (mr_set_sm sm (mr_next o u), (warn ++ acts)%list).
Proof.
  intros Hok. destruct u as [m|m|c|s]; cbn [Steps.unit_actions].
  - unfold ping_actions. cbn. destruct (ping_probe _ _ _) as [counter [e|]]; cbn;
      [exists [ActLog LevelWarn "ping_monitor check failed"
        [("target", SString (pm_target m)); ("error", SError (error_text go_quote json_error url_error e))]]
      |exists []]; (split; [by repeat constructor|]); rewrite ?string_app_assoc;
      by destruct conclude_actions as [[??]|].
  - unfold url_actions. cbn. destruct (url_probe _ _) as [e|]; cbn;
      [exists [ActLog LevelWarn "url_monitor check failed"
        [("url", SString (um_url m)); ("error", SError (error_text go_quote json_error url_error e))]]
      |exists []]; (split; [by repeat constructor|]); rewrite ?string_app_assoc;
      by destruct conclude_actions as [[??]|].
  - destruct Hok as (Hs & Hn & _). unfold internet_actions. rewrite nextSite_in_range by done. cbn.
    unfold checkSite. cbn [ic_client]. destruct (httpProbe _ _ _) as [e|]; cbn;
      [exists [ActLog LevelWarn "internet_check failed"
        [("site", SString (site_of c)); ("error", SError (error_text go_quote json_error url_error e))]]
      |exists []]; (split; [by repeat constructor|]); rewrite ?string_app_assoc;
      by destruct conclude_actions as [[??]|].
  - unfold speed_actions. cbn.
    destruct (speed_result _ _ _ _ _) as [ok detail]. cbn. eexists [_]. split; cycle 1.
    + by destruct conclude_actions as [[??]|].
    + by repeat constructor.
Qed.

(** What a check does to the registry. *)
Lemma conclude_actions_spec cfg tr role channels name sm r :
  MonitorConfig_ok cfg → sm_repr cfg tr sm →
  ∃ sm' acts,
    conclude_actions role channels (Some (MkHandle name)) (cr_clock r) (cr_success r) (cr_detail r)
      (cr_mbps r) sm = Some (sm', acts) ∧
    sm_repr cfg (tr ++ [observed r])%list sm' ∧ (acts ≫= reg_op) = check_ops name sm' r.
Proof.
  intros Hok Hr.
  destruct (Observe_repr cfg tr sm (ck_observe (cr_clock r)) (cr_success r) Hok Hr) as (sm' & Ho & Hr').
  unfold conclude_actions. rewrite Ho. cbn [mbind option_bind]. eexists _, _. split; [done|].
  split; [done|]. rewrite !bind_app.
  assert (Hd : ∀ ds, ((ActDispatch <$> ds) ≫= reg_op) = []) by (by induction ds).
  rewrite Hd, app_nil_r. unfold check_ops. destruct (cr_mbps r); case_bool_decide; done.
Qed.

Lemma check_ops_own name sm r : Forall (λ op, op_name op = name) (check_ops name sm r).
Proof. unfold check_ops. destruct (cr_mbps r); by repeat constructor. Qed.

(** A goroutine good for a check can take it, and stays good. *)
Lemma unit_actions_running n s o u :
  running (S n) s (MkGoroutine u false) →
  ∃ u' acts, unit_actions o u = Some (u', acts) ∧ running n s (MkGoroutine u' false) ∧
    (acts ≫= reg_op) = check_ops s.1 (unit_sm u') (mr_result o u).
Proof.
  intros (Hcfg & Hh & Hok & tr & Hr). cbn [g_monitor] in *.
  destruct (unit_actions_shape n o u Hok) as (warn & Hwarn & Hu). cbv zeta in Hu.
  destruct (conclude_actions_spec s.2 tr (mr_role u) (mr_channels u) s.1 (unit_sm u) (mr_result o u)
    Hcfg Hr) as (sm & acts & Hc & Hr' & Hops).
  change (mr_handle u) with (unit_handle u) in Hh. rewrite Hh, Hc in Hu. cbn [mbind option_bind] in Hu.
  destruct (mr_frame o u sm) as (_ & _ & Hfh & Hfs).
  eexists _, _. split; [exact Hu|]. split.
  - split; [done|]. cbn [g_monitor]. rewrite Hfh, Hfs. split_and!; eauto. by apply mr_ok_next.
  - assert (Hw : (warn ≫= reg_op) = []) by (clear -Hwarn; by induction Hwarn as [|[] ? ? _ IH]).
    rewrite bind_app, Hw, Hops. cbn [app]. change (unit_sm (mr_set_sm sm (mr_next o u))) with
      (mr_sm (mr_set_sm sm (mr_next o u))). by rewrite Hfs.
Qed.

(** ** The invariant *)

Lemma ops_of_own name ops : Forall (λ op, op_name op = name) ops → ops_of name ops = ops.
Proof.
  unfold ops_of. induction 1 as [|op ops Hop _ IH]; [done|]. by rewrite filter_cons_True, IH.
Qed.

Lemma ops_of_other name name' ops :
  name ≠ name' → Forall (λ op, op_name op = name) ops → ops_of name' ops = [].
Proof.
  intros Hne. unfold ops_of. induction 1 as [|op ops Hop _ IH]; [done|].
  by rewrite filter_cons_False by congruence.
Qed.

Lemma fine_steps_snoc events ev st :
  fine_steps (events ++ [ev]) st = and_then (fine_steps events st) (λ st, fine_step st ev).
Proof. unfold Steps.fine_steps. by rewrite foldl_snoc. Qed.

Lemma fine_steps_cons ev events st :
  fine_steps (ev :: events) st = and_then (fine_step st ev) (fine_steps events).
Proof.
  unfold Steps.fine_steps. simpl. destruct (fine_step st ev); [done|..]; by induction events.
Qed.

Lemma tick_loop_app {A S} (step : A → S → option S) evs evs' s :
  stopped evs = false →
  tick_loop step (evs ++ evs') s = s' ← tick_loop step evs s; tick_loop step evs' s'.
Proof.
  revert s. induction evs as [|[a|] evs IH]; intros s; [done| |done]. intros Hst. simpl.
  destruct (step a s); simpl; [by apply IH|done].
Qed.

Lemma served_snoc i events ev :
  served i (events ++ [ev]) = (served i events ++ served i [ev])%list.
Proof. unfold served. by rewrite omap_app. Qed.

Lemma served_length i events : (length (ticks (served i events)) ≤ length events)%nat.
Proof.
  induction events as [|ev events IH]; [done|].
  assert (served i (ev :: events) = served i [ev] ++ served i events)%list as ->
    by (unfold served; by rewrite <- omap_app).
  destruct ev as [k o|k|k|l]; unfold served at 1; simpl; try lia; case_decide; simpl; lia.
Qed.

Lemma alerts_of_snoc i k alerts tagged :
  alerts_of i (tagged ++ map (pair k) alerts) =
    (alerts_of i tagged ++ (if decide (k = i) then alerts else []))%list.
Proof.
  pose proof (alerts_of_app i k alerts []) as H. rewrite !app_nil_r in H.
  rewrite <- H. unfold alerts_of. by rewrite filter_app, fmap_app.
Qed.

Section invariant.
Context (specs : list (string * MonitorConfig)) (us : list Unit) (w0 : World) (reg0 : Registry).

(** Goroutine [t], unit [s], against the loop of its unit run alone: its unit
    is where that loop is, and the registry and the alerts are, up to the rest
    of its check. *)
Record in_step (n : nat) (s : string * MonitorConfig) (u : Unit) (evs : list (TickEvent Outside))
    (t : Thread) (reg : Registry) (alerts : list Dispatched) : Prop := {
  is_running : running n s (MkGoroutine (th_unit t) false);
  is_own : Forall (λ op, op_name op = s.1) (th_todo t ≫= reg_op);
  is_returned : th_returned t = stopped evs;
  is_idle : th_returned t = true → th_todo t = [];
  is_alone : ∃ wi regi,
    tick_loop unit_check evs (u, w0) = Some (th_unit t, wi) ∧
    w_registry wi = Some regi ∧ Registry_wf regi ∧
    (λ v, foldl view_step v (th_todo t ≫= reg_op)) <$> unit_view reg s.1 = unit_view regi s.1 ∧
    w_alerts wi = (w_alerts w0 ++ alerts ++ (th_todo t ≫= alert_op))%list;
  is_shown : (th_todo t ≫= reg_op) = [] ∨
    ∃ inputs o u1 w1 reg1 done,
      evs = Tick <$> (inputs ++ [o])%list ∧
      tick_loop unit_check (Tick <$> inputs) (u, w0) = Some (u1, w1) ∧ w_registry w1 = Some reg1 ∧
      unit_view reg s.1 = (λ v, foldl view_step v done) <$> unit_view reg1 s.1 ∧
      (done ++ (th_todo t ≫= reg_op))%list = check_ops s.1 (unit_sm (th_unit t)) (mr_result o u1);
}.

Definition fine_inv (n : nat) (events : list FineEvent) (st : Fine) : Prop :=
  ∃ reg tagged,
    w_registry st.2 = Some reg ∧ Registry_wf reg ∧ r_order reg = r_order reg0 ∧
    w_alerts st.2 = (w_alerts w0 ++ tagged.*2)%list ∧
    Forall (λ t, (t.1 < length us)%nat) tagged ∧ length st.1 = length us ∧
    ∀ i t s u, st.1 !! i = Some t → specs !! i = Some s → us !! i = Some u →
      in_step n s u (served i events) t reg (alerts_of i tagged).

Lemma running_le n k s g : (n ≤ k)%nat → running (M := Unit) k s g → running n s g.
Proof. intros Hle (? & ? & Hok & ?). split_and!; try done. by eapply mr_ok_le. Qed.

Lemma in_step_le n k s u evs t reg alerts :
  (n ≤ k)%nat → in_step k s u evs t reg alerts → in_step n s u evs t reg alerts.
Proof. intros Hle []. split; try done. by eapply running_le. Qed.

Lemma unstopped_ticks {A} (evs : list (TickEvent A)) : stopped evs = false → evs = Tick <$> ticks evs.
Proof.
  induction evs as [|[a|] evs IH]; intros Hst; [done| |done]. cbn [ticks fmap list_fmap].
  f_equal. by apply IH.
Qed.

(** What another goroutine does in the registry is not seen. *)
Lemma in_step_elsewhere n s u evs t reg reg' alerts :
  unit_view reg' s.1 = unit_view reg s.1 →
  in_step n s u evs t reg alerts → in_step n s u evs t reg' alerts.
Proof. intros Hv []. split; try done; by rewrite Hv. Qed.

Lemma in_step_start n s u evs t o reg alerts :
  th_todo t = [] → th_returned t = false → in_step (S n) s u evs t reg alerts →
  ∃ u' acts, unit_actions o (th_unit t) = Some (u', acts) ∧
    in_step n s u (evs ++ [Tick o]) (MkThread u' (th_snap t) acts false) reg alerts.
Proof.
  intros Ht Hret [Hrun Hown Hst Hidle (wi & regi & Hl & Hr & Hwf & Hv & Ha) Hshown].
  destruct (unit_actions_running n s o (th_unit t) Hrun) as (u' & acts & Hu & Hrun' & Hops).
  exists u', acts. split; [done|]. rewrite Ht in *. rewrite Hret in Hst. symmetry in Hst. split; try done.
  - cbn [th_todo]. rewrite Hops. apply check_ops_own.
  - unfold stopped in *. rewrite existsb_app, Hst. done.
  - destruct (run_actions_spec acts None wi regi Hr Hwf) as (snap & regi' & l & Hra & Hap).
    destruct (apply_ops_spec regi (acts ≫= reg_op) Hwf) as (regi2 & Hap2 & Hwf2 & _ & Hv2).
    assert (regi2 = regi') as -> by congruence.
    eexists _, regi'. split.
    { rewrite tick_loop_app by done. rewrite Hl. cbn [mbind option_bind tick_loop].
      rewrite (unit_check_finish _ _ _ o (th_unit t) None wi). unfold finish. rewrite Hu.
      cbn [mbind option_bind]. rewrite Hra. reflexivity. }
    cbn [w_registry w_alerts th_todo]. split_and!; [done|done| |].
    + rewrite Hv2, <- Hv. rewrite (ops_of_own s.1) by (rewrite Hops; apply check_ops_own).
      by destruct (unit_view reg s.1).
    + rewrite Ha. cbn [mbind list_bind]. by rewrite app_nil_r, app_assoc.
  - right. exists (ticks evs), o, (th_unit t), wi, regi, [].
    pose proof (unstopped_ticks evs Hst) as Hevs. split_and!; try done.
    + by rewrite fmap_app, <- Hevs.
    + by rewrite <- Hevs.
    + rewrite <- Hv. by destruct (unit_view reg s.1).
Qed.

Lemma in_step_continue n s u evs t a todo reg alerts w :
  th_todo t = a :: todo → w_registry w = Some reg → Registry_wf reg →
  in_step n s u evs t reg alerts →
  ∃ snap reg' l,
    perform a (th_snap t, w) =
      Some (snap, MkWorld (Some reg') l (w_alerts w ++ alert_op a)%list) ∧
    Registry_wf reg' ∧ r_order reg' = r_order reg ∧
    (∀ name, name ≠ s.1 → unit_view reg' name = unit_view reg name) ∧
    in_step n s u evs (MkThread (th_unit t) snap todo (th_returned t)) reg' (alerts ++ alert_op a).
Proof.
  intros Ht Hw Hwf [Hrun Hown Hst Hidle (wi & regi & Hl & Hr & Hwfi & Hv & Ha) Hshown].
  rewrite Ht in *. cbn [mbind list_bind] in *. apply Forall_app in Hown as [Hown1 Hown2].
  destruct (act_spec a (th_snap t) w reg Hw Hwf) as (snap & reg' & l & Hact & Hap).
  destruct (apply_ops_spec reg (reg_op a) Hwf) as (reg2 & Hap2 & Hwf2 & Ho2 & Hv2).
  assert (reg2 = reg') as -> by congruence.
  exists snap, reg', l. split_and!; [done..| |].
  - intros name Hne. rewrite Hv2, (ops_of_other s.1) by done. simpl. by destruct (unit_view reg name).
  - split; cbn [th_todo th_unit th_returned]; try done.
    + intros Hret. by specialize (Hidle Hret).
    + exists wi, regi. split_and!; try done.
      * rewrite <- Hv, Hv2, (ops_of_own s.1) by done. destruct (unit_view reg s.1); [|done]. simpl.
        by rewrite foldl_app.
      * by rewrite Ha, <- !app_assoc.
    + destruct Hshown as [Hnil|(inputs & o & u1 & w1 & reg1 & done & Hevs & Hl1 & Hr1 & Hv1 & Hops)].
      { left. by apply app_eq_nil in Hnil as [_ ?]. }
      right. exists inputs, o, u1, w1, reg1, (done ++ reg_op a)%list. split_and!; try done.
      * rewrite Hv2, Hv1, (ops_of_own s.1) by done. destruct (unit_view reg1 s.1); [|done]. simpl.
        by rewrite foldl_app.
      * by rewrite <- app_assoc.
Qed.

Lemma in_step_leave n s u evs t reg alerts :
  th_todo t = [] → th_returned t = false → in_step n s u evs t reg alerts →
  in_step n s u (evs ++ [CtxDone]) (MkThread (th_unit t) (th_snap t) [] true) reg alerts.
Proof.
  intros Ht Hret [Hrun Hown Hst Hidle (wi & regi & Hl & Hr & Hwf & Hv & Ha) Hshown].
  rewrite Ht, Hret in *. symmetry in Hst. split; try done; cbn [th_todo th_unit th_returned].
  - unfold stopped in *. by rewrite existsb_app, Hst.
  - exists wi, regi. split_and!; try done. rewrite tick_loop_app by done. by rewrite Hl.
  - by left.
Qed.

Hypothesis names_distinct : NoDup specs.*1.
Hypothesis same_length : length specs = length us.

(** Goroutine [k] moves, the others stay where they are. *)
Lemma fine_inv_move n events ev k s u t t' ts w w' reg reg' tagged alerts :
  specs !! k = Some s → us !! k = Some u → ts !! k = Some t →
  length ts = length us → w_alerts w = (w_alerts w0 ++ tagged.*2)%list →
  Forall (λ t, (t.1 < length us)%nat) tagged →
  (∀ i t s u, ts !! i = Some t → specs !! i = Some s → us !! i = Some u →
     in_step (S n) s u (served i events) t reg (alerts_of i tagged)) →
  (∀ i, i ≠ k → served i [ev] = []) →
  w_registry w' = Some reg' → Registry_wf reg' → r_order reg' = r_order reg0 →
  w_alerts w' = (w_alerts w ++ alerts)%list →
  (∀ name, name ≠ s.1 → unit_view reg' name = unit_view reg name) →
  in_step n s u (served k events ++ served k [ev]) t' reg' (alerts_of k tagged ++ alerts) →
  fine_inv n (events ++ [ev]) (<[k := t']> ts, w').
Proof.
  intros Hs Hu Ht Hlen Ha Htag Hinv Hev Hw' Hwf' Ho Ha' Hv Hk.
  exists reg', (tagged ++ map (pair k) alerts)%list. cbn [fst snd]. split_and!; try done.
  - rewrite Ha', Ha, fmap_app, <- app_assoc. do 2 f_equal.
    clear. induction alerts; simpl; [done|by f_equal].
  - apply Forall_app. split; [done|]. apply Forall_fmap, Forall_true. intros al. simpl.
    by eapply lookup_lt_Some.
  - by rewrite length_insert.
  - intros i ti si ui Hti Hsi Hui. rewrite served_snoc, alerts_of_snoc.
    destruct (decide (k = i)) as [<-|Hne].
    + rewrite list_lookup_insert_eq in Hti by (by eapply lookup_lt_Some). by simplify_eq.
    + rewrite list_lookup_insert_ne in Hti by done. rewrite Hev, !app_nil_r by done.
      apply (in_step_elsewhere _ _ _ _ _ reg); [|by eapply (in_step_le n (S n)); [lia|apply Hinv]].
      apply Hv. intros Heq. apply Hne. eapply (NoDup_lookup specs.*1); [done|..];
        rewrite list_lookup_fmap; [by rewrite Hs|by rewrite Hsi; simpl; rewrite Heq].
Qed.

Lemma fine_inv_step n events st ev :
  fine_inv (S n) events st →
  match fine_step st ev with
  | Next st' => fine_inv n (events ++ [ev]) st'
  | Disabled => True
  | Panics => False
  end.
Proof.
  destruct st as [ts w]. intros (reg & tagged & Hw & Hwf & Ho & Ha & Htag & Hlen & Hinv). cbn [fst snd] in *.
  assert (Hat : ∀ k t, ts !! k = Some t → ∃ s u, specs !! k = Some s ∧ us !! k = Some u ∧
    in_step (S n) s u (served k events) t reg (alerts_of k tagged)).
  { intros k t Ht. pose proof (lookup_lt_Some _ _ _ Ht) as Hlt.
    destruct (lookup_lt_is_Some_2 us k) as [u Hu]; [lia|].
    destruct (lookup_lt_is_Some_2 specs k) as [s Hs]; [lia|]. exists s, u. eauto. }
  destruct ev as [k o|k|k|l]; cbn [Steps.fine_step].
  - destruct (ts !! k) as [[u0 snap [|] []]|] eqn:Hk; try done.
    destruct (Hat k _ Hk) as (s & u & Hs & Hu & Hin).
    destruct (in_step_start n s u _ (MkThread u0 snap [] false) o reg _ eq_refl eq_refl Hin) as (u' & acts & Hacts & Hin').
    cbn [th_unit th_snap] in *. rewrite Hacts. cbn [attempt].
    eapply (fine_inv_move n _ _ k s u _ _ ts w w reg reg tagged []); try done; rewrite ?app_nil_r; try done.
    + intros i Hne. unfold served. simpl. by rewrite decide_False by done.
    + unfold served at 2. simpl. by rewrite decide_True by done.
  - destruct (ts !! k) as [[u0 snap [|a todo] []]|] eqn:Hk; try done.
    destruct (Hat k _ Hk) as (s & u & Hs & Hu & Hin).
    destruct (in_step_continue (S n) s u _ (MkThread u0 snap (a :: todo) false) a todo reg _ w eq_refl Hw Hwf Hin)
      as (snap' & reg' & l & Hact & Hwf' & Ho' & Hv & Hin').
    cbn [th_unit th_snap th_returned] in *. rewrite Hact. cbn [attempt].
    eapply (fine_inv_move n _ _ k s u _ _ ts w _ reg reg' tagged (alert_op a)); try done.
    + by rewrite Ho'.
    + rewrite app_nil_r. by eapply (in_step_le n (S n)); [lia|].
  - destruct (ts !! k) as [[u0 snap [|] []]|] eqn:Hk; try done.
    destruct (Hat k _ Hk) as (s & u & Hs & Hu & Hin).
    pose proof (in_step_leave (S n) s u _ (MkThread u0 snap [] false) reg _ eq_refl eq_refl Hin) as Hin'.
    cbn [th_unit th_snap] in *.
    eapply (fine_inv_move n _ _ k s u _ _ ts w w reg reg tagged []); try done; rewrite ?app_nil_r; try done.
    + intros i Hne. unfold served. simpl. by rewrite decide_False by done.
    + unfold served at 2. simpl. rewrite decide_True by done. by eapply (in_step_le n (S n)); [lia|].
  - exists reg, tagged. cbn [fst snd]. split_and!; try done. intros i t s u Ht Hs Hu.
    rewrite served_snoc, app_nil_r. by eapply (in_step_le n (S n)); [lia|eauto].
Qed.

(** A goroutine in the middle of a check can always go on. *)
Lemma continue_all n events ts w i t :
  fine_inv (n + length (th_todo t)) events (ts, w) → ts !! i = Some t →
  ∃ snap w', fine_steps (replicate (length (th_todo t)) (Continue i)) (ts, w) =
    Next (<[i := MkThread (th_unit t) snap [] (th_returned t)]> ts, w').
Proof.
  destruct t as [u snap todo ret]. cbn [th_todo th_unit th_returned]. revert events ts w snap.
  induction todo as [|a todo IH]; intros events ts w snap Hinv Ht; cbn [length replicate] in *.
  { exists snap, w. by rewrite list_insert_id. }
  assert (ret = false) as ->.
  { destruct Hinv as (reg & tagged & _ & _ & _ & _ & _ & Hlen & Hinv). cbn [fst] in *.
    pose proof (lookup_lt_Some _ _ _ Ht) as Hlt.
    destruct (lookup_lt_is_Some_2 us i) as [ui Hu]; [lia|].
    destruct (lookup_lt_is_Some_2 specs i) as [s Hs]; [lia|].
    destruct (Hinv i _ s ui Ht Hs Hu) as [_ _ _ Hidle _ _]. destruct ret; [|done]. by specialize (Hidle eq_refl). }
  rewrite Nat.add_succ_r in Hinv. pose proof (fine_inv_step _ _ _ (Continue i) Hinv) as Hstep.
  rewrite fine_steps_cons. cbn [Steps.fine_step] in *. rewrite Ht in *.
  destruct (perform a (snap, w)) as [[snap1 w1]|]; [|done]. cbn [attempt and_then] in *.
  destruct (IH _ _ w1 snap1 Hstep) as (snap' & w' & Hrun).
  { apply list_lookup_insert_eq. by eapply lookup_lt_Some. }
  exists snap', w'. by rewrite Hrun, list_insert_insert_eq.
Qed.

Lemma fine_inv_steps n events ts :
  fine_inv (n + length events) [] (ts, w0) →
  match fine_steps events (ts, w0) with
  | Next st => fine_inv n events st
  | Disabled => True
  | Panics => False
  end.
Proof.
  revert n. induction events as [|ev events IH] using rev_ind; intros n Hinit.
  { by rewrite Nat.add_0_r in Hinit. }
  rewrite fine_steps_snoc. specialize (IH (S n)). rewrite List.length_app, Nat.add_1_r, Nat.add_succ_r in Hinit.
  specialize (IH Hinit). destruct (fine_steps events (ts, w0)) as [st| |]; [|done|done].
  by apply fine_inv_step.
Qed.
End invariant.

(** ** From the start *)

(** What any schedule promises.  It does not panic; the registry stays well
    formed; and for each unit there is its own loop, run alone on the ticks it
    was served, that ends in the same unit, with the specified contents of the
    registry and the specified alerts, up to the actions the unit still has to
    take in the check under way: none if it is between two checks. *)
Definition fine_promise (specs : list (string * MonitorConfig)) (events : list FineEvent)
    (us : list Unit) (w : World) (reg : Registry) (out : Outcome Fine) : Prop :=
  match out with
  | Panics => False
  | Disabled => True
  | Next (ts, w') =>
      ∃ reg' tagged,
        w_registry w' = Some reg' ∧ Registry_wf reg' ∧ r_order reg' = r_order reg ∧
        w_alerts w' = (w_alerts w ++ tagged.*2)%list ∧
        Forall (λ t, (t.1 < length us)%nat) tagged ∧
        ∀ i u s, us !! i = Some u → specs !! i = Some s →
          ∃ t wi regi,
            ts !! i = Some t ∧ th_returned t = stopped (served i events) ∧
            unit_run go_quote json_error url_error (served i events) (u, w) = Some (th_unit t, wi) ∧
            run_post s.2 s.1 [] u w reg (ticks (served i events)) (th_unit t) wi regi ∧
            (λ v, foldl view_step v (th_todo t ≫= reg_op)) <$> unit_view reg' s.1 =
              unit_view regi s.1 ∧
            w_alerts wi = (w_alerts w ++ alerts_of i tagged ++ (th_todo t ≫= alert_op))%list
  end.

(** Units of valid configuration as their constructors leave them. *)
Record fine_units (specs : list (string * MonitorConfig)) (us : list Unit) : Prop := {
  fu_names : NoDup specs.*1;
  fu_fresh : Forall2 unit_fresh specs us;
  fu_sites : Forall (λ u, match u with UInternet c => ic_sites c ≠ [] ∧ ic_next c = 0 | _ => True end) us;
}.

Lemma fine_units_ok specs us n :
  fine_units specs us → Z.of_nat n < 2 ^ 63 → Forall (mr_ok n) us.
Proof.
  intros [_ _ Hs] Hn. eapply Forall_impl; [exact Hs|]. intros [m|m|c|s]; try done.
  intros [Hc H0]. cbn. rewrite H0. split_and!; [done|done|lia].
Qed.

Definition threads (us : list Unit) : list Thread := map (λ u, MkThread u None [] false) us.

Lemma fine_start_fresh specs us : fine_units specs us → fine_start us = Some (threads us).
Proof.
  intros [_ Hf _]. unfold fine_start.
  assert (existsb (λ u, unit_interval u <=? 0) us = false) as ->; [|done].
  induction Hf as [|s u specs us (_ & Hi & _) _ IH]; [done|]. simpl. rewrite IH.
  by destruct (Z.leb_spec (unit_interval u) 0); [lia|].
Qed.

Lemma fine_inv_start specs us w reg n :
  fine_units specs us → Z.of_nat n < 2 ^ 63 → w_registry w = Some reg → Registry_wf reg →
  fine_inv specs us w reg n [] (threads us, w).
Proof.
  intros Hfu Hn Hw Hwf. pose proof (fine_units_ok _ _ _ Hfu Hn) as Hok. destruct Hfu as [_ Hf _].
  exists reg, []. cbn [fst snd]. split_and!; [done..| | | |]; rewrite ?app_nil_r;
    [done|constructor|by apply length_map|].
  intros i t s u Ht Hs Hu. unfold threads in Ht. rewrite list_lookup_fmap, Hu in Ht. injection Ht as <-.
  destruct (Forall2_lookup_lr _ _ _ _ _ _ Hf Hs Hu) as (Hc & _ & Hh & Hr).
  split; cbn [th_todo th_unit th_returned]; try done.
  - split; [done|]. split; [done|]. split; [by eapply Forall_lookup_1|by exists []].
  - exists w, reg. cbn. split_and!; try done; [by destruct (unit_view reg s.1)|by rewrite app_nil_r].
  - by left.
Qed.

Lemma fine_run_inv specs us events w reg n :
  fine_units specs us → Z.of_nat (n + length events) < 2 ^ 63 →
  w_registry w = Some reg → Registry_wf reg →
  match fine_run go_quote json_error url_error events us w with
  | Next st => fine_inv specs us w reg n events st
  | Disabled => True
  | Panics => False
  end.
Proof.
  intros Hfu Hn Hw Hwf. unfold fine_run. rewrite (fine_start_fresh specs) by done.
  pose proof (fu_fresh _ _ Hfu) as Hf.
  apply fine_inv_steps; [apply Hfu|by eapply Forall2_length|by apply fine_inv_start].
Qed.

Lemma units_interleave specs us events w reg :
  fine_units specs us → Z.of_nat (length events) < 2 ^ 63 →
  w_registry w = Some reg → Registry_wf reg →
  fine_promise specs events us w reg (fine_run go_quote json_error url_error events us w).
Proof.
  intros Hfu Hlen Hw Hwf. pose proof (fine_run_inv specs us events w reg 0 Hfu Hlen Hw Hwf) as Hinv.
  destruct (fine_run _ _ _ _ _ _) as [[ts w']| |]; [|done|done].
  destruct Hinv as (reg' & tagged & Hw' & Hwf' & Ho & Ha & Htag & Hl & Hinv). cbn [fst snd] in *.
  exists reg', tagged. split_and!; try done. intros i u s Hu Hs.
  destruct (lookup_lt_is_Some_2 ts i) as [t Ht]; [rewrite Hl; by eapply lookup_lt_Some|].
  destruct (Hinv i t s u Ht Hs Hu) as [_ _ Hret _ (wi & regi & Hloop & Hri & _ & Hv & Hai) _].
  destruct (Forall2_lookup_lr _ _ _ _ _ _ (fu_fresh _ _ Hfu) Hs Hu) as (Hc & Hint & Hh & Hr).
  pose proof (served_length i events) as Hticks.
  destruct (run_ticker_run (H := units) s.2 (unit_interval u) s.1 (served i events) u w reg Hc Hint Hr
    (mr_ok_le _ _ u Hticks (Forall_lookup_1 _ _ _ _ (fine_units_ok _ _ _ Hfu Hlen) Hu)) Hh Hw Hwf)
    as (u' & wi' & regi' & Hrt & Hpost).
  exists t, wi, regi. unfold unit_run. cbn [fst].
  change (mr_step (A := Outside)) with (Units.unit_check go_quote json_error url_error) in Hrt.
  assert (Heq : (u', wi') = (th_unit t, wi)).
  { unfold run_ticker in Hrt. destruct (Z.leb_spec (unit_interval u) 0); [lia|]. congruence. }
  injection Heq as -> ->. rewrite Hrt. split_and!; try done.
  assert (regi' = regi) as -> by (destruct Hpost; congruence). done.
Qed.

(** *** Order and length of a check's actions *)

(** The notifier's action comes last and is at most one. *)
Definition dispatch_last (acts : list CheckAction) : Prop :=
  ∃ before ds, acts = (before ++ (ActDispatch <$> ds))%list ∧ (before ≫= alert_op) = [] ∧
    (length ds ≤ 1)%nat.

Definition notifies_last (n : nat) (acts : list CheckAction) : Prop :=
  (length acts ≤ n)%nat ∧ dispatch_last acts.

Lemma conclude_actions_last role channels h clk success detail mbps sm sm' acts :
  conclude_actions role channels h clk success detail mbps sm = Some (sm', acts) →
  notifies_last 6 acts.
Proof.
  unfold conclude_actions. intros ([sm1 ev] & _ & [= <- <-])%bind_Some.
  assert (Hd : (length (dispatchEvent channels role detail ev (sm_consecutive sm1) (ck_alert clk)) ≤ 1)%nat)
    by (destruct ev; simpl; lia).
  split.
  - cbn [app length]. rewrite !List.length_app, length_fmap.
    destruct mbps, (bool_decide _); cbn [length]; lia.
  - match goal with |- context [ActDispatch <$> ?ds] =>
      exists ([ActUpdate h sm1; ActCheck h (ck_record clk) success] ++
        match mbps with Some x => [ActSpeed h (ck_record clk) x] | None => [] end ++
        if bool_decide (ev ≠ EvNone) then [ActSnapshot h; ActLogSnapshot] else [])%list, ds end.
    split; [by rewrite <- !app_assoc|]. split; [|done].
    by destruct mbps, (bool_decide _).
Qed.

Lemma warned_last {B} warn role channels h clk success detail mbps sm (wrap : StateMachine → B) r :
  ('(sm, acts) ← conclude_actions role channels h clk success detail mbps sm;
   Some (wrap sm, (warn ++ acts)%list)) = Some r →
  Forall is_log warn → (length warn ≤ 1)%nat → notifies_last 7 r.2.
Proof.
  intros ([sm' acts] & Hc%conclude_actions_last & <-%(inj Some))%bind_Some Hw Hl.
  destruct Hc as (Hn & before & ds & -> & Hb & Hd). cbn [snd].
  split; [rewrite List.length_app; lia|].
  exists (warn ++ before)%list, ds. rewrite app_assoc, bind_app, Hb, app_nil_r. split_and!; try done.
  clear -Hw. by induction Hw as [|[] ? ? _ IH].
Qed.

Lemma unit_actions_last o u u' acts :
  unit_actions o u = Some (u', acts) → notifies_last 7 acts.
Proof.
  destruct u as [m|m|c|s]; cbn [Steps.unit_actions]; intros ([m' acts'] & Ha & [= <- <-])%bind_Some.
  - unfold ping_actions in Ha. destruct (ping_probe _ _ _) as [counter [e|]];
      (eapply warned_last in Ha; [exact Ha|by repeat constructor|simpl; lia]).
  - unfold url_actions in Ha. destruct (url_probe _ _) as [e|];
      (eapply warned_last in Ha; [exact Ha|by repeat constructor|simpl; lia]).
  - unfold internet_actions in Ha. apply bind_Some in Ha as ([site c1] & _ & Ha).
    destruct (checkSite _ _ _) as [e|];
      (eapply warned_last in Ha; [exact Ha|by repeat constructor|simpl; lia]).
  - unfold speed_actions in Ha. destruct (speed_result _ _ _ _ _) as [ok detail].
    eapply (warned_last [_]) in Ha; [exact Ha|by repeat constructor|simpl; lia].
Qed.

(** ** Properties *)

(** C16: a check is its actions.  For every kind of unit, every input and every
    state of the registry and the log, [runCheck] is its local part followed by
    its actions in order, whatever snapshot the goroutine held before; it
    panics exactly when one of them does.  There are at most seven actions, and
    the alert, if there is one, is handed over last: whoever receives it finds
    the registry up to date. *)
Theorem check_refines_actions o u snap w :
  unit_check o (u, w) = finish (unit_actions o u) (snap, w) ∧
  ∀ u' acts, unit_actions o u = Some (u', acts) → notifies_last 7 acts.
Proof. split; [apply unit_check_finish|apply unit_actions_last]. Qed.

(** No goroutine is ever stuck in a check.  In whatever state a schedule
    leaves the daemon, a goroutine that is in the middle of a check finishes it
    by its own remaining actions, whatever the others are in the middle of: none
    panics and none is disabled.  (How long the delivery of an alert may take
    is bounded in Dispatcher.v.) *)
Theorem check_completes specs us events w reg ts w' i t :
  fine_units specs us → w_registry w = Some reg → Registry_wf reg →
  fine_run go_quote json_error url_error events us w = Next (ts, w') → ts !! i = Some t →
  Z.of_nat (length events + length (th_todo t)) < 2 ^ 63 →
  ∃ snap w'', fine_steps (replicate (length (th_todo t)) (Continue i)) (ts, w') =
    Next (<[i := MkThread (th_unit t) snap [] (th_returned t)]> ts, w'').
Proof.
  intros Hfu Hw Hwf Hrun Ht Hlen.
  pose proof (fine_run_inv specs us events w reg (length (th_todo t)) Hfu ltac:(lia) Hw Hwf) as Hinv.
  rewrite Hrun in Hinv. pose proof (Forall2_length _ _ _ (fu_fresh _ _ Hfu)).
  apply (continue_all specs us w reg ltac:(apply Hfu) ltac:(done) 0 events); [|done].
  exact Hinv.
Qed.

End fine.

(** ** Witness *)

(** Nothing answers. *)
Definition blackout (t : Time) : Outside :=
  MkOutside refused t (λ _ _, Err "connection refused") (Err "exit status 2") (clock_at t).

(** Two ping monitors as they are built from the sample targets. *)
Definition sample_units : option (list Unit * option Registry) :=
  '(ms, reg) ← NewPingMonitor [sample_target; second_target] (Some NewRegistry);
  Some (map UPing ms, reg).

(** The second is interrupted twice by the first. *)
Definition sample_events : list FineEvent :=
  [Start 0 (blackout 5); Start 1 (blackout 5); Continue 1; Continue 0; Continue 1; Elsewhere [];
   Continue 0; Continue 0; Start 0 (blackout 10)].

Lemma sample_units_ok :
  ∃ us reg, sample_units = Some (us, Some reg) ∧ Registry_wf reg ∧
    fine_units (map ping_spec [sample_target; second_target]) us.
Proof.
  assert (Hts : Forall (λ t, MonitorConfig_ok (pt_Mon t) ∧ 0 < pt_Interval t) [sample_target; second_target]).
  { repeat constructor; apply example_config_ok. }
  destruct (NewPingMonitor_fresh plain plain plain [sample_target; second_target] NewRegistry
    NewRegistry_wf Hts) as (ms & reg & Hms & Hwf & Hf).
  exists (map UPing ms), reg. unfold sample_units. rewrite Hms. split_and!; [done|done|].
  split; [|by apply Forall2_fmap_r|by apply Forall_fmap, Forall_true].
  apply (bool_decide_unpack _). by vm_compute.
Qed.

Lemma check_completes_witness :
  ∃ us reg ts w' t snap w'',
    sample_units = Some (us, Some reg) ∧
    fine_run plain plain plain sample_events us (MkWorld (Some reg) [] []) = Next (ts, w') ∧
    ts !! 1%nat = Some t ∧ length (th_todo t) = 1%nat ∧
    fine_steps plain plain plain [Continue 1] (ts, w') =
      Next (<[1%nat := MkThread (th_unit t) snap [] false]> ts, w'').
Proof.
  destruct sample_units_ok as (us & reg & Hus & Hwf & Hfu).
  destruct (fine_run plain plain plain sample_events us (MkWorld (Some reg) [] [])) as [[ts w']| |] eqn:Hr.
  2,3: exfalso; vm_compute in Hus; injection Hus as <- <-; vm_compute in Hr; discriminate.
  assert (Ht : ∃ t, ts !! 1%nat = Some t ∧ length (th_todo t) = 1%nat ∧ th_returned t = false).
  { vm_compute in Hus. injection Hus as <- <-. vm_compute in Hr. injection Hr as <- <-.
    eexists. split; [reflexivity|]. split; reflexivity. }
  destruct Ht as (t & Ht & Hlen & Hret).
  destruct (check_completes plain plain plain _ us sample_events (MkWorld (Some reg) [] []) reg ts w' 1 t
    Hfu eq_refl Hwf Hr Ht ltac:(rewrite Hlen; reflexivity)) as (snap & w'' & Hsteps).
  rewrite Hlen, Hret in Hsteps.
  exists us, reg, ts, w', t, snap, w''. split_and!; [exact Hus|exact Hr|exact Ht|exact Hlen|exact Hsteps].
Defined.
