(* ===== verification/Readers.v ===== *)
(** * What a reader of the registry sees ([Registry.Summary] during the checks)

    A get-summary request, the summary reporter and the snapshot of a state
    change read the registry while other goroutines are inside a check.  Each
    reads it under its mutex, hence between two actions of Steps.v; [shows] says
    how far the entry of a unit may then be behind its checks. *)

From S2P Require Import Prelude GoTime Slog Float64 GoString History StateMachine Registry.
From S2P Require Import Dispatcher Checks Group Units Steps.
From S2P Require Import Json GoJson Protocol.
From S2P Require Handlers.

Local Open Scope string_scope.
Local Open Scope Z_scope.

(** An entry [v] of a unit whose checks so far had the results [l]; [v0] is its
    entry before them.  The samples of all checks but possibly the last are
    there; the status is that of the last check or of the one before, and never
    behind the samples. *)
Definition shows (cfg : MonitorConfig) (name : string) (v0 : UnitView) (l : list CheckResult)
    (v : UnitView) : Prop :=
  ∃ i j k : nat,
    (i ≤ j ≤ k)%nat ∧ (k ≤ length l ≤ S i)%nat ∧
    lastn 100 (uv_speeds v) = lastn 100 (uv_speeds v0 ++ (take i l ≫= speeds_of)) ∧
    lastn 100 (uv_checks v) = lastn 100 (uv_checks v0 ++ (sample_of <$> take j l)) ∧
    if decide (k = 0%nat) then uv_status v = uv_status v0
    else ∃ sm, sm_repr cfg (observed <$> take k l) sm ∧ uv_status v = status_of name sm.

Lemma lastn_app_eq {A} n (a b c : list A) : lastn n a = lastn n b → lastn n (a ++ c) = lastn n (b ++ c).
Proof. intros H. by rewrite <- (lastn_lastn_app n a), H, lastn_lastn_app. Qed.

Lemma lastn_twice {A} n (a : list A) : lastn n (lastn n a) = lastn n a.
Proof. pose proof (lastn_lastn_app n a []) as H. by rewrite !app_nil_r in H. Qed.

Lemma take_snoc_length {A} (l : list A) x : take (length l) (l ++ [x]) = l.
Proof. by rewrite take_app_length. Qed.

Lemma take_all_snoc {A} (l : list A) x : take (S (length l)) (l ++ [x]) = (l ++ [x])%list.
Proof. apply take_ge. rewrite List.length_app. simpl. lia. Qed.

(** ** The results of a run and of one more check *)

Section results.
Context {A M : Type} `{MonitorRoleLaws A M}.

Lemma role_results_next inputs a m w m1 w1 :
  tick_loop mr_step (Tick <$> inputs) (m, w) = Some (m1, w1) → mr_ok (length inputs) m →
  role_results (inputs ++ [a]) m = (role_results inputs m ++ [mr_result a m1])%list.
Proof.
  revert m w. induction inputs as [|b inputs IH]; intros m w Hl Hok.
  { cbn in Hl. injection Hl as <- <-. done. }
  cbn [fmap list_fmap tick_loop] in Hl. rewrite (mr_step_spec (length inputs)) in Hl by done.
  cbv zeta in Hl. apply bind_Some in Hl as ([m2 w2] & Hs & Hl).
  apply bind_Some in Hs as ([sm w3] & _ & [= <- <-]).
  cbn [app role_results]. f_equal.
  rewrite <- (role_results_sm (inputs ++ [a]) (mr_next b m) sm).
  rewrite (IH _ _ Hl) by (by apply mr_ok_next). by rewrite role_results_sm.
Qed.
End results.

(** ** An entry at rest and an entry in the middle of a check *)

Lemma view_eta v : v = MkUnitView (uv_status v) (uv_checks v) (uv_speeds v).
Proof. by destruct v. Qed.

Section entry.
Context {A M : Type} `{MonitorRoleLaws A M} (cfg : MonitorConfig) (name : string).

Lemma shows_at_rest m w reg inputs m' w' reg' v0 v :
  run_post cfg name [] m w reg inputs m' w' reg' →
  unit_view reg name = Some v0 → unit_view reg' name = Some v →
  shows cfg name v0 (role_results inputs m) v.
Proof.
  intros [P1 _ _ _ _ _ P7] Hv0 Hv. destruct (P7 v0 Hv0) as (v' & Hv' & Hck & Hsp & Hst).
  rewrite Hv in Hv'. injection Hv' as <-.
  exists (length (role_results inputs m)), (length (role_results inputs m)), (length (role_results inputs m)).
  rewrite !take_ge by lia. split_and!; [lia..|done|done|].
  destruct inputs as [|a inputs]; [done|]. rewrite decide_False in Hst by done.
  rewrite decide_False by done. by exists (mr_sm m').
Qed.

(** The check [r] under way, after some of its operations. *)
Lemma shows_in_check m w reg inputs m1 w1 reg1 v0 v r sm done pending :
  run_post cfg name [] m w reg inputs m1 w1 reg1 →
  unit_view reg name = Some v0 →
  (λ v, foldl view_step v done) <$> unit_view reg1 name = Some v →
  (done ++ pending)%list = check_ops name sm r → pending ≠ [] →
  sm_repr cfg (observed <$> (role_results inputs m ++ [r])%list) sm →
  shows cfg name v0 (role_results inputs m ++ [r])%list v.
Proof.
  intros [P1 _ _ _ _ _ P7] Hv0 Hv Hops Hp Hr. destruct (P7 v0 Hv0) as (v1 & Hv1 & Hck & Hsp & Hst).
  rewrite Hv1 in Hv. injection Hv as <-.
  set (l := role_results inputs m) in *.
  assert (Hlen : length (l ++ [r])%list = S (length l)) by (rewrite List.length_app; simpl; lia).
  assert (Hold : if decide (length l = 0%nat) then uv_status v1 = uv_status v0
    else ∃ sm, sm_repr cfg (observed <$> l) sm ∧ uv_status v1 = status_of name sm).
  { unfold l in *. destruct inputs as [|a inputs]; [done|]. rewrite decide_False in Hst by done.
    rewrite decide_False by done. by exists (mr_sm m1). }
  unfold check_ops in Hops. destruct done as [|op1 [|op2 [|op3 done]]]; cbn [foldl].
  - exists (length l), (length l), (length l). rewrite !take_snoc_length. by split_and!; [lia..|done|done|].
  - injection Hops as -> _. exists (length l), (length l), (S (length l)).
    rewrite !take_snoc_length, take_all_snoc. split_and!; [lia..|done|done|].
    rewrite decide_False by done. by exists sm.
  - injection Hops as -> -> _. exists (length l), (S (length l)), (S (length l)).
    rewrite !take_snoc_length, take_all_snoc. split_and!; [lia..|done| |].
    + cbn [view_step uv_checks]. rewrite lastn_twice, fmap_app, app_assoc. by apply lastn_app_eq.
    + rewrite decide_False by done. by exists sm.
  - exfalso. apply Hp. destruct (cr_mbps r); [|discriminate Hops]. injection Hops as _ _ _ Hops.
    by apply app_eq_nil in Hops as [_ ?].
Qed.
End entry.

(** ** In every schedule *)

Lemma ticks_all {A} (inputs : list A) : ticks (Tick <$> inputs) = inputs.
Proof. induction inputs as [|a inputs IH]; [done|]. cbn [fmap list_fmap ticks]. f_equal. apply IH. Qed.

Section readers.
Context (go_quote json_error url_error : string → string).
#[local] Instance units : MonitorRole Outside Unit := unit_role go_quote json_error url_error.
#[local] Instance units_laws : MonitorRoleLaws Outside Unit := unit_laws go_quote json_error url_error.

Lemma entry_shows specs us events w reg ts w' i u s v0 :
  fine_units specs us → w_registry w = Some reg → Registry_wf reg →
  Z.of_nat (length events) < 2 ^ 63 →
  fine_run go_quote json_error url_error events us w = Next (ts, w') →
  us !! i = Some u → specs !! i = Some s → unit_view reg s.1 = Some v0 →
  ∃ reg' v, w_registry w' = Some reg' ∧ unit_view reg' s.1 = Some v ∧
    shows s.2 s.1 v0 (role_results (ticks (served i events)) u) v.
Proof.
  intros Hfu Hw Hwf Hlen Hrun Hu Hs Hv0.
  pose proof (units_interleave go_quote json_error url_error specs us events w reg Hfu Hlen Hw Hwf) as Hp.
  pose proof (fine_run_inv go_quote json_error url_error specs us events w reg 0 Hfu Hlen Hw Hwf) as Hi.
  rewrite Hrun in Hp, Hi.
  destruct Hp as (reg' & tagged & Hw' & _ & _ & _ & _ & Hall).
  destruct (Hall i u s Hu Hs) as (t & wi & regi & Ht & _ & _ & Hpost & Hview & _).
  destruct Hi as (reg2 & tagged2 & Hw2 & _ & _ & _ & _ & _ & Hinv). cbn [fst snd] in *.
  assert (reg2 = reg') as -> by congruence.
  destruct (Hinv i t s u Ht Hs Hu) as [_ _ _ _ _ Hshown].
  destruct (Forall2_lookup_lr _ _ _ _ _ _ (fu_fresh _ _ Hfu) Hs Hu) as (Hc & _ & Hh & Hr).
  pose proof (rp_unit _ _ _ _ _ _ _ _ _ _ Hpost v0 Hv0) as (vi & Hvi & _).
  assert (Hsome : is_Some (unit_view reg' s.1)).
  { rewrite Hvi in Hview. destruct (unit_view reg' s.1); [by eexists|done]. }
  destruct Hsome as [v Hv]. exists reg', v. split; [done|]. split; [done|].
  destruct Hshown as [Hnil|(inputs & o & u1 & w1 & reg1 & done & Hevs & Hloop & Hr1 & Hv1 & Hops)].
  - rewrite Hnil, Hv in Hview. cbn in Hview.
    by eapply (shows_at_rest (H := units)).
  - destruct (decide ((th_todo t ≫= reg_op) = [])) as [Hnil|Hne].
    { rewrite Hnil, Hv in Hview. cbn in Hview. by eapply (shows_at_rest (H := units)). }
    rewrite Hevs, ticks_all in *.
    assert (Hoks : mr_ok (length inputs) u).
    { apply (mr_ok_le _ (length events)); [|by eapply Forall_lookup_1; [apply (fine_units_ok _ _ _ _ _ _ Hfu Hlen)|]].
      pose proof (served_length i events) as Hl. rewrite Hevs, ticks_all, List.length_app in Hl. simpl in Hl. lia. }
    destruct (tick_loop_run (H := units) s.2 Hc s.1 inputs [] u w reg Hr Hoks Hh Hw Hwf)
      as (u1' & w1' & reg1' & Hloop' & Hpost1).
    change (mr_step (MonitorRole := units)) with (unit_check go_quote json_error url_error) in Hloop'.
    rewrite Hloop in Hloop'. injection Hloop' as <- <-.
    assert (reg1' = reg1) as -> by (pose proof (rp_registry _ _ _ _ _ _ _ _ _ _ Hpost1); congruence).
    rewrite (role_results_next (H := units) inputs o u w u1 w1 Hloop Hoks).
    eapply (shows_in_check (H := units) s.2 s.1 u w reg inputs u1 w1 reg1 v0 v _ _ done); try done.
    + by rewrite <- Hv1.
    + assert (Hrep : sm_repr s.2 (observed <$> role_results (H := units) (inputs ++ [o])%list u)
                       (unit_sm (th_unit t))) by exact (rp_repr _ _ _ _ _ _ _ _ _ _ Hpost).
      by rewrite (role_results_next (H := units) inputs o u w u1 w1 Hloop Hoks) in Hrep.
Qed.

(** ** Properties *)

(** C17: a summary taken at any moment.  In whatever state a schedule leaves the
    daemon, with goroutines in the middle of their checks, [Summary] does not
    panic, lists the registered units in order and is what a get-summary request
    dispatched then is answered with; and what it says of a unit
    is what the unit's own checks say, all of them except possibly the one
    under way: of that one it may show nothing, the new status only, or the
    status and the sample, in this order. *)
Theorem summary_in_flight specs us events w reg ts w' now :
  fine_units specs us → w_registry w = Some reg → Registry_wf reg →
  Z.of_nat (length events) < 2 ^ 63 →
  fine_run go_quote json_error url_error events us w = Next (ts, w') →
  ∃ fs, Registry.Summary (w_registry w') now = Some fs ∧
    (λ u, us_Name (su_Status u)) <$> fs_Units fs = r_order reg ∧
    (∀ hs req line, Unmarshal line = Some req → rq_Version req = Version →
       rq_Type req = TypeGetSummary →
       List.find (λ h, String.eqb (Handlers.mh_Type h) TypeGetSummary) (rev hs) =
         Some Handlers.SummaryHandler →
       Handlers.Dispatch (Handlers.NewMessageDispatcher hs) (w_registry w') now line =
         Some (NewSummary (rq_ID req) (Handlers.toWireSummary fs))) ∧
    ∀ i u s v0, us !! i = Some u → specs !! i = Some s → unit_view reg s.1 = Some v0 →
      ∃ v, view_summary v ∈ fs_Units fs ∧ us_Name (uv_status v) = s.1 ∧
        shows s.2 s.1 v0 (role_results (ticks (served i events)) u) v.
Proof.
  intros Hfu Hw Hwf Hlen Hrun.
  pose proof (units_interleave go_quote json_error url_error specs us events w reg Hfu Hlen Hw Hwf) as Hp.
  rewrite Hrun in Hp. destruct Hp as (reg' & tagged & Hw' & Hwf' & Ho & _).
  destruct (Summary_spec reg' now Hwf') as (summaries & Hsum & Hall).
  assert (Hname : ∀ name v, unit_view reg' name = Some v → us_Name (uv_status v) = name).
  { intros name v Hv. unfold unit_view in Hv. destruct (r_units reg' !! name) as [st|] eqn:E; [|done].
    destruct (r_history reg' !! name); [|done]. cbn in Hv. injection Hv as <-.
    by apply (rw_names reg' Hwf'). }
  eexists. rewrite Hw'. split; [exact Hsum|]. cbn [fs_Units]. split; [|split].
  - rewrite <- Ho. clear -Hall Hname. induction Hall as [|name u names us (v & Hv & ->) _ IH]; [done|].
    rewrite fmap_cons, IH. f_equal. by apply Hname.
  - intros hs req line Hd Hv Ht Hh. by apply Handlers.answer_to_summary.
  - intros i u s v0 Hu Hs Hv0.
    destruct (entry_shows specs us events w reg ts w' i u s v0 Hfu Hw Hwf Hlen Hrun Hu Hs Hv0)
      as (reg2 & v & Hw2 & Hv & Hshows).
    assert (reg2 = reg') as -> by congruence. exists v. split; [|by split; [apply Hname|]].
    assert (Hin : s.1 ∈ r_order reg') by (apply unit_view_registered; [done|by eexists]).
    apply list_elem_of_lookup in Hin as [k Hk].
    destruct (Forall2_lookup_l _ _ _ _ _ Hall Hk) as (su & Hsu & v' & Hv' & ->).
    rewrite Hv in Hv'. injection Hv' as <-. by eapply list_elem_of_lookup_2.
Qed.
End readers.

(** ** Witness *)

(** After [sample_events] both units are in the middle of a check. *)
Lemma summary_in_flight_witness :
  ∃ us reg ts w' fs,
    sample_units = Some (us, Some reg) ∧
    fine_run plain plain plain sample_events us (MkWorld (Some reg) [] []) = Next (ts, w') ∧
    Registry.Summary (w_registry w') 20 = Some fs ∧
    map (λ u, us_Name (su_Status u)) (fs_Units fs) =
      ["ping_monitor:10.0.0.2:7777"; "ping_monitor:10.0.0.3:7777"].
Proof.
  destruct sample_units_ok as (us & reg & Hus & Hwf & Hfu).
  destruct (fine_run plain plain plain sample_events us (MkWorld (Some reg) [] [])) as [[ts w']| |] eqn:Hr.
  2,3: exfalso; vm_compute in Hus; injection Hus as <- <-; vm_compute in Hr; discriminate.
  destruct (summary_in_flight plain plain plain _ us sample_events (MkWorld (Some reg) [] []) reg ts w' 20
    Hfu eq_refl Hwf ltac:(reflexivity) Hr) as (fs & Hs & Hn & _).
  exists us, reg, ts, w', fs. split; [exact Hus|]. split; [exact Hr|]. split; [exact Hs|].
  vm_compute in Hus. injection Hus as _ <-. exact Hn.
Defined.
