(* ===== verification/Exchange.v ===== *)
(** * A ping monitor against a healthd listener

    Composes the client's probe ([ping_monitor.go]) with the server's
    connection loop ([tcp_listener.go]): the peer of the exchange is a
    listener, the text it receives the probe's request, and the probe reads the
    first line of what it writes. *)

From S2P Require Import Prelude GoTime Float64 GoString Utf8 Strconv Json GoJson.
From S2P Require Import Protocol Handlers Listener Checks.
From S2P Require Registry.

Local Open Scope string_scope.
Local Open Scope Z_scope.

Definition written (ev : ConnEvent) : list string :=
  match ev with Wrote out => [out] | EncodeFailed _ => [] end.

(** A connection to listener [s]; [world] is the registry and the clock at each
    request. *)
Definition listener_net (s : TCPListener) (world : nat → option Registry.Registry * Time) : PingNet :=
  MkPingNet None None (λ sent,
    match evs ← handle s world (λ _, true) sent; split_line (concat_str (evs ≫= written)) with
    | Some (line, _) => Ok line
    | None => Err "EOF"
    end).

(** ** The size of a ping request *)

Lemma print_digits_length fuel z acc :
  (String.length (print_digits fuel z acc) <= fuel + String.length acc)%nat.
Proof.
  revert z acc. induction fuel as [|fuel IH]; intros z acc; simpl; [lia|].
  destruct (z <? 10); simpl; [lia|]. etrans; [apply IH|]. simpl. lia.
Qed.

Lemma print_nat_length z : 0 ≤ z < 2 ^ 64 → (String.length (print_nat z) <= 64)%nat.
Proof.
  intros Hz. unfold print_nat. etrans; [apply print_digits_length|].
  destruct (decide (z = 0)) as [->|]; [simpl; lia|].
  pose proof (Z.log2_lt_pow2 z 64 ltac:(lia)). simpl. lia.
Qed.

Lemma escaped_digits s : str_forall is_digit s = true → escaped s = s.
Proof.
  intros H. unfold escaped.
  assert (Ha : str_forall is_ascii s = true) by byte_class H.
  rewrite <- (string_app_nil s) at 1. rewrite chunks_ascii by done. simpl. rewrite app_nil_r, map_map.
  clear Ha. induction s as [|c s IH]; [done|]. apply andb_true_iff in H as [Hc Hs].
  change (escape_ascii c +:+ concat_str (map (λ x, escape (CAscii x)) (String.list_ascii_of_string s))
          = String c s).
  rewrite IH by done.
  assert (He : escape_ascii c = String c ""); [|by rewrite He].
  apply (reflect_iff _ _ (String.eqb_spec _ _)). revert Hc.
  apply (all_bytes_impl is_digit (λ c, String.eqb (escape_ascii c) (String c ""))).
  vm_compute. reflexivity.
Qed.

Lemma timestamp_length z : in_int64 z → (String.length (render_num (int_num z)) <= 65)%nat.
Proof.
  intros Hz. unfold render_num, int_num. simpl. rewrite !length_app. simpl.
  pose proof (print_nat_length (Z.abs z) ltac:(int64_lia)).
  destruct (z <? 0); simpl; lia.
Qed.

Lemma ping_request_length now counter line :
  0 ≤ counter < 2 ^ 64 → EncodeRequest (ping_request now counter) = Some line →
  (String.length line <= 1000)%nat.
Proof.
  intros Hc He. pose proof (print_nat_length _ Hc) as Hid.
  pose proof (timestamp_length _ (Time_UnixMilli_int64 now)) as Hts.
  assert (Hesc : escaped (print_nat counter) = print_nat counter).
  { apply escaped_digits. pose proof (print_nat_digits counter ltac:(lia)) as Hd.
    unfold digits_ok in Hd. by apply andb_true_iff in Hd as [_ ?]. }
  unfold ping_request in He. set (ts := Time_UnixMilli now) in *. set (id := print_nat counter) in *.
  assert (Hj : jenc (MkRequest Version id TypePing (MkPayload ts "")) =
    Some (JObj [("version", JStr Version); ("id", JStr id); ("type", JStr TypePing);
                ("payload", JObj (if ts =? 0 then [] else [("timestamp", JNum (int_num ts))]))])).
  { cbn. by destruct (ts =? 0). }
  unfold EncodeRequest, Marshal in He. rewrite Hj in He. injection He as <-.
  assert (Hq : String.length (quote id) = S (S (String.length id))).
  { unfold quote. rewrite Hesc. simpl. rewrite length_app. simpl. lia. }
  clear Hj. set (num := render_num (int_num ts)) in *.
  assert (Hp : print_json (JNum (int_num ts)) = num) by done.
  destruct (ts =? 0); cbn [print_json map commas]; fold num; clearbody num;
    repeat (simpl; rewrite ?Hesc, ?length_app); simpl; lia.
Qed.

(** ** One request on a connection *)

Lemma split_line_printable text :
  str_forall printable text = true → split_line (text +:+ line_end) = Some (text +:+ line_end, "").
Proof.
  intros Hp. apply split_line_app. unfold has_newline. apply negb_false_iff. byte_class Hp.
Qed.

Lemma handle_one s world line resp text :
  is_request (buffer_size s) line →
  Dispatch (tl_dispatcher s) (world 0%nat).1 (world 0%nat).2 line = Some resp →
  EncodeResponse resp = Some text →
  handle s world (λ _, true) line = Some [Wrote (text +:+ line_end)].
Proof.
  intros Hreq Hd He. unfold handle. rewrite <- (string_app_nil line) at 2.
  cbn [handle_loop]. rewrite (ReadSlice_request _ _ _ Hreq), Hd. cbn [mbind option_bind].
  unfold writeResponse. rewrite He.
  destruct Hreq as (body & -> & _ & _). rewrite length_app. simpl. rewrite Nat.add_comm. simpl.
  unfold ReadSlice. simpl. by destruct (Z.leb_spec (buffer_size s) (strlen "")); [unfold strlen, buffer_size in *; simpl in *; lia|].
Qed.

(** ** Properties *)

(** C23: monitor and listener agree.  A ping monitor probing a healthd listener
    (whatever its other handlers, its registry and the clocks) always
    succeeds: the request fits the listener's buffer, is answered, and the
    answer is the pong the probe waits for. *)
Theorem ping_healthy_peer s hs world now counter :
  defaultMaxRequestBytes ≤ tl_maxRequest s → tl_dispatcher s = NewMessageDispatcher hs →
  PingHandler ∈ hs → (∀ h, h ∈ hs → mh_Type h = TypePing → h = PingHandler) →
  (ping_probe (listener_net s world) now counter).2 = None.
Proof.
  intros Hmax Hdisp Hin Huniq. set (counter' := (counter + 1) mod 2 ^ 64).
  assert (Hc : 0 ≤ counter' < 2 ^ 64) by (apply Z.mod_pos_bound; lia).
  pose proof (ping_request_ok now counter' ltac:(lia)) as Hok.
  destruct (request_line _ Hok) as (line & He & Hp & Hd).
  pose proof (ping_request_length _ _ _ Hc He) as Hlen.
  assert (Hreq : is_request (buffer_size s) (line +:+ line_end)).
  { exists line. split; [done|]. split.
    - unfold has_newline. apply negb_false_iff. byte_class Hp.
    - unfold strlen, buffer_size, defaultMaxRequestBytes in *. rewrite length_app. simpl. lia. }
  destruct (answer_to_ping hs (world 0%nat).1 (world 0%nat).2 (ping_request now counter') Hok
    eq_refl eq_refl Hin Huniq _ Hd) as (answer & Hdis & Hans & Hp' & Hda).
  unfold ping_probe, listener_net. cbn [pn_dial pn_write pn_read snd]. fold counter'.
  unfold ping_request in He. rewrite He. change (String newline "") with line_end.
  rewrite (handle_one s world (line +:+ line_end) (NewPong (ping_request now counter')) answer);
    [|done|by rewrite Hdisp|done].
  cbn [mbind option_bind].
  match goal with |- context [split_line ?x] =>
    replace x with (answer +:+ line_end) by (symmetry; apply string_app_nil) end.
  rewrite split_line_printable by done. rewrite Hda. cbn. by rewrite String.eqb_refl.
Qed.

Lemma ping_healthy_peer_witness :
  (ping_probe (listener_net pong_listener idle_world) 1700000000 41).2 = None.
Proof.
  apply (ping_healthy_peer pong_listener [PingHandler]); [reflexivity|reflexivity|set_solver|].
  intros h Hh _. by apply list_elem_of_singleton in Hh.
Defined.
