(* ===== verification/Channels.v ===== *)
(** * The notification channels ([internal/notify]: [console.go], [webhook.go],
    [smsgate.go], [email.go])

    [Notify] of each channel: what it logs or sends and whether it delivers.
    The servers are functions of what is sent to them; the time zone is the
    [Zone] argument.  The texts of errors raised by the standard library are
    parameters. *)

From S2P Require Import Prelude GoTime Slog Float64 GoString Utf8 Strconv Json GoJson.
From S2P Require Import TimeFormat Url Dispatcher.

Local Open Scope string_scope.
Local Open Scope Z_scope.

(** ** HTTP *)

Record HTTPRequest := MkHTTPRequest {
  rq_method : string;
  rq_url : string;
  rq_header : list (string * string);
  rq_body : string;
}.

(** [http.Client.Do] with a timeout: a transport error or a status code. *)
Notation Server := (Duration → HTTPRequest → result string Z).

(** Base64 with padding ([SetBasicAuth]). *)
Definition base64_char (i : Z) : ascii :=
  if i <? 26 then byte_char (65 + i)
  else if i <? 52 then byte_char (97 + (i - 26))
  else if i <? 62 then byte_char (48 + (i - 52))
  else if i =? 62 then "+"%char else "/"%char.

Fixpoint base64 (s : string) : string :=
  match s with
  | "" => ""
  | String a "" =>
      let n := byte_of a * 65536 in
      String (base64_char (n / 262144)) (String (base64_char (n / 4096 mod 64)) "==")
  | String a (String b "") =>
      let n := byte_of a * 65536 + byte_of b * 256 in
      String (base64_char (n / 262144)) (String (base64_char (n / 4096 mod 64))
        (String (base64_char (n / 64 mod 64)) "="))
  | String a (String b (String c rest)) =>
      let n := byte_of a * 65536 + byte_of b * 256 + byte_of c in
      String (base64_char (n / 262144)) (String (base64_char (n / 4096 mod 64))
        (String (base64_char (n / 64 mod 64)) (String (base64_char (n mod 64)) (base64 rest))))
  end.

Definition basic_auth (username password : string) : string * string :=
  ("Authorization", "Basic " +:+ base64 (username +:+ ":" +:+ password)).

Example base64_ex : map base64 ["user:pw"; "a"; "ab"; "abc"; ""] =
  ["dXNlcjpwdw=="; "YQ=="; "YWI="; "YWJj"; ""].
Proof. vm_compute. reflexivity. Qed.

(** ** SMTP *)

(** [smtp.PlainAuth]. *)
Record PlainAuth := MkPlainAuth { pa_username : string; pa_password : string; pa_host : string }.

(** The commands of an SMTP session, and the server's error to each. *)
Inductive SMTPCommand :=
  | TLSDial (addr host : string)
  | NewClient (host : string)
  | Auth (a : PlainAuth)
  | Mail (from : string)
  | Rcpt (to : string)
  | Data
  | Body (msg : string)
  | CloseBody
  | QuitSession.

Notation SMTPServer := (SMTPCommand → option string).

Section texts.
Context (marshal_error : string) (url_error : string → string).

(** The exchange both HTTP channels end with: the requests sent and the
    outcome; [who] starts the error messages. *)
Definition http_post (server : Server) (timeout : Duration) (who : string) (req : HTTPRequest)
    : list HTTPRequest * outcome :=
  match url_Parse (rq_url req) with
  | None => ([], Failed (who +:+ " request: " +:+ url_error (rq_url req)))
  | Some _ =>
      ([req],
       match server timeout req with
       | Err e => Failed (who +:+ " post: " +:+ e)
       | Ok code =>
           if (code <? 200) || (300 <=? code)
           then Failed (who +:+ " non-2xx status: " +:+ print_int code) else Delivered
       end)
  end.

(** ** Console *)

(** A console writes to the daemon's logger. *)
Inductive Console := MkConsole.

Definition NewConsole : Console := MkConsole.

Definition Console_Notify (alert : Alert) (l : Logger) : Logger * outcome :=
  let level := if String.eqb (al_State alert) "UNHEALTHY" then LevelWarn else LevelInfo in
  (Logger_log level "alert"
     [("role", SString (al_Role alert));
      ("state", SString (al_State alert));
      ("timestamp", STime (al_Timestamp alert));
      ("detail", SString (al_Detail alert));
      ("consecutive_failures", SInt (al_ConsecutiveFailures alert))] l,
   Delivered).

(** ** Webhook *)

Record Webhook := MkWebhook { wh_url : string; wh_timeout : Duration }.

Definition NewWebhook (url : string) (timeout : Duration) : Webhook := MkWebhook url timeout.

(** The JSON of an alert ([json.Marshal] of the tagged fields). *)
Definition alert_json (zone : Zone) (a : Alert) : option json :=
  ts ← marshal_time zone (al_Timestamp a);
  Some (JObj [("role", JStr (al_Role a)); ("state", JStr (al_State a)); ("timestamp", JStr ts);
              ("detail", JStr (al_Detail a));
              ("consecutive_failures", JNum (int_num (al_ConsecutiveFailures a)))]).

Definition json_content : string * string := ("Content-Type", "application/json").

Definition Webhook_Notify (server : Server) (zone : Zone) (w : Webhook) (alert : Alert)
    : list HTTPRequest * outcome :=
  match alert_json zone alert with
  | None => ([], Failed ("webhook marshal: " +:+ marshal_error))
  | Some j =>
      http_post server (wh_timeout w) "webhook"
        (MkHTTPRequest "POST" (wh_url w) [json_content] (print_json j))
  end.

(** ** SMS gateway *)

Record SMSGate := MkSMSGate {
  sg_baseURL : string;
  sg_username : string;
  sg_password : string;
  sg_recipients : list string;
  sg_timeout : Duration;
}.

(** [strings.TrimRight(s, "/")]. *)
Fixpoint trim_slashes (s : string) : string :=
  match s with
  | "" => ""
  | String c rest =>
      let r := trim_slashes rest in
      if Ascii.eqb c "/" && String.eqb r "" then "" else String c r
  end.

Definition NewSMSGate (baseURL username password : string) (recipients : list string)
    (timeout : Duration) : SMSGate :=
  MkSMSGate (trim_slashes baseURL) username password recipients timeout.

Record smsMessage := MkSmsMessage { sms_Message : string; sms_PhoneNumbers : list string }.

#[export] Instance sms_codec : JsonCodec smsMessage :=
  struct_codec
    [mk_field "message" false sms_Message (λ x m, MkSmsMessage x (sms_PhoneNumbers m));
     mk_field "phoneNumbers" false sms_PhoneNumbers (λ x m, MkSmsMessage (sms_Message m) x)]
    (MkSmsMessage "" []).

Definition SMSGate_Notify (server : Server) (s : SMSGate) (alert : Alert)
    : list HTTPRequest * outcome :=
  let text := "[healthd] " +:+ al_Role alert +:+ " " +:+ al_State alert +:+ ": " +:+
              al_Detail alert in
  match Marshal (MkSmsMessage text (sg_recipients s)) with
  | None => ([], Failed ("smsgate marshal: " +:+ marshal_error))
  | Some body =>
      http_post server (sg_timeout s) "smsgate"
        (MkHTTPRequest "POST" (sg_baseURL s +:+ "/message")
           [json_content; basic_auth (sg_username s) (sg_password s)] body)
  end.

(** ** Email *)

Definition implicitTLSPort : Z := 465.
Definition useImplicitTLS (port : Z) : bool := port =? implicitTLSPort.

Inductive SendFunc := SendMail | SendImplicitTLS.

Record Email := MkEmail {
  em_host : string;
  em_port : Z;
  em_from : string;
  em_to : list string;
  em_username : string;
  em_password : string;
  em_send : SendFunc;
}.

Definition NewEmail (host : string) (port : Z) (from : string) (to : list string)
    (username password : string) : Email :=
  MkEmail host port from to username password
    (if useImplicitTLS port then SendImplicitTLS else SendMail).

Definition crlf : string := String "013" (String "010" "").

(** [strings.Join]. *)
Fixpoint join (sep : string) (l : list string) : string :=
  match l with
  | [] => ""
  | [x] => x
  | x :: l => x +:+ sep +:+ join sep l
  end.

Definition buildMessage (zone : Zone) (from : string) (to : list string) (subject : string)
    (alert : Alert) : string :=
  "From: " +:+ from +:+ crlf +:+
  "To: " +:+ join ", " to +:+ crlf +:+
  "Subject: " +:+ subject +:+ crlf +:+
  "Date: " +:+ format_RFC1123Z zone (al_Timestamp alert) +:+ crlf +:+
  "Content-Type: text/plain; charset=UTF-8" +:+ crlf +:+
  crlf +:+
  "Role: " +:+ al_Role alert +:+ crlf +:+
  "State: " +:+ al_State alert +:+ crlf +:+
  "Time: " +:+ format_RFC3339 false zone (al_Timestamp alert) +:+ crlf +:+
  "Consecutive failures: " +:+ print_int (al_ConsecutiveFailures alert) +:+ crlf +:+
  "Detail: " +:+ al_Detail alert +:+ crlf.

(** Text split at the last occurrence of a byte. *)
Fixpoint split_last (c : ascii) (s : string) : option (string * string) :=
  match s with
  | "" => None
  | String d rest =>
      match split_last c rest with
      | Some (a, b) => Some (String d a, b)
      | None => if Ascii.eqb d c then Some ("", rest) else None
      end
  end.

(** Text split at the first occurrence of a byte. *)
Fixpoint split_first (c : ascii) (s : string) : option (string * string) :=
  match s with
  | "" => None
  | String d rest =>
      if Ascii.eqb d c then Some ("", rest)
      else '(a, b) ← split_first c rest; Some (String d a, b)
  end.

(** The host of [net.SplitHostPort]: before the last colon, without colons, or
    in brackets; no other bracket anywhere. *)
Definition SplitHost (addr : string) : option string :=
  '(before, port) ← split_last ":" addr;
  if mem "[" port || mem "]" port then None
  else
    match before with
    | String "[" inner =>
        '(host, rest) ← split_first "]" inner;
        if String.eqb rest "" && negb (mem "[" host) then Some host else None
    | _ => if mem ":" before || mem "[" before || mem "]" before then None else Some before
    end.

(** A command prefixed, on failure, by its message; then the rest. *)
Definition smtp_step (server : SMTPServer) (c : SMTPCommand) (prefix : string)
    (rest : list SMTPCommand * option string) : list SMTPCommand * option string :=
  match server c with
  | Some e => ([c], Some (prefix +:+ e))
  | None => (c :: rest.1, rest.2)
  end.

Definition sendImplicitTLS (server : SMTPServer) (addr : string) (auth : option PlainAuth)
    (from : string) (to : list string) (msg : string) : list SMTPCommand * option string :=
  match SplitHost addr with
  | None => ([], Some ("split host: " +:+ url_error addr))
  | Some host =>
      smtp_step server (TLSDial addr host) "tls dial: " (
      smtp_step server (NewClient host) "smtp client: " (
      (λ rest, match auth with
               | Some a => smtp_step server (Auth a) "auth: " rest
               | None => rest
               end) (
      smtp_step server (Mail from) "mail from: " (
      foldr (λ rcpt, smtp_step server (Rcpt rcpt) ("rcpt " +:+ rcpt +:+ ": ")) (
      smtp_step server Data "data: " (
      smtp_step server (Body msg) "write body: " (
      smtp_step server CloseBody "close body: " (
      smtp_step server QuitSession "" ([], None))))) to))))
  end.

(** What the sending goroutine does, and which case of the [select] fires. *)
Record MailNet := MkMailNet {
  mn_SendMail : string → option PlainAuth → string → list string → string → outcome;
  mn_smtp : SMTPServer;
  mn_smtp_panic : option string;   (* the SMTP library panics *)
  mn_ctx : option string;          (* the context is done first *)
}.

(** The recovered goroutine: a panic becomes an error. *)
Definition recovered (o : outcome) : option string :=
  match o with
  | Delivered => None
  | Failed e => Some e
  | Panicked v => Some ("email send panic: " +:+ v)
  end.

Definition run_send (net : MailNet) (e : Email) (addr : string) (auth : option PlainAuth)
    (msg : string) : outcome :=
  match em_send e with
  | SendMail => mn_SendMail net addr auth (em_from e) (em_to e) msg
  | SendImplicitTLS =>
      match mn_smtp_panic net with
      | Some v => Panicked v
      | None =>
          match (sendImplicitTLS (mn_smtp net) addr auth (em_from e) (em_to e) msg).2 with
          | Some err => Failed err
          | None => Delivered
          end
      end
  end.

(** The address, the credentials and the message of one alert. *)
Definition email_parts (zone : Zone) (e : Email) (alert : Alert)
    : string * option PlainAuth * string :=
  (em_host e +:+ ":" +:+ print_int (em_port e),
   if String.eqb (em_username e) "" then None
   else Some (MkPlainAuth (em_username e) (em_password e) (em_host e)),
   buildMessage zone (em_from e) (em_to e)
     ("[healthd] " +:+ al_Role alert +:+ " " +:+ al_State alert) alert).

Definition Email_Notify (net : MailNet) (zone : Zone) (e : Email) (alert : Alert) : outcome :=
  let '(addr, auth, msg) := email_parts zone e alert in
  match mn_ctx net with
  | Some err => Failed err
  | None =>
      match recovered (run_send net e addr auth msg) with
      | Some err => Failed ("email send: " +:+ err)
      | None => Delivered
      end
  end.

End texts.

(** ** Lemmas *)

(** Text without CR or LF. *)
Definition no_crlf (c : ascii) : bool := negb (Ascii.eqb c "013") && negb (Ascii.eqb c "010").
Notation plain s := (str_forall no_crlf s = true).

(** The reader's side: the line up to CRLF, and the header of a message, which
    the first empty line ends. *)
Fixpoint read_line (s : string) : option (string * string) :=
  match s with
  | String c (String d rest as s') =>
      if Ascii.eqb c "013" && Ascii.eqb d "010" then Some ("", rest)
      else '(line, rest) ← read_line s'; Some (String c line, rest)
  | _ => None
  end.

Fixpoint read_header (fuel : nat) (s : string) : option (list string * string) :=
  match fuel with
  | O => None
  | S fuel =>
      '(line, rest) ← read_line s;
      if String.eqb line "" then Some ([], rest)
      else '(lines, body) ← read_header fuel rest; Some (line :: lines, body)
  end.

Lemma read_line_plain line rest :
  plain line → read_line (line +:+ crlf +:+ rest) = Some (line, rest).
Proof.
  induction line as [|c line IH]; intros H; [done|]. apply andb_true_iff in H as [Hc Hl].
  specialize (IH Hl). unfold no_crlf in Hc. apply andb_true_iff in Hc as [Hc _].
  apply negb_true_iff in Hc. rewrite string_app_cons.
  destruct (line +:+ crlf +:+ rest) as [|d s] eqn:E; [by destruct line|].
  cbn [read_line]. rewrite Hc. cbn [andb]. cbn [read_line] in IH. by rewrite IH.
Qed.

Lemma read_header_line fuel line rest :
  plain line → line ≠ "" →
  read_header (S fuel) (line +:+ crlf +:+ rest) =
    ('(lines, body) ← read_header fuel rest; Some (line :: lines, body)).
Proof.
  intros Hp Hne. cbn [read_header]. rewrite read_line_plain by done. cbn [mbind option_bind].
  by destruct (String.eqb_spec line "").
Qed.

Lemma plain_app s t : plain s → plain t → plain (s +:+ t).
Proof. intros Hs Ht. by rewrite str_forall_app, Hs, Ht. Qed.

Lemma read_header_field fuel name value rest :
  plain name → name ≠ "" → plain value →
  read_header (S fuel) (name +:+ value +:+ crlf +:+ rest) =
    ('(lines, body) ← read_header fuel rest; Some ((name +:+ value) :: lines, body)).
Proof.
  intros Hn Hne Hv. rewrite <- string_app_assoc.
  apply read_header_line; [by apply plain_app|]. destruct name; [done|]. by rewrite string_app_cons.
Qed.

Lemma plain_join sep l : plain sep → Forall (λ s, plain s) l → plain (join sep l).
Proof.
  intros Hsep. induction 1 as [|x l Hx Hl IH]; [done|].
  destruct l as [|y l]; [done|]. by repeat apply plain_app.
Qed.

Lemma plain_zeros n : plain (zeros n).
Proof. by induction n. Qed.

Lemma plain_print_nat z : 0 ≤ z → plain (print_nat z).
Proof.
  intros Hz. pose proof (print_nat_digits z Hz) as H. unfold digits_ok in H.
  apply andb_true_iff in H as [_ H]. byte_class H.
Qed.

Lemma plain_pad w z : plain (pad w z).
Proof.
  unfold pad. repeat apply plain_app; [by destruct (z <? 0)|apply plain_zeros|].
  apply plain_print_nat. lia.
Qed.

Lemma plain_name names i :
  forallb (str_forall no_crlf) names = true → plain (nth_name names i).
Proof.
  unfold nth_name. intros H. rewrite forallb_forall in H.
  destruct (names !! _) as [s|] eqn:E; [|done].
  apply H, list_elem_of_In. by eapply list_elem_of_lookup_2.
Qed.

Lemma plain_RFC1123Z zone t : plain (format_RFC1123Z zone t).
Proof.
  unfold format_RFC1123Z, zone_text.
  rewrite !str_forall_app, !plain_pad, !plain_name by done. by destruct (Z.quot _ _ <? 0).
Qed.

(** The commands of a session of the implicit-TLS sender. *)
Definition smtp_session (addr host : string) (auth : option PlainAuth) (from : string)
    (to : list string) (msg : string) : list SMTPCommand :=
  ([TLSDial addr host; NewClient host] ++ (match auth with Some a => [Auth a] | None => [] end) ++
   [Mail from] ++ (Rcpt <$> to) ++ [Data; Body msg; CloseBody; QuitSession])%list.

(** A session stops at the first command the server refuses. *)
Fixpoint until_error (server : SMTPServer) (cs : list SMTPCommand) : list SMTPCommand * bool :=
  match cs with
  | [] => ([], true)
  | c :: cs =>
      match server c with
      | Some _ => ([c], false)
      | None => let '(sent, ok) := until_error server cs in (c :: sent, ok)
      end
  end.

Definition session_like (server : SMTPServer) (cs : list SMTPCommand)
    (r : list SMTPCommand * option string) : Prop :=
  r.1 = (until_error server cs).1 ∧ (r.2 = None ↔ (until_error server cs).2 = true).

Lemma smtp_step_like server c prefix cs r :
  session_like server cs r → session_like server (c :: cs) (smtp_step server c prefix r).
Proof.
  intros [H1 H2]. unfold session_like, smtp_step. cbn [until_error].
  destruct (server c); [done|]. destruct (until_error server cs) as [sent ok]. simpl in *.
  by rewrite H1, H2.
Qed.

Lemma until_error_prefix server cs : (until_error server cs).1 `prefix_of` cs.
Proof.
  induction cs as [|c cs IH]; [done|]. cbn [until_error].
  destruct (server c); [by exists cs|]. destruct (until_error server cs) as [sent ok].
  by apply prefix_cons.
Qed.

Lemma sendImplicitTLS_like url_error server addr host auth from to msg :
  SplitHost addr = Some host →
  session_like server (smtp_session addr host auth from to msg)
    (sendImplicitTLS url_error server addr auth from to msg).
Proof.
  intros Hh. unfold sendImplicitTLS, smtp_session. rewrite Hh. simpl.
  do 2 apply smtp_step_like.
  assert (Hrest : session_like server
    (Mail from :: (Rcpt <$> to) ++ [Data; Body msg; CloseBody; QuitSession])
    (smtp_step server (Mail from) "mail from: "
      (foldr (λ rcpt, smtp_step server (Rcpt rcpt) ("rcpt " +:+ rcpt +:+ ": "))
        (smtp_step server Data "data: " (smtp_step server (Body msg) "write body: "
          (smtp_step server CloseBody "close body: " (smtp_step server QuitSession "" ([], None)))))
        to))).
  { apply smtp_step_like. induction to as [|rcpt to IH]; simpl.
    - do 4 apply smtp_step_like. by split.
    - by apply smtp_step_like. }
  destruct auth; simpl; [by apply smtp_step_like|done].
Qed.

Lemma split_last_app c s port :
  mem c port = false → split_last c (s +:+ String c port) = Some (s, port).
Proof.
  intros Hp. induction s as [|d s IH].
  - change ("" +:+ ?x) with x. cbn [split_last].
    assert (split_last c port = None) as ->; [|by rewrite Ascii.eqb_refl].
    unfold mem in Hp. apply negb_false_iff in Hp.
    induction port as [|x port IH]; [done|]. apply andb_true_iff in Hp as [Hx Hp].
    cbn [split_last]. rewrite IH by done. apply negb_true_iff in Hx. by rewrite Ascii.eqb_sym, Hx.
  - rewrite string_app_cons. cbn [split_last]. by rewrite IH.
Qed.

Lemma SplitHost_port host :
  mem ":" host = false → mem "[" host = false → mem "]" host = false →
  SplitHost (host +:+ ":" +:+ print_int 465) = Some host.
Proof.
  intros Hc Hl Hr. unfold SplitHost.
  change (":" +:+ print_int 465) with (String ":" "465"). rewrite split_last_app by done.
  cbn [mbind option_bind].
  destruct host as [|c host]; [done|].
  assert (Hb : c ≠ "["%char).
  { intros ->. discriminate Hl. }
  rewrite Hc, Hl, Hr. change (mem "[" "465" || mem "]" "465") with false. cbn iota.
  cbn [orb]. destruct c as [[] [] [] [] [] [] [] []]; done.
Qed.

Lemma until_error_all server cs :
  (until_error server cs).2 = true ↔ ∀ c, c ∈ cs → server c = None.
Proof.
  induction cs as [|c cs IH]; [split; [|done]; intros _ c Hc; by apply elem_of_nil in Hc|].
  cbn [until_error]. destruct (server c) eqn:E.
  - split; [done|]. intros H. specialize (H c (list_elem_of_here _ _)). congruence.
  - destruct (until_error server cs) as [sent ok]. simpl in *. rewrite IH. set_solver.
Qed.

(** Every command before one that was sent was accepted. *)
Lemma until_error_before server before c after :
  c ∉ before → c ∈ (until_error server (before ++ c :: after)).1 →
  ∀ d, d ∈ before → server d = None.
Proof.
  induction before as [|x before IH]; intros Hc Hin d Hd; [by apply elem_of_nil in Hd|].
  apply not_elem_of_cons in Hc as [Hx Hc]. simpl in Hin.
  destruct (server x) eqn:E; simpl in Hin.
  - by apply list_elem_of_singleton in Hin.
  - destruct (until_error server (before ++ c :: after)) as [sent ok]. simpl in *.
    apply elem_of_cons in Hin as [|Hin]; [done|].
    apply elem_of_cons in Hd as [->|Hd]; [done|]. by apply IH.
Qed.

(** The commands before the message. *)
Definition before_body (addr host : string) (auth : option PlainAuth) (from : string)
    (to : list string) : list SMTPCommand :=
  ([TLSDial addr host; NewClient host] ++ (match auth with Some a => [Auth a] | None => [] end) ++
   [Mail from] ++ (Rcpt <$> to) ++ [Data])%list.

Lemma smtp_session_body addr host auth from to msg :
  smtp_session addr host auth from to msg =
    (before_body addr host auth from to ++ Body msg :: [CloseBody; QuitSession])%list.
Proof. unfold smtp_session, before_body. by rewrite <- !app_assoc. Qed.

Lemma before_body_not addr host auth from to msg : Body msg ∉ before_body addr host auth from to.
Proof.
  unfold before_body. rewrite !elem_of_app, list_elem_of_fmap. intros H.
  destruct auth; set_solver.
Qed.

Lemma http_post_spec url_error server timeout who req u :
  url_Parse (rq_url req) = Some u →
  ∃ o, http_post url_error server timeout who req = ([req], o) ∧
    (o = Delivered ↔ ∃ code, server timeout req = Ok code ∧ 200 ≤ code < 300) ∧
    ∀ v, o ≠ Panicked v.
Proof.
  intros Hu. unfold http_post. rewrite Hu. eexists. split; [done|].
  destruct (server timeout req) as [code|e]; [|naive_solver].
  destruct ((code <? 200) || (300 <=? code)) eqn:E; split; try done.
  - split; [done|]. intros (c & [= <-] & Hc). lia.
  - split; [|done]. intros _. exists code. split; [done|]. lia.
Qed.

Lemma survives_sms text recipients :
  valid_utf8 text → Forall valid_utf8 recipients → survives 2 (MkSmsMessage text recipients).
Proof.
  intros Ht Hr. apply (struct_survives 1); [lia|].
  next_field ltac:(by apply survives_string).
  next_field ltac:(apply (survives_slice _ 0); [lia|]; eapply Forall_impl; [exact Hr|];
                   intros; by apply survives_string). done.
Qed.

(** ** Properties *)

(** C35: the mail cannot be forged by what a check saw.  With sender,
    recipients, role and state free of line breaks, a reader of the message
    finds exactly the five headers, and the detail, whatever bytes it holds,
    is part of the body only. *)
Theorem buildMessage_headers zone from to alert :
  let subject := "[healthd] " +:+ al_Role alert +:+ " " +:+ al_State alert in
  plain from → Forall (λ s, plain s) to → plain (al_Role alert) → plain (al_State alert) →
  ∃ body,
    read_header 6 (buildMessage zone from to subject alert) =
      Some (["From: " +:+ from; "To: " +:+ join ", " to; "Subject: " +:+ subject;
             "Date: " +:+ format_RFC1123Z zone (al_Timestamp alert);
             "Content-Type: text/plain; charset=UTF-8"]%list, body) ∧
    ∃ fields, body = fields +:+ "Detail: " +:+ al_Detail alert +:+ crlf.
Proof.
  intros subject Hf Ht Hr Hs. unfold buildMessage.
  assert (Hsub : plain subject) by (unfold subject; by repeat apply plain_app).
  pose proof (plain_RFC1123Z zone (al_Timestamp alert)) as Hd.
  pose proof (plain_join ", " to eq_refl Ht) as Hto.
  set (fields := "Role: " +:+ al_Role alert +:+ crlf +:+ "State: " +:+ al_State alert +:+ crlf +:+
    "Time: " +:+ format_RFC3339 false zone (al_Timestamp alert) +:+ crlf +:+
    "Consecutive failures: " +:+ print_int (al_ConsecutiveFailures alert) +:+ crlf).
  exists (fields +:+ "Detail: " +:+ al_Detail alert +:+ crlf). split; [|by exists fields].
  rewrite !read_header_field by done. rewrite read_header_line by done.
  cbn [read_header]. match goal with |- context [read_line (crlf +:+ ?x)] =>
    change (crlf +:+ x) with ("" +:+ crlf +:+ x) end.
  rewrite read_line_plain by done. unfold fields. by rewrite !string_app_assoc.
Qed.

(** C36: mail over implicit TLS.  An email channel on port 465 (whose host has no
    colon or bracket) delivers exactly when the context is not done first and
    the server accepts every command of the session: connection, greeting,
    credentials when configured, sender, each recipient in order, message,
    end.  On any refusal it stops at that command, so the message is sent only
    after every recipient is accepted, and a panic of the library is an
    error. *)
Theorem implicit_tls_delivers url_error net zone host from to user pass alert :
  mem ":" host = false → mem "[" host = false → mem "]" host = false →
  let e := NewEmail host 465 from to user pass in
  let '(addr, auth, msg) := email_parts zone e alert in
  let session := smtp_session addr host auth from to msg in
  (Email_Notify url_error net zone e alert = Delivered ↔
     mn_ctx net = None ∧ mn_smtp_panic net = None ∧ ∀ c, c ∈ session → mn_smtp net c = None) ∧
  (∀ v, Email_Notify url_error net zone e alert ≠ Panicked v) ∧
  let sent := (sendImplicitTLS url_error (mn_smtp net) addr auth from to msg).1 in
  sent `prefix_of` session ∧
  (Body msg ∈ sent → ∀ rcpt, rcpt ∈ to → mn_smtp net (Rcpt rcpt) = None).
Proof.
  intros Hc Hl Hr e. destruct (email_parts zone e alert) as [[addr auth] msg] eqn:Hparts.
  assert (Haddr : SplitHost addr = Some host).
  { injection Hparts as <- _ _. apply SplitHost_port; done. }
  pose proof (sendImplicitTLS_like url_error (mn_smtp net) addr host auth from to msg Haddr) as [H1 H2].
  set (session := smtp_session addr host auth from to msg) in *.
  unfold Email_Notify, run_send. rewrite Hparts. cbn [em_send e NewEmail em_from em_to].
  change (em_send e) with SendImplicitTLS. cbn iota.
  split; [|split; [|split]].
  - rewrite <- until_error_all, <- H2.
    destruct (mn_ctx net), (mn_smtp_panic net); simpl; [naive_solver..|].
    destruct (sendImplicitTLS _ _ _ _ _ _ _).2; simpl; naive_solver.
  - intros v. destruct (mn_ctx net); [done|]. by destruct (recovered _).
  - rewrite H1. apply until_error_prefix.
  - rewrite H1. intros Hin rcpt Hrc.
    unfold session in Hin. rewrite smtp_session_body in Hin.
    apply (until_error_before _ _ _ _ (before_body_not _ _ _ _ _ _) Hin).
    unfold before_body. set_solver.
Qed.

Definition mail_net (down : option string) : MailNet :=
  MkMailNet (λ _ _ _ _ _, Failed "unused") (λ c, match c with Rcpt _ => down | _ => None end) None None.

Lemma implicit_tls_delivers_witness :
  ∃ addr auth msg,
    email_parts utc (NewEmail "smtp.example.com" 465 "a@x" ["b@x"; "c@x"] "a@x" "pw")
      (MkAlert "ping_monitor" "UNHEALTHY" 0 "down" 3) = (addr, auth, msg) ∧
    ((Email_Notify (λ s, s) (mail_net None) utc
        (NewEmail "smtp.example.com" 465 "a@x" ["b@x"; "c@x"] "a@x" "pw")
        (MkAlert "ping_monitor" "UNHEALTHY" 0 "down" 3) = Delivered) ↔
     mn_ctx (mail_net None) = None ∧ mn_smtp_panic (mail_net None) = None ∧
     ∀ c, c ∈ smtp_session addr "smtp.example.com" auth "a@x" ["b@x"; "c@x"] msg →
          mn_smtp (mail_net None) c = None).
Proof.
  pose proof (implicit_tls_delivers (λ s, s) (mail_net None) utc "smtp.example.com" "a@x"
    ["b@x"; "c@x"] "a@x" "pw" (MkAlert "ping_monitor" "UNHEALTHY" 0 "down" 3)
    eq_refl eq_refl eq_refl) as H.
  cbv zeta in H. destruct (email_parts _ _ _) as [[addr auth] msg].
  exists addr, auth, msg. split; [reflexivity|]. exact (proj1 H).
Defined.

Lemma buildMessage_headers_witness :
  ∃ body,
    read_header 6 (buildMessage utc "a@x" ["b@x"; "c@x"] "[healthd] url_monitor UNHEALTHY"
      (MkAlert "url_monitor" "UNHEALTHY" 0 ("x" +:+ crlf +:+ "Bcc: evil@x") 3)) =
      Some (["From: a@x"; "To: b@x, c@x"; "Subject: [healthd] url_monitor UNHEALTHY";
             "Date: Mon, 01 Jan 0001 00:00:00 +0000"; "Content-Type: text/plain; charset=UTF-8"]%list,
            body).
Proof.
  destruct (buildMessage_headers utc "a@x" ["b@x"; "c@x"]
    (MkAlert "url_monitor" "UNHEALTHY" 0 ("x" +:+ crlf +:+ "Bcc: evil@x") 3))
    as (body & H & _); [reflexivity|by repeat constructor|reflexivity|reflexivity|].
  exists body. exact H.
Defined.

(** C37: a webhook delivery.  Exactly one POST is sent, to the configured URL;
    its body is JSON that decodes to the alert's five members; and it is
    delivered exactly when the server answers with a 2xx status. *)
Theorem Webhook_delivers marshal_error url_error server zone w alert u j :
  url_Parse (wh_url w) = Some u → alert_json zone alert = Some j →
  ∃ req o,
    Webhook_Notify marshal_error url_error server zone w alert = ([req], o) ∧
    rq_method req = "POST" ∧ rq_url req = wh_url w ∧ rq_header req = [json_content] ∧
    parse_json (rq_body req) = Some (san_json j) ∧
    (o = Delivered ↔ ∃ code, server (wh_timeout w) req = Ok code ∧ 200 ≤ code < 300) ∧
    (∀ v, o ≠ Panicked v).
Proof.
  intros Hu Hj. unfold Webhook_Notify. rewrite Hj.
  destruct (http_post_spec url_error server (wh_timeout w) "webhook"
    (MkHTTPRequest "POST" (wh_url w) [json_content] (print_json j)) u Hu) as (o & Ho & Hd & Hp).
  eexists _, o. split; [exact Ho|]. split_and!; try done.
  simpl. rewrite <- (string_app_nil (print_json j)). apply parse_print; try done.
  - unfold alert_json in Hj. destruct (marshal_time _ _); [|done]. injection Hj as <-.
    simpl. by rewrite int_num_ok.
  - unfold alert_json in Hj. destruct (marshal_time _ _); [|done]. injection Hj as <-. done.
Qed.

(** C38: an SMS delivery.  Exactly one authenticated POST is sent, to the
    gateway's message endpoint; its body decodes to the text and all
    recipients; and it is delivered exactly on a 2xx status. *)
Theorem SMSGate_delivers marshal_error url_error server baseURL user pass recipients timeout alert u :
  let s := NewSMSGate baseURL user pass recipients timeout in
  let text := "[healthd] " +:+ al_Role alert +:+ " " +:+ al_State alert +:+ ": " +:+ al_Detail alert in
  url_Parse (trim_slashes baseURL +:+ "/message") = Some u →
  valid_utf8 text → Forall valid_utf8 recipients →
  ∃ req o,
    SMSGate_Notify marshal_error url_error server s alert = ([req], o) ∧
    rq_method req = "POST" ∧ rq_url req = trim_slashes baseURL +:+ "/message" ∧
    rq_header req = [json_content; basic_auth user pass] ∧
    Unmarshal (rq_body req) = Some (MkSmsMessage text recipients) ∧
    (o = Delivered ↔ ∃ code, server timeout req = Ok code ∧ 200 ≤ code < 300) ∧
    (∀ v, o ≠ Panicked v).
Proof.
  intros s text Hu Ht Hr. unfold SMSGate_Notify. fold text.
  destruct (Unmarshal_Marshal (MkSmsMessage text recipients) 2 "" (survives_sms _ _ Ht Hr))
    as (body & Hb & _ & Hd); [done..|].
  rewrite string_app_nil in Hd. change (sg_recipients s) with recipients. rewrite Hb.
  destruct (http_post_spec url_error server timeout "smsgate"
    (MkHTTPRequest "POST" (trim_slashes baseURL +:+ "/message") [json_content; basic_auth user pass]
       body) u Hu) as (o & Ho & Hdel & Hp).
  eexists _, o. split; [exact Ho|]. by split_and!.
Qed.

Definition sample_alert : Alert := MkAlert "speed_check" "UNHEALTHY" (time_of_unix_milli 1700000000123) "slow" 2.
Definition accepting : Server := λ _ _, Ok 202.

Lemma Webhook_delivers_witness :
  ∃ req o,
    Webhook_Notify "err" (λ s, s) accepting utc (NewWebhook "https://hooks.example.com/x" (5 * Second))
      sample_alert = ([req], o) ∧
    rq_url req = "https://hooks.example.com/x" ∧
    (o = Delivered ↔ ∃ code, accepting (5 * Second) req = Ok code ∧ 200 ≤ code < 300).
Proof.
  assert (Hu : ∃ u, url_Parse "https://hooks.example.com/x" = Some u)
    by (eexists; vm_compute; reflexivity).
  assert (Hj : ∃ j, alert_json utc sample_alert = Some j) by (eexists; vm_compute; reflexivity).
  destruct Hu as [u Hu]. destruct Hj as [j Hj].
  destruct (Webhook_delivers "err" (λ s, s) accepting utc
    (NewWebhook "https://hooks.example.com/x" (5 * Second)) sample_alert u j Hu Hj)
    as (req & o & H & _ & Hurl & _ & _ & Hd & _).
  exists req, o. split; [exact H|]. split; [exact Hurl|exact Hd].
Defined.

Lemma SMSGate_delivers_witness :
  ∃ req o,
    SMSGate_Notify "err" (λ s, s) accepting
      (NewSMSGate "http://gate.example.com/" "u" "pw" ["+15550100"] (5 * Second)) sample_alert
      = ([req], o) ∧
    rq_url req = "http://gate.example.com/message" ∧
    Unmarshal (rq_body req) =
      Some (MkSmsMessage "[healthd] speed_check UNHEALTHY: slow" ["+15550100"]).
Proof.
  assert (Hu : ∃ u, url_Parse (trim_slashes "http://gate.example.com/" +:+ "/message") = Some u)
    by (eexists; vm_compute; reflexivity).
  destruct Hu as [u Hu].
  destruct (SMSGate_delivers "err" (λ s, s) accepting "http://gate.example.com/" "u" "pw"
    ["+15550100"] (5 * Second) sample_alert u Hu) as (req & o & H & _ & Hurl & _ & Hb & _).
  - by apply valid_ascii.
  - repeat constructor. by apply valid_ascii.
  - exists req, o. split; [exact H|]. split; [exact Hurl|exact Hb].
Defined.
