(* ===== verification/Wiring.v ===== *)
(** * Wiring the daemon ([cmd/healthd/main.go]: [buildChannels], [monitorConfig],
    [buildRoles])

    From the configuration file to the notification channels and the roles,
    with their registrations.  [readFile] is the file system, [getenv] the
    environment, [parse_error] the text of the JSON decoder's error; a panic of
    a constructor is [None].  The theorems compose the loading of the file with
    the monitors' runs: what [Load] accepts, the daemon can build and run. *)

From S2P Require Import Prelude GoTime Slog Float64 GoString GoJson.
From S2P Require Import Window Availability History StateMachine Registry Dispatcher.
From S2P Require Import Channels Protocol Handlers Listener Checks Group Units.
From S2P Require Config ConfigFile.

Local Open Scope string_scope.
Local Open Scope Z_scope.

Import Config (c_Roles, c_Channels, c_Retry, c_SummaryIntervalS).

(** ** Channels *)

Inductive Service :=
  | SvcConsole (c : Console)
  | SvcWebhook (w : Webhook)
  | SvcEmail (e : Email)
  | SvcSMSGate (s : SMSGate).

Inductive BuildError := UnknownChannelType (name type : string).

Definition buildChannel (getenv : string → string) (name : string) (ch : Config.Channel)
    : result BuildError Service :=
  let ty := Config.ch_Type ch in
  let timeout := int_mul (Config.ch_TimeoutMS ch) Millisecond in
  if String.eqb ty Config.ChannelConsole then Ok (SvcConsole NewConsole)
  else if String.eqb ty Config.ChannelWebhook then
    Ok (SvcWebhook (NewWebhook (Config.ch_URL ch) timeout))
  else if String.eqb ty Config.ChannelEmail then
    Ok (SvcEmail (NewEmail (Config.ch_SMTPHost ch) (Config.ch_Port ch) (Config.ch_From ch)
                    (Config.ch_To ch) (Config.ch_Username ch) (getenv (Config.ch_PasswordEnv ch))))
  else if String.eqb ty Config.ChannelSMSGate then
    Ok (SvcSMSGate (NewSMSGate (Config.ch_BaseURL ch) (Config.ch_Username ch)
                      (getenv (Config.ch_PasswordEnv ch)) (Config.ch_Recipients ch) timeout))
  else Err (UnknownChannelType name ty).

Definition channel_step (getenv : string → string) (cfg : Config.Config)
    (out : result BuildError (gmap string Service)) (name : string)
    : result BuildError (gmap string Service) :=
  out ← out;
  match c_Channels cfg !! name with
  | None => Ok out
  | Some ch => svc ← buildChannel getenv name ch; Ok (<[name := svc]> out)
  end.

(** [order] is the iteration order of the channel map. *)
Definition buildChannels (getenv : string → string) (order : list string) (cfg : Config.Config)
    : result BuildError (gmap string Service) :=
  foldl (channel_step getenv cfg) (Ok ∅) order.

(** ** Roles *)

Definition monitorConfig (trigger : string) (windowSize failureThreshold : Z)
    (minAvailability : float64) : MonitorConfig :=
  let t := if String.eqb trigger Config.TriggerAvailabilityName
           then TriggerAvailability else TriggerConsecutive in
  {| mc_FailureThreshold := failureThreshold; mc_WindowSize := windowSize; mc_Trigger := t;
     mc_MinAvailability := minAvailability |}.

Definition params_config (p : Config.MonitorParams) : MonitorConfig :=
  monitorConfig (Config.mp_Trigger p) (Config.mp_WindowSize p) (Config.mp_FailureThreshold p)
    (Config.mp_MinAvailability p).

Inductive role :=
  | RoleListener (s : TCPListener)
  | RolePing (monitors : list pingTargetMonitor)
  | RoleURL (monitors : list urlTargetMonitor)
  | RoleInternet (c : InternetCheck)
  | RoleSpeed (s : SpeedCheck)
  | RoleReporter (r : SummaryReporter).

Definition monitoring (cfg : Config.Config) : bool :=
  let r := c_Roles cfg in
  Config.pm_Enabled (Config.r_PingMonitor r) || Config.um_Enabled (Config.r_URLMonitor r) ||
  Config.ic_Enabled (Config.r_InternetCheck r) || Config.sc_Enabled (Config.r_SpeedCheck r).

Definition build_listener (monitoring : bool) (r : Config.PongServer) : TCPListener :=
  let handlers := ([PingHandler] ++ if monitoring then [SummaryHandler] else [])%list in
  NewTCPListener (Config.ps_Listen r) (int_mul (Config.ps_ReadTimeoutMS r) Millisecond)
    (NewMessageDispatcher handlers).

Definition ping_target (t : Config.PingTarget) : PingTarget :=
  let p := Config.pt_Params t in
  MkPingTarget (Config.pt_Target t) (int_mul (Config.mp_IntervalS p) Second)
    (int_mul (Config.mp_TimeoutMS p) Millisecond) (Config.mp_Notify p) (params_config p).

Definition url_target (t : Config.URLTarget) : URLTarget :=
  let p := Config.ut_Params t in
  MkURLTarget (Config.ut_URL t) (int_mul (Config.mp_IntervalS p) Second)
    (int_mul (Config.mp_TimeoutMS p) Millisecond) (Config.mp_Notify p) (params_config p)
    (Config.mp_InsecureSkipVerify p).

Definition build_internet (r : Config.InternetCheck) (reg : option Registry)
    : option (InternetCheck * option Registry) :=
  let timeout := int_mul (Config.ic_TimeoutMS r) Millisecond in
  NewInternetCheck (Config.ic_Sites r) (int_mul (Config.ic_IntervalS r) Second) timeout
    (monitorConfig (Config.ic_Trigger r) (Config.ic_WindowSize r) (Config.ic_FailureThreshold r)
       (Config.ic_MinAvailability r))
    (Config.ic_Notify r) (Some (NewHTTPClient timeout (Config.ic_InsecureSkipVerify r))) reg.

Definition build_speed (r : Config.SpeedCheck) (reg : option Registry)
    : option (SpeedCheck * option Registry) :=
  NewSpeedCheck (Config.sc_Binary r) (int_mul (Config.sc_IntervalS r) Second)
    (Config.sc_ThresholdMbps r)
    (monitorConfig (Config.sc_Trigger r) (Config.sc_WindowSize r) (Config.sc_FailureThreshold r)
       (Config.sc_MinAvailability r))
    (Config.sc_Notify r) reg.

(** One [if] of [buildRoles]: build the role and add it to the active ones. *)
Definition add_role {R} (enabled : bool) (name : string) (inj : R → role)
    (build : option Registry → option (R * option Registry))
    (st : gmap string role * option Registry) : option (gmap string role * option Registry) :=
  let '(active, reg) := st in
  if enabled then '(r, reg) ← build reg; Some (<[name := inj r]> active, reg) else Some st.

Definition buildRoles (cfg : Config.Config) (reg : option Registry)
    : option (gmap string role * option Registry) :=
  let r := c_Roles cfg in
  let mon := monitoring cfg in
  st ← add_role (Config.ps_Enabled (Config.r_PongServer r)) "pong_server" RoleListener
         (λ reg, Some (build_listener mon (Config.r_PongServer r), reg)) (∅, reg);
  st ← add_role (Config.pm_Enabled (Config.r_PingMonitor r)) "ping_monitor" RolePing
         (NewPingMonitor (ping_target <$> Config.pm_Targets (Config.r_PingMonitor r))) st;
  st ← add_role (Config.um_Enabled (Config.r_URLMonitor r)) "url_monitor" RoleURL
         (NewURLMonitor (url_target <$> Config.um_Targets (Config.r_URLMonitor r))) st;
  st ← add_role (Config.ic_Enabled (Config.r_InternetCheck r)) "internet_check" RoleInternet
         (build_internet (Config.r_InternetCheck r)) st;
  st ← add_role (Config.sc_Enabled (Config.r_SpeedCheck r)) "speed_check" RoleSpeed
         (build_speed (Config.r_SpeedCheck r)) st;
  add_role mon "summary_reporter" RoleReporter
    (λ reg, Some (NewSummaryReporter (int_mul (c_SummaryIntervalS cfg) Second), reg)) st.

(** The setup of [run], up to the start of the roles. *)
Inductive SetupError :=
  | SetupConfig (e : Config.ConfigError)
  | SetupChannels (e : BuildError)
  | NoRoles.

Record Setup := MkSetup {
  su_dispatcher : Dispatcher Service;
  su_active : gmap string role;
  su_registry : option Registry;
}.

Definition setup (readFile : string → result string string) (parse_error getenv : string → string)
    (order1 order2 order3 : list string) (path : string) : option (result SetupError Setup) :=
  match ConfigFile.Load readFile parse_error order1 order2 path with
  | Err e => Some (Err (SetupConfig e))
  | Ok cfg =>
      match buildChannels getenv order3 cfg with
      | Err e => Some (Err (SetupChannels e))
      | Ok channels =>
          let d := NewDispatcher channels (Config.rt_MaxAttempts (c_Retry cfg))
                     (int_mul (Config.rt_BaseDelayMS (c_Retry cfg)) Millisecond) in
          '(active, reg) ← buildRoles cfg (Some NewRegistry);
          if (Z.of_nat (size active) =? 0) then Some (Err NoRoles)
          else Some (Ok (MkSetup d active reg))
      end
  end.

(** ** What a built daemon promises *)

(** What the monitors need of their numbers: seconds that fit a [Duration],
    windows that can be allocated, machine integers and floats that are
    numbers. *)
Record params_range (interval windowSize threshold : Z) (minAvailability : float64) : Prop := {
  pr_interval : interval ≤ max_seconds;
  pr_window : windowSize ≤ max_alloc;
  pr_threshold : in_int64 threshold;
  pr_min : f_is_nan minAvailability = false;
}.

Definition monitor_params_range (p : Config.MonitorParams) : Prop :=
  params_range (Config.mp_IntervalS p) (Config.mp_WindowSize p) (Config.mp_FailureThreshold p)
    (Config.mp_MinAvailability p).

Record machine_range (cfg : Config.Config) : Prop := {
  mr_summary : c_SummaryIntervalS cfg ≤ max_seconds;
  mr_ping : Forall (λ t, monitor_params_range (Config.pt_Params t))
              (Config.pm_Targets (Config.r_PingMonitor (c_Roles cfg)));
  mr_url : Forall (λ t, monitor_params_range (Config.ut_Params t))
             (Config.um_Targets (Config.r_URLMonitor (c_Roles cfg)));
  mr_internet : let r := Config.r_InternetCheck (c_Roles cfg) in
    params_range (Config.ic_IntervalS r) (Config.ic_WindowSize r) (Config.ic_FailureThreshold r)
      (Config.ic_MinAvailability r);
  mr_speed : let r := Config.r_SpeedCheck (c_Roles cfg) in
    params_range (Config.sc_IntervalS r) (Config.sc_WindowSize r) (Config.sc_FailureThreshold r)
      (Config.sc_MinAvailability r);
}.

(** The part of it that validation leaves open. *)
Definition fits (interval windowSize : Z) : Prop :=
  interval ≤ max_seconds ∧ windowSize ≤ max_alloc.

Record durations_fit (cfg : Config.Config) : Prop := {
  fit_summary : c_SummaryIntervalS cfg ≤ max_seconds;
  fit_ping : Forall (λ t, let p := Config.pt_Params t in
      fits (Config.mp_IntervalS p) (Config.mp_WindowSize p))
    (Config.pm_Targets (Config.r_PingMonitor (c_Roles cfg)));
  fit_url : Forall (λ t, let p := Config.ut_Params t in
      fits (Config.mp_IntervalS p) (Config.mp_WindowSize p))
    (Config.um_Targets (Config.r_URLMonitor (c_Roles cfg)));
  fit_internet : let r := Config.r_InternetCheck (c_Roles cfg) in
    fits (Config.ic_IntervalS r) (Config.ic_WindowSize r);
  fit_speed : let r := Config.r_SpeedCheck (c_Roles cfg) in
    fits (Config.sc_IntervalS r) (Config.sc_WindowSize r);
}.

(** The channels a role notifies. *)
Definition role_channels (r : role) : list string :=
  match r with
  | RolePing ms => ms ≫= pm_channels
  | RoleURL ms => ms ≫= um_channels
  | RoleInternet c => ic_channels c
  | RoleSpeed s => sc_channels s
  | RoleListener _ | RoleReporter _ => []
  end.

(** The units of a role, and what the configuration says of them: their names
    and monitor settings. *)
Definition role_units (r : role) : list Unit :=
  match r with
  | RolePing ms => map UPing ms
  | RoleURL ms => map UURL ms
  | RoleInternet c => [UInternet c]
  | RoleSpeed s => [USpeed s]
  | RoleListener _ | RoleReporter _ => []
  end.

Definition role_specs (cfg : Config.Config) (name : string) : list (string * MonitorConfig) :=
  let r := c_Roles cfg in
  if String.eqb name "ping_monitor" then
    map ping_spec (ping_target <$> Config.pm_Targets (Config.r_PingMonitor r))
  else if String.eqb name "url_monitor" then
    map url_spec (url_target <$> Config.um_Targets (Config.r_URLMonitor r))
  else if String.eqb name "internet_check" then
    let r := Config.r_InternetCheck r in
    [("internet_check", monitorConfig (Config.ic_Trigger r) (Config.ic_WindowSize r)
       (Config.ic_FailureThreshold r) (Config.ic_MinAvailability r))]
  else if String.eqb name "speed_check" then
    let r := Config.r_SpeedCheck r in
    [("speed_check", monitorConfig (Config.sc_Trigger r) (Config.sc_WindowSize r)
       (Config.sc_FailureThreshold r) (Config.sc_MinAvailability r))]
  else [].

(** The internet check starts at its first site. *)
Definition unit_start (u : Unit) : Prop :=
  match u with UInternet c => ic_sites c ≠ [] ∧ ic_next c = 0 | _ => True end.

(** A world with a registry in a consistent state. *)
Definition world_ok (w : World) : Prop := ∃ reg, w_registry w = Some reg ∧ Registry_wf reg.

Definition registry_ok (r : option Registry) : Prop :=
  match r with Some reg => Registry_wf reg | None => True end.

Section runs.
Context (go_quote json_error url_error : string → string).
Notation PingMonitor_Run := (PingMonitor_Run go_quote json_error url_error).
Notation URLMonitor_Run := (URLMonitor_Run go_quote json_error url_error).
Notation internet_run := (internet_run go_quote json_error url_error).
Notation speed_run := (speed_run go_quote json_error url_error).

(** Whatever the network, the clocks, the ticks, the schedule of its goroutines
    and the state in which it finds the registry, the role does not panic. *)
Definition role_runs (r : role) : Prop :=
  match r with
  | RoleListener s => ∀ world wr stream, (∀ n, registry_ok (world n).1) →
      is_Some (handle s world wr stream)
  | RolePing ms => ∀ events w, world_ok w → is_Some (PingMonitor_Run events ms w)
  | RoleURL ms => ∀ events w, world_ok w → is_Some (URLMonitor_Run events ms w)
  | RoleInternet c => ∀ events w, world_ok w → Z.of_nat (length (ticks events)) < 2 ^ 63 →
      is_Some (internet_run events (c, w))
  | RoleSpeed s => ∀ events w, world_ok w → is_Some (speed_run events (s, w))
  | RoleReporter r => ∀ events w, world_ok w → is_Some (reporter_run r events w)
  end.

(** ** Lemmas *)

Lemma monitorConfig_ok trigger i w t m :
  params_range i w t m → MonitorConfig_ok (monitorConfig trigger w t m).
Proof. intros [_ Hw Ht Hm]. by split. Qed.

Lemma finite_not_nan f : f_is_finite f = true → f_is_nan f = false.
Proof. by destruct f. Qed.

Lemma params_in_range p :
  ConfigFile.params_typed p → fits (Config.mp_IntervalS p) (Config.mp_WindowSize p) →
  monitor_params_range p.
Proof. intros (? & ? & ? & ? & ? & ? & ?) [? ?]. split; try done. by apply finite_not_nan. Qed.

(** The rest holds of every loaded configuration. *)
Lemma loaded_range cfg : ConfigFile.config_typed cfg → durations_fit cfg → machine_range cfg.
Proof.
  intros (_ & _ & _ & _ & _ & [_ Hp] & [_ Hu] & Hi & Hs) [Hf1 Hf2 Hf3 [? ?] [? ?]]. split.
  - done.
  - pose proof (conj Hp Hf2) as Hps%Forall_and. eapply Forall_impl; [exact Hps|].
    intros t [(_ & _ & ?) ?]. by apply params_in_range.
  - pose proof (conj Hu Hf3) as Hps%Forall_and. eapply Forall_impl; [exact Hps|].
    intros t [(_ & _ & ?) ?]. by apply params_in_range.
  - destruct Hi as (? & ? & ? & ? & ? & ? & ? & ?). split; try done. by apply finite_not_nan.
  - destruct Hs as (? & ? & ? & ? & ? & ? & ? & ?). split; try done. by apply finite_not_nan.
Qed.

Lemma interval_positive s : 0 < s → s ≤ max_seconds → 0 < int_mul s Second.
Proof. intros H1 H2. rewrite seconds_no_overflow by lia. lia. Qed.

(** A registration order after more names. *)
Definition orders (names : list string) (before after : list string) : Prop :=
  after = foldl (λ seen n, if decide (n ∈ seen) then seen else (seen ++ [n])%list) before names.

Lemma orders_app l k a b c : orders l a b → orders k b c → orders (l ++ k) a c.
Proof. unfold orders. intros -> ->. by rewrite foldl_app. Qed.

Lemma NewPingMonitor_built ts reg :
  Registry_wf reg →
  Forall (λ t, MonitorConfig_ok (pt_Mon t) ∧ 0 < pt_Interval t) ts →
  ∃ ms reg', NewPingMonitor ts (Some reg) = Some (ms, Some reg') ∧ Registry_wf reg' ∧
    orders (map (λ t, "ping_monitor:" +:+ pt_Target t) ts) (r_order reg) (r_order reg') ∧
    role_channels (RolePing ms) = ts ≫= pt_Channels.
Proof.
  revert reg. induction ts as [|t ts IH]; intros reg Hwf Hts; [by exists [], reg|].
  apply Forall_cons in Hts as [[Hc Hi] Hts].
  destruct (new_ping_life go_quote json_error url_error t reg Hc Hi Hwf)
    as (m & reg1 & Hn & Hch & [Hwf1 Ho1] & _).
  destruct (IH reg1 Hwf1 Hts) as (ms & reg' & Hm & Hwf' & Ho & Hcs).
  exists (m :: ms), reg'. cbn [NewPingMonitor]. rewrite Hn. cbn [mbind option_bind]. rewrite Hm.
  split_and!; try done.
  - unfold orders in *. simpl. by rewrite <- Ho1.
  - change (pm_channels m ++ role_channels (RolePing ms) =
            pt_Channels t ++ (ts ≫= pt_Channels))%list.
    by rewrite Hch, Hcs.
Qed.

Lemma NewPingMonitor_life ts reg :
  Registry_wf reg →
  Forall (λ t, MonitorConfig_ok (pt_Mon t) ∧ 0 < pt_Interval t) ts →
  ∃ ms reg', NewPingMonitor ts (Some reg) = Some (ms, Some reg') ∧ Registry_wf reg' ∧
    orders (map (λ t, "ping_monitor:" +:+ pt_Target t) ts) (r_order reg) (r_order reg') ∧
    role_channels (RolePing ms) = ts ≫= pt_Channels ∧ role_runs (RolePing ms) ∧
    Forall2 unit_fresh (map ping_spec ts) (role_units (RolePing ms)).
Proof.
  intros Hwf Hts. destruct (NewPingMonitor_built ts reg Hwf Hts) as (ms & reg' & Hms & ? & ? & ?).
  destruct (pings_fresh go_quote json_error url_error ts reg Hwf Hts) as (ms1 & reg2 & Hms1 & Hu).
  destruct (NewPingMonitor_fresh go_quote json_error url_error ts reg Hwf Hts)
    as (ms' & reg1 & Hms' & _ & Hf).
  simplify_eq. eexists _, _. split_and!; try done. intros events w (r & Hw & Hwr).
  by eapply PingMonitor_Run_total.
Qed.

Lemma NewURLMonitor_built ts reg :
  Registry_wf reg →
  Forall (λ t, MonitorConfig_ok (ut_Mon t) ∧ 0 < ut_Interval t) ts →
  ∃ ms reg', NewURLMonitor ts (Some reg) = Some (ms, Some reg') ∧ Registry_wf reg' ∧
    orders (map (λ t, "url_monitor:" +:+ ut_URL t) ts) (r_order reg) (r_order reg') ∧
    role_channels (RoleURL ms) = ts ≫= ut_Channels.
Proof.
  revert reg. induction ts as [|t ts IH]; intros reg Hwf Hts; [by exists [], reg|].
  apply Forall_cons in Hts as [[Hc Hi] Hts].
  destruct (url_run_correct go_quote json_error url_error t reg Hc Hi Hwf)
    as (m & reg1 & Hn & Hch & [Hwf1 Ho1] & _).
  destruct (IH reg1 Hwf1 Hts) as (ms & reg' & Hm & Hwf' & Ho & Hcs).
  exists (m :: ms), reg'. cbn [NewURLMonitor]. rewrite Hn. cbn [mbind option_bind]. rewrite Hm.
  split_and!; try done.
  - unfold orders in *. simpl. by rewrite <- Ho1.
  - change (um_channels m ++ role_channels (RoleURL ms) =
            ut_Channels t ++ (ts ≫= ut_Channels))%list.
    by rewrite Hch, Hcs.
Qed.

Lemma NewURLMonitor_life ts reg :
  Registry_wf reg →
  Forall (λ t, MonitorConfig_ok (ut_Mon t) ∧ 0 < ut_Interval t) ts →
  ∃ ms reg', NewURLMonitor ts (Some reg) = Some (ms, Some reg') ∧ Registry_wf reg' ∧
    orders (map (λ t, "url_monitor:" +:+ ut_URL t) ts) (r_order reg) (r_order reg') ∧
    role_channels (RoleURL ms) = ts ≫= ut_Channels ∧ role_runs (RoleURL ms) ∧
    Forall2 unit_fresh (map url_spec ts) (role_units (RoleURL ms)).
Proof.
  intros Hwf Hts. destruct (NewURLMonitor_built ts reg Hwf Hts) as (ms & reg' & Hms & ? & ? & ?).
  destruct (urls_fresh go_quote json_error url_error ts reg Hwf Hts) as (ms1 & reg2 & Hms1 & Hu).
  destruct (NewURLMonitor_fresh go_quote json_error url_error ts reg Hwf Hts)
    as (ms' & reg1 & Hms' & _ & Hf).
  simplify_eq. eexists _, _. split_and!; try done. intros events w (r & Hw & Hwr).
  by eapply URLMonitor_Run_total.
Qed.

(** The listener's handlers never panic. *)
Lemma listener_answers mon r now reg line :
  registry_ok reg → is_Some (Dispatch (tl_dispatcher (build_listener mon r)) reg now line).
Proof.
  intros Hreg. unfold Dispatch. destruct (DecodeRequest line) as [req [[|]|]]; [by eexists..|].
  change (tl_dispatcher (build_listener mon r)) with
    (NewMessageDispatcher (PingHandler :: if mon then [SummaryHandler] else [])).
  rewrite NewMessageDispatcher_lookup.
  destruct (List.find _ _) as [h|] eqn:E; [|by eexists].
  apply find_some in E as [Hin _]. rewrite <- in_rev in Hin.
  assert (Hh : h = PingHandler ∨ h = SummaryHandler).
  { destruct Hin as [<-|Hin]; [by left|]. destruct mon; [|done]. destruct Hin as [<-|[]]. by right. }
  destruct Hh as [->| ->]; simpl; [by eexists|].
  destruct reg as [reg|]; [|by eexists].
  destruct (Summary_spec reg now Hreg) as (units & -> & _). by eexists.
Qed.

Lemma listener_runs mon r : role_runs (RoleListener (build_listener mon r)).
Proof.
  intros world wr stream Hw.
  destruct (handle_loop_lines (buffer_size (build_listener mon r)) (λ n line,
    Dispatch (tl_dispatcher (build_listener mon r)) (world n).1 (world n).2 line) wr
    (S (String.length stream)) 0 stream) as (evs & H & _); [|lia|by exists evs].
  intros n line. by apply listener_answers.
Qed.

Lemma LogSummary_total reg l now :
  Registry_wf reg → ∃ l', LogSummary (Some reg) (Some l) now = Some (Some l').
Proof.
  intros Hwf. unfold LogSummary. destruct (Summary_spec reg now Hwf) as (units & -> & _). by eexists.
Qed.

Lemma reporter_runs interval : 0 < interval → role_runs (RoleReporter (MkSummaryReporter interval)).
Proof.
  intros Hi events w (reg & Hw & Hwf). unfold reporter_run, run_ticker. simpl.
  destruct (Z.leb_spec interval 0); [lia|]. rewrite tick_loop_ticks.
  revert w Hw. induction (ticks events) as [|now inputs IH]; intros w Hw; [by eexists|].
  destruct (LogSummary_total reg (w_logger w) now Hwf) as [l Hl].
  cbn [fmap list_fmap tick_loop]. rewrite Hw, Hl. by apply IH.
Qed.

(** *** Channels *)

Lemma buildChannel_ok getenv name ch :
  Config.channel_ok ch → ∃ svc, buildChannel getenv name ch = Ok svc.
Proof.
  intros H. unfold buildChannel.
  destruct H as [->|[(-> & _)|[(-> & _)|(-> & _)]]]; by eexists.
Qed.

Lemma buildChannels_lookup getenv order cfg out :
  map_Forall (λ _, Config.channel_ok) (c_Channels cfg) →
  ∃ chans,
    foldl (channel_step getenv cfg) (Ok out) order = Ok chans ∧
    (∀ name, is_Some (chans !! name) ↔
       is_Some (out !! name) ∨ name ∈ order ∧ is_Some (c_Channels cfg !! name)).
Proof.
  intros Hok. revert out. induction order as [|n order IH]; intros out.
  { exists out. split; [done|]. intros name. rewrite elem_of_nil. naive_solver. }
  cbn [foldl]. unfold channel_step at 2. cbn [mbind result_bind].
  destruct (c_Channels cfg !! n) as [ch|] eqn:Hn.
  - destruct (buildChannel_ok getenv n ch (Hok n ch Hn)) as [svc ->]. cbn [mbind result_bind].
    destruct (IH (<[n := svc]> out)) as (chans & Hf & Hl). exists chans. split; [exact Hf|].
    intros name. rewrite Hl, elem_of_cons, lookup_insert_is_Some.
    destruct (decide (n = name)) as [->|]; naive_solver.
  - destruct (IH out) as (chans & Hf & Hl). exists chans. split; [exact Hf|].
    intros name. rewrite Hl, elem_of_cons. split; [naive_solver|].
    intros [?|[[->|?] Hx]]; [naive_solver| |naive_solver]. rewrite Hn in Hx. by destruct Hx.
Qed.

(** Every channel is built from its entry in the configuration. *)
Lemma buildChannels_built getenv order cfg out chans :
  foldl (channel_step getenv cfg) (Ok out) order = Ok chans →
  ∀ name svc, chans !! name = Some svc →
    out !! name = Some svc ∨
    ∃ ch, c_Channels cfg !! name = Some ch ∧ buildChannel getenv name ch = Ok svc.
Proof.
  revert out. induction order as [|n order IH]; intros out H name svc Hs.
  { injection H as ->. by left. }
  cbn [foldl] in H. unfold channel_step at 2 in H. cbn [mbind result_bind] in H.
  destruct (c_Channels cfg !! n) as [ch|] eqn:Hn; [|by apply (IH out)].
  destruct (buildChannel getenv n ch) as [svc'|e] eqn:Hb; cbn [mbind result_bind] in H.
  - destruct (IH _ H name svc Hs) as [Ho|Ho]; [|by right].
    apply lookup_insert_Some in Ho as [[<- <-]|[_ Ho]]; [right; by exists ch|by left].
  - exfalso. clear -H. induction order as [|m order IH]; [done|]. by apply IH.
Qed.

(** *** Roles *)

Definition unit_names (cfg : Config.Config) : list string :=
  let r := c_Roles cfg in
  ((if Config.pm_Enabled (Config.r_PingMonitor r)
    then map (λ t, "ping_monitor:" +:+ pt_Target t)
           (ping_target <$> Config.pm_Targets (Config.r_PingMonitor r)) else []) ++
   (if Config.um_Enabled (Config.r_URLMonitor r)
    then map (λ t, "url_monitor:" +:+ ut_URL t)
           (url_target <$> Config.um_Targets (Config.r_URLMonitor r)) else []) ++
   (if Config.ic_Enabled (Config.r_InternetCheck r) then ["internet_check"] else []) ++
   (if Config.sc_Enabled (Config.r_SpeedCheck r) then ["speed_check"] else []))%list.

Definition enabled_roles (cfg : Config.Config) : list (string * bool) :=
  let r := c_Roles cfg in
  [("pong_server", Config.ps_Enabled (Config.r_PongServer r));
   ("ping_monitor", Config.pm_Enabled (Config.r_PingMonitor r));
   ("url_monitor", Config.um_Enabled (Config.r_URLMonitor r));
   ("internet_check", Config.ic_Enabled (Config.r_InternetCheck r));
   ("speed_check", Config.sc_Enabled (Config.r_SpeedCheck r));
   ("summary_reporter", monitoring cfg)].

Definition role_names (cfg : Config.Config) : list string :=
  (filter (λ nb, nb.2 = true) (enabled_roles cfg)).*1.

(** The daemon under construction: the roles added, the units registered. *)
Definition under_construction (P : string → role → Prop) (names units : list string)
    (st : gmap string role * option Registry) : Prop :=
  ∃ reg, st.2 = Some reg ∧ Registry_wf reg ∧ orders units [] (r_order reg) ∧
    map_Forall P st.1 ∧ dom st.1 = list_to_set names.

Lemma add_role_inv {R} P enabled name (inj : R → role) build names units us st :
  under_construction P names units st →
  (enabled = true → ∀ reg, Registry_wf reg →
     ∃ r reg', build (Some reg) = Some (r, Some reg') ∧ Registry_wf reg' ∧
       orders us (r_order reg) (r_order reg') ∧ P name (inj r)) →
  ∃ st', add_role enabled name inj build st = Some st' ∧
    under_construction P (names ++ if enabled then [name] else [])
      (units ++ if enabled then us else []) st'.
Proof.
  intros (reg & Hreg & Hwf & Ho & HP & Hdom) Hb. destruct st as [active r0]. simpl in *. subst r0.
  destruct enabled.
  - destruct (Hb eq_refl reg Hwf) as (r & reg' & Hr & Hwf' & Ho' & HPr).
    exists (<[name := inj r]> active, Some reg'). unfold add_role. rewrite Hr. split; [done|].
    exists reg'. simpl. split_and!; [done|done|by eapply orders_app|by apply map_Forall_insert_2|].
    rewrite dom_insert_L, Hdom, list_to_set_app_L. set_solver.
  - exists (active, Some reg). rewrite !app_nil_r. split; [done|]. by exists reg.
Qed.

(** The role [name] runs, only notifies configured channels, and its units are
    as configured. *)
Definition role_ready (cfg : Config.Config) (name : string) (r : role) : Prop :=
  role_runs r ∧ Forall (λ n, n ∈ dom (c_Channels cfg)) (role_channels r) ∧
  Forall2 unit_fresh (role_specs cfg name) (role_units r) ∧ Forall unit_start (role_units r).

Lemma notify_dom chans names : Config.notify_ok chans names → Forall (λ n, n ∈ dom chans) names.
Proof. intros H. eapply Forall_impl; [exact H|]. intros n Hn. by apply elem_of_dom. Qed.

Lemma notify_all {T} chans (f : T → list string) (ts : list T) :
  Forall (λ t, Config.notify_ok chans (f t)) ts → Forall (λ n, n ∈ dom chans) (ts ≫= f).
Proof.
  induction 1 as [|t ts Ht Hts IH]; [constructor|]. simpl. apply Forall_app. split; [|done].
  by apply notify_dom.
Qed.

Lemma ping_ready cfg reg :
  Config.config_ok cfg → machine_range cfg →
  Config.pm_Enabled (Config.r_PingMonitor (c_Roles cfg)) = true → Registry_wf reg →
  let ts := ping_target <$> Config.pm_Targets (Config.r_PingMonitor (c_Roles cfg)) in
  ∃ ms reg', NewPingMonitor ts (Some reg) = Some (ms, Some reg') ∧ Registry_wf reg' ∧
    orders (map (λ t, "ping_monitor:" +:+ pt_Target t) ts) (r_order reg) (r_order reg') ∧
    role_ready cfg "ping_monitor" (RolePing ms).
Proof.
  intros Hok Hr Hen Hwf ts. destruct (Config.ok_ping cfg Hok Hen) as [_ Hts].
  pose proof (mr_ping cfg Hr) as Hrange. rewrite Forall_forall in Hts, Hrange.
  destruct (NewPingMonitor_life ts reg Hwf) as (ms & reg' & ? & ? & ? & Hch & Hruns & Hf).
  - apply Forall_forall. intros t (u & -> & Hu)%list_elem_of_fmap.
    destruct (Hts u Hu) as [_ [Hi _ _ _ _]]. pose proof (Hrange u Hu) as Hru. split.
    + by eapply monitorConfig_ok.
    + apply interval_positive; [done|]. by apply (pr_interval _ _ _ _ Hru).
  - exists ms, reg'. split_and!; try done. split_and!; [done| |exact Hf|by apply Forall_fmap, Forall_true].
    rewrite Hch. apply notify_all. apply Forall_forall. intros t (u & -> & Hu)%list_elem_of_fmap. by destruct (Hts u Hu) as [_ []].
Qed.

Lemma url_ready cfg reg :
  Config.config_ok cfg → machine_range cfg →
  Config.um_Enabled (Config.r_URLMonitor (c_Roles cfg)) = true → Registry_wf reg →
  let ts := url_target <$> Config.um_Targets (Config.r_URLMonitor (c_Roles cfg)) in
  ∃ ms reg', NewURLMonitor ts (Some reg) = Some (ms, Some reg') ∧ Registry_wf reg' ∧
    orders (map (λ t, "url_monitor:" +:+ ut_URL t) ts) (r_order reg) (r_order reg') ∧
    role_ready cfg "url_monitor" (RoleURL ms).
Proof.
  intros Hok Hr Hen Hwf ts. destruct (Config.ok_url cfg Hok Hen) as [_ Hts].
  pose proof (mr_url cfg Hr) as Hrange. rewrite Forall_forall in Hts, Hrange.
  destruct (NewURLMonitor_life ts reg Hwf) as (ms & reg' & ? & ? & ? & Hch & Hruns & Hf).
  - apply Forall_forall. intros t (u & -> & Hu)%list_elem_of_fmap.
    destruct (Hts u Hu) as (_ & _ & [Hi _ _ _ _]). pose proof (Hrange u Hu) as Hru. split.
    + by eapply monitorConfig_ok.
    + apply interval_positive; [done|]. by apply (pr_interval _ _ _ _ Hru).
  - exists ms, reg'. split_and!; try done. split_and!; [done| |exact Hf|by apply Forall_fmap, Forall_true].
    rewrite Hch. apply notify_all. apply Forall_forall. intros t (u & -> & Hu)%list_elem_of_fmap.
    by destruct (Hts u Hu) as (_ & _ & []).
Qed.

Lemma internet_ready cfg reg :
  Config.config_ok cfg → machine_range cfg →
  Config.ic_Enabled (Config.r_InternetCheck (c_Roles cfg)) = true → Registry_wf reg →
  ∃ c reg', build_internet (Config.r_InternetCheck (c_Roles cfg)) (Some reg) = Some (c, Some reg') ∧
    Registry_wf reg' ∧ orders ["internet_check"] (r_order reg) (r_order reg') ∧
    role_ready cfg "internet_check" (RoleInternet c).
Proof.
  intros Hok Hr Hen Hwf. destruct (Config.ok_internet cfg Hok Hen) as (Hs & Hi & _ & _ & _ & Hn).
  pose proof (mr_internet cfg Hr) as Hru. cbv zeta in Hru. unfold build_internet.
  apply monitorConfig_ok with (trigger := Config.ic_Trigger (Config.r_InternetCheck (c_Roles cfg))) in Hru as Hmon.
  apply pr_interval, interval_positive in Hru as Hint; [|done].
  edestruct (new_internet_life go_quote json_error url_error)
    as (c & reg' & Hb & Hch & _ & _ & [Hwf' Ho] & Hrun); [exact Hmon|exact Hint|done|exact Hs|].
  edestruct internet_fresh as (c1 & reg1 & Hb1 & Hfresh & Hsites & Hnext);
    [exact Hmon|exact Hint|exact Hwf|].
  rewrite Hb1 in Hb. simplify_eq. exists c, reg'. split; [exact Hb1|]. split_and!; [done|exact Ho|].
  split_and!.
  - intros events w (r & Hw & Hwr) Hlen. destruct (Hrun events w r Hw Hwr Hlen) as (? & ? & ? & Hr' & _).
    by eexists.
  - simpl. rewrite Hch. by apply notify_dom.
  - by constructor.
  - constructor; [|done]. simpl. by rewrite Hsites.
Qed.

Lemma speed_ready cfg reg :
  Config.config_ok cfg → machine_range cfg →
  Config.sc_Enabled (Config.r_SpeedCheck (c_Roles cfg)) = true → Registry_wf reg →
  ∃ s reg', build_speed (Config.r_SpeedCheck (c_Roles cfg)) (Some reg) = Some (s, Some reg') ∧
    Registry_wf reg' ∧ orders ["speed_check"] (r_order reg) (r_order reg') ∧
    role_ready cfg "speed_check" (RoleSpeed s).
Proof.
  intros Hok Hr Hen Hwf. destruct (Config.ok_speed cfg Hok Hen) as (_ & Hi & _ & _ & Hn).
  pose proof (mr_speed cfg Hr) as Hru. cbv zeta in Hru. unfold build_speed.
  apply monitorConfig_ok with (trigger := Config.sc_Trigger (Config.r_SpeedCheck (c_Roles cfg))) in Hru as Hmon.
  apply pr_interval, interval_positive in Hru as Hint; [|done].
  edestruct (new_speed_life go_quote json_error url_error)
    as (s & reg' & Hb & Hch & _ & [Hwf' Ho] & Hrun); [exact Hmon|exact Hint|exact Hwf|].
  edestruct speed_fresh as (s1 & reg1 & Hb1 & Hfresh); [exact Hmon|exact Hint|exact Hwf|].
  rewrite Hb1 in Hb. simplify_eq. exists s, reg'. split; [exact Hb1|]. split_and!; [done|exact Ho|].
  split_and!.
  - intros events w (r & Hw & Hwr). destruct (Hrun events w r Hw Hwr) as (? & ? & ? & Hr' & _).
    by eexists.
  - simpl. rewrite Hch. by apply notify_dom.
  - by constructor.
  - by constructor.
Qed.

Lemma role_names_list cfg :
  role_names cfg = (((((([] ++
    (if Config.ps_Enabled (Config.r_PongServer (c_Roles cfg)) then ["pong_server"] else [])) ++
    (if Config.pm_Enabled (Config.r_PingMonitor (c_Roles cfg)) then ["ping_monitor"] else [])) ++
    (if Config.um_Enabled (Config.r_URLMonitor (c_Roles cfg)) then ["url_monitor"] else [])) ++
    (if Config.ic_Enabled (Config.r_InternetCheck (c_Roles cfg)) then ["internet_check"] else [])) ++
    (if Config.sc_Enabled (Config.r_SpeedCheck (c_Roles cfg)) then ["speed_check"] else [])) ++
    (if monitoring cfg then ["summary_reporter"] else []))%list.
Proof.
  unfold role_names, enabled_roles.
  destruct (Config.ps_Enabled _), (Config.pm_Enabled _), (Config.um_Enabled _),
    (Config.ic_Enabled _), (Config.sc_Enabled _), (monitoring cfg); reflexivity.
Qed.

Lemma if_nil {A} (b : bool) : (if b then [] else []) = @nil A.
Proof. by destruct b. Qed.

Lemma buildRoles_spec cfg :
  Config.config_ok cfg → machine_range cfg →
  ∃ active reg, buildRoles cfg (Some NewRegistry) = Some (active, Some reg) ∧
    Registry_wf reg ∧ r_order reg = first_occurrences (unit_names cfg) ∧
    map_Forall (role_ready cfg) active ∧ dom active = list_to_set (role_names cfg).
Proof.
  intros Hok Hr. unfold buildRoles. cbv zeta.
  assert (H0 : under_construction (role_ready cfg) [] [] (∅, Some NewRegistry)).
  { exists NewRegistry. split_and!; try done. apply NewRegistry_wf. }
  eapply add_role_inv in H0 as (st1 & -> & H1); cbn [mbind option_bind].
  2:{ intros _ reg Hwf. eexists _, reg. split_and!; [done|done|by instantiate (1 := [])|].
      split_and!; [apply listener_runs|constructor..]. }
  eapply add_role_inv in H1 as (st2 & -> & H2); cbn [mbind option_bind].
  2:{ intros Hen reg Hwf. by apply (ping_ready cfg reg). }
  eapply add_role_inv in H2 as (st3 & -> & H3); cbn [mbind option_bind].
  2:{ intros Hen reg Hwf. by apply (url_ready cfg reg). }
  eapply add_role_inv in H3 as (st4 & -> & H4); cbn [mbind option_bind].
  2:{ intros Hen reg Hwf. by apply (internet_ready cfg reg). }
  eapply add_role_inv in H4 as (st5 & -> & H5); cbn [mbind option_bind].
  2:{ intros Hen reg Hwf. by apply (speed_ready cfg reg). }
  eapply add_role_inv in H5 as (st6 & -> & H6); cbn [mbind option_bind].
  2:{ intros _ reg Hwf. eexists _, reg. split_and!; [done|done|by instantiate (1 := [])|].
      split_and!; [|constructor..]. apply reporter_runs, interval_positive;
        [apply (Config.ok_summary cfg Hok)|apply (mr_summary cfg Hr)]. }
  destruct H6 as (reg & Hreg & Hwf & Ho & HP & Hdom). destruct st6 as [active r]. simpl in *. subst r.
  exists active, reg. split_and!; [done|done| |done|by rewrite Hdom, role_names_list].
  rewrite !if_nil, !app_nil_r in Ho. unfold unit_names. simpl in Ho. by rewrite !app_assoc.
Qed.

Lemma buildChannels_spec getenv order cfg :
  map_Forall (λ _, Config.channel_ok) (c_Channels cfg) → Config.range_order order cfg →
  ∃ chans, buildChannels getenv order cfg = Ok chans ∧ dom chans = dom (c_Channels cfg).
Proof.
  intros Hok Hord. destruct (buildChannels_lookup getenv order cfg ∅ Hok) as (chans & Hb & Hl).
  exists chans. split; [exact Hb|]. apply set_eq. intros name. rewrite !elem_of_dom, Hl.
  rewrite lookup_empty. split; [intros [[? [=]]|[_ ?]]; done|]. intros Hn. right. split; [|done].
  rewrite Hord. by apply elem_of_elements, elem_of_dom.
Qed.

(** What [setup] is applied to. *)
Context (readFile : string → result string string) (parse_error getenv : string → string)
  (order1 order2 order3 : list string) (path : string).
Notation load := (ConfigFile.Load readFile parse_error order1 order2 path).
Notation setup := (setup readFile parse_error getenv order1 order2 order3 path).

(** [setup] after a successful load. *)
Lemma setup_loaded cfg :
  Forall (ConfigFile.file_order readFile path) [order1; order2; order3] →
  load = Ok cfg → durations_fit cfg →
  ∃ chans active reg,
    setup =
      Some (if decide (role_names cfg = []) then Err NoRoles
            else Ok (MkSetup (NewDispatcher chans (Config.rt_MaxAttempts (c_Retry cfg))
                       (int_mul (Config.rt_BaseDelayMS (c_Retry cfg)) Millisecond)) active (Some reg))) ∧
    dom chans = dom (c_Channels cfg) ∧
    Registry_wf reg ∧ r_order reg = first_occurrences (unit_names cfg) ∧
    map_Forall (role_ready cfg) active ∧ dom active = list_to_set (role_names cfg).
Proof.
  rewrite !Forall_cons. intros (H1 & H2 & H3 & _) Hl Hf.
  destruct (ConfigFile.Load_sound _ _ _ _ _ _ _ H1 H2 H3 Hl) as (Hok & Ht & Ho).
  destruct (buildChannels_spec getenv order3 cfg (Config.ok_channels cfg Hok) Ho) as (chans & Hb & Hdom).
  destruct (buildRoles_spec cfg Hok (loaded_range cfg Ht Hf)) as (active & reg & Ha & Hwf & Hord & HP & Hda).
  exists chans, active, reg. split_and!; try done. unfold Wiring.setup. rewrite Hl, Hb, Ha.
  cbn [mbind option_bind].
  assert (Hsize : size active = 0%nat ↔ role_names cfg = []).
  { rewrite <- size_dom, Hda, size_empty_iff. destruct (role_names cfg); [done|].
    split; [|done]. intros Hempty. set_solver. }
  destruct (Z.eqb_spec (Z.of_nat (size active)) 0), (decide (role_names cfg = [])); done || exfalso; naive_solver lia.
Qed.

(** The dispatcher of a setup that succeeds. *)
Lemma setup_channels cfg s :
  load = Ok cfg → setup = Some (Ok s) →
  d_maxAttempts (su_dispatcher s) = Z.max 1 (Config.rt_MaxAttempts (c_Retry cfg)) ∧
  ∀ name svc, d_channels (su_dispatcher s) !! name = Some svc →
    ∃ ch, c_Channels cfg !! name = Some ch ∧ buildChannel getenv name ch = Ok svc.
Proof.
  intros Hl. unfold Wiring.setup. rewrite Hl.
  destruct (buildChannels getenv order3 cfg) as [chans|e] eqn:Hb; [|done].
  intros ([active reg] & _ & H)%bind_Some. destruct (_ =? 0); [done|]. injection H as <-.
  cbn [su_dispatcher]. destruct (NewDispatcher_bounds chans (Config.rt_MaxAttempts (c_Retry cfg))
    (int_mul (Config.rt_BaseDelayMS (c_Retry cfg)) Millisecond)) as (-> & _ & ->).
  split; [done|]. intros name svc Hs.
  destruct (buildChannels_built getenv order3 cfg ∅ chans Hb name svc Hs) as [Hx|]; [|done].
  by rewrite lookup_empty in Hx.
Qed.

(** ** Properties *)

(** C2: what [Load] accepts, the daemon builds and runs.  If the file loads,
    its intervals fit a [Duration] and its windows memory, and a role is
    enabled, then setup succeeds without a panic: a channel per configured
    name, exactly the enabled roles (and the reporter when something is
    monitored), one registered unit per target in order; every role only
    notifies existing channels, and no role panics, whatever the network and
    the clocks do, whatever the schedule of its goroutines and whatever
    registry it starts from. *)
Theorem setup_runs cfg :
  Forall (ConfigFile.file_order readFile path) [order1; order2; order3] →
  load = Ok cfg → durations_fit cfg → role_names cfg ≠ [] →
  ∃ s reg,
    setup = Some (Ok s) ∧
    dom (d_channels (su_dispatcher s)) = dom (c_Channels cfg) ∧
    su_registry s = Some reg ∧ Registry_wf reg ∧ r_order reg = first_occurrences (unit_names cfg) ∧
    dom (su_active s) = list_to_set (role_names cfg) ∧
    map_Forall (λ _ r, role_runs r ∧
      Forall (λ n, n ∈ dom (d_channels (su_dispatcher s))) (role_channels r)) (su_active s).
Proof.
  intros Ho Hl Hf Hne.
  destruct (setup_loaded cfg Ho Hl Hf) as (chans & active & reg & Hs & Hdom & Hwf & Hro & HP & Hda).
  rewrite decide_False in Hs by done. eexists _, reg. split; [exact Hs|]. split_and!; try done.
  intros name r Hn. destruct (HP name r Hn) as (Hruns & Hch & _). split; [done|]. simpl. by rewrite Hdom.
Qed.

(** C34: how setup fails.  If what loads has intervals and windows in the
    machine's range ([durations_fit]), setup reports the error that [Load]
    returns, or that no role is enabled, and nothing else: after a successful
    load no channel has an unknown type and no constructor panics. *)
Theorem setup_errors e :
  Forall (ConfigFile.file_order readFile path) [order1; order2; order3] →
  (∀ cfg, load = Ok cfg → durations_fit cfg) →
  setup = Some (Err e) ↔
    (∃ err, load = Err err ∧ e = SetupConfig err) ∨
    (∃ cfg, load = Ok cfg ∧ role_names cfg = [] ∧ e = NoRoles).
Proof.
  intros Ho Hf. destruct load as [cfg|err] eqn:Hl.
  - destruct (setup_loaded cfg Ho Hl (Hf cfg eq_refl)) as (chans & active & reg & -> & _).
    destruct (decide (role_names cfg = [])); naive_solver.
  - unfold Wiring.setup. rewrite Hl. naive_solver.
Qed.

End runs.

(** Who answers get-summary.  A listener built for an instance that
    monitors something answers a get-summary request with a summary of the
    registry; one built for a pong-only instance rejects it as unsupported. *)
Theorem summary_served_iff_monitoring cfg reg now req line :
  Unmarshal line = Some req → rq_Version req = Version → rq_Type req = TypeGetSummary →
  Registry_wf reg →
  ∃ resp,
    Dispatch (tl_dispatcher (build_listener (monitoring cfg) (Config.r_PongServer (c_Roles cfg))))
      (Some reg) now line = Some resp ∧
    if monitoring cfg
    then ∃ fs, Registry.Summary (Some reg) now = Some fs ∧ resp = NewSummary (rq_ID req) (toWireSummary fs)
    else resp = NewError (rq_ID req) "unsupported request type".
Proof.
  intros Hd Hv Ht Hwf. unfold build_listener. cbn [tl_dispatcher NewTCPListener].
  destruct (monitoring cfg).
  - destruct (Summary_spec reg now Hwf) as (units & Hs & _). eexists.
    split; [by eapply answer_to_summary|]. eauto.
  - eexists. split; [|done]. unfold Dispatch, DecodeRequest. rewrite Hd, Hv, String.eqb_refl. cbn [negb].
    by rewrite NewMessageDispatcher_lookup, Ht.
Qed.

Lemma summary_served_iff_monitoring_witness :
  ∃ line resp,
    EncodeRequest (MkRequest Version "9" TypeGetSummary (MkPayload 0 "")) = Some line ∧
    Dispatch (tl_dispatcher (build_listener (monitoring Config.sample_config)
      (Config.r_PongServer (c_Roles Config.sample_config)))) (Some NewRegistry) 0
      (line +:+ line_end) = Some resp ∧
    ∃ fs, Registry.Summary (Some NewRegistry) 0 = Some fs ∧
      resp = NewSummary "9" (toWireSummary fs).
Proof.
  destruct (request_line (MkRequest Version "9" TypeGetSummary (MkPayload 0 "")))
    as (line & He & _ & Hd).
  { unfold request_ok. split_and!; try done; by apply Utf8.valid_ascii. }
  destruct (summary_served_iff_monitoring Config.sample_config NewRegistry 0 _ _ Hd eq_refl eq_refl
    NewRegistry_wf) as (resp & H & fs & Hs & Hr).
  exists line, resp. split; [exact He|]. split; [exact H|]. exists fs. split; [exact Hs|exact Hr].
Defined.

(** The repository's example configuration, from its file to the running roles. *)
Definition example_file : string → result string string :=
  ConfigFile.one_file ConfigFile.example_text.

Lemma example_orders :
  Forall (ConfigFile.file_order example_file "config.json")
    [ConfigFile.example_order; ConfigFile.example_order; ConfigFile.example_order].
Proof. repeat (apply Forall_cons; split); [apply ConfigFile.example_order_ok..|done]. Qed.

Lemma setup_runs_witness :
  ∃ s reg,
    setup example_file (λ _, "") (λ _, "") ConfigFile.example_order ConfigFile.example_order
      ConfigFile.example_order "config.json" = Some (Ok s) ∧
    su_registry s = Some reg ∧
    r_order reg = ["ping_monitor:192.168.2.3:9000"; "ping_monitor:192.168.2.5:9000";
      "ping_monitor:192.168.2.7:9000"; "ping_monitor:192.168.2.9:9000";
      "ping_monitor:192.168.2.13:9000"; "ping_monitor:192.168.2.15:9000";
      "url_monitor:https://gweru-pc.local:5443/health/live"; "internet_check"; "speed_check"] ∧
    dom (su_active s) = list_to_set ["pong_server"; "ping_monitor"; "url_monitor";
      "internet_check"; "speed_check"; "summary_reporter"].
Proof.
  destruct (ConfigFile.Load example_file (λ _, "") ConfigFile.example_order ConfigFile.example_order
    "config.json") as [cfg|] eqn:Hl; [|vm_compute in Hl; discriminate].
  assert (Hc := Hl). vm_compute in Hc. injection Hc as Hc.
  destruct (setup_runs Checks.plain Checks.plain Checks.plain example_file (λ _, "") (λ _, "")
    ConfigFile.example_order ConfigFile.example_order ConfigFile.example_order "config.json" cfg
    example_orders Hl) as (s & reg & Hs & _ & Hreg & _ & Ho & Hd & _).
  - rewrite <- Hc. split; [|repeat constructor..]; vm_compute; repeat split; discriminate.
  - rewrite <- Hc. discriminate.
  - exists s, reg. split; [exact Hs|]. split; [exact Hreg|]. rewrite Ho, Hd, <- Hc. split; reflexivity.
Defined.

(** The empty object loads and enables nothing. *)
Lemma setup_errors_witness :
  setup (ConfigFile.one_file "{}") (λ _, "") (λ _, "") [] [] [] "config.json" = Some (Err NoRoles).
Proof.
  apply (setup_errors Checks.plain Checks.plain Checks.plain).
  - repeat (apply Forall_cons; split); [..|done];
      (eapply ConfigFile.one_file_order; [vm_compute; reflexivity|unfold Config.range_order; reflexivity]).
  - intros cfg H. vm_compute in H. injection H as <-.
    split; [|repeat constructor..]; vm_compute; repeat split; discriminate.
  - right. eexists. split; [vm_compute; reflexivity|]. split; reflexivity.
Defined.

(** A target checked every 9223372037 seconds: one more than a [Duration] can
    hold. *)
Definition long_file : string := ConfigFile.double_quotes
  "{'roles':{'ping_monitor':{'enabled':true,'targets':[{'target':'db:7777','interval_s':9223372037,'timeout_ms':1000}]}}}".

(** An interval the loader accepts and the daemon cannot run.  [interval_s]
    is only checked to be positive, so 9223372037 loads; multiplied into a
    [Duration] it wraps to a negative one and the monitor's ticker panics at
    once, whatever happens. *)
Theorem interval_wraps go_quote json_error url_error :
  ∃ cfg active reg ms,
    ConfigFile.Load (ConfigFile.one_file long_file) (λ _, "") [] [] "config.json" = Ok cfg ∧
    buildRoles cfg (Some NewRegistry) = Some (active, Some reg) ∧
    active !! "ping_monitor" = Some (RolePing ms) ∧
    ∀ events w, PingMonitor_Run go_quote json_error url_error events ms w = None.
Proof.
  eexists _, _, _, _. split; [vm_compute; reflexivity|]. split; [vm_compute; reflexivity|].
  split; [vm_compute; reflexivity|]. intros events w. reflexivity.
Qed.

(** A window the loader accepts and no machine can allocate: construction
    panics. *)
Definition wide_file : string := ConfigFile.double_quotes
  "{'roles':{'ping_monitor':{'enabled':true,'targets':[{'target':'db:7777','interval_s':5,'timeout_ms':1000,'window_size':1000000000000000}]}}}".

Theorem window_too_large :
  ∃ cfg,
    ConfigFile.Load (ConfigFile.one_file wide_file) (λ _, "") [] [] "config.json" = Ok cfg ∧
    buildRoles cfg (Some NewRegistry) = None.
Proof. eexists. split; [vm_compute; reflexivity|]. vm_compute. reflexivity. Qed.
