(* ===== verification/Daemon.v ===== *)
(** * The running daemon: from the configuration file to the checks of every unit

    Composes ConfigFile.v (the file), Wiring.v (what is built from it), Units.v,
    Group.v and Steps.v (the goroutines of all monitoring roles on one registry
    and one notifier, check by check and access by access): whatever the
    schedule, the network and the clocks do, every configured unit behaves as if
    it were the only one. *)

From S2P Require Import Prelude GoTime Slog Float64 GoString History StateMachine Registry.
From S2P Require Import Dispatcher Checks Group Units Steps Wiring.
From S2P Require Config ConfigFile.

Local Open Scope string_scope.
Local Open Scope Z_scope.

Import Config (c_Roles, c_Channels).

(** The units of the active roles. *)
Definition units_at (active : gmap string role) (name : string) : list Unit :=
  match active !! name with Some r => role_units r | None => [] end.

Definition daemon_units (active : gmap string role) : list Unit :=
  (units_at active "ping_monitor" ++ units_at active "url_monitor" ++
   units_at active "internet_check" ++ units_at active "speed_check")%list.

(** The same from the configuration: a name and monitor settings each. *)
Definition unit_specs (cfg : Config.Config) : list (string * MonitorConfig) :=
  let r := c_Roles cfg in
  ((if Config.pm_Enabled (Config.r_PingMonitor r) then role_specs cfg "ping_monitor" else []) ++
   (if Config.um_Enabled (Config.r_URLMonitor r) then role_specs cfg "url_monitor" else []) ++
   (if Config.ic_Enabled (Config.r_InternetCheck r) then role_specs cfg "internet_check" else []) ++
   (if Config.sc_Enabled (Config.r_SpeedCheck r) then role_specs cfg "speed_check" else []))%list.

Lemma unit_specs_names cfg : (unit_specs cfg).*1 = unit_names cfg.
Proof.
  unfold unit_specs, unit_names, role_specs. cbv zeta. rewrite !fmap_app. cbn [String.eqb Ascii.eqb Bool.eqb].
  destruct (Config.pm_Enabled _), (Config.um_Enabled _), (Config.ic_Enabled _), (Config.sc_Enabled _);
    simpl; rewrite <- ?list_fmap_compose; done.
Qed.

Lemma first_occurrences_NoDup names : NoDup names → first_occurrences names = names.
Proof.
  induction names as [|n names IH] using rev_ind; [done|].
  intros (Hnd & Hn & _)%NoDup_app. unfold first_occurrences in *. rewrite foldl_snoc, (IH Hnd).
  rewrite decide_False; [done|]. intros Hin. apply (Hn n Hin). set_solver.
Qed.

(** The channels a unit notifies. *)
Definition unit_channels (u : Unit) : list string :=
  match u with
  | UPing m => pm_channels m
  | UURL m => um_channels m
  | UInternet c => ic_channels c
  | USpeed s => sc_channels s
  end.

Lemma role_units_channels r u n : u ∈ role_units r → n ∈ unit_channels u → n ∈ role_channels r.
Proof.
  destruct r as [l|ms|ms|c|s|r]; simpl; try (by intros ?%elem_of_nil).
  - intros (m & -> & Hm)%list_elem_of_fmap Hn. apply list_elem_of_bind. by exists m.
  - intros (m & -> & Hm)%list_elem_of_fmap Hn. apply list_elem_of_bind. by exists m.
  - by intros ->%list_elem_of_singleton.
  - by intros ->%list_elem_of_singleton.
Qed.

Section daemon.
Context (go_quote json_error url_error : string → string).

Lemma units_at_start cfg active name :
  map_Forall (role_ready go_quote json_error url_error cfg) active →
  Forall unit_start (units_at active name).
Proof.
  intros HP. unfold units_at. destruct (active !! name) as [r|] eqn:E; [|done].
  by destruct (HP name r E) as (_ & _ & _ & ?).
Qed.

Lemma units_at_fresh cfg active name (enabled : bool) :
  map_Forall (role_ready go_quote json_error url_error cfg) active →
  (name ∈ dom active ↔ enabled = true) →
  Forall2 unit_fresh (if enabled then role_specs cfg name else []) (units_at active name).
Proof.
  intros HP Hdom. unfold units_at. destruct (active !! name) as [r|] eqn:E.
  - replace enabled with true by (symmetry; apply Hdom; by eapply elem_of_dom_2).
    by destruct (HP name r E) as (_ & _ & ? & _).
  - destruct enabled; [|done]. exfalso. apply not_elem_of_dom in E. by apply E, Hdom.
Qed.

Lemma daemon_units_fresh cfg active :
  map_Forall (role_ready go_quote json_error url_error cfg) active →
  dom active = list_to_set (role_names cfg) →
  Forall2 unit_fresh (unit_specs cfg) (daemon_units active) ∧ Forall unit_start (daemon_units active).
Proof.
  intros HP Hdom.
  assert (Hen : ∀ (name : string) (enabled : bool), (name, enabled) ∈ enabled_roles cfg →
    (name ∈ dom active ↔ enabled = true)).
  { intros name enabled Hin. rewrite Hdom, elem_of_list_to_set. unfold role_names.
    rewrite list_elem_of_fmap. setoid_rewrite list_elem_of_filter. split.
    - intros ([n b] & -> & Hb & Hn). simpl in *. unfold enabled_roles in *.
      repeat (apply elem_of_cons in Hin as [Hin|Hin]; [|]); [..|by apply elem_of_nil in Hin];
      repeat (apply elem_of_cons in Hn as [Hn|Hn]; [|]); try (by apply elem_of_nil in Hn); congruence.
    - intros ->. by exists (name, true). }
  unfold unit_specs, daemon_units. cbv zeta.
  split.
  - repeat apply Forall2_app; (apply units_at_fresh; [done|apply Hen; unfold enabled_roles; set_solver]).
  - repeat (apply Forall_app; split); by eapply units_at_start.
Qed.

Lemma daemon_units_channels cfg active :
  map_Forall (role_ready go_quote json_error url_error cfg) active →
  Forall (λ u, Forall (λ n, n ∈ dom (c_Channels cfg)) (unit_channels u)) (daemon_units active).
Proof.
  intros HP. apply Forall_forall. intros u Hu. apply Forall_forall. intros n Hn.
  assert (Hat : ∃ name, u ∈ units_at active name).
  { unfold daemon_units in Hu. rewrite !elem_of_app in Hu. naive_solver. }
  destruct Hat as [name Hat]. unfold units_at in Hat.
  destruct (active !! name) as [r|] eqn:E; [|by apply elem_of_nil in Hat].
  destruct (HP name r E) as (_ & Hch & _). rewrite Forall_forall in Hch.
  apply Hch. by apply (role_units_channels r u).
Qed.

(** The units of a loaded file, with the registry they are started on. *)
Lemma daemon_start readFile parse_error getenv order1 order2 order3 path cfg :
  Forall (ConfigFile.file_order readFile path) [order1; order2; order3] →
  ConfigFile.Load readFile parse_error order1 order2 path = Ok cfg →
  durations_fit cfg → role_names cfg ≠ [] → NoDup (unit_names cfg) →
  ∃ s reg,
    setup readFile parse_error getenv order1 order2 order3 path = Some (Ok s) ∧
    su_registry s = Some reg ∧ Registry_wf reg ∧ r_order reg = unit_names cfg ∧
    fine_units (unit_specs cfg) (daemon_units (su_active s)) ∧
    Forall (λ u, Forall (λ n, n ∈ dom (d_channels (su_dispatcher s))) (unit_channels u))
      (daemon_units (su_active s)).
Proof.
  intros Ho Hl Hf Hne Hnd.
  destruct (setup_loaded go_quote json_error url_error readFile parse_error getenv order1 order2
    order3 path cfg Ho Hl Hf) as (chans & active & reg & Hs & Hdom & Hwf & Hro & HP & Hda).
  rewrite decide_False in Hs by done. eexists _, reg. split; [exact Hs|]. split; [done|].
  split; [done|]. split; [by rewrite Hro, first_occurrences_NoDup|].
  destruct (daemon_units_fresh cfg active HP Hda) as [Hfr Hst].
  split; [split; [by rewrite unit_specs_names|done|done]|].
  cbn [su_dispatcher su_active NewDispatcher d_channels]. rewrite Hdom. by apply daemon_units_channels.
Qed.

(** ** Properties *)

(** C3: the whole daemon, access by access.  From a file that loads, with
    intervals and windows in machine range and units of distinct names, setup
    succeeds.  In every schedule of the goroutines of all the monitoring roles
    (of fewer than 2^63 events), which may switch between any two accesses of a
    check to the registry, the log or the notifier, nothing panics and no unit
    affects another: each configured unit, in order, is where its own loop run
    alone on the same ticks would be, its machine in the specified state of its
    own check history, and, once it has finished the check under way, the
    registry has its latest status and its last hundred samples and its alerts
    are exactly the changes of its specified state. *)
Theorem daemon_interleaved readFile parse_error getenv order1 order2 order3 path cfg :
  Forall (ConfigFile.file_order readFile path) [order1; order2; order3] →
  ConfigFile.Load readFile parse_error order1 order2 path = Ok cfg →
  durations_fit cfg → role_names cfg ≠ [] → NoDup (unit_names cfg) →
  ∃ s reg,
    setup readFile parse_error getenv order1 order2 order3 path = Some (Ok s) ∧
    su_registry s = Some reg ∧ r_order reg = unit_names cfg ∧
    ∀ events logger, Z.of_nat (length events) < 2 ^ 63 →
      let us := daemon_units (su_active s) in
      let w := MkWorld (Some reg) logger [] in
      fine_promise go_quote json_error url_error (unit_specs cfg) events us w reg
        (fine_run go_quote json_error url_error events us w).
Proof.
  intros Ho Hl Hf Hne Hnd.
  destruct (daemon_start readFile parse_error getenv order1 order2 order3 path cfg Ho Hl Hf Hne Hnd)
    as (s & reg & Hs & Hreg & Hwf & Hro & Hfu & _).
  exists s, reg. split_and!; try done. intros events logger Hlen. cbv zeta. by apply units_interleave.
Qed.

(** The whole daemon, check by check.  From a file that loads, with intervals and windows
    in machine range and units of distinct names, setup succeeds, and in every
    schedule of all the goroutines of all the monitoring roles (of fewer than
    2^63 events) nothing panics and no unit affects another: each configured
    unit, in order, ends in the state, with the registry entry and the alerts
    of its own loop run alone: its machine in the specified state of its own
    check history, the registry with its latest status and its last hundred
    samples, its alerts exactly the changes of its specified state. *)
Theorem daemon_isolated readFile parse_error getenv order1 order2 order3 path cfg :
  Forall (ConfigFile.file_order readFile path) [order1; order2; order3] →
  ConfigFile.Load readFile parse_error order1 order2 path = Ok cfg →
  durations_fit cfg → role_names cfg ≠ [] → NoDup (unit_names cfg) →
  ∃ s reg,
    setup readFile parse_error getenv order1 order2 order3 path = Some (Ok s) ∧
    su_registry s = Some reg ∧ r_order reg = unit_names cfg ∧
    ∀ events logger, Z.of_nat (length events) < 2 ^ 63 →
      let us := daemon_units (su_active s) in
      let w := MkWorld (Some reg) logger [] in
      run_promise (H := unit_role go_quote json_error url_error) (unit_specs cfg)
        (unit_run go_quote json_error url_error) events us w reg
        (Units_run go_quote json_error url_error events us w).
Proof.
  intros Ho Hl Hf Hne Hnd.
  destruct (daemon_start readFile parse_error getenv order1 order2 order3 path cfg Ho Hl Hf Hne Hnd)
    as (s & reg & Hs & Hreg & Hwf & Hro & [Hn Hfr Hst] & _).
  exists s, reg. split_and!; try done. intros events logger Hlen. cbv zeta. by apply units_promise.
Qed.
End daemon.

(** ** Witness *)

(** Of the example configuration: two ping targets, the URL, the internet
    check and the speed check, interleaved. *)
Definition example_schedule : list (GroupEvent Outside) :=
  [On 0 (Tick (blackout 5)); On 8 (Tick (blackout 5)); On 6 (Tick (blackout 6)); Logged [];
   On 1 (Tick (blackout 7)); On 7 (Tick (blackout 60)); On 0 CtxDone; On 8 (Tick (blackout 65))].

(** The same units switching inside their checks. *)
Definition example_accesses : list FineEvent :=
  [Start 0 (blackout 5); Start 8 (blackout 5); Continue 8; Continue 0; Continue 0; Start 6 (blackout 6);
   Elsewhere []; Continue 6; Continue 8; Continue 0; Leave 0; Continue 8].

Lemma example_accesses_run :
  match setup example_file (λ _, "") (λ _, "") ConfigFile.example_order ConfigFile.example_order
      ConfigFile.example_order "config.json" with
  | Some (Ok s) =>
      match fine_run plain plain plain example_accesses (daemon_units (su_active s))
              (MkWorld (su_registry s) [] []) with
      | Next _ => true | _ => false end
  | _ => false
  end = true.
Proof. vm_compute. reflexivity. Qed.

Lemma daemon_interleaved_witness :
  ∃ s reg ts w',
    setup example_file (λ _, "") (λ _, "") ConfigFile.example_order ConfigFile.example_order
      ConfigFile.example_order "config.json" = Some (Ok s) ∧
    su_registry s = Some reg ∧
    fine_run plain plain plain example_accesses (daemon_units (su_active s))
      (MkWorld (Some reg) [] []) = Next (ts, w').
Proof.
  destruct (ConfigFile.Load example_file (λ _, "") ConfigFile.example_order ConfigFile.example_order
    "config.json") as [cfg|] eqn:Hl; [|vm_compute in Hl; discriminate].
  assert (Hc := Hl). vm_compute in Hc. injection Hc as Hc.
  destruct (daemon_interleaved plain plain plain example_file (λ _, "") (λ _, "")
    ConfigFile.example_order ConfigFile.example_order ConfigFile.example_order "config.json" cfg
    example_orders Hl) as (s & reg & Hs & Hreg & _ & Hrun).
  - rewrite <- Hc. split; [|repeat constructor..]; vm_compute; repeat split; discriminate.
  - rewrite <- Hc. discriminate.
  - rewrite <- Hc. apply (bool_decide_unpack _). vm_compute. exact I.
  - pose proof (Hrun example_accesses [] ltac:(reflexivity)) as Hp. cbv zeta in Hp.
    destruct (fine_run _ _ _ _ _ _) as [[ts w']| |] eqn:Hr.
    + exists s, reg, ts, w'. split; [exact Hs|]. split; [exact Hreg|exact Hr].
    + exfalso. pose proof example_accesses_run as He. rewrite Hs, Hreg, Hr in He. discriminate He.
    + exfalso. exact Hp.
Defined.

Lemma daemon_isolated_witness :
  ∃ s reg gs w',
    setup example_file (λ _, "") (λ _, "") ConfigFile.example_order ConfigFile.example_order
      ConfigFile.example_order "config.json" = Some (Ok s) ∧
    su_registry s = Some reg ∧
    Units_run plain plain plain example_schedule (daemon_units (su_active s))
      (MkWorld (Some reg) [] []) = Some (gs, w').
Proof.
  destruct (ConfigFile.Load example_file (λ _, "") ConfigFile.example_order ConfigFile.example_order
    "config.json") as [cfg|] eqn:Hl; [|vm_compute in Hl; discriminate].
  assert (Hc := Hl). vm_compute in Hc. injection Hc as Hc.
  destruct (daemon_isolated plain plain plain example_file (λ _, "") (λ _, "")
    ConfigFile.example_order ConfigFile.example_order ConfigFile.example_order "config.json" cfg
    example_orders Hl) as (s & reg & Hs & Hreg & _ & Hrun).
  - rewrite <- Hc. split; [|repeat constructor..]; vm_compute; repeat split; discriminate.
  - rewrite <- Hc. discriminate.
  - rewrite <- Hc. apply (bool_decide_unpack _). vm_compute. exact I.
  - destruct (Hrun example_schedule [] ltac:(reflexivity)) as (gs & w' & reg' & tagged & Hr & _).
    exists s, reg, gs, w'. split; [exact Hs|]. split; [exact Hreg|exact Hr].
Defined.
