(* ===== verification/Delivery.v ===== *)
(** * From a change of state to the channels ([Dispatcher.Dispatch] on the
    daemon's channels)

    Composes Daemon.v (which alerts the units hand to the notifier), Wiring.v
    (which channels there are), Dispatcher.v (the retries of each, interleaved)
    and Channels.v (what one [Notify] sends).  The network answers each attempt
    on each goroutine as it likes, or not at all: [notify_waits] says which
    attempts then wait for the context. *)

From S2P Require Import Prelude GoTime Slog Float64 GoString Utf8 Strconv Json GoJson.
From S2P Require Import TimeFormat Url History StateMachine Registry Dispatcher Channels.
From S2P Require Import Checks Group Units Steps Wiring Daemon.
From S2P Require Config ConfigFile.

Local Open Scope string_scope.
Local Open Scope Z_scope.

Import Config (c_Channels, c_Retry).

(** What one attempt on a channel may meet. *)
Record Network := MkNetwork {
  nw_http : Server;
  nw_http_silent : bool;  (* no answer before the context is done; then it is [nw_http]'s *)
  nw_mail : MailNet;
}.

Section delivery.
Context (marshal_error : string) (url_error : string → string) (zone : Zone).

(** [INotificationService.Notify]: the requests sent and the outcome. *)
Definition Notify (net : Network) (svc : Service) (alert : Alert) : list HTTPRequest * outcome :=
  match svc with
  | SvcConsole c => ([], (Console_Notify alert []).2)
  | SvcWebhook w => Webhook_Notify marshal_error url_error (nw_http net) zone w alert
  | SvcEmail e => ([], Email_Notify url_error (nw_mail net) zone e alert)
  | SvcSMSGate s => SMSGate_Notify marshal_error url_error (nw_http net) s alert
  end.

(** [Dispatch]: goroutine [i] retries the [i]-th of the spawned channels. *)
Definition notify_of (net : nat → Z → Network) (svcs : list (string * Service)) (alert : Alert)
    (i : nat) (attempt : Z) (_ : option string) : outcome :=
  match svcs !! i with
  | Some (_, svc) => (Notify (net i attempt) svc alert).2
  | None => Delivered
  end.

(** Has anything been posted? *)
Definition requests_sent (out : list HTTPRequest * outcome) : bool :=
  match out.1 with [] => false | _ => true end.

(** Does [Notify] come back only once the context is done?  A mail session has
    no deadline of its own: where the context is done first ([mn_ctx]), nothing
    else ends the [select].  [http.Client] gives up at its timeout, if it has
    one, that is a positive one. *)
Definition notify_waits (net : Network) (svc : Service) (alert : Alert) : bool :=
  match svc with
  | SvcConsole _ => false
  | SvcWebhook w =>
      nw_http_silent net && (wh_timeout w <=? 0) && requests_sent (Notify net svc alert)
  | SvcEmail _ => match mn_ctx (nw_mail net) with Some _ => true | None => false end
  | SvcSMSGate s =>
      nw_http_silent net && (sg_timeout s <=? 0) && requests_sent (Notify net svc alert)
  end.

Definition waits_of (net : nat → Z → Network) (svcs : list (string * Service)) (alert : Alert)
    (i : nat) (attempt : Z) : bool :=
  match svcs !! i with
  | Some (_, svc) => notify_waits (net i attempt) svc alert
  | None => false
  end.

Definition dispatch_step (d : Dispatcher Service) (net : nat → Z → Network) (alert : Alert)
    (names : list string) : Pool → Pool → Prop :=
  pool_step (d_maxAttempts d) (notify_of net (spawned d names) alert)
    (waits_of net (spawned d names) alert).

(** ** When a configured channel takes an alert *)

Definition ok_status (server : Server) (timeout : Duration) (req : HTTPRequest) : Prop :=
  ∃ code, server timeout req = Ok code ∧ 200 ≤ code < 300.

(** The body of the webhook's request; of the gateway's. *)
Definition webhook_body (alert : Alert) : option string := print_json <$> alert_json zone alert.

Definition sms_body (recipients : list string) (alert : Alert) : option string :=
  Marshal (MkSmsMessage ("[healthd] " +:+ al_Role alert +:+ " " +:+ al_State alert +:+ ": " +:+
                         al_Detail alert) recipients).

Definition takes (getenv : string → string) (net : Network) (ch : Config.Channel) (alert : Alert)
    : Prop :=
  let timeout := int_mul (Config.ch_TimeoutMS ch) Millisecond in
  let password := getenv (Config.ch_PasswordEnv ch) in
  let ty := Config.ch_Type ch in
  if String.eqb ty Config.ChannelConsole then True
  else if String.eqb ty Config.ChannelWebhook then
    ∃ body, webhook_body alert = Some body ∧ is_Some (url_Parse (Config.ch_URL ch)) ∧
      ok_status (nw_http net) timeout
        (MkHTTPRequest "POST" (Config.ch_URL ch) [json_content] body)
  else if String.eqb ty Config.ChannelEmail then
    Email_Notify url_error (nw_mail net) zone
      (NewEmail (Config.ch_SMTPHost ch) (Config.ch_Port ch) (Config.ch_From ch) (Config.ch_To ch)
         (Config.ch_Username ch) password) alert = Delivered
  else
    let url := trim_slashes (Config.ch_BaseURL ch) +:+ "/message" in
    ∃ body, sms_body (Config.ch_Recipients ch) alert = Some body ∧ is_Some (url_Parse url) ∧
      ok_status (nw_http net) timeout
        (MkHTTPRequest "POST" url [json_content; basic_auth (Config.ch_Username ch) password] body).

(** When an attempt on a configured channel may wait for the context: a mail
    session that does not end, or an HTTP request without an effective timeout
    that is not answered.  A valid timeout is positive, but in nanoseconds it may
    wrap around. *)
Definition may_wait (net : Network) (ch : Config.Channel) : Prop :=
  (Config.ch_Type ch = Config.ChannelEmail ∧ is_Some (mn_ctx (nw_mail net))) ∨
  ((Config.ch_Type ch = Config.ChannelWebhook ∨ Config.ch_Type ch = Config.ChannelSMSGate) ∧
   int_mul (Config.ch_TimeoutMS ch) Millisecond ≤ 0 ∧ nw_http_silent net = true).

Lemma notify_waits_config getenv net name ch svc alert :
  buildChannel getenv name ch = Ok svc → notify_waits net svc alert = true → may_wait net ch.
Proof.
  unfold buildChannel, may_wait.
  destruct (String.eqb_spec (Config.ch_Type ch) Config.ChannelConsole); [by intros [= <-]|].
  destruct (String.eqb_spec (Config.ch_Type ch) Config.ChannelWebhook).
  { intros [= <-]. cbn [notify_waits wh_timeout NewWebhook]. intros [[Hs Ht]%andb_true_iff _]%andb_true_iff.
    right. split_and!; [by left|lia|done]. }
  destruct (String.eqb_spec (Config.ch_Type ch) Config.ChannelEmail).
  { intros [= <-]. cbn [notify_waits]. intros Hm. left. split; [done|]. by destruct (mn_ctx _). }
  destruct (String.eqb_spec (Config.ch_Type ch) Config.ChannelSMSGate); [|done].
  intros [= <-]. cbn [notify_waits sg_timeout NewSMSGate]. intros [[Hs Ht]%andb_true_iff _]%andb_true_iff.
  right. split_and!; [by right|lia|done].
Qed.

Lemma http_post_delivered server timeout who req :
  (http_post url_error server timeout who req).2 = Delivered ↔
    is_Some (url_Parse (rq_url req)) ∧ ok_status server timeout req.
Proof.
  destruct (url_Parse (rq_url req)) as [u|] eqn:Hu.
  - destruct (http_post_spec url_error server timeout who req u Hu) as (o & -> & Hd & _).
    cbn [snd]. rewrite Hd. unfold ok_status. naive_solver.
  - unfold http_post. rewrite Hu. split; [done|]. by intros [[? [=]] _].
Qed.

(** A built channel delivers exactly when the configured one takes the alert. *)
Lemma Notify_takes getenv net name ch svc alert :
  buildChannel getenv name ch = Ok svc →
  (Notify net svc alert).2 = Delivered ↔ takes getenv net ch alert.
Proof.
  unfold buildChannel, takes. cbv zeta.
  destruct (String.eqb _ Config.ChannelConsole); [by intros [= <-]|].
  destruct (String.eqb _ Config.ChannelWebhook).
  { intros [= <-]. cbn [Notify]. unfold Webhook_Notify, webhook_body.
    destruct (alert_json zone alert) as [j|]; cbn [fmap option_fmap option_map].
    - rewrite http_post_delivered. cbn [rq_url wh_url NewWebhook]. naive_solver.
    - split; [done|]. by intros (? & [=] & _). }
  destruct (String.eqb _ Config.ChannelEmail); [by intros [= <-]|].
  destruct (String.eqb _ Config.ChannelSMSGate); [|done].
  intros [= <-]. cbn [Notify]. unfold SMSGate_Notify, sms_body. cbn [sg_recipients NewSMSGate].
  destruct (Marshal _) as [body|].
  - rewrite http_post_delivered. cbn [rq_url sg_baseURL NewSMSGate]. naive_solver.
  - split; [done|]. by intros (? & [=] & _).
Qed.
End delivery.

(** Validation asks only that the URL of a channel is there: one that does not
    parse is accepted, and nothing is ever delivered on its channel. *)
Lemma unusable_webhook :
  let ch := Config.MkChannel Config.ChannelWebhook "http://hooks host/" "" 0 "" [] "" [] "" "" 5000 in
  Config.validateChannel "hook" ch = None ∧
  ∀ marshal_error url_error zone getenv net svc alert,
    buildChannel getenv "hook" ch = Ok svc →
    (Notify marshal_error url_error zone net svc alert).2 ≠ Delivered.
Proof.
  intros ch. split; [reflexivity|]. intros marshal_error url_error zone getenv net svc alert Hb Hd.
  apply (Notify_takes _ _ _ getenv _ "hook" ch) in Hd as (body & _ & [u Hu] & _); [|done].
  by vm_compute in Hu.
Qed.

(** ** Which alerts are handed over *)

Lemma dispatchEvent_alert channels role detail ev n now alert names :
  (alert, names) ∈ dispatchEvent channels role detail ev n now → names = channels ∧ al_Role alert = role.
Proof.
  destruct ev; simpl; [by intros ?%elem_of_nil|..]; by intros [= -> ->]%list_elem_of_singleton.
Qed.

Lemma alerts_spec_alert cfg role channels tr results alert names :
  (alert, names) ∈ alerts_spec cfg role channels tr results → names = channels ∧ al_Role alert = role.
Proof.
  revert tr. induction results as [|r results IH]; intros tr; simpl; [by intros ?%elem_of_nil|].
  intros [H|H]%elem_of_app; [by eapply dispatchEvent_alert|by eapply IH].
Qed.

(** An alert handed over during a schedule comes from a unit, and goes to the
    channels of that unit. *)
Lemma handed_over go_quote json_error url_error specs us events w reg ts w' alert names :
  length specs = length us →
  fine_promise go_quote json_error url_error specs events us w reg (Next (ts, w')) →
  (alert, names) ∈ w_alerts w' → (alert, names) ∈ w_alerts w ∨
  ∃ u, u ∈ us ∧ names = unit_channels u.
Proof.
  intros Hlen (reg' & tagged & _ & _ & _ & Ha & Htag & Hall). rewrite Ha.
  intros [H|([i d] & Hd & Hin)%list_elem_of_fmap]%elem_of_app; [by left|right]. simpl in Hd. subst d.
  rewrite Forall_forall in Htag. pose proof (Htag _ Hin) as Hi. simpl in Hi.
  destruct (lookup_lt_is_Some_2 us i Hi) as [u Hu].
  destruct (lookup_lt_is_Some_2 specs i) as [s Hs]; [lia|].
  destruct (Hall i u s Hu Hs) as (t & wi & regi & _ & _ & _ & Hpost & _ & Hai).
  destruct Hpost as [_ _ _ _ Hal _ _]. rewrite Hal in Hai. apply app_inv_head in Hai.
  exists u. split; [by eapply list_elem_of_lookup_2|].
  assert (Hof : (alert, names) ∈ alerts_of i tagged).
  { unfold alerts_of. apply list_elem_of_fmap. exists (i, (alert, names)). split; [done|].
    by apply list_elem_of_filter. }
  assert (Hspec : (alert, names) ∈ (alerts_of i tagged ++ (th_todo t ≫= alert_op))%list)
    by (apply elem_of_app; by left).
  rewrite <- Hai in Hspec. apply alerts_spec_alert in Hspec as [-> _]. by destruct u.
Qed.

Lemma spawned_known (d : Dispatcher Service) names :
  Forall (λ n, n ∈ dom (d_channels d)) names →
  (spawned d names).*1 = names ∧ unknown_warnings d names = [] ∧
  ∀ i name, names !! i = Some name →
    ∃ svc, spawned d names !! i = Some (name, svc) ∧ d_channels d !! name = Some svc.
Proof.
  induction 1 as [|n names Hn _ (IH1 & IH2 & IH3)]; [done|].
  apply elem_of_dom in Hn as [svc Hsvc]. unfold spawned, unknown_warnings in *. cbn [omap list_omap].
  rewrite Hsvc. cbn [mbind option_bind]. split_and!; [by rewrite fmap_cons, IH1|done|].
  intros [|i] name Hi; simpl in *; [|by apply IH3]. simplify_eq. by exists svc.
Qed.

Lemma spawned_lookup (d : Dispatcher Service) names i name svc :
  spawned d names !! i = Some (name, svc) → d_channels d !! name = Some svc.
Proof.
  intros (n & _ & (svc' & Hd & [= -> ->])%bind_Some)%list_elem_of_lookup_2%list_elem_of_omap. done.
Qed.

(** The deliveries of one alert to configured channels, from a file that loads:
    one per channel, and, if nothing cancels it, successful exactly if one of
    its attempts is taken. *)
Section decided.
Context (marshal_error : string) (url_error : string → string) (zone : Zone).

Lemma pool_length maxAttempts notify waits p p' :
  rtc (pool_step maxAttempts notify waits) p p' → length (p_threads p') = length (p_threads p).
Proof.
  induction 1 as [|p1 p2 p3 Hs _ IH]; [done|]. rewrite IH.
  destruct Hs; simpl; [by rewrite length_insert|done].
Qed.

Lemma delivery_decided readFile parse_error getenv order1 order2 order3 path cfg s alert names :
  ConfigFile.Load readFile parse_error order1 order2 path = Ok cfg →
  setup readFile parse_error getenv order1 order2 order3 path = Some (Ok s) →
  Config.rt_MaxAttempts (c_Retry cfg) < int64_max →
  Forall (λ n, n ∈ dom (d_channels (su_dispatcher s))) names →
  let d := su_dispatcher s in
  (spawned d names).*1 = names ∧ unknown_warnings d names = [] ∧
  ∀ net p,
    rtc (dispatch_step marshal_error url_error zone d net alert names)
      (initial_pool (length names)) p →
    wg_done p →
    ∀ i name, names !! i = Some name →
      ∃ ch res, c_Channels cfg !! name = Some ch ∧ p_threads p !! i = Some (Finished res) ∧
        (p_ctx p = None →
           res = Sent ↔ ∃ k, 1 ≤ k ≤ Z.max 1 (Config.rt_MaxAttempts (c_Retry cfg)) ∧
             takes url_error zone getenv (net i k) ch alert).
Proof.
  intros Hl Hs Hmax Hch. cbv zeta.
  destruct (spawned_known (su_dispatcher s) names Hch) as (Hsp & Hunk & Hat).
  split; [done|]. split; [done|]. intros net p Hrtc Hdone i name Hi.
  destruct (Hat i name Hi) as (svc & Hsvc & Hd).
  destruct (setup_channels readFile parse_error getenv order1 order2 order3 path cfg s Hl Hs)
    as [Hm Hbuilt].
  destruct (Hbuilt name svc Hd) as (ch & Hc & Hb). exists ch.
  destruct (lookup_lt_is_Some_2 (p_threads p) i) as [st Hst].
  { pose proof (pool_length _ _ _ _ _ Hrtc) as Hlen. simpl in Hlen. rewrite length_replicate in Hlen.
    rewrite Hlen. by eapply lookup_lt_Some. }
  pose proof (Forall_lookup_1 _ _ _ _ Hdone Hst) as Hfin. destruct st as [| | |res]; try done.
  exists res. split; [done|]. split; [done|]. intros Hctx.
  unfold dispatch_step in Hrtc. rewrite Hm in Hrtc.
  assert (Hrange : 1 ≤ Z.max 1 (Config.rt_MaxAttempts (c_Retry cfg)) < int64_max)
    by (unfold int64_max in *; lia).
  destruct (dispatch_results _ _ _ (length names) p i Hrange Hrtc Hdone Hctx
    (lookup_lt_Some _ _ _ Hi)) as (steps & res' & Hres & Hloop).
  assert (res' = res) as -> by congruence.
  rewrite (sent_iff _ _ _ _ _ _ Hrange Hloop) by (done || lia).
  cbn [sequential_env env_notify]. unfold notify_of. rewrite Hsvc.
  split; intros (k & Hk & Ht); exists k; (split; [done|]);
    by apply (Notify_takes marshal_error url_error zone getenv _ name ch svc alert Hb).
Qed.
End decided.

(** ** Properties *)

Section daemon.
Context (go_quote json_error url_error : string → string).
Context (marshal_error : string) (zone : Zone).

(** C4: an alert reaches its channels.  From a file that loads, as for the
    whole daemon (intervals and windows in machine range, distinct unit names), and a number of attempts below the largest [int]: whatever
    the schedule of the checks, every alert that some unit has handed over goes
    to configured channels only, one goroutine each; and in every complete
    interleaving of these goroutines, if nothing is cancelled and whatever the
    other channels meet, the delivery on a channel succeeds exactly if one of
    its attempts, at most the configured number, is taken: by a console always,
    by a webhook or an SMS gateway when the server answers the POST of this
    alert with a 2xx status, by a mail server when its session succeeds. *)
Theorem alerts_delivered readFile parse_error getenv order1 order2 order3 path cfg :
  Forall (ConfigFile.file_order readFile path) [order1; order2; order3] →
  ConfigFile.Load readFile parse_error order1 order2 path = Ok cfg →
  durations_fit cfg → role_names cfg ≠ [] → NoDup (unit_names cfg) →
  Config.rt_MaxAttempts (c_Retry cfg) < int64_max →
  ∃ s reg,
    setup readFile parse_error getenv order1 order2 order3 path = Some (Ok s) ∧
    su_registry s = Some reg ∧
    ∀ events logger ts w' alert names,
      Z.of_nat (length events) < 2 ^ 63 →
      fine_run go_quote json_error url_error events (daemon_units (su_active s))
        (MkWorld (Some reg) logger []) = Next (ts, w') →
      (alert, names) ∈ w_alerts w' →
      let d := su_dispatcher s in
      (spawned d names).*1 = names ∧ unknown_warnings d names = [] ∧
      ∀ net p,
        rtc (dispatch_step marshal_error url_error zone d net alert names)
          (initial_pool (length names)) p →
        wg_done p → p_ctx p = None →
        ∀ i name, names !! i = Some name →
          ∃ ch res, c_Channels cfg !! name = Some ch ∧ p_threads p !! i = Some (Finished res) ∧
            (res = Sent ↔ ∃ k, 1 ≤ k ≤ Z.max 1 (Config.rt_MaxAttempts (c_Retry cfg)) ∧
               takes url_error zone getenv (net i k) ch alert).
Proof.
  intros Ho Hl Hf Hne Hnd Hmax.
  destruct (daemon_start go_quote json_error url_error readFile parse_error getenv order1 order2 order3
    path cfg Ho Hl Hf Hne Hnd) as (s & reg & Hs & Hreg & Hwf & _ & Hfu & Hch).
  exists s, reg. split; [done|]. split; [done|]. intros events logger ts w' alert names Hlen Hrun Hin.
  pose proof (units_interleave go_quote json_error url_error _ _ events (MkWorld (Some reg) logger [])
    reg Hfu Hlen eq_refl Hwf) as Hp. rewrite Hrun in Hp.
  destruct (handed_over _ _ _ _ _ _ _ _ _ _ _ _ (Forall2_length _ _ _ (fu_fresh _ _ Hfu)) Hp Hin)
    as [Hx|(u & Hu & ->)]; [by apply elem_of_nil in Hx|].
  rewrite Forall_forall in Hch. cbv zeta.
  destruct (delivery_decided marshal_error url_error zone readFile parse_error getenv order1 order2 order3
    path cfg s alert (unit_channels u) Hl Hs Hmax (Hch u Hu)) as (Hsp & Hunk & Hd).
  split; [done|]. split; [done|]. intros net p Hrtc Hdone Hctx i name Hi.
  destruct (Hd net p Hrtc Hdone i name Hi) as (ch & res & Hc & Hres & Hsent).
  exists ch, res. split_and!; [done..|]. by apply Hsent.
Qed.
End daemon.

(** C25: whether [Dispatch] returns.  From a file that loads and a number of
    attempts below the largest [int], for any alert, any channel names and
    whatever each attempt meets: the deliveries take at most
    [n * (3 * max_attempts + 1) + 1] steps for [n] known channels.  At any point
    all have finished, or some delivery can go on without a cancellation, or
    nothing is cancelled and each delivery that has not finished is inside an
    attempt on a configured channel that [may_wait]: a mail channel whose
    session does not end, or a webhook or SMS gateway whose server does not
    answer and whose timeout in nanoseconds is not positive.  A cancellation, at
    any point, lets all of them finish. *)
Theorem dispatch_returns marshal_error url_error zone readFile parse_error getenv order1 order2 order3
    path cfg s net alert names k p :
  ConfigFile.Load readFile parse_error order1 order2 path = Ok cfg →
  setup readFile parse_error getenv order1 order2 order3 path = Some (Ok s) →
  Config.rt_MaxAttempts (c_Retry cfg) < int64_max →
  let d := su_dispatcher s in
  let step := dispatch_step marshal_error url_error zone d net alert names in
  let n := length (spawned d names) in
  nsteps step k (initial_pool n) p →
  Z.of_nat k ≤ Z.of_nat n * (3 * Z.max 1 (Config.rt_MaxAttempts (c_Retry cfg)) + 1) + 1 ∧
  (wg_done p ∨ (∃ p', step p p' ∧ p_ctx p' = p_ctx p) ∨
   p_ctx p = None ∧ ∀ i st, p_threads p !! i = Some st → is_finished st = false →
     ∃ a name ch, st = Notifying a ∧ (spawned d names).*1 !! i = Some name ∧
       c_Channels cfg !! name = Some ch ∧ may_wait (net i a) ch) ∧
  (∀ e, ∃ q, rtc step (MkPool (p_threads p) (Some e)) q ∧ wg_done q).
Proof.
  intros Hl Hs Hmax. cbv zeta. unfold dispatch_step.
  destruct (setup_channels readFile parse_error getenv order1 order2 order3 path cfg s Hl Hs)
    as [Hm Hbuilt]. rewrite Hm. intros Hk.
  assert (Hrange : 1 ≤ Z.max 1 (Config.rt_MaxAttempts (c_Retry cfg)) < int64_max)
    by (unfold int64_max in *; lia).
  destruct (pool_terminates _ _ _ _ _ _ Hrange Hk) as (Hb & Hp & _ & He).
  split; [done|]. split; [|done].
  destruct Hp as [Hd|[Hn|(Hc & _ & Hw)]]; [by left|by right; left|right; right].
  split; [done|]. intros i st Hi Hf. destruct (Hw i st Hi Hf) as (a & -> & Ha).
  unfold waits_of in Ha. destruct (spawned (su_dispatcher s) names !! i) as [[name svc]|] eqn:Hsp; [|done].
  destruct (Hbuilt name svc) as (ch & Hch & Hbc); [by eapply spawned_lookup|].
  exists a, name, ch. rewrite list_lookup_fmap, Hsp. split_and!; [done..|].
  by eapply notify_waits_config.
Qed.

(** ** Witnesses *)

(** The speed test fails and the state changes at once. *)
Definition failed_speedtest : list FineEvent := Start 8 (blackout 5) :: replicate 6 (Continue 8).

Definition first_alert (out : Outcome Fine) : option Dispatched :=
  match out with Next (_, w) => w_alerts w !! 0%nat | _ => None end.

Lemma failed_speedtest_alerts :
  match setup example_file (λ _, "") (λ _, "") ConfigFile.example_order ConfigFile.example_order
      ConfigFile.example_order "config.json" with
  | Some (Ok s) =>
      match first_alert (fine_run plain plain plain failed_speedtest (daemon_units (su_active s))
               (MkWorld (su_registry s) [] [])) with
      | Some (_, names) => String.eqb (String.concat "," names) "log"
      | None => false
      end
  | _ => false
  end = true.
Proof. vm_compute. reflexivity. Qed.

(** Everything is refused. *)
Definition down : Network :=
  MkNetwork (λ _ _, Err "connection refused") false
    (MkMailNet (λ _ _ _ _ _, Failed "EOF") (λ _, Some "EOF") None None).

Lemma down_returns svcs alert i a :
  returns (waits_of "" plain utc (λ _ _, down) svcs alert) i a None = true.
Proof. unfold returns, waits_of. by destruct (svcs !! i) as [[? []]|]. Qed.

Lemma alerts_delivered_witness :
  ∃ s ts w' alert name names p,
    setup example_file (λ _, "") (λ _, "") ConfigFile.example_order ConfigFile.example_order
      ConfigFile.example_order "config.json" = Some (Ok s) ∧
    fine_run plain plain plain failed_speedtest (daemon_units (su_active s))
      (MkWorld (su_registry s) [] []) = Next (ts, w') ∧
    (alert, name :: names) ∈ w_alerts w' ∧
    rtc (dispatch_step "" plain utc (su_dispatcher s) (λ _ _, down) alert (name :: names))
      (initial_pool (length (name :: names))) p ∧
    ∃ ch res, p_threads p !! 0%nat = Some (Finished res) ∧
      (res = Sent ↔ ∃ k, 1 ≤ k ≤ 3 ∧ takes plain utc (λ _, "") down ch alert).
Proof.
  destruct (ConfigFile.Load example_file (λ _, "") ConfigFile.example_order ConfigFile.example_order
    "config.json") as [cfg|] eqn:Hl; [|vm_compute in Hl; discriminate].
  assert (Hc := Hl). vm_compute in Hc. injection Hc as Hc.
  destruct (alerts_delivered plain plain plain "" utc example_file (λ _, "") (λ _, "")
    ConfigFile.example_order ConfigFile.example_order ConfigFile.example_order "config.json" cfg
    example_orders Hl) as (s & reg & Hs & Hreg & Hrun).
  - rewrite <- Hc. split; [|repeat constructor..]; vm_compute; repeat split; discriminate.
  - rewrite <- Hc. discriminate.
  - rewrite <- Hc. apply (bool_decide_unpack _). vm_compute. exact I.
  - rewrite <- Hc. reflexivity.
  - pose proof failed_speedtest_alerts as He. rewrite Hs, Hreg in He.
    destruct (fine_run _ _ _ _ _ _) as [[ts w']| |] eqn:Hr; [|discriminate He|discriminate He].
    cbn [first_alert] in He.
    destruct (w_alerts w' !! 0%nat) as [[alert [|name names]]|] eqn:Ha; [discriminate He| |discriminate He].
    assert (Hin : (alert, name :: names) ∈ w_alerts w') by (by eapply list_elem_of_lookup_2).
    destruct (Hrun failed_speedtest [] ts w' alert (name :: names) ltac:(reflexivity) Hr Hin)
      as (_ & _ & Hd).
    destruct (setup_channels example_file (λ _, "") (λ _, "") ConfigFile.example_order
      ConfigFile.example_order ConfigFile.example_order "config.json" cfg s Hl Hs) as [Hm _].
    assert (Hmax : Config.rt_MaxAttempts (c_Retry cfg) = 3) by (rewrite <- Hc; reflexivity).
    rewrite Hmax in Hm, Hd.
    destruct (schedule_completes (d_maxAttempts (su_dispatcher s))
      (notify_of "" plain utc (λ _ _, down) (spawned (su_dispatcher s) (name :: names)) alert)
      (waits_of "" plain utc (λ _ _, down) (spawned (su_dispatcher s) (name :: names)) alert)
      (p_threads (initial_pool (length (name :: names)))) None) as (p & Hp & Hdone & Hctx).
    + rewrite Hm. unfold int64_max. lia.
    + rewrite Hm. apply initial_pool_ok. unfold int64_max. lia.
    + intros i a. apply down_returns.
    + destruct (Hd (λ _ _, down) p Hp Hdone Hctx 0%nat name eq_refl) as (ch & res & _ & Hres & Hsent).
      exists s, ts, w', alert, name, names, p. rewrite Hreg.
      split; [exact Hs|]. split; [exact Hr|]. split; [exact Hin|]. split; [exact Hp|].
      exists ch, res. split; [exact Hres|exact Hsent].
Defined.

(** The servers accept connections and say nothing. *)
Definition hung : Network :=
  MkNetwork (λ _ _, Err "context canceled") true
    (MkMailNet (λ _ _ _ _ _, Failed "EOF") (λ _, None) None (Some "context canceled")).

(** The mail channel and the webhook of the example file against them: the
    webhook has a timeout and the mail channel has not. *)
Lemma hung_waits :
  match setup example_file (λ _, "") (λ _, "") ConfigFile.example_order ConfigFile.example_order
      ConfigFile.example_order "config.json" with
  | Some (Ok s) =>
      (length (spawned (su_dispatcher s) ["ops-mail"]), d_maxAttempts (su_dispatcher s),
       waits_of "" plain utc (λ _ _, hung) (spawned (su_dispatcher s) ["ops-mail"]) sample_alert 0 1,
       waits_of "" plain utc (λ _ _, hung) (spawned (su_dispatcher s) ["hook"]) sample_alert 0 1)
  | _ => (0%nat, 0, false, false)
  end = (1%nat, 3, true, false).
Proof. vm_compute. reflexivity. Qed.

(** A goroutine alone inside an attempt that waits. *)
Lemma alone_held_up maxAttempts notify waits a :
  waits 0%nat a = true →
  held_up waits (MkPool [Notifying a] None) ∧
  ¬ ∃ p', pool_step maxAttempts notify waits (MkPool [Notifying a] None) p' ∧ p_ctx p' = None.
Proof.
  intros Hw. assert (Hh : held_up waits (MkPool [Notifying a] None)).
  { split_and!; [done| |].
    - by inversion 1.
    - intros [|i] s [= <-] _. by exists a. }
  split; [done|]. intros (p' & Hs & Hc). by destruct (held_up_step _ _ _ _ _ Hh Hs) as [e ->].
Qed.

Lemma dispatch_returns_witness :
  ∃ s,
    setup example_file (λ _, "") (λ _, "") ConfigFile.example_order ConfigFile.example_order
      ConfigFile.example_order "config.json" = Some (Ok s) ∧
    let step := dispatch_step "" plain utc (su_dispatcher s) (λ _ _, hung) sample_alert ["ops-mail"] in
    nsteps step 1 (initial_pool 1) (MkPool [Notifying 1] None) ∧
    (¬ ∃ p', step (MkPool [Notifying 1] None) p' ∧ p_ctx p' = None) ∧
    (∃ name ch, (spawned (su_dispatcher s) ["ops-mail"]).*1 !! 0%nat = Some name ∧ may_wait hung ch) ∧
    ∃ q, rtc step (MkPool [Notifying 1] (Some "context canceled")) q ∧ wg_done q.
Proof.
  destruct (ConfigFile.Load example_file (λ _, "") ConfigFile.example_order ConfigFile.example_order
    "config.json") as [cfg|] eqn:Hl; [|vm_compute in Hl; discriminate].
  assert (Hmax : Config.rt_MaxAttempts (c_Retry cfg) = 3).
  { assert (Hc := Hl). vm_compute in Hc. injection Hc as Hc. rewrite <- Hc. reflexivity. }
  pose proof hung_waits as He.
  destruct (setup _ _ _ _ _ _ _) as [[s|]|] eqn:Hs; [|discriminate He|discriminate He].
  pose proof (f_equal (λ x, x.1.1.1) He : length (spawned (su_dispatcher s) ["ops-mail"]) = 1%nat) as Hlen.
  pose proof (f_equal (λ x, x.1.1.2) He : d_maxAttempts (su_dispatcher s) = 3) as Hm.
  pose proof (f_equal (λ x, x.1.2) He : waits_of "" plain utc (λ _ _, hung)
    (spawned (su_dispatcher s) ["ops-mail"]) sample_alert 0 1 = true) as Hw.
  exists s. split; [reflexivity|]. cbv zeta.
  assert (Hk : nsteps (dispatch_step "" plain utc (su_dispatcher s) (λ _ _, hung) sample_alert ["ops-mail"]) 1
    (initial_pool (length (spawned (su_dispatcher s) ["ops-mail"]))) (MkPool [Notifying 1] None)).
  { rewrite Hlen. apply nsteps_once. apply (ps_thread _ _ _ [Checking 1 None] None 0 (Checking 1 None) (Notifying 1));
      [reflexivity|].
    apply ts_check; [rewrite Hm; lia|reflexivity]. }
  destruct (dispatch_returns "" plain utc example_file (λ _, "") (λ _, "") ConfigFile.example_order
    ConfigFile.example_order ConfigFile.example_order "config.json" cfg s (λ _ _, hung) sample_alert
    ["ops-mail"] 1 _ Hl Hs ltac:(rewrite Hmax; reflexivity) Hk) as (_ & Hp & Hq).
  destruct (alone_held_up (d_maxAttempts (su_dispatcher s)) (notify_of "" plain utc (λ _ _, hung)
    (spawned (su_dispatcher s) ["ops-mail"]) sample_alert) _ 1 Hw) as [(_ & Hnd & _) Hno].
  rewrite Hlen in Hk. split; [exact Hk|]. split; [exact Hno|]. split; [|exact (Hq "context canceled")].
  destruct Hp as [Hd|[Hn|[_ Hall]]]; [destruct (Hnd Hd)|destruct (Hno Hn)|].
  destruct (Hall 0%nat _ eq_refl eq_refl) as (a & name & ch & _ & H2 & _ & H3).
  exists name, ch. split; [exact H2|exact H3].
Defined.
