(* ===== verification/Supervisor.v ===== *)
(** * Supervising the roles ([cmd/healthd/main.go]: [run] after setup, [main])

    [run] starts a goroutine per role and waits.  The state holds where each
    goroutine and the main one are, the two contexts, the recorded error and
    the log; [act] is one atomic step of one of them, in any order the
    scheduler likes.  What a role's [Run] returns, and when, is the
    environment's choice.  [run_invariant] is the state's invariant and
    [run_measure] bounds every execution. *)

From S2P Require Import Prelude GoTime Float64 Slog.

Local Open Scope string_scope.
Local Open Scope Z_scope.

(** What [Run] returns: nil, an error that [errors.Is] a cancellation, or
    another error. *)
Inductive RunResult :=
  | RunNil
  | RunCanceled
  | RunError (err : string).

(** Where the goroutine of a role is. *)
Inductive RoleState :=
  | RRunning
  | RFailing (err : string)   (* failure logged, mutex not yet taken *)
  | RRecorded                 (* error recorded, [cancel] not yet called *)
  | RFinished.

Inductive MainState :=
  | MWaitCtx                  (* at [<-ctx.Done()] *)
  | MWaitRoles                (* at [wg.Wait()] *)
  | MReturned (fatal : option (string * string)).

Record Daemon := MkDaemon {
  dm_roles : gmap string RoleState;
  dm_signalled : bool;                     (* [sigCtx] is done *)
  dm_cancelled : bool;                     (* [cancel] was called *)
  dm_fatal : option (string * string);     (* [fatalErr]: role and error *)
  dm_main : MainState;
  dm_log : Logger;
}.

Definition ctx_done (d : Daemon) : bool := dm_signalled d || dm_cancelled d.

Definition role_failed (name err : string) : LogRecord :=
  MkLogRecord LevelError "role failed" [("role", SString name); ("error", SError err)].
Definition role_stopped (name : string) : LogRecord :=
  MkLogRecord LevelInfo "role stopped" [("role", SString name)].
Definition note (msg : string) : LogRecord := MkLogRecord LevelInfo msg [].

(** All roles started, [healthd started] logged. *)
Definition started (names : gset string) (l : Logger) : Daemon :=
  MkDaemon (gset_to_gmap RRunning names) false false None MWaitCtx
    (l ++ [MkLogRecord LevelInfo "healthd started" [("roles", SInt (Z.of_nat (size names)))]])%list.

Inductive Action :=
  | Signal
  | RoleReturns (name : string) (res : RunResult)
  | RecordError (name : string)
  | CallCancel (name : string)
  | MainStops
  | MainReturns.

Definition set_role (name : string) (s : RoleState) (d : Daemon) : Daemon :=
  MkDaemon (<[name := s]> (dm_roles d)) (dm_signalled d) (dm_cancelled d) (dm_fatal d) (dm_main d)
    (dm_log d).

Definition add_log (r : LogRecord) (d : Daemon) : Daemon :=
  MkDaemon (dm_roles d) (dm_signalled d) (dm_cancelled d) (dm_fatal d) (dm_main d)
    (dm_log d ++ [r])%list.

#[export] Instance RoleState_eq_dec : EqDecision RoleState.
Proof. solve_decision. Defined.

(** [wg.Wait] returns. *)
Definition all_finished (d : Daemon) : Prop := map_Forall (λ _ s, s = RFinished) (dm_roles d).

#[export] Instance all_finished_dec d : Decision (all_finished d).
Proof. unfold all_finished. apply _. Defined.

(** One atomic step; [None]: not enabled. *)
Definition act (a : Action) (d : Daemon) : option Daemon :=
  match a with
  | Signal =>
      if dm_signalled d then None
      else Some (MkDaemon (dm_roles d) true (dm_cancelled d) (dm_fatal d) (dm_main d) (dm_log d))
  | RoleReturns name res =>
      match dm_roles d !! name with
      | Some RRunning =>
          match res with
          | RunError err => Some (add_log (role_failed name err) (set_role name (RFailing err) d))
          | RunNil | RunCanceled => Some (add_log (role_stopped name) (set_role name RFinished d))
          end
      | _ => None
      end
  | RecordError name =>
      match dm_roles d !! name with
      | Some (RFailing err) =>
          let fatal := match dm_fatal d with None => Some (name, err) | Some x => Some x end in
          Some (MkDaemon (<[name := RRecorded]> (dm_roles d)) (dm_signalled d) (dm_cancelled d) fatal
                  (dm_main d) (dm_log d))
      | _ => None
      end
  | CallCancel name =>
      match dm_roles d !! name with
      | Some RRecorded =>
          Some (MkDaemon (<[name := RFinished]> (dm_roles d)) (dm_signalled d) true (dm_fatal d)
                  (dm_main d) (dm_log d))
      | _ => None
      end
  | MainStops =>
      match dm_main d with
      | MWaitCtx =>
          if ctx_done d then
            Some (MkDaemon (dm_roles d) (dm_signalled d) (dm_cancelled d) (dm_fatal d) MWaitRoles
                    (dm_log d ++ [note "stopping roles"])%list)
          else None
      | _ => None
      end
  | MainReturns =>
      match dm_main d with
      | MWaitRoles =>
          if decide (all_finished d) then
            Some (MkDaemon (dm_roles d) (dm_signalled d) (dm_cancelled d) (dm_fatal d)
                    (MReturned (dm_fatal d)) (dm_log d ++ [note "healthd stopped"])%list)
          else None
      | _ => None
      end
  end.

Fixpoint acts (l : list Action) (d : Daemon) : option Daemon :=
  match l with
  | [] => Some d
  | a :: l => d ← act a d; acts l d
  end.

(** The exit code of [main] for the error [run] returns. *)
Definition exit_code (err : option (string * string)) : Z := if err then 1 else 0.

(** ** The invariant *)

Record run_invariant (d : Daemon) : Prop := {
  ri_fatal_logged n e : dm_fatal d = Some (n, e) → role_failed n e ∈ dm_log d;
  ri_logged_fatal n e : role_failed n e ∈ dm_log d →
    is_Some (dm_fatal d) ∨ dm_roles d !! n = Some (RFailing e);
  ri_failing_logged n e : dm_roles d !! n = Some (RFailing e) → role_failed n e ∈ dm_log d;
  ri_cancel_fatal : dm_cancelled d = true → is_Some (dm_fatal d);
  ri_recorded n : dm_roles d !! n = Some RRecorded → is_Some (dm_fatal d);
  ri_fatal_cancels : is_Some (dm_fatal d) →
    dm_cancelled d = true ∨ ∃ n, dm_roles d !! n = Some RRecorded;
  ri_stopping : dm_main d ≠ MWaitCtx → ctx_done d = true;
  ri_returned r : dm_main d = MReturned r → all_finished d ∧ r = dm_fatal d;
}.

Lemma started_invariant names l :
  (∀ n e, role_failed n e ∉ l) → run_invariant (started names l).
Proof.
  intros Hl. split; simpl; try done; try (intros [? [=]]).
  - intros n e [H|H]%elem_of_app; [by destruct (Hl n e)|].
    apply list_elem_of_singleton in H. discriminate.
  - intros n e (_ & H)%lookup_gset_to_gmap_Some. discriminate.
  - intros n (_ & H)%lookup_gset_to_gmap_Some. discriminate.
Qed.

Lemma elem_of_logged (r x : LogRecord) (l : Logger) : r ∈ (l ++ [x])%list ↔ r ∈ l ∨ r = x.
Proof. by rewrite elem_of_app, list_elem_of_singleton. Qed.

(** While a role has not finished, main has not returned. *)
Lemma unfinished_not_returned d name s r :
  run_invariant d → dm_roles d !! name = Some s → s ≠ RFinished → dm_main d ≠ MReturned r.
Proof. intros I Hs Hne Hm. destruct (ri_returned d I r Hm) as [Hall _]. by apply Hne, (Hall name). Qed.

Lemma invariant_signal d d' : run_invariant d → act Signal d = Some d' → run_invariant d'.
Proof.
  intros [I1 I2 I3 I4 I5 I6 I7 I8] H. unfold act in H. case_match; simplify_eq.
  by split; simpl.
Qed.

(** Moving one role on keeps the others' part of the invariant. *)
Section move.
Context (d : Daemon) (name : string) (s0 s : RoleState).
Hypothesis (HI : run_invariant d) (Hs0 : dm_roles d !! name = Some s0).

Lemma move_cancels :
  s0 ≠ RRecorded → is_Some (dm_fatal d) →
  dm_cancelled d = true ∨ ∃ n, <[name := s]> (dm_roles d) !! n = Some RRecorded.
Proof.
  intros Hne Hf. destruct (ri_fatal_cancels d HI Hf) as [?|[n Hn]]; [by left|right].
  exists n. rewrite lookup_insert_ne; [done|]. congruence.
Qed.

Lemma move_recorded n :
  s ≠ RRecorded → <[name := s]> (dm_roles d) !! n = Some RRecorded → is_Some (dm_fatal d).
Proof.
  intros Hne [[_ ?]|[_ Hn]]%lookup_insert_Some; [done|]. by apply (ri_recorded d HI n).
Qed.

Lemma move_logged n e :
  s0 ≠ RFailing e ∨ n ≠ name → role_failed n e ∈ dm_log d →
  is_Some (dm_fatal d) ∨ <[name := s]> (dm_roles d) !! n = Some (RFailing e).
Proof.
  intros Hne H. destruct (ri_logged_fatal d HI n e H) as [?|Hn]; [by left|right].
  rewrite lookup_insert_ne; [done|]. destruct Hne; congruence.
Qed.

Lemma move_main r P : s0 ≠ RFinished → dm_main d = MReturned r → P.
Proof. intros Hne Hm. by destruct (unfinished_not_returned d name s0 r HI Hs0 Hne). Qed.
End move.

Lemma invariant_finishes name d :
  run_invariant d → dm_roles d !! name = Some RRunning →
  run_invariant (add_log (role_stopped name) (set_role name RFinished d)).
Proof.
  intros I Hn. split; simpl.
  - intros n e H. apply elem_of_logged. left. by apply (ri_fatal_logged d I).
  - intros n e [H|H]%elem_of_logged; [|discriminate H].
    apply (move_logged d name RRunning); [done|done|by left|done].
  - intros n e [[_ ?]|[_ Hx]]%lookup_insert_Some; [done|]. apply elem_of_logged. left.
    by apply (ri_failing_logged d I).
  - apply (ri_cancel_fatal d I).
  - intros n. by apply (move_recorded d name).
  - intros Hf. by apply (move_cancels d name RRunning).
  - apply (ri_stopping d I).
  - intros r Hm. by eapply (move_main d name RRunning).
Qed.

Lemma invariant_fails name err d :
  run_invariant d → dm_roles d !! name = Some RRunning →
  run_invariant (add_log (role_failed name err) (set_role name (RFailing err) d)).
Proof.
  intros I Hn. split; simpl.
  - intros n e H. apply elem_of_logged. left. by apply (ri_fatal_logged d I).
  - intros n e [H|H]%elem_of_logged.
    + apply (move_logged d name RRunning); [done|done|by left|done].
    + injection H as -> ->. right. by rewrite lookup_insert_eq.
  - intros n e [[<- [= ->]]|[_ Hx]]%lookup_insert_Some; apply elem_of_logged; [by right|left].
    by apply (ri_failing_logged d I).
  - apply (ri_cancel_fatal d I).
  - intros n. by apply (move_recorded d name).
  - intros Hf. by apply (move_cancels d name RRunning).
  - apply (ri_stopping d I).
  - intros r Hm. by eapply (move_main d name RRunning).
Qed.

Lemma invariant_record name d d' :
  run_invariant d → act (RecordError name) d = Some d' → run_invariant d'.
Proof.
  intros I H. cbn [act] in H. destruct (dm_roles d !! name) as [[|err| |]|] eqn:Hn; try done.
  set (fatal := match dm_fatal d with None => Some (name, err) | Some x => Some x end) in H.
  assert (Hfat : is_Some fatal) by (unfold fatal; destruct (dm_fatal d); by eexists).
  injection H as <-. split; simpl.
  - intros n e Hf. unfold fatal in Hf. destruct (dm_fatal d) as [x|] eqn:E.
    + apply (ri_fatal_logged d I). congruence.
    + injection Hf as <- <-. apply (ri_failing_logged d I _ _ Hn).
  - intros n e _. by left.
  - intros n e [[_ ?]|[_ Hx]]%lookup_insert_Some; [done|]. by apply (ri_failing_logged d I).
  - by intros _.
  - by intros n _.
  - intros _. right. exists name. by rewrite lookup_insert_eq.
  - apply (ri_stopping d I).
  - intros r Hm. by eapply (move_main d name (RFailing err)).
Qed.

Lemma invariant_cancel name d d' :
  run_invariant d → act (CallCancel name) d = Some d' → run_invariant d'.
Proof.
  intros I H. cbn [act] in H. destruct (dm_roles d !! name) as [[|err| |]|] eqn:Hn; try done.
  injection H as <-. pose proof (ri_recorded d I name Hn) as Hfat. split; simpl; try done.
  - apply (ri_fatal_logged d I).
  - intros n e _. by left.
  - intros n e [[_ ?]|[_ Hx]]%lookup_insert_Some; [done|]. by apply (ri_failing_logged d I).
  - by left.
  - intros Hm. unfold ctx_done. simpl. apply orb_true_r.
  - intros r Hm. by eapply (move_main d name RRecorded).
Qed.

Lemma act_invariant a d d' : run_invariant d → act a d = Some d' → run_invariant d'.
Proof.
  intros I H. destruct a as [|name res|name|name| |].
  - by apply (invariant_signal d).
  - cbn [act] in H. destruct (dm_roles d !! name) as [[]|] eqn:Hn; try done.
    destruct res; simplify_eq;
      [by apply invariant_finishes|by apply invariant_finishes|by apply invariant_fails].
  - by apply (invariant_record name d).
  - by apply (invariant_cancel name d).
  - cbn [act] in H. destruct (dm_main d) eqn:Hm; try done.
    destruct (ctx_done d) eqn:Hc; [|done]. injection H as <-.
    destruct I as [I1 I2 I3 I4 I5 I6 I7 I8]. split; simpl; try done.
    + intros n e Hf. apply elem_of_logged. left. by apply I1.
    + intros n e [Hl|Hl]%elem_of_logged; [by apply I2|discriminate Hl].
    + intros n e Hf. apply elem_of_logged. left. by apply I3.
  - cbn [act] in H. destruct (dm_main d) eqn:Hm; try done.
    case_decide as Hall; [|done]. injection H as <-.
    destruct I as [I1 I2 I3 I4 I5 I6 I7 I8]. split; simpl; try done.
    + intros n e Hf. apply elem_of_logged. left. by apply I1.
    + intros n e [Hl|Hl]%elem_of_logged; [by apply I2|discriminate Hl].
    + intros n e Hf. apply elem_of_logged. left. by apply I3.
    + intros _. apply I7. congruence.
    + by intros r [= <-].
Qed.

Lemma acts_app l k d : acts (l ++ k)%list d = (d' ← acts l d; acts k d').
Proof.
  revert d. induction l as [|a l IH]; intros d; [done|]. simpl. destruct (act a d); [apply IH|done].
Qed.

(** An invariant of every step holds after any number of them. *)
Lemma acts_preserve (P : Daemon → Prop) l d d' :
  (∀ a d d', P d → act a d = Some d' → P d') → P d → acts l d = Some d' → P d'.
Proof.
  intros Hstep. revert d. induction l as [|a l IH]; intros d HP H; simpl in H; [by simplify_eq|].
  apply bind_Some in H as (d1 & H1 & H). eapply IH; [|exact H]. by eapply Hstep.
Qed.

Lemma reachable_invariant names l as' d :
  (∀ n e, role_failed n e ∉ l) → acts as' (started names l) = Some d → run_invariant d.
Proof.
  intros Hl. apply acts_preserve; [by intros; eapply act_invariant|by apply started_invariant].
Qed.

(** The recorded error never changes. *)
Lemma act_fatal_stable x a d d' : dm_fatal d = Some x → act a d = Some d' → dm_fatal d' = Some x.
Proof.
  intros Hx H. destruct a; cbn [act] in H; repeat (case_match; try done); simplify_eq; simpl; congruence.
Qed.

(** ** The measure *)

Definition role_fuel (s : RoleState) : nat :=
  match s with RRunning => 3 | RFailing _ => 2 | RRecorded => 1 | RFinished => 0 end.

Definition roles_fuel (m : gmap string RoleState) : nat :=
  map_fold (λ _ s n, role_fuel s + n)%nat 0%nat m.

Definition main_fuel (m : MainState) : nat :=
  match m with MWaitCtx => 2 | MWaitRoles => 1 | MReturned _ => 0 end.

Definition run_measure (d : Daemon) : nat :=
  roles_fuel (dm_roles d) + main_fuel (dm_main d) + (if dm_signalled d then 0 else 1).

Lemma roles_fuel_insert m name s :
  m !! name = None → roles_fuel (<[name := s]> m) = (role_fuel s + roles_fuel m)%nat.
Proof.
  intros Hn. unfold roles_fuel.
  rewrite (map_fold_insert_L (λ _ s n, role_fuel s + n)%nat 0%nat name s m); [done| |done].
  intros. lia.
Qed.

Lemma roles_fuel_move m name s0 s :
  m !! name = Some s0 →
  (roles_fuel (<[name := s]> m) + role_fuel s0 = roles_fuel m + role_fuel s)%nat.
Proof.
  intros Hn. rewrite <- (insert_delete_id m name s0) at 2 by done.
  rewrite <- (insert_delete_eq m name s).
  rewrite !roles_fuel_insert by apply lookup_delete_eq. lia.
Qed.

Lemma act_decreases a d d' : act a d = Some d' → (run_measure d' < run_measure d)%nat.
Proof.
  intros H. unfold run_measure.
  destruct a as [|name res|name|name| |]; cbn [act] in H; repeat (case_match; try done);
    simplify_eq; simpl;
    try match goal with Hn : dm_roles d !! name = Some ?s |- context [<[name := ?t]> _] =>
      pose proof (roles_fuel_move _ _ _ t Hn); simpl in * end;
    repeat match goal with Hm : dm_main d = _ |- _ => rewrite Hm in *; clear Hm end;
    repeat match goal with Hm : dm_signalled d = _ |- _ => rewrite Hm in *; clear Hm end; simpl; lia.
Qed.

Lemma acts_bounded l d d' : acts l d = Some d' → (length l + run_measure d' <= run_measure d)%nat.
Proof.
  revert d. induction l as [|a l IH]; intros d H; simpl in H; [by simplify_eq|].
  apply bind_Some in H as (d1 & H1 & H). apply act_decreases in H1. apply IH in H. simpl. lia.
Qed.

Lemma started_measure names l : run_measure (started names l) = (3 * size names + 3)%nat.
Proof.
  unfold run_measure, started. simpl.
  assert (roles_fuel (gset_to_gmap RRunning names) = (3 * size names)%nat) as ->; [|lia].
  induction names as [|n names Hn IH] using set_ind_L.
  - by rewrite gset_to_gmap_empty.
  - rewrite gset_to_gmap_union_singleton, roles_fuel_insert, IH by (by apply lookup_gset_to_gmap_None).
    rewrite size_union, size_singleton by set_solver. simpl. lia.
Qed.

(** ** Progress *)

(** The daemon is on its way down. *)
Definition stopping (d : Daemon) : Prop := ctx_done d = true ∨ is_Some (dm_fatal d).

Lemma act_stopping a d d' : stopping d → act a d = Some d' → stopping d'.
Proof.
  intros [Hc|[x Hx]] H; [left|right; exists x; by eapply act_fatal_stable].
  unfold ctx_done in *. destruct a; cbn [act] in H; repeat (case_match; try done); simplify_eq; simpl;
    by rewrite ?orb_true_r.
Qed.

Lemma role_progress d name s :
  dm_roles d !! name = Some s → s ≠ RFinished → ∃ a d', a ≠ Signal ∧ act a d = Some d'.
Proof.
  intros Hn Hne. destruct s as [|err| |]; [| | |done].
  - exists (RoleReturns name RunNil). cbn [act]. rewrite Hn. by eexists.
  - exists (RecordError name). cbn [act]. rewrite Hn. by eexists.
  - exists (CallCancel name). cbn [act]. rewrite Hn. by eexists.
Qed.

(** Between the recording of an error and its [cancel] some role is at the
    latter. *)
Lemma cancel_pending d :
  run_invariant d → is_Some (dm_fatal d) → ctx_done d = false →
  ∃ n d', act (CallCancel n) d = Some d'.
Proof.
  intros I Hf Hc. destruct (ri_fatal_cancels d I Hf) as [Hcan|[n Hn]].
  - unfold ctx_done in Hc. by rewrite Hcan, orb_true_r in Hc.
  - exists n. cbn [act]. rewrite Hn. by eexists.
Qed.

Lemma stopping_progress d :
  run_invariant d → stopping d → (∀ r, dm_main d ≠ MReturned r) →
  ∃ a d', a ≠ Signal ∧ act a d = Some d'.
Proof.
  intros I Hst Hmain. destruct (dm_main d) as [| |r] eqn:Hm; [| |by destruct (Hmain r)].
  - destruct (ctx_done d) eqn:Hc.
    + exists MainStops. cbn [act]. rewrite Hm, Hc. by eexists.
    + destruct Hst as [?|Hf]; [congruence|].
      destruct (cancel_pending d I Hf Hc) as (n & d' & Ha). by exists (CallCancel n), d'.
  - destruct (decide (all_finished d)) as [Hall|Hall].
    + exists MainReturns. cbn [act]. rewrite Hm, decide_True by done. by eexists.
    + apply map_not_Forall in Hall as (n & s & Hn & Hs); [|apply _]. by apply (role_progress d n s).
Qed.

(** ** Properties *)

(** C13: what [run] returns.  In every schedule, when [run] returns every role
    has stopped and a context is done; it returns nil exactly when no role
    failed, and then a signal was received; else it returns an error some role
    failed with, and once an error is recorded it is the one returned. *)
Theorem run_result names l as1 as2 d1 d r :
  (∀ n e, role_failed n e ∉ l) →
  acts as1 (started names l) = Some d1 → acts as2 d1 = Some d → dm_main d = MReturned r →
  all_finished d ∧ ctx_done d = true ∧
  (r = None ↔ ∀ n e, role_failed n e ∉ dm_log d) ∧
  (r = None → dm_signalled d = true) ∧
  (∀ n e, r = Some (n, e) → role_failed n e ∈ dm_log d) ∧
  (∀ x, dm_fatal d1 = Some x → r = Some x).
Proof.
  intros Hl H1 H2 Hm.
  pose proof (reachable_invariant names l as1 d1 Hl H1) as I1.
  assert (I : run_invariant d).
  { revert H2. apply acts_preserve; [by intros; eapply act_invariant|done]. }
  destruct (ri_returned d I r Hm) as [Hall ->].
  pose proof (ri_stopping d I ltac:(rewrite Hm; discriminate)) as Hc.
  split_and!; [done|done| | | |].
  - split.
    + intros Hf n e Hin. destruct (ri_logged_fatal d I n e Hin) as [[? ?]|Hn]; [congruence|].
      exfalso. discriminate (Hall n _ Hn).
    + intros Hno. destruct (dm_fatal d) as [[n e]|] eqn:Hf; [|done].
      exfalso. by apply (Hno n e), (ri_fatal_logged d I).
  - intros Hf. unfold ctx_done in Hc. destruct (dm_signalled d); [done|]. simpl in Hc.
    destruct (ri_cancel_fatal d I Hc) as [? ?]. congruence.
  - intros n e. apply (ri_fatal_logged d I).
  - intros x Hx. revert H2. apply (acts_preserve (λ d, dm_fatal d = Some x)); [|done].
    intros a d0 d2. apply act_fatal_stable.
Qed.

(** C14: shutdown.  Every schedule is bounded by three steps per role and three
    more; and once a signal arrived or a role's error was recorded, a schedule
    that cannot go on (without another signal) has returned from [run]: no
    deadlock between the error mutex, the cancellation and the wait group. *)
Theorem run_shuts_down names l as1 as2 d1 d :
  (∀ n e, role_failed n e ∉ l) →
  acts as1 (started names l) = Some d1 → acts as2 d1 = Some d →
  (length as1 + length as2 <= 3 * size names + 3)%nat ∧
  (stopping d1 → (∀ a d', act a d = Some d' → a = Signal) → ∃ r, dm_main d = MReturned r).
Proof.
  intros Hl H1 H2. split.
  - assert (H : acts (as1 ++ as2)%list (started names l) = Some d) by (by rewrite acts_app, H1).
    apply acts_bounded in H. rewrite started_measure, length_app in H. lia.
  - intros Hst Hstuck.
    assert (Hst' : stopping d) by (revert H2; apply acts_preserve; [apply act_stopping|done]).
    assert (I : run_invariant d).
    { revert H2. apply acts_preserve; [by intros; eapply act_invariant|].
      by eapply reachable_invariant. }
    destruct (dm_main d) as [| |r] eqn:Hm; [| |by exists r];
      (destruct (stopping_progress d I Hst') as (a & d' & Ha & H);
        [intros r; rewrite Hm; discriminate|by destruct Ha, (Hstuck a d')]).
Qed.

(** Two roles; the listener cannot bind, the other stops on cancellation. *)
Definition sample_names : gset string := {[ "pong_server"; "ping_monitor" ]}.
Definition bind_failure : list Action :=
  [RoleReturns "pong_server" (RunError "bind: address in use"); RecordError "pong_server"].
Definition then_shutdown : list Action :=
  [CallCancel "pong_server"; MainStops; RoleReturns "ping_monitor" RunNil; MainReturns].

Lemma sample_run :
  ∃ d1 d, acts bind_failure (started sample_names []) = Some d1 ∧ acts then_shutdown d1 = Some d ∧
    dm_main d = MReturned (Some ("pong_server", "bind: address in use")) ∧
    dm_fatal d1 = Some ("pong_server", "bind: address in use").
Proof.
  eexists _, _. split; [vm_compute; reflexivity|]. split; [vm_compute; reflexivity|].
  split; reflexivity.
Defined.

Lemma run_result_witness :
  ∃ d1 d, acts bind_failure (started sample_names []) = Some d1 ∧ acts then_shutdown d1 = Some d ∧
    all_finished d ∧ role_failed "pong_server" "bind: address in use" ∈ dm_log d.
Proof.
  destruct sample_run as (d1 & d & H1 & H2 & Hm & _). exists d1, d.
  destruct (run_result sample_names [] bind_failure then_shutdown d1 d _
    ltac:(intros n e H; by apply elem_of_nil in H) H1 H2 Hm) as (Hall & _ & _ & _ & Hlog & _).
  split; [exact H1|]. split; [exact H2|]. split; [exact Hall|]. by apply Hlog.
Defined.

Lemma run_shuts_down_witness :
  ∃ d1 d, acts bind_failure (started sample_names []) = Some d1 ∧ acts then_shutdown d1 = Some d ∧
    (stopping d1 → (∀ a d', act a d = Some d' → a = Signal) → ∃ r, dm_main d = MReturned r).
Proof.
  destruct sample_run as (d1 & d & H1 & H2 & Hm & _). exists d1, d.
  split; [exact H1|]. split; [exact H2|].
  exact (proj2 (run_shuts_down sample_names [] bind_failure then_shutdown d1 d
    ltac:(intros n e H; by apply elem_of_nil in H) H1 H2)).
Defined.
