(* ===== verification/Healthd.v ===== *)
(** * The process ([cmd/healthd/main.go]: [main] and [run] as a whole)

    Composes Wiring.v (setup) and Supervisor.v (the goroutines of [run]): the
    supervisor leaves open what a role's [Run] returns and when, [role_returns]
    says it for each role, and [healthd_step] is the supervisor so restricted.
    The theorems say when the process ends and with which exit code. *)

From S2P Require Import Prelude GoTime Float64 Slog GoString.
From S2P Require Import StateMachine Registry Dispatcher Listener Checks Group Units Wiring.
From S2P Require Config ConfigFile.
From S2P Require Import Supervisor.

Local Open Scope string_scope.
Local Open Scope Z_scope.

Import Config (c_Roles).

(** The return statements of each [Run]; [ctx] tells whether the context is
    done.  Only the listener has one that is reached without it: the error of
    [Listen], which may also be the context's. *)
Inductive role_returns (ctx : bool) : role → RunResult → Prop :=
  | ret_ping ms : ctx = true → role_returns ctx (RolePing ms) RunNil
  | ret_url ms : ctx = true → role_returns ctx (RoleURL ms) RunNil
  | ret_internet c : ctx = true → role_returns ctx (RoleInternet c) RunNil
  | ret_speed s : ctx = true → role_returns ctx (RoleSpeed s) RunNil
  | ret_reporter r : ctx = true → role_returns ctx (RoleReporter r) RunNil
  | ret_listener l : ctx = true → role_returns ctx (RoleListener l) RunNil
  | ret_listen_cancelled l : ctx = true → role_returns ctx (RoleListener l) RunCanceled
  | ret_listen_failed l err : role_returns ctx (RoleListener l) (RunError err).

Section process.
Context (active : gmap string role).

(** What the environment may do. *)
Definition permitted (a : Action) (d : Daemon) : Prop :=
  match a with
  | RoleReturns name res => ∃ r, active !! name = Some r ∧ role_returns (ctx_done d) r res
  | _ => True
  end.

Inductive healthd_step : Daemon → Daemon → Prop :=
  | hs_act a d d' : permitted a d → act a d = Some d' → healthd_step d d'.

(** Only the pong server is a listener. *)
Definition one_listener : Prop :=
  ∀ name l, active !! name = Some (RoleListener l) → name = "pong_server".

Definition listens (name : string) : Prop :=
  name = "pong_server" ∧ ∃ l, active !! name = Some (RoleListener l).

(** Invariant: only the listener fails, and a role that has finished shows that
    the context is done. *)
Record healthd_inv (d : Daemon) : Prop := {
  hi_roles : dom (dm_roles d) = dom active;
  hi_failing n e : dm_roles d !! n = Some (RFailing e) → listens n;
  hi_fatal n e : dm_fatal d = Some (n, e) → listens n;
  hi_finished n : dm_roles d !! n = Some RFinished → ctx_done d = true;
}.

Lemma healthd_inv_started l : healthd_inv (started (dom active) l).
Proof.
  split; simpl; try done.
  - by rewrite dom_gset_to_gmap.
  - intros n e (_ & [=])%lookup_gset_to_gmap_Some.
  - intros n (_ & [=])%lookup_gset_to_gmap_Some.
Qed.

Hypothesis Hlisten : one_listener.

Lemma healthd_inv_step d d' : healthd_step d d' → healthd_inv d → healthd_inv d'.
Proof.
  intros [a d0 d1 Hp Ha] [Hr Hf Hx Hd]. destruct a as [|name res|name|name| |]; cbn [act permitted] in *.
  - case_match; simplify_eq. split; simpl; try done.
  - destruct (dm_roles d0 !! name) as [[]|] eqn:Hn; try done.
    destruct Hp as (r & Hact & Hret).
    assert (Hdom : ∀ s, dom (<[name := s]> (dm_roles d0)) = dom active).
    { intros s. rewrite dom_insert_L, <- Hr. apply elem_of_dom_2 in Hn. set_solver. }
    destruct Hret; simplify_eq; (split; simpl; [apply Hdom| | |]); try done;
      try (by intros n e [[_ [=]]|[_ ?]]%lookup_insert_Some; eauto);
      try (by intros n [[_ [=]]|[_ ?]]%lookup_insert_Some; eauto).
    intros n e [[<- _]|[_ ?]]%lookup_insert_Some; [|by eapply Hf].
    split; [by eapply Hlisten|by eexists].
  - destruct (dm_roles d0 !! name) as [[|err| |]|] eqn:Hn; try done.
    simplify_eq. split; simpl.
    + rewrite dom_insert_L, Hr. apply elem_of_dom_2 in Hn. set_solver.
    + intros n e [[_ [=]]|[_ ?]]%lookup_insert_Some. by eapply Hf.
    + intros n e He. destruct (dm_fatal d0) as [[n' e']|] eqn:E; simplify_eq; [by eapply Hx|by eapply Hf].
    + intros n [[_ [=]]|[_ ?]]%lookup_insert_Some. by eapply Hd.
  - destruct (dm_roles d0 !! name) as [[|err| |]|] eqn:Hn; try done.
    simplify_eq. split; simpl; try done.
    + rewrite dom_insert_L, Hr. apply elem_of_dom_2 in Hn. set_solver.
    + intros n e [[_ [=]]|[_ ?]]%lookup_insert_Some. by eapply Hf.
    + intros n _. unfold ctx_done. simpl. apply orb_true_r.
  - destruct (dm_main d0); try done. destruct (ctx_done d0) eqn:Hc; [|done]. simplify_eq. split; try done.
  - destruct (dm_main d0); try done. case_decide; [|done]. simplify_eq. by split.
Qed.

(** Both invariants, in every state of the process. *)
Lemma healthd_reachable l d :
  (∀ n e, role_failed n e ∉ l) → rtc healthd_step (started (dom active) l) d →
  run_invariant d ∧ healthd_inv d.
Proof.
  intros Hl Hrtc.
  assert (Hpres : ∀ d d', healthd_step d d' → run_invariant d ∧ healthd_inv d → run_invariant d' ∧ healthd_inv d').
  { intros d1 d2 Hs [I1 I2]. split; [|by eapply healthd_inv_step].
    destruct Hs as [a d1 d2 _ Ha]. by eapply act_invariant. }
  assert (Hini : run_invariant (started (dom active) l) ∧ healthd_inv (started (dom active) l)).
  { split; [by apply started_invariant|apply healthd_inv_started]. }
  clear Hl. revert Hini. induction Hrtc as [d|d1 d2 d3 Hs _ IH]; [done|]. intros Hini. eauto.
Qed.

(** A process on its way down can always go on. *)
Lemma healthd_progress d :
  run_invariant d → healthd_inv d → stopping d → (∀ r, dm_main d ≠ MReturned r) →
  ∃ a d', a ≠ Signal ∧ permitted a d ∧ act a d = Some d'.
Proof.
  intros I J Hst Hmain. destruct (ctx_done d) eqn:Hc.
  - destruct (dm_main d) as [| |r] eqn:Hm; [| |by destruct (Hmain r)].
    + exists MainStops. cbn [act]. rewrite Hm, Hc. by eexists.
    + destruct (decide (all_finished d)) as [Hall|Hall].
      * exists MainReturns. cbn [act]. rewrite Hm, decide_True by done. by eexists.
      * apply map_not_Forall in Hall as (n & s & Hn & Hs); [|apply _].
        destruct s as [|err| |]; [| | |done].
        -- assert (Hin : n ∈ dom active) by (rewrite <- (hi_roles d J); by eapply elem_of_dom_2).
           apply elem_of_dom in Hin as [r Hr]. exists (RoleReturns n RunNil). cbn [act permitted].
           rewrite Hn. eexists. split_and!; [done| |done]. exists r. split; [done|].
           rewrite Hc. destruct r; by constructor.
        -- exists (RecordError n). cbn [act]. rewrite Hn. by eexists.
        -- exists (CallCancel n). cbn [act]. rewrite Hn. by eexists.
  - destruct Hst as [?|Hf]; [congruence|].
    destruct (cancel_pending d I Hf Hc) as (n & d' & Ha). by exists (CallCancel n), d'.
Qed.
End process.

(** *** Which role is a listener *)

Lemma add_role_listener {R} enabled name (inj : R → role) build active reg active' reg' n l :
  add_role enabled name inj build (active, reg) = Some (active', reg') →
  active' !! n = Some (RoleListener l) →
  active !! n = Some (RoleListener l) ∨ enabled = true ∧ n = name ∧ ∃ r, inj r = RoleListener l.
Proof.
  unfold add_role. destruct enabled; [|intros [= -> ->]; by left].
  intros ([r reg1] & _ & [= <- <-])%bind_Some [[<- [= <-]]|[_ ?]]%lookup_insert_Some; [right|by left].
  split_and!; [done|done|by exists r].
Qed.

Lemma buildRoles_listener cfg reg active reg' n l :
  buildRoles cfg reg = Some (active, reg') → active !! n = Some (RoleListener l) →
  n = "pong_server" ∧ Config.ps_Enabled (Config.r_PongServer (c_Roles cfg)) = true.
Proof.
  unfold buildRoles. cbv zeta.
  intros ([a1 r1] & H1 & ([a2 r2] & H2 & ([a3 r3] & H3 & ([a4 r4] & H4 & ([a5 r5] & H5 & H6)%bind_Some)%bind_Some)%bind_Some)%bind_Some)%bind_Some Hl.
  destruct (add_role_listener _ _ _ _ _ _ _ _ _ _ H6 Hl) as [Hl5|(_ & _ & ? & [=])].
  destruct (add_role_listener _ _ _ _ _ _ _ _ _ _ H5 Hl5) as [Hl4|(_ & _ & ? & [=])].
  destruct (add_role_listener _ _ _ _ _ _ _ _ _ _ H4 Hl4) as [Hl3|(_ & _ & ? & [=])].
  destruct (add_role_listener _ _ _ _ _ _ _ _ _ _ H3 Hl3) as [Hl2|(_ & _ & ? & [=])].
  destruct (add_role_listener _ _ _ _ _ _ _ _ _ _ H2 Hl2) as [Hl1|(_ & _ & ? & [=])].
  destruct (add_role_listener _ _ _ _ _ _ _ _ _ _ H1 Hl1) as [Hl0|(He & -> & _)]; [|done].
  by rewrite lookup_empty in Hl0.
Qed.

Lemma setup_listener readFile parse_error getenv order1 order2 order3 path cfg s n l :
  ConfigFile.Load readFile parse_error order1 order2 path = Ok cfg →
  setup readFile parse_error getenv order1 order2 order3 path = Some (Ok s) →
  su_active s !! n = Some (RoleListener l) →
  n = "pong_server" ∧ Config.ps_Enabled (Config.r_PongServer (c_Roles cfg)) = true.
Proof.
  intros Hl Hs. unfold setup in Hs. rewrite Hl in Hs. destruct (buildChannels getenv order3 cfg); [|done].
  apply bind_Some in Hs as ([active reg] & Hb & Hs). destruct (_ =? 0); [done|].
  injection Hs as <-. simpl. by eapply buildRoles_listener.
Qed.

(** ** Properties *)

(** C11: how the process ends.  For a file that loads, with intervals and
    windows in machine range and some role enabled, setup succeeds, and in
    every schedule of the roles, of the signal and of the main goroutine: [run]
    returns nil only after a signal; the only error it can return is the pong
    server's, when it cannot listen, so an instance without a pong server never
    ends by itself and exits with 0; and once a signal arrived or that error was
    recorded, as long as [run] has not returned another step is possible. *)
Theorem healthd_ends (go_quote json_error url_error : string → string)
    readFile parse_error getenv order1 order2 order3 path cfg l :
  Forall (ConfigFile.file_order readFile path) [order1; order2; order3] →
  ConfigFile.Load readFile parse_error order1 order2 path = Ok cfg →
  durations_fit cfg → role_names cfg ≠ [] → (∀ n e, role_failed n e ∉ l) →
  ∃ s,
    setup readFile parse_error getenv order1 order2 order3 path = Some (Ok s) ∧
    dom (su_active s) = list_to_set (role_names cfg) ∧
    ∀ d, rtc (healthd_step (su_active s)) (started (dom (su_active s)) l) d →
      (∀ r, dm_main d = MReturned r →
         (exit_code r = 0 ∧ r = None ∧ dm_signalled d = true) ∨
         (exit_code r = 1 ∧ (∃ e, r = Some ("pong_server", e)) ∧
          Config.ps_Enabled (Config.r_PongServer (c_Roles cfg)) = true)) ∧
      (dm_signalled d = false → dm_fatal d = None →
         dm_main d = MWaitCtx ∧
         ∀ n, n ∈ role_names cfg → dm_roles d !! n = Some RRunning ∨
           n = "pong_server" ∧ ∃ e, dm_roles d !! n = Some (RFailing e)) ∧
      (stopping d → (∀ r, dm_main d ≠ MReturned r) →
         ∃ a d', a ≠ Signal ∧ permitted (su_active s) a d ∧ act a d = Some d').
Proof.
  intros Ho Hl Hf Hne Hlog.
  destruct (setup_loaded go_quote json_error url_error readFile parse_error getenv order1 order2
    order3 path cfg Ho Hl Hf) as (chans & active & reg & Hs & _ & _ & _ & _ & Hda).
  rewrite decide_False in Hs by done. eexists. split; [exact Hs|]. cbn [su_active].
  assert (Hone : ∀ n l, active !! n = Some (RoleListener l) →
    n = "pong_server" ∧ Config.ps_Enabled (Config.r_PongServer (c_Roles cfg)) = true).
  { intros n li Hn. by eapply setup_listener. }
  split; [done|]. intros d Hd.
  destruct (healthd_reachable active ltac:(intros n li Hn; by apply (Hone n li)) l d Hlog Hd) as [I J].
  split; [|split].
  - intros r Hm. destruct (ri_returned d I r Hm) as [Hall ->].
    pose proof (ri_stopping d I ltac:(rewrite Hm; discriminate)) as Hc.
    destruct (dm_fatal d) as [[n e]|] eqn:E; [right|left].
    + destruct (hi_fatal _ d J n e E) as (-> & li & Hli). split_and!; [done|by exists e|].
      exact (proj2 (Hone _ li Hli)).
    + split_and!; [done|done|]. unfold ctx_done in Hc. destruct (dm_signalled d); [done|].
      destruct (ri_cancel_fatal d I Hc) as [? ?]. congruence.
  - intros Hsig Hfat.
    assert (Hc : ctx_done d = false).
    { unfold ctx_done. rewrite Hsig. destruct (dm_cancelled d) eqn:E; [|done].
      destruct (ri_cancel_fatal d I E) as [? ?]. congruence. }
    split.
    + destruct (dm_main d) eqn:E; [done|..]; by rewrite (ri_stopping d I) in Hc by congruence.
    + intros n Hn. assert (Hin : n ∈ dom (dm_roles d)).
      { rewrite (hi_roles _ d J), Hda. by apply elem_of_list_to_set. }
      apply elem_of_dom in Hin as [st Hst]. destruct st as [|e| |].
      * by left.
      * right. destruct (hi_failing _ d J n e Hst) as [-> _]. split; [done|by exists e].
      * destruct (ri_recorded d I n Hst) as [? ?]. congruence.
      * by rewrite (hi_finished _ d J n Hst) in Hc.
  - by apply healthd_progress.
Qed.

(** ** Witness *)

(** The example daemon receives a signal and its main goroutine notices. *)
Lemma healthd_ends_witness :
  ∃ s d a d',
    setup example_file (λ _, "") (λ _, "") ConfigFile.example_order ConfigFile.example_order
      ConfigFile.example_order "config.json" = Some (Ok s) ∧
    rtc (healthd_step (su_active s)) (started (dom (su_active s)) []) d ∧
    dm_signalled d = true ∧ a ≠ Signal ∧ act a d = Some d'.
Proof.
  destruct (ConfigFile.Load example_file (λ _, "") ConfigFile.example_order ConfigFile.example_order
    "config.json") as [cfg|] eqn:Hl; [|vm_compute in Hl; discriminate].
  assert (Hc := Hl). vm_compute in Hc. injection Hc as Hc.
  destruct (healthd_ends plain plain plain example_file (λ _, "") (λ _, "")
    ConfigFile.example_order ConfigFile.example_order ConfigFile.example_order "config.json" cfg []
    example_orders Hl) as (s & Hs & _ & Hall).
  - rewrite <- Hc. split; [|repeat constructor..]; vm_compute; repeat split; discriminate.
  - rewrite <- Hc. discriminate.
  - intros n e H. by apply elem_of_nil in H.
  - set (d0 := started (dom (su_active s)) []) in *.
    set (d := MkDaemon (dm_roles d0) true (dm_cancelled d0) (dm_fatal d0) (dm_main d0) (dm_log d0)).
    assert (Hd : rtc (healthd_step (su_active s)) d0 d).
    { apply rtc_once. by apply (hs_act _ Signal). }
    destruct (Hall d Hd) as (_ & _ & Hgo).
    destruct (Hgo ltac:(left; reflexivity) ltac:(discriminate)) as (a & d' & Ha & _ & Hact).
    exists s, d, a, d'. split; [exact Hs|]. split; [exact Hd|]. split; [reflexivity|].
    split; [exact Ha|exact Hact].
Defined.
