(* ===== verification/Process.v ===== *)
(** * The goroutines of the process together ([run] with everything it started)

    Composes the supervisor (Supervisor.v, Healthd.v), the monitoring
    goroutines access by access (Steps.v) and the deliveries of the alerts they
    hand over (Dispatcher.v, Delivery.v) on one context: a goroutine whose check
    called [Dispatch] waits until all its deliveries have finished, leaves its
    loop only when the context is done, and a role's [Run] returns only when
    all its goroutines have.  [process_step] is one step of any of them;
    [process_inv] is what holds in every state; [hung_delivery_stops_checks] is
    what an attempt that does not come back does to its monitor. *)

From S2P Require Import Prelude GoTime Slog Float64 GoString TimeFormat History StateMachine Registry.
From S2P Require Import Dispatcher Channels Listener Checks Group Units Steps Wiring Daemon Delivery.
From S2P Require Import Supervisor Healthd.

Local Open Scope string_scope.
Local Open Scope Z_scope.

(** [pr_waits]: for each goroutine inside [Dispatch] the number of the alert it
    handed over (its place in [w_alerts]) and where the deliveries are;
    [pr_returned]: the calls of [Dispatch] that have returned. *)
Record Process := MkProcess {
  pr_daemon : Daemon;
  pr_threads : list Thread;
  pr_waits : gmap nat (nat * list DState);
  pr_world : World;
  pr_returned : list (nat * Pool);
}.

(** Whose step it is. *)
Inductive Label :=
  | LTask (ev : FineEvent)      (* a monitoring goroutine, or the log *)
  | LDeliver (i k : nat)        (* the [k]-th delivery goroutine [i] waits for *)
  | LDispatched (i : nat)       (* [Dispatch] returns to goroutine [i] *)
  | LDaemon (a : Action).       (* a role's outer goroutine, main, the signal *)

(** [ctx.Err()]. *)
Definition ctx_error (d : Daemon) : option string :=
  if ctx_done d then Some "context canceled" else None.

(** The role each goroutine belongs to, in the order of [daemon_units]. *)
Definition owners_at (active : gmap string role) (name : string) : list string :=
  replicate (length (units_at active name)) name.

Definition daemon_owners (active : gmap string role) : list string :=
  (owners_at active "ping_monitor" ++ owners_at active "url_monitor" ++
   owners_at active "internet_check" ++ owners_at active "speed_check")%list.

Section process.
Context (go_quote json_error url_error : string → string).
Context (marshal_error : string) (zone : Zone).
Context (active : gmap string role) (disp : Dispatcher Service).
(** What attempt [a] on channel [k] of alert [n] meets: [net n k a]. *)
Context (net : nat → nat → Z → Network).

Notation fine_step := (fine_step go_quote json_error url_error).

(** A goroutine goes on unless it is inside [Dispatch]; it returns when it sees
    the context done. *)
Definition task_may (ev : FineEvent) (d : Daemon) (waits : gmap nat (nat * list DState)) : Prop :=
  match ev with
  | Start i _ | Continue i => waits !! i = None
  | Leave i => waits !! i = None ∧ ctx_done d = true
  | Elsewhere _ => True
  end.

(** [Dispatch] starts a goroutine per known channel. *)
Definition hands_over (ev : FineEvent) (ts : list Thread) (w : World)
    (waits : gmap nat (nat * list DState)) : gmap nat (nat * list DState) :=
  match ev with
  | Continue i =>
      match ts !! i with
      | Some (MkThread _ _ (ActDispatch (_, names) :: _) _) =>
          <[i := (length (w_alerts w), p_threads (initial_pool (length (spawned disp names))))]> waits
      | _ => waits
      end
  | _ => waits
  end.

(** All goroutines of a role have returned. *)
Definition role_idle (name : string) (ts : list Thread) : Prop :=
  ∀ i t, daemon_owners active !! i = Some name → ts !! i = Some t → th_returned t = true.

Inductive process_step : Label → Process → Process → Prop :=
  | st_task ev d ts waits w rets ts' w' :
      task_may ev d waits → fine_step (ts, w) ev = Next (ts', w') →
      process_step (LTask ev) (MkProcess d ts waits w rets)
        (MkProcess d ts' (hands_over ev ts w waits) w' rets)
  | st_deliver i k d ts waits w rets n sts alert names s s' :
      waits !! i = Some (n, sts) → w_alerts w !! n = Some (alert, names) → sts !! k = Some s →
      thread_step (d_maxAttempts disp)
        (notify_of marshal_error url_error zone (net n) (spawned disp names) alert)
        (waits_of marshal_error url_error zone (net n) (spawned disp names) alert)
        k (ctx_error d) s s' →
      process_step (LDeliver i k) (MkProcess d ts waits w rets)
        (MkProcess d ts (<[i := (n, <[k := s']> sts)]> waits) w rets)
  | st_dispatched i d ts waits w rets n sts :
      waits !! i = Some (n, sts) → wg_done (MkPool sts (ctx_error d)) →
      process_step (LDispatched i) (MkProcess d ts waits w rets)
        (MkProcess d ts (delete i waits) w (rets ++ [(n, MkPool sts (ctx_error d))]))
  | st_daemon a d d' ts waits w rets :
      permitted active a d → act a d = Some d' →
      (∀ name res, a = RoleReturns name res → role_idle name ts) →
      process_step (LDaemon a) (MkProcess d ts waits w rets) (MkProcess d' ts waits w rets).

Inductive process_run (p : Process) : list Label → Process → Prop :=
  | pr_nil : process_run p [] p
  | pr_snoc ls l p1 p2 :
      process_run p ls p1 → process_step l p1 p2 → process_run p (ls ++ [l]) p2.

(** After setup: every role and every goroutine started; [None] is a panic. *)
Definition process_start (reg : Registry) (logger : Logger) : option Process :=
  ts ← fine_start (daemon_units active);
  Some (MkProcess (started (dom active) logger) ts ∅ (MkWorld (Some reg) logger []) []).

(** What the goroutines of Steps.v see of a run. *)
Definition events_of (ls : list Label) : list FineEvent :=
  omap (λ l, match l with LTask ev => Some ev | _ => None end) ls.


(** ** What a step of a monitoring goroutine changes *)

Lemma perform_alerts a snap w snap' w' :
  perform a (snap, w) = Some (snap', w') → w_alerts w' = (w_alerts w ++ alert_op a)%list.
Proof.
  destruct a; simpl; intros H; simplify_eq/=; rewrite ?app_nil_r; try done.
  - by apply bind_Some in H as (reg & _ & [= _ <-]).
  - by apply bind_Some in H as (reg & _ & [= _ <-]).
  - by destruct snap.
Qed.

Lemma fine_step_next ev ts w ts' w' :
  fine_step (ts, w) ev = Next (ts', w') →
  match ev with
  | Start i o => ∃ u snap u' acts, ts !! i = Some (MkThread u snap [] false) ∧
      unit_actions go_quote json_error url_error o u = Some (u', acts) ∧
      ts' = <[i := MkThread u' snap acts false]> ts ∧ w' = w
  | Continue i => ∃ u snap a todo snap', ts !! i = Some (MkThread u snap (a :: todo) false) ∧
      ts' = <[i := MkThread u snap' todo false]> ts ∧ w_alerts w' = (w_alerts w ++ alert_op a)%list
  | Leave i => ∃ u snap, ts !! i = Some (MkThread u snap [] false) ∧
      ts' = <[i := MkThread u snap [] true]> ts ∧ w' = w
  | Elsewhere _ => ts' = ts ∧ w_alerts w' = w_alerts w
  end.
Proof.
  destruct ev as [i o|i|i|l]; cbn [Steps.fine_step].
  - destruct (ts !! i) as [[u snap [|] []]|]; try done. unfold attempt.
    destruct (unit_actions _ _ _ o u) as [[u' acts]|] eqn:Hu; [|done]. intros [= <- <-].
    by exists u, snap, u', acts.
  - destruct (ts !! i) as [[u snap [|a todo] []]|]; try done. unfold attempt.
    destruct (perform a (snap, w)) as [[snap' w1]|] eqn:Hp; [|done]. intros [= <- <-].
    exists u, snap, a, todo, snap'. split_and!; [done..|]. by eapply perform_alerts.
  - destruct (ts !! i) as [[u snap [|] []]|]; try done. intros [= <- <-]. by exists u, snap.
  - by intros [= <- <-].
Qed.

(** *** Each goroutine by itself *)

(** One that has returned has nothing to do, and the alert is the last thing a
    check does. *)
Definition thread_ok (t : Thread) : Prop :=
  (th_returned t = true → th_todo t = []) ∧ dispatch_last (th_todo t).

Lemma dispatch_last_nil : dispatch_last [].
Proof. exists [], []. split_and!; [done..|simpl; lia]. Qed.

Lemma dispatch_last_cons a todo : dispatch_last (a :: todo) → dispatch_last todo.
Proof.
  intros ([|b before] & ds & Heq & Hb & Hl).
  - destruct ds as [|d [|]]; simpl in *; [done| |lia]. injection Heq as -> ->. apply dispatch_last_nil.
  - injection Heq as -> ->. exists before, ds. split_and!; [done| |done].
    cbn [mbind list_bind] in Hb. by apply app_eq_nil in Hb as [_ ?].
Qed.

Lemma dispatch_last_dispatch d todo : dispatch_last (ActDispatch d :: todo) → todo = [].
Proof.
  intros ([|b before] & ds & Heq & Hb & Hl).
  - destruct ds as [|d' [|]]; simpl in *; [done| |lia]. by injection Heq as _ ->.
  - injection Heq as <- ->. done.
Qed.

Lemma fine_step_threads ev ts w ts' w' :
  Forall thread_ok ts → fine_step (ts, w) ev = Next (ts', w') → Forall thread_ok ts'.
Proof.
  intros Hok Hs%fine_step_next. destruct ev as [i o|i|i|l].
  - destruct Hs as (u & snap & u' & acts & _ & Hu & -> & _). apply Forall_insert; [done|].
    apply unit_actions_last in Hu as [_ Hd]. by split.
  - destruct Hs as (u & snap & a & todo & snap' & Ht & -> & _). apply Forall_insert; [done|].
    pose proof (Forall_lookup_1 _ _ _ _ Hok Ht) as [_ Hd]. split; [done|]. by eapply dispatch_last_cons.
  - destruct Hs as (u & snap & Ht & -> & _). apply Forall_insert; [done|].
    split; [done|]. apply dispatch_last_nil.
  - by destruct Hs as [-> _].
Qed.

(** Goroutines that have returned stay so. *)
Lemma fine_step_idle name ev ts w ts' w' :
  role_idle name ts → fine_step (ts, w) ev = Next (ts', w') → role_idle name ts'.
Proof.
  intros Hid Hs%fine_step_next j t Hj Ht. destruct ev as [i o|i|i|l].
  - destruct Hs as (u & snap & u' & acts & Hti & _ & -> & _).
    apply list_lookup_insert_Some in Ht as [(-> & <- & _)|[_ Ht]]; [|by eapply Hid].
    by specialize (Hid _ _ Hj Hti).
  - destruct Hs as (u & snap & a & todo & snap' & Hti & -> & _).
    apply list_lookup_insert_Some in Ht as [(-> & <- & _)|[_ Ht]]; [|by eapply Hid].
    by specialize (Hid _ _ Hj Hti).
  - destruct Hs as (u & snap & Hti & -> & _).
    apply list_lookup_insert_Some in Ht as [(-> & <- & _)|[_ Ht]]; [done|by eapply Hid].
  - destruct Hs as [-> _]. by eapply Hid.
Qed.

Lemma fine_step_length ev ts w ts' w' :
  fine_step (ts, w) ev = Next (ts', w') → length ts' = length ts.
Proof. intros Hs%fine_step_next. destruct ev; naive_solver (by rewrite ?length_insert). Qed.

(** *** The supervisor's steps *)

Lemma act_ctx a d d' : act a d = Some d' → ctx_done d = true → ctx_done d' = true.
Proof.
  unfold ctx_done. intros H Hc.
  destruct a; cbn [act] in H; repeat (case_match; try done); simplify_eq; simpl;
    by rewrite ?orb_true_r.
Qed.

Lemma act_roles a d d' name s' :
  act a d = Some d' → dm_roles d' !! name = Some s' → s' ≠ RRunning →
  (∃ s, dm_roles d !! name = Some s ∧ s ≠ RRunning) ∨ ∃ res, a = RoleReturns name res.
Proof.
  intros H Hs Hne. destruct a as [|n res|n|n| |]; cbn [act] in H; repeat (case_match; try done);
    simplify_eq; simpl in Hs; try (left; by eexists);
    (apply lookup_insert_Some in Hs as [[<- _]|[_ Hs]]; [|left; by eexists]);
    first [by right; eexists|by left; eexists].
Qed.

(** ** What holds in every state *)

Definition wait_ids (waits : gmap nat (nat * list DState)) : list nat := (map_to_list waits).*2.*1.

(** [q] is a state of the deliveries of alert [n]. *)
Definition alert_pool (w : World) (n : nat) (q : Pool) : Prop :=
  ∃ alert names, w_alerts w !! n = Some (alert, names) ∧
    rtc (dispatch_step marshal_error url_error zone disp (net n) alert names)
      (initial_pool (length (spawned disp names))) q.

Record process_inv (p : Process) : Prop := {
  pi_threads : Forall thread_ok (pr_threads p);
  pi_length : length (pr_threads p) = length (daemon_units active);
  pi_waits i n sts : pr_waits p !! i = Some (n, sts) →
    alert_pool (pr_world p) n (MkPool sts (ctx_error (pr_daemon p))) ∧
    ∃ t, pr_threads p !! i = Some t ∧ th_todo t = [] ∧ th_returned t = false;
  pi_returned n q : (n, q) ∈ pr_returned p → alert_pool (pr_world p) n q ∧ wg_done q;
  pi_ids : (wait_ids (pr_waits p) ++ (pr_returned p).*1)%list ≡ₚ
    seq 0 (length (w_alerts (pr_world p)));
  pi_idle name s : dm_roles (pr_daemon p) !! name = Some s → s ≠ RRunning →
    role_idle name (pr_threads p);
  pi_run : run_invariant (pr_daemon p);
  pi_healthd : healthd_inv active (pr_daemon p);
}.

Lemma alert_pool_more w w' n q l :
  w_alerts w' = (w_alerts w ++ l)%list → alert_pool w n q → alert_pool w' n q.
Proof.
  intros Hw (alert & names & Ha & Hr). exists alert, names. split; [|done].
  rewrite Hw. by apply lookup_app_l_Some.
Qed.

Lemma alert_pool_ctx w n sts d d' :
  (ctx_done d = true → ctx_done d' = true) →
  alert_pool w n (MkPool sts (ctx_error d)) → alert_pool w n (MkPool sts (ctx_error d')).
Proof.
  unfold ctx_error. intros Hc (alert & names & Ha & Hr). exists alert, names. split; [done|].
  destruct (ctx_done d) eqn:E; [by rewrite Hc|]. destruct (ctx_done d'); [|done].
  eapply rtc_r; [exact Hr|]. apply ps_cancel.
Qed.

Lemma wait_ids_insert waits i n sts :
  waits !! i = None → wait_ids (<[i := (n, sts)]> waits) ≡ₚ n :: wait_ids waits.
Proof. intros Hi. unfold wait_ids. by rewrite map_to_list_insert. Qed.

Lemma wait_ids_delete waits i n sts :
  waits !! i = Some (n, sts) → wait_ids waits ≡ₚ n :: wait_ids (delete i waits).
Proof.
  intros Hi. rewrite <- (wait_ids_insert _ i n sts) by apply lookup_delete_eq.
  by rewrite insert_delete_eq, insert_id.
Qed.

Lemma wait_ids_move waits i n sts sts' :
  waits !! i = Some (n, sts) → wait_ids (<[i := (n, sts')]> waits) ≡ₚ wait_ids waits.
Proof.
  intros Hi. rewrite <- insert_delete_eq, wait_ids_insert by apply lookup_delete_eq.
  by rewrite (wait_ids_delete waits i n sts).
Qed.

Lemma hands_over_spec ev ts w ts' w' waits :
  fine_step (ts, w) ev = Next (ts', w') →
  (hands_over ev ts w waits = waits ∧ w_alerts w' = w_alerts w) ∨
  ∃ i u snap snap' alert names todo, ev = Continue i ∧
    ts !! i = Some (MkThread u snap (ActDispatch (alert, names) :: todo) false) ∧
    ts' = <[i := MkThread u snap' todo false]> ts ∧
    w_alerts w' = (w_alerts w ++ [(alert, names)])%list ∧
    hands_over ev ts w waits =
      <[i := (length (w_alerts w), p_threads (initial_pool (length (spawned disp names))))]> waits.
Proof.
  intros Hs%fine_step_next. destruct ev as [i o|i|i|l]; cbn [hands_over].
  - left. by destruct Hs as (u & snap & u' & acts & _ & _ & _ & ->).
  - destruct Hs as (u & snap & a & todo & snap' & Ht & -> & Hal). rewrite Ht.
    destruct a as [| | | | | |[alert names]]; try (left; by rewrite app_nil_r in Hal).
    right. by exists i, u, snap, snap', alert, names, todo.
  - left. by destruct Hs as (u & snap & _ & _ & ->).
  - left. by destruct Hs as [_ ->].
Qed.

(** A goroutine inside [Dispatch] does not move. *)
Lemma waiting_still ev d ts w ts' w' waits i x :
  task_may ev d waits → fine_step (ts, w) ev = Next (ts', w') → waits !! i = Some x →
  ts' !! i = ts !! i.
Proof.
  intros Hm Hs%fine_step_next Hi.
  assert (Hne : ∀ j, waits !! j = None → j ≠ i) by (intros j Hj ->; congruence).
  destruct ev as [j o|j|j|l]; cbn [task_may] in Hm.
  - destruct Hs as (u & snap & u' & acts & _ & _ & -> & _). by rewrite list_lookup_insert_ne by auto.
  - destruct Hs as (u & snap & a & todo & snap' & _ & -> & _). by rewrite list_lookup_insert_ne by auto.
  - destruct Hm as [Hm _]. destruct Hs as (u & snap & _ & -> & _). by rewrite list_lookup_insert_ne by auto.
  - by destruct Hs as [-> _].
Qed.

Lemma inv_task ev d ts waits w rets ts' w' :
  task_may ev d waits → fine_step (ts, w) ev = Next (ts', w') →
  process_inv (MkProcess d ts waits w rets) →
  process_inv (MkProcess d ts' (hands_over ev ts w waits) w' rets).
Proof.
  intros Hm Hs [Ht Hlen Hw Hr Hids Hid Hrun Hh]; cbn [pr_daemon pr_threads pr_waits pr_world pr_returned] in *.
  pose proof (fine_step_threads _ _ _ _ _ Ht Hs) as Ht'.
  assert (Hold : ∀ l, w_alerts w' = (w_alerts w ++ l)%list → ∀ i n sts, waits !! i = Some (n, sts) →
    alert_pool w' n (MkPool sts (ctx_error d)) ∧
    ∃ t, ts' !! i = Some t ∧ th_todo t = [] ∧ th_returned t = false).
  { intros l Hl i n sts Hi. destruct (Hw i n sts Hi) as [Hp Hth].
    split; [by eapply alert_pool_more|]. by rewrite (waiting_still ev d ts w ts' w' waits i _ Hm Hs Hi). }
  split; cbn [pr_daemon pr_threads pr_waits pr_world pr_returned]; try done.
  - by rewrite (fine_step_length _ _ _ _ _ Hs).
  - intros i n sts Hi. destruct (hands_over_spec _ _ _ _ _ waits Hs) as
      [[Hho Hal]|(j & u & snap & snap' & alert & names & todo & -> & Hj & -> & Hal & Hho)]; rewrite Hho in Hi.
    { apply (Hold []); [by rewrite app_nil_r|done]. }
    apply lookup_insert_Some in Hi as [[<- [= <- <-]]|[_ Hi]]; [|by eapply Hold].
    split.
    + exists alert, names. rewrite Hal, list_lookup_middle by done. split; [done|].
      unfold ctx_error. destruct (ctx_done d); [|constructor]. apply rtc_once, ps_cancel.
    + eexists. rewrite list_lookup_insert_eq by (by eapply lookup_lt_Some). split; [done|].
      split; [|done]. cbn [th_todo]. eapply dispatch_last_dispatch.
      exact (proj2 (Forall_lookup_1 _ _ _ _ Ht Hj)).
  - intros n q Hin. destruct (Hr n q Hin) as [Hp Hd]. split; [|done].
    destruct (hands_over_spec _ _ _ _ _ waits Hs) as
      [[_ Hal]|(j & u & snap & snap' & alert & names & todo & _ & _ & _ & Hal & _)].
    + eapply (alert_pool_more w _ _ _ []); [by rewrite app_nil_r|done].
    + by eapply alert_pool_more.
  - destruct (hands_over_spec _ _ _ _ _ waits Hs) as
      [[-> ->]|(j & u & snap & snap' & alert & names & todo & -> & _ & _ & -> & ->)]; [done|].
    cbn [task_may] in Hm. rewrite wait_ids_insert by done. cbn [app]. rewrite Hids, List.length_app, Nat.add_1_r.
    rewrite seq_S. by rewrite Permutation_cons_append.
  - intros name s Hs' Hne. eapply fine_step_idle; [by eapply Hid|done].
Qed.

Lemma inv_deliver i k d ts waits w rets n sts alert names s s' :
  waits !! i = Some (n, sts) → w_alerts w !! n = Some (alert, names) → sts !! k = Some s →
  thread_step (d_maxAttempts disp)
    (notify_of marshal_error url_error zone (net n) (spawned disp names) alert)
    (waits_of marshal_error url_error zone (net n) (spawned disp names) alert) k (ctx_error d) s s' →
  process_inv (MkProcess d ts waits w rets) →
  process_inv (MkProcess d ts (<[i := (n, <[k := s']> sts)]> waits) w rets).
Proof.
  intros Hi Ha Hk Hs [Ht Hlen Hw Hr Hids Hid Hrun Hh]; cbn [pr_daemon pr_threads pr_waits pr_world pr_returned] in *.
  split; cbn [pr_daemon pr_threads pr_waits pr_world pr_returned]; try done.
  - intros j m sts' [[<- [= <- <-]]|[_ Hj]]%lookup_insert_Some; [|by apply Hw].
    destruct (Hw i n sts Hi) as [(alert' & names' & Ha' & Hrtc) Hth]. split; [|done].
    simplify_eq. exists alert, names. split; [done|]. eapply rtc_r; [exact Hrtc|]. by eapply ps_thread.
  - by rewrite (wait_ids_move waits i n sts).
Qed.

(** Deliveries that wait for the context keep the goroutine that handed over
    their alert inside [Dispatch], and its monitor without checks, as long as
    nothing cancels them. *)
Lemma hung_delivery_stops_checks p ls p' i n sts alert names :
  pr_waits p !! i = Some (n, sts) → w_alerts (pr_world p) !! n = Some (alert, names) →
  held_up (waits_of marshal_error url_error zone (net n) (spawned disp names) alert) (MkPool sts None) →
  process_run p ls p' → ctx_done (pr_daemon p') = false →
  pr_waits p' !! i = Some (n, sts) ∧ pr_threads p' !! i = pr_threads p !! i.
Proof.
  intros Hi Ha (_ & Hnd & Hheld) Hr Hc.
  assert (Hall : pr_waits p' !! i = Some (n, sts) ∧ pr_threads p' !! i = pr_threads p !! i ∧
    w_alerts (pr_world p') !! n = Some (alert, names)); [|by destruct Hall as (? & ? & _)].
  revert Hc. induction Hr as [|ls l p1 p2 _ IH Hs]; intros Hc; [done|].
  destruct Hs as [ev d ts waits w rets ts' w' Hm Hs|j k d ts waits w rets m sts' alert' names' s s' Hj Ha' Hk Hs
    |j d ts waits w rets m sts' Hj Hd|a d d' ts waits w rets Hp Hact Hid];
    cbn [pr_daemon pr_threads pr_waits pr_world] in *.
  - destruct (IH Hc) as (Hw & Ht & Hal). rewrite (waiting_still _ _ _ _ _ _ _ i _ Hm Hs Hw).
    destruct (hands_over_spec _ _ _ _ _ waits Hs) as
      [[-> ->]|(j & u & snap & snap' & alert' & names' & todo & -> & _ & _ & -> & ->)]; [done|].
    cbn [task_may] in Hm. rewrite lookup_insert_ne by (intros ->; congruence).
    split_and!; [done..|by apply lookup_app_l_Some].
  - destruct (IH Hc) as (Hw & Ht & Hal). destruct (decide (j = i)) as [->|];
      [|by rewrite lookup_insert_ne by done].
    simplify_eq. exfalso. apply thread_step_moves in Hs. unfold ctx_error in Hs. rewrite Hc in Hs.
    destruct (is_finished s) eqn:Hf; [by destruct s|].
    destruct (Hheld k s Hk Hf) as (a & -> & Hwait). simpl in Hs. unfold returns in Hs. by rewrite Hwait in Hs.
  - destruct (IH Hc) as (Hw & Ht & Hal). destruct (decide (j = i)) as [->|];
      [|by rewrite lookup_delete_ne by done].
    simplify_eq. by destruct Hnd.
  - assert (Hc' : ctx_done d = false).
    { apply not_true_is_false. intros Ht. by rewrite (act_ctx _ _ _ Hact Ht) in Hc. }
    by apply IH.
Qed.

Lemma inv_dispatched i d ts waits w rets n sts :
  waits !! i = Some (n, sts) → wg_done (MkPool sts (ctx_error d)) →
  process_inv (MkProcess d ts waits w rets) →
  process_inv (MkProcess d ts (delete i waits) w (rets ++ [(n, MkPool sts (ctx_error d))])).
Proof.
  intros Hi Hd [Ht Hlen Hw Hr Hids Hid Hrun Hh]; cbn [pr_daemon pr_threads pr_waits pr_world pr_returned] in *.
  split; cbn [pr_daemon pr_threads pr_waits pr_world pr_returned]; try done.
  - intros j m sts' [_ Hj]%lookup_delete_Some. by apply Hw.
  - intros m q [Hin|[= -> ->]%list_elem_of_singleton]%elem_of_app; [by apply Hr|].
    split; [|done]. by apply (Hw i).
  - rewrite <- Hids, (wait_ids_delete waits i n sts) by done. rewrite fmap_app. simpl.
    rewrite app_assoc, (Permutation_app_comm _ [n]). done.
Qed.

Hypothesis Hlisten : one_listener active.

Lemma inv_daemon a d d' ts waits w rets :
  permitted active a d → act a d = Some d' →
  (∀ name res, a = RoleReturns name res → role_idle name ts) →
  process_inv (MkProcess d ts waits w rets) → process_inv (MkProcess d' ts waits w rets).
Proof.
  intros Hp Ha Hidle [Ht Hlen Hw Hr Hids Hid Hrun Hh]; cbn [pr_daemon pr_threads pr_waits pr_world pr_returned] in *.
  split; cbn [pr_daemon pr_threads pr_waits pr_world pr_returned]; try done.
  - intros i n sts Hi. destruct (Hw i n sts Hi) as [Hpool Hth]. split; [|done].
    eapply alert_pool_ctx; [|done]. by eapply act_ctx.
  - intros name s Hs Hne. destruct (act_roles _ _ _ _ _ Ha Hs Hne) as [(s0 & Hs0 & Hne0)|[res ->]].
    + by eapply Hid.
    + by eapply Hidle.
  - by eapply act_invariant.
  - eapply healthd_inv_step; [done| |done]. by econstructor.
Qed.

Lemma inv_step l p p' : process_step l p p' → process_inv p → process_inv p'.
Proof.
  destruct 1 as [ev d ts waits w rets ts' w' Hm Hs|i k d ts waits w rets n sts alert names s s' Hi Ha Hk Hs
    |i d ts waits w rets n sts Hi Hd|a d d' ts waits w rets Hp Ha Hid].
  - by apply inv_task.
  - by eapply inv_deliver.
  - by apply inv_dispatched.
  - by eapply inv_daemon.
Qed.

Lemma inv_run p ls p' : process_inv p → process_run p ls p' → process_inv p'.
Proof. intros Hi. induction 1 as [|ls l p1 p2 _ IH Hs]; [done|]. by eapply inv_step. Qed.

Lemma inv_start reg logger p :
  (∀ n e, role_failed n e ∉ logger) → process_start reg logger = Some p → process_inv p.
Proof.
  unfold process_start, fine_start. intros Hl. destruct (existsb _ _); [done|]. intros [= <-].
  split; cbn [pr_daemon pr_threads pr_waits pr_world pr_returned]; try done.
  - apply Forall_fmap, Forall_true. intros u. split; [done|]. apply dispatch_last_nil.
  - by rewrite length_map.
  - intros n q []%elem_of_nil.
  - intros name s [_ <-]%lookup_gset_to_gmap_Some. done.
  - by apply started_invariant.
  - apply healthd_inv_started.
Qed.

Lemma events_length ls : (length (events_of ls) ≤ length ls)%nat.
Proof. unfold events_of. induction ls as [|[]]; cbn [omap list_omap length]; lia. Qed.

(** The goroutines of Steps.v, within the process. *)
Lemma run_fine p ls p' :
  process_run p ls p' →
  fine_steps go_quote json_error url_error (events_of ls) (pr_threads p, pr_world p) =
    Next (pr_threads p', pr_world p').
Proof.
  induction 1 as [|ls l p1 p2 _ IH Hs]; [done|]. unfold events_of in *. rewrite omap_app.
  destruct Hs; cbn [omap list_omap]; rewrite ?app_nil_r; try done.
  rewrite fine_steps_snoc, IH. done.
Qed.

(** ** When [run] has returned *)

Lemma owners_length : length (daemon_owners active) = length (daemon_units active).
Proof.
  unfold daemon_owners, daemon_units, owners_at. by rewrite !List.length_app, !length_replicate.
Qed.

Lemma owner_active i name : daemon_owners active !! i = Some name → name ∈ dom active.
Proof.
  assert (Hat : ∀ n, name ∈ owners_at active n → name ∈ dom active).
  { intros n [-> Hn]%elem_of_replicate. apply elem_of_dom. unfold units_at in Hn.
    destruct (active !! n); [by eexists|]. simpl in Hn. lia. }
  intros Hi%list_elem_of_lookup_2. unfold daemon_owners in Hi. rewrite !elem_of_app in Hi.
  destruct Hi as [H|[H|[H|H]]]; by eapply Hat.
Qed.

Lemma returned_drained p r :
  process_inv p → dm_main (pr_daemon p) = MReturned r →
  Forall (λ t, th_returned t = true ∧ th_todo t = []) (pr_threads p) ∧ pr_waits p = ∅ ∧
  (pr_returned p).*1 ≡ₚ seq 0 (length (w_alerts (pr_world p))).
Proof.
  intros [Ht Hlen Hw Hr Hids Hid Hrun Hh] Hm.
  assert (Hret : ∀ i t, pr_threads p !! i = Some t → th_returned t = true).
  { intros i t Hi. destruct (lookup_lt_is_Some_2 (daemon_owners active) i) as [name Hn].
    { rewrite owners_length, <- Hlen. by eapply lookup_lt_Some. }
    pose proof (owner_active i name Hn) as Hdom. rewrite <- (hi_roles _ _ Hh) in Hdom.
    apply elem_of_dom in Hdom as [s Hs]. eapply (Hid name s); [done| |done|done].
    destruct (ri_returned _ Hrun r Hm) as [Hall _]. by rewrite (Hall name s Hs). }
  assert (Hnone : pr_waits p = ∅).
  { apply map_empty. intros i. destruct (pr_waits p !! i) as [[n sts]|] eqn:Hi; [|done].
    destruct (Hw i n sts Hi) as [_ (t & Hti & _ & Hf)]. by rewrite (Hret i t Hti) in Hf. }
  split_and!; [|done|by rewrite Hnone in Hids].
  apply Forall_lookup. intros i t Hi. split; [by eapply Hret|].
  apply (Forall_lookup_1 _ _ _ _ Ht Hi). by eapply Hret.
Qed.

End process.

(** ** A scheduler to run

    [execute] takes the step of a label, if it is possible: of a delivery the
    first one in the order of [thread_step], of a role the return of nil. *)

Section execute.
Context (go_quote json_error url_error : string → string).
Context (marshal_error : string) (zone : Zone).
Context (active : gmap string role) (disp : Dispatcher Service).
Context (net : nat → nat → Z → Network).

Notation step := (process_step go_quote json_error url_error marshal_error zone active disp net).
Notation run := (process_run go_quote json_error url_error marshal_error zone active disp net).

Definition deliver_next (maxAttempts : Z) (notify : nat → Z → option string → outcome)
    (waits : nat → Z → bool) (k : nat) (ctx : option string) (s : DState) : option DState :=
  match s with
  | Checking a le =>
      if maxAttempts <? a then Some (Finished (Exhausted le))
      else Some match ctx with Some e => Finished (Cancelled e) | None => Notifying a end
  | Notifying a =>
      if returns waits k a ctx then
        Some match safeNotify (notify k a ctx) with
             | None => Finished Sent
             | Some err => if a <? maxAttempts then Waiting a err else Checking (int_add a 1) (Some err)
             end
      else None
  | Waiting a err => Some (Checking (int_add a 1) (Some err))
  | Finished _ => None
  end.

#[local] Instance task_may_dec ev d waits : Decision (task_may ev d waits).
Proof. destruct ev; apply _. Defined.

Definition idle (name : string) (ts : list Thread) : bool :=
  forallb (λ x, negb (String.eqb x.1 name) || th_returned x.2) (zip (daemon_owners active) ts).

Definition may_act (a : Action) (d : Daemon) (ts : list Thread) : bool :=
  match a with
  | RoleReturns name RunNil => bool_decide (name ∈ dom active) && ctx_done d && idle name ts
  | RoleReturns _ _ => false
  | _ => true
  end.

Definition execute (l : Label) (p : Process) : option Process :=
  let '(MkProcess d ts waits w rets) := p in
  match l with
  | LTask ev =>
      if decide (task_may ev d waits) then
        match fine_step go_quote json_error url_error (ts, w) ev with
        | Next (ts', w') => Some (MkProcess d ts' (hands_over disp ev ts w waits) w' rets)
        | _ => None
        end
      else None
  | LDeliver i k =>
      '(n, sts) ← waits !! i;
      '(alert, names) ← w_alerts w !! n;
      s ← sts !! k;
      s' ← deliver_next (d_maxAttempts disp)
             (notify_of marshal_error url_error zone (net n) (spawned disp names) alert)
             (waits_of marshal_error url_error zone (net n) (spawned disp names) alert)
             k (ctx_error d) s;
      Some (MkProcess d ts (<[i := (n, <[k := s']> sts)]> waits) w rets)
  | LDispatched i =>
      '(n, sts) ← waits !! i;
      if forallb is_finished sts
      then Some (MkProcess d ts (delete i waits) w (rets ++ [(n, MkPool sts (ctx_error d))]))
      else None
  | LDaemon a =>
      if may_act a d ts then d' ← act a d; Some (MkProcess d' ts waits w rets) else None
  end.

Definition executes (ls : list Label) (p : Process) : option Process :=
  foldl (λ p l, p ← p; execute l p) (Some p) ls.

Lemma deliver_next_step maxAttempts notify waits k ctx s s' :
  deliver_next maxAttempts notify waits k ctx s = Some s' →
  thread_step maxAttempts notify waits k ctx s s'.
Proof.
  destruct s as [a le|a|a err|r]; cbn [deliver_next]; intros H.
  - destruct (Z.ltb_spec maxAttempts a); simplify_eq; [by apply ts_exhausted|].
    destruct ctx; [by apply ts_cancelled|by apply ts_check].
  - destruct (returns waits k a ctx) eqn:Hret; [|done]. injection H as <-. destruct (safeNotify _) as [err|] eqn:E; [|by apply ts_sent].
    destruct (Z.ltb_spec a maxAttempts); [by apply ts_failed|by apply ts_failed_last].
  - injection H as <-. apply ts_timer.
  - done.
Qed.

Lemma idle_spec name ts : idle name ts = true → role_idle active name ts.
Proof.
  unfold idle. intros H i t Hn Ht. rewrite forallb_forall in H.
  specialize (H (name, t)). simpl in H. rewrite String.eqb_refl in H. apply H.
  apply list_elem_of_In, list_elem_of_lookup. exists i. apply lookup_zip_with_Some. eauto.
Qed.

Lemma may_act_spec a d ts :
  may_act a d ts = true →
  permitted active a d ∧ ∀ name res, a = RoleReturns name res → role_idle active name ts.
Proof.
  destruct a as [|name [| |]|name|name| |]; cbn [may_act permitted]; intros H; try done.
  apply andb_true_iff in H as [[Hn Hc]%andb_true_iff Hi]. split.
  - apply bool_decide_eq_true_1, elem_of_dom in Hn as [r Hr]. exists r. split; [done|]. destruct r; by constructor.
  - intros n res [= -> _]. by apply idle_spec.
Qed.

Lemma execute_step l p p' : execute l p = Some p' → step l p p'.
Proof.
  destruct p as [d ts waits w rets], l as [ev|i k|i|a]; cbn [execute].
  - case_decide; [|done]. destruct (fine_step _ _ _ _ _) as [[ts' w']| |] eqn:Hs; [|done|done].
    intros [= <-]. by apply st_task.
  - intros ([n sts] & Hi & ([alert names] & Ha & (s & Hk & (s' & Hs & [= <-])%bind_Some)%bind_Some)%bind_Some)%bind_Some.
    eapply st_deliver; [done..|]. by apply deliver_next_step.
  - intros ([n sts] & Hi & H)%bind_Some. destruct (forallb is_finished sts) eqn:Hf; [|done].
    injection H as <-. apply st_dispatched; [done|]. unfold wg_done. cbn [p_threads].
    apply Forall_forall. intros s Hs. rewrite forallb_forall in Hf. by apply Hf, list_elem_of_In.
  - destruct (may_act a d ts) eqn:Hm; [|done]. intros (d' & Ha & [= <-])%bind_Some.
    apply may_act_spec in Hm as [Hp Hi]. by apply st_daemon.
Qed.

Lemma executes_run ls p p' : executes ls p = Some p' → run p ls p'.
Proof.
  revert p'. induction ls as [|l ls IH] using rev_ind; intros p' H.
  { injection H as <-. constructor. }
  unfold executes in *. rewrite foldl_snoc in H. apply bind_Some in H as (p1 & H1 & H2).
  eapply pr_snoc; [by apply IH|by apply execute_step].
Qed.
End execute.
