(* ===== verification/Shutdown.v ===== *)
(** * Shutting down ([run] from the first signal or fatal error on)

    On Process.v: a process on its way down can always take a step other than
    starting a check ([process_progress]), and only finitely many of them
    ([process_left]); nothing that was handed over is forgotten, and nothing new
    is sent. *)

From S2P Require Import Prelude GoTime Slog Float64 GoString TimeFormat History StateMachine Registry.
From S2P Require Import Dispatcher Channels Listener Checks Group Units Steps Wiring Daemon Delivery.
From S2P Require Import Supervisor Healthd Process.
From S2P Require Config ConfigFile.

Local Open Scope string_scope.
Local Open Scope Z_scope.

Import Config (c_Channels, c_Retry).

(** A step that shutting down needs: no new check, no other part's log line, no
    further signal. *)
Definition winds_down (l : Label) : bool :=
  match l with
  | LTask (Start _ _) | LTask (Elsewhere _) | LDaemon Signal => false
  | _ => true
  end.

(** No monitoring goroutine is in its loop, in a check or in [Dispatch], and for
    each alert ever handed over [Dispatch] has returned once. *)
Definition drained (p : Process) : Prop :=
  Forall (λ t, th_returned t = true ∧ th_todo t = []) (pr_threads p) ∧
  pr_waits p = ∅ ∧
  (pr_returned p).*1 ≡ₚ seq 0 (length (w_alerts (pr_world p))).

Section shutdown.
Context (go_quote json_error url_error : string → string).
Context (marshal_error : string) (zone : Zone).
Context (active : gmap string role) (disp : Dispatcher Service).
Context (net : nat → nat → Z → Network).

Notation fine_step := (fine_step go_quote json_error url_error).
Notation step := (process_step go_quote json_error url_error marshal_error zone active disp net).
Notation run := (process_run go_quote json_error url_error marshal_error zone active disp net).
Notation inv := (process_inv url_error marshal_error zone active disp net).

(** ** Progress *)

(** A goroutine that has not returned can go on once the context is done. *)
Lemma thread_moves p i t :
  inv p → ctx_done (pr_daemon p) = true → pr_threads p !! i = Some t → th_returned t = false →
  fine_step (pr_threads p, pr_world p) (Continue i) ≠ Panics →
  ∃ l p', winds_down l = true ∧ step l p p'.
Proof.
  destruct p as [d ts waits w rets]. cbn [pr_daemon pr_threads pr_world].
  intros [_ _ Hw _ _ _ _ _] Hc Ht Hret Hnp. cbn [pr_daemon pr_threads pr_world pr_waits] in *.
  destruct (waits !! i) as [[n sts]|] eqn:Hi.
  - destruct (decide (Forall (λ s, is_finished s = true) sts)) as [Hd|Hd].
    { exists (LDispatched i). eexists. split; [done|]. by eapply st_dispatched. }
    apply not_Forall_Exists in Hd; [|intros s; apply _].
    apply Exists_exists in Hd as (s & [k Hk]%list_elem_of_lookup & Hs%not_true_is_false).
    destruct (Hw i n sts Hi) as [(alert & names & Ha & _) _].
    destruct (thread_progress (d_maxAttempts disp)
      (notify_of marshal_error url_error zone (net n) (spawned disp names) alert)
      (waits_of marshal_error url_error zone (net n) (spawned disp names) alert) k (ctx_error d) s)
      as [s' Hs'].
    { unfold ctx_error. rewrite Hc. by apply cancelled_moves. }
    exists (LDeliver i k). eexists. split; [done|]. by eapply st_deliver.
  - destruct t as [u snap [|a todo] ret]; cbn [th_returned] in Hret; subst ret.
    + exists (LTask (Leave i)). eexists. split; [done|]. eapply st_task; [by split|].
      cbn [Steps.fine_step]. rewrite Ht. done.
    + destruct (fine_step (ts, w) (Continue i)) as [[ts' w']| |] eqn:Hs; [| |done].
      * exists (LTask (Continue i)). eexists. split; [done|]. by eapply st_task.
      * cbn [Steps.fine_step] in Hs. rewrite Ht in Hs. unfold attempt in Hs.
        by destruct (perform a (snap, w)).
Qed.

Hypothesis Hlisten : one_listener active.

Lemma process_progress p :
  inv p → stopping (pr_daemon p) → (∀ r, dm_main (pr_daemon p) ≠ MReturned r) →
  (∀ i, fine_step (pr_threads p, pr_world p) (Continue i) ≠ Panics) →
  ∃ l p', winds_down l = true ∧ step l p p'.
Proof.
  intros Hinv Hst Hmain Hnp. pose proof (pi_run _ _ _ _ _ _ _ Hinv) as Hrun.
  pose proof (pi_healthd _ _ _ _ _ _ _ Hinv) as Hh.
  destruct (ctx_done (pr_daemon p)) eqn:Hc.
  - destruct (decide (Forall (λ t, th_returned t = true) (pr_threads p))) as [Hall|Hall].
    + destruct (healthd_progress active (pr_daemon p) Hrun Hh Hst Hmain) as (a & d' & Ha & Hp & Hact).
      destruct p as [d ts waits w rets]. cbn [pr_daemon pr_threads] in *.
      exists (LDaemon a). eexists. split; [by destruct a|].
      eapply st_daemon; [exact Hp|exact Hact|].
      intros name res _ i t _ Ht. exact (Forall_lookup_1 _ _ _ _ Hall Ht).
    + apply not_Forall_Exists in Hall; [|intros t; apply _].
      apply Exists_exists in Hall as (t & [i Hi]%list_elem_of_lookup & Ht%not_true_is_false).
      by eapply thread_moves.
  - destruct Hst as [?|Hf]; [congruence|].
    destruct (cancel_pending _ Hrun Hf Hc) as (n & d' & Ha). destruct p as [d ts waits w rets].
    exists (LDaemon (CallCancel n)). eexists. split; [done|]. by eapply st_daemon.
Qed.

(** ** The measure *)

Notation maxAttempts := (d_maxAttempts disp).

Definition action_left (a : CheckAction) : Z :=
  match a with
  | ActDispatch (_, names) =>
      sum_fuel maxAttempts (p_threads (initial_pool (length (spawned disp names)))) + 2
  | _ => 1
  end.

Definition thread_left (t : Thread) : Z :=
  foldr (λ a n, action_left a + n) 0 (th_todo t) + (if th_returned t then 0 else 1).

Definition threads_left (ts : list Thread) : Z := foldr (λ t n, thread_left t + n) 0 ts.

Definition wait_left (x : nat * list DState) : Z := sum_fuel maxAttempts x.2 + 1.

Definition waits_left (waits : gmap nat (nat * list DState)) : Z :=
  map_fold (λ _ x n, wait_left x + n) 0 waits.

Definition process_left (p : Process) : Z :=
  Z.of_nat (run_measure (pr_daemon p)) + threads_left (pr_threads p) + waits_left (pr_waits p).

Lemma threads_left_insert ts i t t' :
  ts !! i = Some t → threads_left (<[i := t']> ts) = threads_left ts - thread_left t + thread_left t'.
Proof.
  revert i. induction ts as [|t0 ts IH]; intros [|i] H; simplify_eq/=; [lia|]. rewrite (IH i) by done. lia.
Qed.

Lemma waits_left_insert waits i x :
  waits !! i = None → waits_left (<[i := x]> waits) = wait_left x + waits_left waits.
Proof.
  intros Hi. unfold waits_left. 
  rewrite (map_fold_insert_L (λ _ x n, wait_left x + n) 0 i x waits); [done| |done]. intros. lia.
Qed.

Lemma waits_left_delete waits i x :
  waits !! i = Some x → waits_left waits = wait_left x + waits_left (delete i waits).
Proof.
  intros Hi. rewrite <- (waits_left_insert (delete i waits) i x) by apply lookup_delete_eq.
  by rewrite insert_delete_eq, insert_id.
Qed.

Lemma waits_left_move waits i x x' :
  waits !! i = Some x → waits_left (<[i := x']> waits) = waits_left waits - wait_left x + wait_left x'.
Proof.
  intros Hi. rewrite <- insert_delete_eq, waits_left_insert by apply lookup_delete_eq.
  rewrite (waits_left_delete waits i x Hi). lia.
Qed.

Section bounded.
Hypothesis Hmax : 1 ≤ maxAttempts < int64_max.

Lemma alert_pool_ok w n q :
  alert_pool url_error marshal_error zone disp net w n q → pool_ok maxAttempts q.
Proof.
  intros (alert & names & _ & Hr). revert Hr.
  pose proof (initial_pool_ok maxAttempts Hmax (length (spawned disp names))) as Hok. revert Hok.
  generalize (initial_pool (length (spawned disp names))). intros q0 Hok Hr.
  induction Hr as [q|q1 q2 q3 Hs _ IH]; [done|]. apply IH. by eapply pool_step_fuel.
Qed.

Lemma wait_ok p i n sts :
  inv p → pr_waits p !! i = Some (n, sts) → Forall (attempt_ok maxAttempts) sts.
Proof. intros Hi Hw. destruct (pi_waits _ _ _ _ _ _ _ Hi i n sts Hw) as [Hp _]. exact (alert_pool_ok _ _ _ Hp). Qed.

Lemma action_left_pos a : 1 ≤ action_left a.
Proof.
  destruct a as [| | | | | |[alert names]]; simpl; try lia.
  pose proof (sum_fuel_nonneg maxAttempts _ (initial_pool_ok maxAttempts Hmax (length (spawned disp names)))).
  simpl in *. lia.
Qed.

Lemma thread_left_nonneg t : 0 ≤ thread_left t.
Proof.
  unfold thread_left. assert (0 ≤ foldr (λ a n, action_left a + n) 0 (th_todo t)); [|destruct (th_returned t); lia].
  induction (th_todo t) as [|a l IH]; simpl; [lia|]. pose proof (action_left_pos a). lia.
Qed.

Lemma process_left_nonneg p : inv p → 0 ≤ process_left p.
Proof.
  intros Hi. unfold process_left.
  assert (0 ≤ threads_left (pr_threads p)).
  { induction (pr_threads p) as [|t ts IH]; simpl; [lia|]. pose proof (thread_left_nonneg t). lia. }
  assert (0 ≤ waits_left (pr_waits p)); [|lia].
  assert (Hok : map_Forall (λ _ x, Forall (attempt_ok maxAttempts) x.2) (pr_waits p)).
  { intros i [n sts] Hw. by eapply wait_ok. }
  revert Hok. clear -Hmax. induction (pr_waits p) as [|i x m Hm IH] using map_ind; [done|].
  intros Hok. rewrite waits_left_insert by done. apply map_Forall_insert in Hok as [Hx Hok]; [|done].
  specialize (IH Hok). pose proof (sum_fuel_nonneg maxAttempts _ Hx). unfold wait_left. lia.
Qed.

(** Every step but a new check and another part's log line uses some of it up. *)
Lemma step_left l p p' :
  inv p → step l p p' →
  match l with
  | LTask (Start _ _) => True
  | LTask (Elsewhere _) => process_left p' = process_left p
  | _ => process_left p' + 1 ≤ process_left p
  end.
Proof.
  intros Hinv Hs. destruct Hs as [ev d ts waits w rets ts' w' Hm Hs|i k d ts waits w rets n sts alert names s s' Hi Ha Hk Hs
    |i d ts waits w rets n sts Hi Hd|a d d' ts waits w rets Hp Ha Hid];
    unfold process_left; cbn [pr_daemon pr_threads pr_waits].
  - destruct ev as [i o|i|i|lg]; [done| | |].
    + cbn [task_may hands_over] in *.
      apply fine_step_next in Hs as (u & snap & a & todo & snap' & Ht & -> & _). rewrite Ht.
      rewrite (threads_left_insert _ _ _ _ Ht). unfold thread_left. cbn [th_todo th_returned foldr].
      destruct a as [| | | | | |[alert names]]; cbn [action_left]; try lia.
      rewrite waits_left_insert by done. unfold wait_left. cbn [snd]. lia.
    + cbn [task_may hands_over] in *. apply fine_step_next in Hs as (u & snap & Ht & -> & _).
      rewrite (threads_left_insert _ _ _ _ Ht). unfold thread_left. cbn [th_todo th_returned foldr]. lia.
    + apply fine_step_next in Hs as [-> _]. done.
  - rewrite (waits_left_move _ _ _ _ Hi). unfold wait_left. cbn [snd].
    rewrite (sum_fuel_insert maxAttempts sts k s s' Hk).
    pose proof (Forall_lookup_1 _ _ _ _ (wait_ok _ i n sts Hinv Hi) Hk) as Hok.
    destruct (thread_step_fuel maxAttempts _ _ Hmax _ _ _ _ Hs Hok) as [_ ?]. lia.
  - rewrite (waits_left_delete _ _ _ Hi). unfold wait_left. cbn [snd].
    pose proof (sum_fuel_nonneg maxAttempts sts (wait_ok _ i n sts Hinv Hi)). lia.
  - apply act_decreases in Ha. lia.
Qed.

Definition starts_check (l : Label) : bool := match l with LTask (Start _ _) => true | _ => false end.
Definition log_only (l : Label) : bool := match l with LTask (Elsewhere _) => true | _ => false end.

(** Steps other than another part's log lines. *)
Definition moves (ls : list Label) : Z := slice_len (filter (λ l, log_only l = false) ls).

Lemma run_left p ls p' :
  inv p → run p ls p' → Forall (λ l, starts_check l = false) ls →
  moves ls + process_left p' ≤ process_left p.
Proof.
  intros Hinv. induction 1 as [|ls l p1 p2 Hr IH Hs]; intros Hf; [by rewrite Z.add_0_l|].
  apply Forall_app in Hf as [Hf Hl]. inversion_clear Hl as [|? ? Hl' _]. specialize (IH Hf).
  pose proof (step_left l p1 p2 ltac:(by eapply inv_run) Hs) as Hleft.
  unfold moves, slice_len in *. rewrite filter_app, List.length_app.
  destruct l as [[]| | |]; try done; cbn [filter list_filter starts_check log_only] in *;
    rewrite ?decide_True, ?decide_False by done; simpl; lia.
Qed.

(** *** Down to the return of [run] *)

Lemma run_trans p ls1 p1 ls2 p2 : run p ls1 p1 → run p1 ls2 p2 → run p (ls1 ++ ls2) p2.
Proof.
  intros H1. induction 1 as [|ls l q1 q2 _ IH Hs]; [by rewrite app_nil_r|].
  rewrite app_assoc. by eapply pr_snoc.
Qed.

Lemma step_stopping l p p' : step l p p' → stopping (pr_daemon p) → stopping (pr_daemon p').
Proof. destruct 1; cbn [pr_daemon]; try done. intros Hst. by eapply act_stopping. Qed.

Lemma winding_moves ls : Forall (λ l, winds_down l = true) ls → moves ls = Z.of_nat (length ls).
Proof.
  unfold moves, slice_len. induction 1 as [|l ls Hl _ IH]; [done|].
  rewrite filter_cons_True by (by destruct l as [[]| | |[]]). cbn [length]. lia.
Qed.

Lemma winding_starts ls : Forall (λ l, winds_down l = true) ls → Forall (λ l, starts_check l = false) ls.
Proof. intros H. eapply Forall_impl; [exact H|]. by intros [[]| | |[]]. Qed.

Lemma winding_bounded p ls p' :
  inv p → run p ls p' → Forall (λ l, winds_down l = true) ls →
  Z.of_nat (length ls) + process_left p' ≤ process_left p.
Proof.
  intros Hi Hr Hw. rewrite <- (winding_moves ls Hw). apply run_left; [done..|]. by apply winding_starts.
Qed.

Lemma winds_down_returns p :
  inv p → stopping (pr_daemon p) →
  (∀ ls p', run p ls p' → Forall (λ l, winds_down l = true) ls →
     ∀ i, fine_step (pr_threads p', pr_world p') (Continue i) ≠ Panics) →
  ∃ ls p' r, run p ls p' ∧ Forall (λ l, winds_down l = true) ls ∧
    dm_main (pr_daemon p') = MReturned r.
Proof.
  remember (Z.to_nat (process_left p)) as n eqn:Hn. revert p Hn.
  induction n as [n IH] using lt_wf_ind. intros p -> Hinv Hst Hnp.
  destruct (dm_main (pr_daemon p)) as [| |r] eqn:Hm; [| |exists [], p, r; by split_and!; [constructor| |]].
  1-2: destruct (process_progress p Hinv Hst ltac:(by rewrite Hm) (Hnp [] p (pr_nil _ _ _ _ _ _ _ _ p) (Forall_nil_2 _)))
    as (l & p1 & Hl & Hs);
    pose proof (inv_step _ _ _ _ _ _ _ _ Hlisten l p p1 Hs Hinv) as Hinv1;
    assert (Hr1 : run p [l] p1) by (apply (pr_snoc _ _ _ _ _ _ _ _ p [] l p p1); [constructor|done]);
    pose proof (winding_bounded p [l] p1 Hinv Hr1 ltac:(by repeat constructor)) as Hb;
    pose proof (process_left_nonneg p1 Hinv1); cbn [length] in Hb;
    (destruct (IH (Z.to_nat (process_left p1)) ltac:(lia) p1 eq_refl Hinv1) as (ls & p2 & r & Hr2 & Hw & Hret);
      [by eapply step_stopping| |]).
  1,3: intros ls p2 Hr Hw; apply (Hnp ([l] ++ ls)%list p2); [by eapply run_trans|by constructor].
  1,2: exists ([l] ++ ls)%list, p2, r; split_and!; [by eapply run_trans|by constructor|done].
Qed.
End bounded.

(** ** Nothing new is sent *)

(** A delivery that has reached its channel or is on the way. *)
Definition underway (s : DState) : Prop :=
  match s with Notifying _ | Finished Sent => True | _ => False end.

(** Cancelled before the first attempt, or about to be. *)
Definition silent (s : DState) : Prop :=
  s = Checking 1 None ∨ s = Finished (Cancelled "context canceled").

(** The deliveries [sts] of alert [n], seen from an earlier state [p0]: the
    alert is older and whatever is under way was so then, or it is newer and all
    is silent. *)
Definition no_attempt_since (p0 : Process) (n : nat) (sts : list DState) : Prop :=
  (∃ i sts0, pr_waits p0 !! i = Some (n, sts0) ∧
     ∀ k s, sts !! k = Some s → underway s → ∃ s0, sts0 !! k = Some s0 ∧ underway s0) ∨
  ((length (w_alerts (pr_world p0)) ≤ n)%nat ∧ Forall silent sts).

Lemma thread_step_underway notify waits k e s s' :
  thread_step maxAttempts notify waits k (Some e) s s' → underway s' → underway s.
Proof. by destruct 1. Qed.

Lemma thread_step_silent notify waits k s s' :
  1 ≤ maxAttempts → thread_step maxAttempts notify waits k (Some "context canceled") s s' → silent s → silent s'.
Proof.
  intros Hm Hs [->| ->].
  - inversion Hs; subst; [lia| |done]. right. congruence.
  - inversion Hs.
Qed.

Record quiet (p0 p : Process) : Prop := {
  qu_ctx : ctx_done (pr_daemon p) = true;
  qu_alerts : (length (w_alerts (pr_world p0)) ≤ length (w_alerts (pr_world p)))%nat;
  qu_waits i n sts : pr_waits p !! i = Some (n, sts) → no_attempt_since p0 n sts;
  qu_returned n q : (n, q) ∈ pr_returned p →
    (n, q) ∈ pr_returned p0 ∨ (no_attempt_since p0 n (p_threads q) ∧ wg_done q);
}.

Lemma quiet_task p0 ev d ts waits w rets ts' w' :
  task_may ev d waits → fine_step (ts, w) ev = Next (ts', w') →
  quiet p0 (MkProcess d ts waits w rets) → quiet p0 (MkProcess d ts' (hands_over disp ev ts w waits) w' rets).
Proof.
  intros Hm Hs [Hc Hal Hw Hr]. cbn [pr_daemon pr_world pr_waits pr_returned] in *.
  destruct (hands_over_spec _ _ _ disp _ _ _ _ _ waits Hs) as
    [[-> Ha]|(j & u & snap & snap' & alert & names & todo & -> & _ & _ & Ha & ->)];
    split; cbn [pr_daemon pr_world pr_waits pr_returned]; try done.
  - by rewrite Ha.
  - rewrite Ha, List.length_app. lia.
  - intros i n sts [[<- [= <- <-]]|[_ Hi]]%lookup_insert_Some; [|by eapply Hw].
    right. split; [done|]. apply Forall_replicate. by left.
Qed.

Lemma quiet_deliver p0 i k d ts waits w rets n sts notify blocks s s' :
  1 ≤ maxAttempts → waits !! i = Some (n, sts) → sts !! k = Some s →
  thread_step maxAttempts notify blocks k (ctx_error d) s s' →
  quiet p0 (MkProcess d ts waits w rets) →
  quiet p0 (MkProcess d ts (<[i := (n, <[k := s']> sts)]> waits) w rets).
Proof.
  intros Hm Hi Hk Hs [Hc Hal Hw Hr]. cbn [pr_daemon pr_world pr_waits pr_returned] in *.
  unfold ctx_error in Hs. rewrite Hc in Hs.
  split; cbn [pr_daemon pr_world pr_waits pr_returned]; try done.
  intros j m sts' [[<- [= <- <-]]|[_ Hj]]%lookup_insert_Some; [|by eapply Hw].
  destruct (Hw i n sts Hi) as [(j & sts0 & Hj & Hall)|[Hn Hall]]; [left|right].
  - exists j, sts0. split; [done|].
    intros k' s1 [(-> & <- & _)|[_ Hk']]%list_lookup_insert_Some Hu; [|by eapply Hall].
    eapply (Hall _ s); [done|]. by eapply thread_step_underway.
  - split; [done|]. apply Forall_insert; [done|]. eapply thread_step_silent; [done|done|].
    by eapply Forall_lookup_1.
Qed.

Lemma quiet_step p0 l p p' : 1 ≤ maxAttempts → step l p p' → quiet p0 p → quiet p0 p'.
Proof.
  intros Hm Hs Hq. destruct Hs as [ev d ts waits w rets ts' w' Hmay Hs|i k d ts waits w rets n sts alert names s s' Hi Ha Hk Hs
    |i d ts waits w rets n sts Hi Hd|a d d' ts waits w rets Hp Ha Hid].
  - by apply quiet_task.
  - by eapply quiet_deliver.
  - destruct Hq as [Hc Hal Hw Hr]. cbn [pr_daemon pr_world pr_waits pr_returned] in *.
    split; cbn [pr_daemon pr_world pr_waits pr_returned]; try done.
    + intros j m sts' [_ Hj]%lookup_delete_Some. by eapply Hw.
    + intros m q [Hin|[= -> ->]%list_elem_of_singleton]%elem_of_app; [by apply Hr|].
      right. split; [by eapply Hw|done].
  - destruct Hq as [Hc Hal Hw Hr]. cbn [pr_daemon pr_world pr_waits pr_returned] in *.
    split; cbn [pr_daemon pr_world pr_waits pr_returned]; try done. by eapply act_ctx.
Qed.

Lemma quiet_run p0 ls p :
  1 ≤ maxAttempts → ctx_done (pr_daemon p0) = true → run p0 ls p → quiet p0 p.
Proof.
  intros Hm Hc. induction 1 as [|ls l p1 p2 _ IH Hs]; [|by eapply quiet_step].
  split; [done|done| |by left]. intros i n sts Hi. left. exists i, sts. split; [done|]. intros k s Hk Hu. by exists s.
Qed.

End shutdown.

(** ** From a file that loads *)

Section loaded.
Context (go_quote json_error url_error : string → string).
Context (marshal_error : string) (zone : Zone).

Notation fine_run := (fine_run go_quote json_error url_error).
Notation run s net := (process_run go_quote json_error url_error marshal_error zone (su_active s) (su_dispatcher s) net).
Notation inv s net := (process_inv url_error marshal_error zone (su_active s) (su_dispatcher s) net).

Lemma setup_one_listener readFile parse_error getenv order1 order2 order3 path cfg s :
  ConfigFile.Load readFile parse_error order1 order2 path = Ok cfg →
  setup readFile parse_error getenv order1 order2 order3 path = Some (Ok s) →
  one_listener (su_active s).
Proof. intros Hl Hs name l Hn. by eapply setup_listener. Qed.

(** What a run of the process is made of, seen from Steps.v and Process.v. *)
Lemma process_loaded specs s reg logger net :
  fine_units specs (daemon_units (su_active s)) → Registry_wf reg → one_listener (su_active s) →
  (∀ n e, role_failed n e ∉ logger) →
  ∃ p0, process_start (su_active s) reg logger = Some p0 ∧
    ∀ ls p, run s net p0 ls p →
      inv s net p ∧
      fine_run (events_of ls) (daemon_units (su_active s)) (MkWorld (Some reg) logger []) =
        Next (pr_threads p, pr_world p) ∧
      (Z.of_nat (length ls) + 1 < 2 ^ 63 →
       ∀ i, fine_step go_quote json_error url_error (pr_threads p, pr_world p) (Continue i) ≠ Panics).
Proof.
  intros Hfu Hwf Hone Hlog. eexists. unfold process_start.
  rewrite (fine_start_fresh specs) by done. split; [reflexivity|]. intros ls p Hr.
  assert (Hinv : inv s net p).
  { eapply inv_run; [done| |exact Hr]. eapply inv_start; [exact Hlog|].
    unfold process_start. by rewrite (fine_start_fresh specs). }
  assert (Hfine : fine_run (events_of ls) (daemon_units (su_active s)) (MkWorld (Some reg) logger []) =
    Next (pr_threads p, pr_world p)).
  { unfold Steps.fine_run. rewrite (fine_start_fresh specs) by done.
    exact (run_fine _ _ _ _ _ _ _ _ _ _ _ Hr). }
  split; [done|]. split; [done|]. intros Hlen i Hp.
  pose proof (events_length ls) as Hevs.
  pose proof (units_interleave go_quote json_error url_error specs _ (events_of ls ++ [Continue i])
    (MkWorld (Some reg) logger []) reg Hfu) as Hu.
  rewrite List.length_app in Hu. specialize (Hu ltac:(simpl; lia) eq_refl Hwf).
  unfold Steps.fine_run in *. rewrite (fine_start_fresh specs) in * by done.
  rewrite fine_steps_snoc, Hfine in Hu. cbn [and_then] in Hu. by rewrite Hp in Hu.
Qed.

(** ** Properties *)

(** C5: nothing that was handed over is forgotten.  From a file that loads, as
    for the whole daemon (intervals and windows in machine range, distinct unit
    names), and a number of attempts below the largest [int]: in every schedule of the whole process, of its checks, deliveries, roles,
    signals and the main goroutine: the monitoring goroutines run one of their
    own schedules; every call of [Dispatch] that has returned has one result per
    channel of its alert, and if the context was not done by then, a channel's
    delivery succeeded exactly if one of its attempts was taken; and when [run]
    returns every monitoring goroutine has returned, none in the middle of a
    check or of a delivery, and [Dispatch] has returned exactly once for each
    alert ever handed over. *)
Theorem shutdown_drains readFile parse_error getenv order1 order2 order3 path cfg :
  Forall (ConfigFile.file_order readFile path) [order1; order2; order3] →
  ConfigFile.Load readFile parse_error order1 order2 path = Ok cfg →
  durations_fit cfg → role_names cfg ≠ [] → NoDup (unit_names cfg) →
  Config.rt_MaxAttempts (c_Retry cfg) < int64_max →
  ∃ s reg,
    setup readFile parse_error getenv order1 order2 order3 path = Some (Ok s) ∧
    su_registry s = Some reg ∧
    ∀ logger net, (∀ n e, role_failed n e ∉ logger) →
    ∃ p0, process_start (su_active s) reg logger = Some p0 ∧
    ∀ ls p, run s net p0 ls p → Z.of_nat (length ls) < 2 ^ 63 →
      fine_run (events_of ls) (daemon_units (su_active s)) (MkWorld (Some reg) logger []) =
        Next (pr_threads p, pr_world p) ∧
      (∀ n q, (n, q) ∈ pr_returned p →
         ∃ alert names, w_alerts (pr_world p) !! n = Some (alert, names) ∧
         ∀ k name, names !! k = Some name →
           ∃ ch res, c_Channels cfg !! name = Some ch ∧ p_threads q !! k = Some (Finished res) ∧
             (p_ctx q = None → res = Sent ↔
                ∃ a, 1 ≤ a ≤ Z.max 1 (Config.rt_MaxAttempts (c_Retry cfg)) ∧
                  takes url_error zone getenv (net n k a) ch alert)) ∧
      (∀ r, dm_main (pr_daemon p) = MReturned r → drained p).
Proof.
  intros Ho Hl Hf Hne Hnd Hmax.
  destruct (daemon_start go_quote json_error url_error readFile parse_error getenv order1 order2 order3
    path cfg Ho Hl Hf Hne Hnd) as (s & reg & Hs & Hreg & Hwf & _ & Hfu & Hch).
  exists s, reg. split; [done|]. split; [done|]. intros logger net Hlog.
  destruct (process_loaded _ s reg logger net Hfu Hwf ltac:(by eapply setup_one_listener) Hlog)
    as (p0 & Hp0 & Hall).
  exists p0. split; [done|]. intros ls p Hr Hlen. destruct (Hall ls p Hr) as (Hinv & Hfine & _).
  split; [done|]. split; [|intros r; by eapply returned_drained].
  intros n q Hin. destruct (pi_returned _ _ _ _ _ _ _ Hinv n q Hin) as [(alert & names & Ha & Hrtc) Hd].
  exists alert, names. split; [done|].
  assert (Hevs : Z.of_nat (length (events_of ls)) < 2 ^ 63) by (pose proof (events_length ls); lia).
  pose proof (units_interleave go_quote json_error url_error _ _ (events_of ls) (MkWorld (Some reg) logger [])
    reg Hfu Hevs eq_refl Hwf) as Hp. rewrite Hfine in Hp.
  destruct (handed_over _ _ _ _ _ _ _ _ _ _ _ _ (Forall2_length _ _ _ (fu_fresh _ _ Hfu)) Hp
    (list_elem_of_lookup_2 _ _ _ Ha)) as [Hx|(u & Hu & ->)]; [by apply elem_of_nil in Hx|].
  rewrite Forall_forall in Hch.
  destruct (delivery_decided marshal_error url_error zone readFile parse_error getenv order1 order2 order3
    path cfg s alert (unit_channels u) Hl Hs Hmax (Hch u Hu)) as (Hsp & _ & Hdec).
  apply (Hdec (net n) q); [|done]. by rewrite <- (length_fmap fst), Hsp in Hrtc.
Qed.

(** C6: shutting down ends.  From a file that loads, as for the whole daemon
    (intervals and windows in machine range, distinct unit names), and a number
    of attempts below the largest [int]: in whatever state a schedule of the process has a signal received or a fatal error recorded:
    every schedule from there on in which no ticker fires any more has at most
    [process_left] steps, other parts' log lines aside; as long as [run] has not
    returned some step that shutting down needs is possible; hence by such steps
    alone (the monitoring goroutines leaving their loops, checks and deliveries
    under way ending, roles returning) [run] returns. *)
Theorem shutdown_completes readFile parse_error getenv order1 order2 order3 path cfg :
  Forall (ConfigFile.file_order readFile path) [order1; order2; order3] →
  ConfigFile.Load readFile parse_error order1 order2 path = Ok cfg →
  durations_fit cfg → role_names cfg ≠ [] → NoDup (unit_names cfg) →
  Config.rt_MaxAttempts (c_Retry cfg) < int64_max →
  ∃ s reg,
    setup readFile parse_error getenv order1 order2 order3 path = Some (Ok s) ∧
    su_registry s = Some reg ∧
    ∀ logger net, (∀ n e, role_failed n e ∉ logger) →
    ∃ p0, process_start (su_active s) reg logger = Some p0 ∧
    ∀ ls p, run s net p0 ls p → stopping (pr_daemon p) →
      Z.of_nat (length ls) + process_left (su_dispatcher s) p + 1 < 2 ^ 63 →
      (∀ ls' p', run s net p ls' p' → Forall (λ l, starts_check l = false) ls' →
         moves ls' ≤ process_left (su_dispatcher s) p) ∧
      ((∀ r, dm_main (pr_daemon p) ≠ MReturned r) →
         ∃ l p', winds_down l = true ∧
           process_step go_quote json_error url_error marshal_error zone (su_active s)
             (su_dispatcher s) net l p p') ∧
      ∃ ls' p' r, run s net p ls' p' ∧ Forall (λ l, winds_down l = true) ls' ∧
        dm_main (pr_daemon p') = MReturned r.
Proof.
  intros Ho Hl Hf Hne Hnd Hmax.
  destruct (daemon_start go_quote json_error url_error readFile parse_error getenv order1 order2 order3
    path cfg Ho Hl Hf Hne Hnd) as (s & reg & Hs & Hreg & Hwf & _ & Hfu & _).
  pose proof (setup_one_listener _ _ _ _ _ _ _ _ _ Hl Hs) as Hone.
  destruct (setup_channels readFile parse_error getenv order1 order2 order3 path cfg s Hl Hs) as [Hm _].
  assert (Hrange : 1 ≤ d_maxAttempts (su_dispatcher s) < int64_max)
    by (rewrite Hm; unfold int64_max in *; lia).
  exists s, reg. split; [done|]. split; [done|]. intros logger net Hlog.
  destruct (process_loaded _ s reg logger net Hfu Hwf Hone Hlog) as (p0 & Hp0 & Hall).
  exists p0. split; [done|]. intros ls p Hr Hst Hlen. destruct (Hall ls p Hr) as (Hinv & _ & Hnp).
  pose proof (process_left_nonneg url_error marshal_error zone _ _ net Hrange p Hinv) as Hpos.
  split; [|split].
  - intros ls' p' Hr' Hf'.
    pose proof (run_left _ _ _ _ _ _ _ net Hone Hrange p ls' p' Hinv Hr' Hf').
    pose proof (process_left_nonneg url_error marshal_error zone _ _ net Hrange p'
      ltac:(by eapply inv_run)). lia.
  - intros Hmain. apply process_progress; [done..|]. apply Hnp. lia.
  - apply winds_down_returns; [done..|]. intros ls' p' Hr' Hw.
    pose proof (winding_bounded _ _ _ _ _ _ _ net Hone Hrange p ls' p' Hinv Hr' Hw) as Hb.
    pose proof (process_left_nonneg url_error marshal_error zone _ _ net Hrange p'
      ltac:(by eapply inv_run)).
    eapply (Hall (ls ++ ls')%list p'); [by eapply run_trans|]. rewrite List.length_app. lia.
Qed.

(** C12: once the context is done nothing new is sent.  From any state with the
    context done, in every schedule: a call of [Dispatch] that returns later
    either is for an alert handed over before, and then only deliveries that
    had reached their channel or were in the middle of an attempt can be
    successful, or for an alert handed over since (a check that the shutdown
    interrupts counts as failed and may change the state), and then every
    delivery ends as cancelled before its first attempt. *)
Theorem shutdown_sends_nothing_new active disp net p ls p' n q :
  1 ≤ d_maxAttempts disp → ctx_done (pr_daemon p) = true →
  process_run go_quote json_error url_error marshal_error zone active disp net p ls p' →
  (n, q) ∈ pr_returned p' → (n, q) ∉ pr_returned p →
  (∃ i sts, pr_waits p !! i = Some (n, sts) ∧
     ∀ k, p_threads q !! k = Some (Finished Sent) → ∃ s, sts !! k = Some s ∧ underway s) ∨
  ((length (w_alerts (pr_world p)) ≤ n)%nat ∧
     Forall (λ s, s = Finished (Cancelled "context canceled")) (p_threads q)).
Proof.
  intros Hm Hc Hr Hin Hnot.
  pose proof (quiet_run _ _ _ _ _ _ _ _ p ls p' Hm Hc Hr) as [_ _ _ Hq].
  destruct (Hq n q Hin) as [|[[(i & sts & Hi & Hall)|[Hn Hall]] Hd]]; [done|left|right].
  - exists i, sts. split; [done|]. intros k Hk. by eapply Hall.
  - split; [done|]. unfold wg_done in Hd. rewrite Forall_forall in Hall, Hd |- *. intros s Hs.
    by destruct (Hall s Hs) as [->|?]; [specialize (Hd _ Hs)|].
Qed.

End loaded.

(** ** Witnesses *)

(** The example daemon: the speed test fails, its alert is delivered, a signal
    arrives while a ping is being checked; every goroutine leaves, every role
    returns, [run] returns. *)
Definition alerting : list Label :=
  (LTask <$> failed_speedtest) ++
  [LDeliver 8 0; LTask (Start 0 (blackout 6)); LDeliver 8 0; LDispatched 8].

Definition leaving : list Label :=
  (LTask <$> replicate 3 (Continue 0)) ++ (LTask ∘ Leave <$> seq 0 9) ++
  ((λ n, LDaemon (RoleReturns n RunNil)) <$>
     ["speed_check"; "url_monitor"; "pong_server"; "ping_monitor"; "internet_check"; "summary_reporter"]) ++
  [LDaemon MainStops; LDaemon MainReturns].

Definition example_process (ls : list Label) : option Process :=
  match setup example_file (λ _, "") (λ _, "") ConfigFile.example_order ConfigFile.example_order
      ConfigFile.example_order "config.json" with
  | Some (Ok s) =>
      reg ← su_registry s; p0 ← process_start (su_active s) reg [];
      executes plain plain plain "" utc (su_active s) (su_dispatcher s) (λ _ _ _, down) ls p0
  | _ => None
  end.

Example example_shutdown :
  (λ p, (dm_main (pr_daemon p), length (w_alerts (pr_world p)), pr_returned p)) <$>
    example_process (alerting ++ [LDaemon Signal] ++ leaving) =
  Some (MReturned None, 1%nat, [(0%nat, MkPool [Finished Sent] None)]).
Proof. vm_compute. reflexivity. Qed.

(** What [example_process] computes is a run. *)
Lemma example_process_run s reg p0 ls p :
  setup example_file (λ _, "") (λ _, "") ConfigFile.example_order ConfigFile.example_order
      ConfigFile.example_order "config.json" = Some (Ok s) →
  su_registry s = Some reg → process_start (su_active s) reg [] = Some p0 →
  example_process ls = Some p →
  process_run plain plain plain "" utc (su_active s) (su_dispatcher s) (λ _ _ _, down) p0 ls p.
Proof.
  intros Hs Hreg Hp0. unfold example_process. rewrite Hs, Hreg. cbn [mbind option_bind]. rewrite Hp0.
  cbn [mbind option_bind]. apply executes_run.
Qed.

Lemma shutdown_drains_witness :
  ∃ s p0 p,
    setup example_file (λ _, "") (λ _, "") ConfigFile.example_order ConfigFile.example_order
      ConfigFile.example_order "config.json" = Some (Ok s) ∧
    process_run plain plain plain "" utc (su_active s) (su_dispatcher s) (λ _ _ _, down) p0
      (alerting ++ [LDaemon Signal] ++ leaving) p ∧
    dm_main (pr_daemon p) = MReturned None ∧
    pr_waits p = ∅ ∧ (pr_returned p).*1 ≡ₚ seq 0 (length (w_alerts (pr_world p))).
Proof.
  destruct (ConfigFile.Load example_file (λ _, "") ConfigFile.example_order ConfigFile.example_order
    "config.json") as [cfg|] eqn:Hl; [|vm_compute in Hl; discriminate].
  assert (Hc := Hl). vm_compute in Hc. injection Hc as Hc.
  destruct (shutdown_drains plain plain plain "" utc example_file (λ _, "") (λ _, "")
    ConfigFile.example_order ConfigFile.example_order ConfigFile.example_order "config.json" cfg
    example_orders Hl) as (s & reg & Hs & Hreg & Hall).
  - rewrite <- Hc. split; [|repeat constructor..]; vm_compute; repeat split; discriminate.
  - rewrite <- Hc. discriminate.
  - rewrite <- Hc. apply (bool_decide_unpack _). vm_compute. exact I.
  - rewrite <- Hc. reflexivity.
  - destruct (Hall [] (λ _ _ _, down)) as (p0 & Hp0 & Hruns); [intros n e H; by apply elem_of_nil in H|].
    pose proof example_shutdown as He.
    destruct (example_process (alerting ++ [LDaemon Signal] ++ leaving)) as [p|] eqn:Hp; [|discriminate He].
    pose proof (example_process_run s reg p0 _ p Hs Hreg Hp0 Hp) as Hr.
    cbn [fmap option_fmap option_map] in He. injection He as Hm _ _.
    destruct (Hruns _ p Hr ltac:(reflexivity)) as (_ & _ & Hret).
    destruct (Hret None Hm) as (_ & Hw & Hids).
    exists s, p0, p. split; [exact Hs|]. split; [exact Hr|]. split; [exact Hm|]. split; [exact Hw|exact Hids].
Defined.

(** The signal comes while the alert is being delivered and a check is under
    way. *)
Definition interrupted : list Label :=
  (LTask <$> failed_speedtest) ++ [LDeliver 8 0; LTask (Start 0 (blackout 6)); LDaemon Signal].

Lemma interrupted_left :
  match setup example_file (λ _, "") (λ _, "") ConfigFile.example_order ConfigFile.example_order
      ConfigFile.example_order "config.json" with
  | Some (Ok s) =>
      (λ p, (dm_signalled (pr_daemon p), process_left (su_dispatcher s) p)) <$> example_process interrupted
  | _ => None
  end = Some (true, 42).
Proof. vm_compute. reflexivity. Qed.

Lemma interrupted_run s reg p0 :
  setup example_file (λ _, "") (λ _, "") ConfigFile.example_order ConfigFile.example_order
      ConfigFile.example_order "config.json" = Some (Ok s) →
  su_registry s = Some reg → process_start (su_active s) reg [] = Some p0 →
  ∃ p,
    process_run plain plain plain "" utc (su_active s) (su_dispatcher s) (λ _ _ _, down) p0 interrupted p ∧
    ctx_done (pr_daemon p) = true ∧ process_left (su_dispatcher s) p = 42.
Proof.
  intros Hs Hreg Hp0. pose proof interrupted_left as He. rewrite Hs in He.
  destruct (example_process interrupted) as [p|] eqn:Hp; [|discriminate He]. exists p.
  injection He as Hsig Hleft.
  split_and!; [by apply (example_process_run s reg)|unfold ctx_done; by rewrite Hsig|done].
Qed.

Lemma shutdown_completes_witness :
  ∃ s p0 p,
    setup example_file (λ _, "") (λ _, "") ConfigFile.example_order ConfigFile.example_order
      ConfigFile.example_order "config.json" = Some (Ok s) ∧
    process_run plain plain plain "" utc (su_active s) (su_dispatcher s) (λ _ _ _, down) p0 interrupted p ∧
    ctx_done (pr_daemon p) = true ∧
    ∃ ls' p' r,
      process_run plain plain plain "" utc (su_active s) (su_dispatcher s) (λ _ _ _, down) p ls' p' ∧
      Forall (λ l, winds_down l = true) ls' ∧ dm_main (pr_daemon p') = MReturned r.
Proof.
  destruct (ConfigFile.Load example_file (λ _, "") ConfigFile.example_order ConfigFile.example_order
    "config.json") as [cfg|] eqn:Hl; [|vm_compute in Hl; discriminate].
  assert (Hc := Hl). vm_compute in Hc. injection Hc as Hc.
  destruct (shutdown_completes plain plain plain "" utc example_file (λ _, "") (λ _, "")
    ConfigFile.example_order ConfigFile.example_order ConfigFile.example_order "config.json" cfg
    example_orders Hl) as (s & reg & Hs & Hreg & Hall).
  - rewrite <- Hc. split; [|repeat constructor..]; vm_compute; repeat split; discriminate.
  - rewrite <- Hc. discriminate.
  - rewrite <- Hc. apply (bool_decide_unpack _). vm_compute. exact I.
  - rewrite <- Hc. reflexivity.
  - destruct (Hall [] (λ _ _ _, down)) as (p0 & Hp0 & Hruns); [intros n e H; by apply elem_of_nil in H|].
    destruct (interrupted_run s reg p0 Hs Hreg Hp0) as (p & Hr & Hd & Hleft).
    destruct (Hruns _ p Hr (or_introl Hd)) as (_ & _ & Hend); [rewrite Hleft; reflexivity|].
    exists s, p0, p. split; [exact Hs|]. split; [exact Hr|]. split; [exact Hd|exact Hend].
Defined.

(** A check that starts when the signal has come; its alert reaches nobody. *)
Definition late : list Label :=
  (LTask <$> failed_speedtest) ++ [LDeliver 8 0; LDispatched 8].

Definition late_pool : Pool :=
  MkPool [Finished (Cancelled "context canceled")] (Some "context canceled").

Lemma late_computed :
  match setup example_file (λ _, "") (λ _, "") ConfigFile.example_order ConfigFile.example_order
      ConfigFile.example_order "config.json" with
  | Some (Ok s) =>
      p ← example_process [LDaemon Signal];
      p' ← executes plain plain plain "" utc (su_active s) (su_dispatcher s) (λ _ _ _, down) late p;
      Some (dm_signalled (pr_daemon p), pr_returned p, bool_decide (1 ≤ d_maxAttempts (su_dispatcher s)),
            pr_returned p')
  | _ => None
  end = Some (true, [], true, [(0%nat, late_pool)]).
Proof. vm_compute. reflexivity. Qed.

Lemma late_run :
  ∃ s p p',
    process_run plain plain plain "" utc (su_active s) (su_dispatcher s) (λ _ _ _, down) p late p' ∧
    ctx_done (pr_daemon p) = true ∧ (0%nat, late_pool) ∈ pr_returned p' ∧
    pr_returned p = [] ∧ 1 ≤ d_maxAttempts (su_dispatcher s).
Proof.
  pose proof late_computed as He.
  destruct (setup _ _ _ _ _ _ _) as [[s|]|] eqn:Hs; [|discriminate He|discriminate He].
  destruct (example_process [LDaemon Signal]) as [p|]; [|discriminate He]. cbn [mbind option_bind] in He.
  destruct (executes _ _ _ _ _ _ _ _ late p) as [p'|] eqn:Hp'; [|discriminate He].
  cbn [mbind option_bind] in He. injection He as Hsig Hr Hm Hr'.
  exists s, p, p'. split_and!; [by apply executes_run|unfold ctx_done; by rewrite Hsig| |done|].
  - rewrite Hr'. apply list_elem_of_here.
  - exact (bool_decide_eq_true_1 _ Hm).
Qed.

Lemma shutdown_sends_nothing_new_witness :
  ∃ s p p',
    process_run plain plain plain "" utc (su_active s) (su_dispatcher s) (λ _ _ _, down) p late p' ∧
    ctx_done (pr_daemon p) = true ∧ (0%nat, late_pool) ∈ pr_returned p' ∧
    ((∃ i sts, pr_waits p !! i = Some (0%nat, sts) ∧
       ∀ k, p_threads late_pool !! k = Some (Finished Sent) → ∃ s, sts !! k = Some s ∧ underway s) ∨
     ((length (w_alerts (pr_world p)) ≤ 0)%nat ∧
       Forall (λ s, s = Finished (Cancelled "context canceled")) (p_threads late_pool))).
Proof.
  destruct late_run as (s & p & p' & Hrun & Hd & Hin & Hr & Hm).
  exists s, p, p'. split; [exact Hrun|]. split; [exact Hd|]. split; [exact Hin|].
  apply (shutdown_sends_nothing_new plain plain plain "" utc (su_active s) (su_dispatcher s)
    (λ _ _ _, down) p late p' 0 late_pool); [exact Hm|exact Hd|exact Hrun|exact Hin|].
  rewrite Hr. intros H. by apply elem_of_nil in H.
Defined.
