(* ===== verification/Scenarios.v ===== *)
(** * The repository's own tests, run on the model

    Each [Example] is a test of the [*_test.go] files under [src/internal],
    named after it, with the same inputs and the same expected values: the
    definitions of the other files evaluated by the kernel.  They relate the
    model to the behaviour the authors check; they prove nothing general.  The
    last two lemmas are of an input the tests do not have. *)

From S2P Require Import Prelude GoTime Slog Float64 GoString Utf8 Strconv Json GoJson.
From S2P Require Import TimeFormat Url Window History StateMachine Registry Dispatcher Channels.
From S2P Require Import Protocol Handlers Listener Checks.
From S2P Require Config ConfigFile.

Local Open Scope string_scope.
Local Open Scope Z_scope.

(** ** [internal/monitor] *)

(** The events of a sequence of checks, and the machine after it; the [i]-th
    check is at time [i]. *)
Fixpoint observe_all (now : Time) (results : list bool) (m : StateMachine)
    : option (list Event * StateMachine) :=
  match results with
  | [] => Some ([], m)
  | b :: results =>
      '(m, ev) ← Observe now b m;
      '(evs, m) ← observe_all (now + 1) results m;
      Some (ev :: evs, m)
  end.

Definition scenario (m : option StateMachine) (results : list bool)
    : option (list Event * State * Z * Time) :=
  m ← m;
  '(evs, m) ← observe_all 1 results m;
  Some (evs, sm_state m, sm_consecutive m, sm_lastSuccess m).

Example TestNoFireBeforeThreshold :
  scenario (New 3) [false; false] = Some ([EvNone; EvNone], Healthy, 2, zero_time).
Proof. vm_compute. reflexivity. Qed.

Example TestFireUnhealthyOnceAtThreshold :
  scenario (New 3) [false; false; false; false] =
    Some ([EvNone; EvNone; AlertUnhealthy; EvNone], Unhealthy, 4, zero_time).
Proof. vm_compute. reflexivity. Qed.

Example TestRecoveryFiresOnce :
  scenario (New 2) [false; false; true; true] =
    Some ([EvNone; AlertUnhealthy; RecoveryHealthy; EvNone], Healthy, 0, 4).
Proof. vm_compute. reflexivity. Qed.

Example TestCanCycleAgain :
  scenario (New 1) [false; true; false; true] =
    Some ([AlertUnhealthy; RecoveryHealthy; AlertUnhealthy; RecoveryHealthy], Healthy, 0, 4).
Proof. vm_compute. reflexivity. Qed.

Example TestThresholdClamped :
  scenario (New 0) [false] = Some ([AlertUnhealthy], Unhealthy, 1, zero_time).
Proof. vm_compute. reflexivity. Qed.

Example TestSuccessResetsCounterWhileHealthy :
  scenario (New 3) [false; false; true; false; false; false] =
    Some ([EvNone; EvNone; EvNone; EvNone; EvNone; AlertUnhealthy], Unhealthy, 3, 3).
Proof. vm_compute. reflexivity. Qed.

Definition availabilitySM (windowSize : Z) (minAvail : Z) : option StateMachine :=
  NewWithConfig {| mc_FailureThreshold := 0; mc_WindowSize := windowSize;
                   mc_Trigger := TriggerAvailability; mc_MinAvailability := f_of_int minAvail |}.

Example TestAvailabilityStaysHealthyDuringWarmup :
  scenario (availabilitySM 4 75) [false; false; false] =
    Some ([EvNone; EvNone; EvNone], Healthy, 3, zero_time).
Proof. vm_compute. reflexivity. Qed.

Example TestAvailabilityAlertsWhenBelowThreshold :
  scenario (availabilitySM 4 75) [false; false; false; true] =
    Some ([EvNone; EvNone; EvNone; AlertUnhealthy], Unhealthy, 0, 4) ∧
  (m ← availabilitySM 4 75; '(_, m) ← observe_all 1 [false; false; false; true] m;
   Some (f_eqb (Availability m) (f_of_int 25))) = Some true.
Proof. vm_compute. split; reflexivity. Qed.

Example TestAvailabilityRecoversWhenBackAboveThreshold :
  scenario (availabilitySM 4 75) [false; false; false; true; true; true] =
    Some ([EvNone; EvNone; EvNone; AlertUnhealthy; EvNone; RecoveryHealthy], Healthy, 0, 6).
Proof. vm_compute. reflexivity. Qed.

Example TestAvailabilityDoesNotRefireWhileUnhealthy :
  scenario (availabilitySM 2 75) [false; false; false] =
    Some ([EvNone; AlertUnhealthy; EvNone], Unhealthy, 3, zero_time).
Proof. vm_compute. reflexivity. Qed.

Example TestLastSuccessTracked :
  map (λ l, (λ '(_, _, _, t), t) <$> scenario (New 3) l) [[]; [false]; [false; true]; [false; true; false]] =
    [Some zero_time; Some zero_time; Some 2; Some 2].
Proof. vm_compute. reflexivity. Qed.

Example TestConsecutiveModeStillTracksWindow :
  (m ← NewWithConfig {| mc_FailureThreshold := 5; mc_WindowSize := 4;
                        mc_Trigger := TriggerConsecutive; mc_MinAvailability := f_zero |};
   '(evs, m) ← observe_all 1 [false; true; false] m;
   Some (evs, HasWindow m, f_eqb (Availability m) f_hundred)) =
    Some ([EvNone; EvNone; EvNone], true, false).
Proof. vm_compute. reflexivity. Qed.

(** Units driven on one registry, in the order of registration. *)
Example TestRegistrySnapshotPreservesRegistrationOrder :
  (reg ← Register_all NewRegistry ["b"; "a"; "c"];
   m ← New 1;
   '(b, _) ← Observe 5 false m;
   '(a, _) ← Observe 6 true m;
   let reg := Handle_Update (Some (MkHandle "a")) a
                (Handle_Update (Some (MkHandle "b")) b (Some reg)) in
   Some (map (λ u, (us_Name u, us_State u, Time_IsZero (us_LastSuccess u))) (Snapshot reg))) =
    Some [("b", Unhealthy, true); ("a", Healthy, false); ("c", Healthy, true)].
Proof. vm_compute. reflexivity. Qed.

Example TestNilRegistryAndHandleAreNoOps :
  Register None "anything" = Some (None, None) ∧
  (∀ sm, Handle_Update None sm None = None) ∧ Handle_LogSnapshot None None None = None ∧
  Registry_LogSnapshot None None = None ∧ Snapshot None = [] ∧
  (∀ t, Handle_RecordCheck None t true None = Some None) ∧
  (∀ t x, Handle_RecordSpeed None t x None = Some None).
Proof. repeat split. Qed.

Definition recorded (name : string) (checks : list (Time * bool)) (speeds : list (Time * Z))
    : option Registry :=
  reg ← Register_all NewRegistry [name];
  reg ← foldl (λ r '(t, b), r ← r; recordCheck r name t b) (Some reg) checks;
  foldl (λ r '(t, x), r ← r; recordSpeed r name t (f_of_int x)) (Some reg) speeds.

Example TestSummaryAggregatesHistory :
  (reg ← recorded "speed_check" [(0, true); (1, true); (2, false); (3, true)] [(0, 120); (1, 480)];
   fs ← Registry.Summary (Some reg) 9;
   Some (map (λ u, (length (su_Checks u), f_eqb (su_HistoryAvailability u) (f_of_int 75),
     (λ s, (st_Count s, map (λ '(x, y), f_eqb x (f_of_int y))
       [(st_Min s, 120); (st_Max s, 480); (st_Avg s, 300); (st_Latest s, 480)])) <$> su_Speed u))
     (Registry.fs_Units fs))) =
    Some [(4%nat, true, Some (2, [true; true; true; true]))].
Proof. vm_compute. reflexivity. Qed.

Example TestHistoryAvailabilityEmptyIs100 :
  (reg ← recorded "fresh" [] []; fs ← Registry.Summary (Some reg) 9;
   Some (map (λ u, (f_eqb (su_HistoryAvailability u) f_hundred, su_Checks u, su_Speed u))
     (Registry.fs_Units fs))) = Some [(true, [], None)].
Proof. vm_compute. reflexivity. Qed.

(** 125 speeds into a history of 100. *)
Example TestHistoryRingEvictsOldest :
  (reg ← recorded "speed_check" [] (map (λ i, (i, i)) (seqZ 0 125)); fs ← Registry.Summary (Some reg) 9;
   Some (map (λ u, (length (su_Speeds u),
     map (λ '(x, y), bool_decide (ss_Time <$> x = Some y)) [(head (su_Speeds u), 25); (last (su_Speeds u), 124)],
     (λ s, f_eqb (st_Latest s) (f_of_int 124)) <$> su_Speed u)) (Registry.fs_Units fs))) =
    Some [(100%nat, [true; true], Some true)].
Proof. vm_compute. reflexivity. Qed.

(** ** [internal/notify] *)

Definition steady (o : outcome) : Env :=
  {| env_notify _ := o; env_ctx_err _ := None; env_backoff_err _ := None |}.

Definition attempts_made (maxAttempts : Z) (env : Env) : option nat :=
  (λ '(steps, _, _), length (attempts_of steps)) <$>
    deliver (NewDispatcher (∅ : gmap string unit) maxAttempts Millisecond) "f" env.

Example TestDispatcherRetriesUpToMax : attempts_made 3 (steady (Failed "boom")) = Some 3%nat.
Proof. vm_compute. reflexivity. Qed.

Example TestDispatcherStopsOnSuccess : attempts_made 5 (steady Delivered) = Some 1%nat.
Proof. vm_compute. reflexivity. Qed.

Example TestDispatcherRespectsCancellation :
  attempts_made 10 {| env_notify _ := Failed "always fails"; env_ctx_err _ := None;
                      env_backoff_err n := if n =? 1 then Some "context canceled" else None |} =
    Some 1%nat.
Proof. vm_compute. reflexivity. Qed.

Example TestBackoffNeverNegative :
  forallb (λ n, 0 <=? backoff (int_mul 500 Millisecond) n) (seqZ 1 100) = true ∧
  backoff (int_mul 500 Millisecond) (maxBackoffShift + 5) = 500 * Millisecond * 2 ^ maxBackoffShift.
Proof. vm_compute. split; reflexivity. Qed.

Example TestBackoffGrowsExponentially :
  map (backoff (int_mul 10 Millisecond)) [1; 2; 3] = [10 * Millisecond; 20 * Millisecond; 40 * Millisecond].
Proof. vm_compute. reflexivity. Qed.

Example TestUseImplicitTLS : map useImplicitTLS [465; 25; 587; 2525] = [true; false; false; false].
Proof. vm_compute. reflexivity. Qed.

(** The whole SMS request. *)
Example TestSMSGatePostsWithBasicAuth :
  SMSGate_Notify "" (λ s, s) (λ _ _, Ok 200)
    (NewSMSGate "http://h/3rdparty/v1" "user" "secret" ["+15551234567"] Second)
    (MkAlert "internet_check" "UNHEALTHY" zero_time "no route" 0) =
  ([MkHTTPRequest "POST" "http://h/3rdparty/v1/message"
      [("Content-Type", "application/json"); ("Authorization", "Basic dXNlcjpzZWNyZXQ=")]
      (ConfigFile.double_quotes
         "{'message':'[healthd] internet_check UNHEALTHY: no route','phoneNumbers':['+15551234567']}")],
   Delivered).
Proof. vm_compute. reflexivity. Qed.

Example TestSMSGateNon2xxIsError :
  (SMSGate_Notify "" (λ s, s) (λ _ _, Ok 401) (NewSMSGate "http://h" "u" "p" ["+1"] Second)
    (MkAlert "" "" zero_time "" 0)).2 = Failed "smsgate non-2xx status: 401".
Proof. vm_compute. reflexivity. Qed.

(** The whole webhook request, its body with the member names of [Alert]'s
    tags. *)
Example TestWebhookPostsJSON :
  Webhook_Notify "" (λ s, s) (λ _ _, Ok 200) utc (NewWebhook "http://h" Second)
    (MkAlert "ping_monitor" "UNHEALTHY" (time_of_unix_milli 1700000000000) "down" 3) =
  ([MkHTTPRequest "POST" "http://h" [("Content-Type", "application/json")]
      (ConfigFile.double_quotes
         "{'role':'ping_monitor','state':'UNHEALTHY','timestamp':'2023-11-14T22:13:20Z','detail':'down','consecutive_failures':3}")],
   Delivered).
Proof. vm_compute. reflexivity. Qed.

Example TestWebhookNon2xxIsError :
  (Webhook_Notify "" (λ s, s) (λ _ _, Ok 500) utc (NewWebhook "http://h" Second)
    (MkAlert "" "" zero_time "" 0)).2 = Failed "webhook non-2xx status: 500".
Proof. vm_compute. reflexivity. Qed.

Definition panicking_mail : MailNet :=
  MkMailNet (λ _ _ _ _ _, Panicked "sender exploded") (λ _, None) None None.

Example TestEmailSendPanicBecomesError :
  Email_Notify (λ s, s) panicking_mail utc (NewEmail "h" 25 "a@x" ["b@x"] "" "")
    (MkAlert "" "" zero_time "" 0) = Failed "email send: email send panic: sender exploded".
Proof. vm_compute. reflexivity. Qed.

(** ** [internal/config] *)

(** [Load] of a file with this text (apostrophes for quotes); [order] lists its
    channels. *)
Definition load_text (order : list string) (text : string) : result Config.ConfigError Config.Config :=
  ConfigFile.Load (ConfigFile.one_file (ConfigFile.double_quotes text)) (λ _, "") order order
    "config.json".

Definition error_of {A} (r : result Config.ConfigError A) : option Config.ConfigError :=
  match r with Ok _ => None | Err e => Some e end.

Definition field_of {A B} (f : A → B) (r : result Config.ConfigError A) : option B :=
  match r with Ok a => Some (f a) | Err _ => None end.

Definition validConfig : string :=
"{
  'retry': { 'max_attempts': 3, 'base_delay_ms': 10 },
  'channels': {
    'log':  { 'type': 'console' },
    'hook': { 'type': 'webhook', 'url': 'https://example/hook', 'timeout_ms': 5000 }
  },
  'roles': {
    'pong_server':  { 'enabled': true, 'listen': ':9000', 'read_timeout_ms': 2000 },
    'ping_monitor': {
      'enabled': true,
      'targets': [
        { 'target': '10.0.0.5:9000', 'interval_s': 30, 'timeout_ms': 2000, 'failure_threshold': 3, 'notify': ['hook','log'] },
        { 'target': '10.0.0.6:9000', 'interval_s': 15, 'timeout_ms': 1000, 'failure_threshold': 2, 'notify': ['log'] }
      ]
    }
  }
}".

Example TestLoadValid :
  field_of (λ c, (Config.ps_Enabled (Config.r_PongServer (Config.c_Roles c)),
               Config.rt_MaxAttempts (Config.c_Retry c),
               map (λ t, Config.mp_IntervalS (Config.pt_Params t))
                 (Config.pm_Targets (Config.r_PingMonitor (Config.c_Roles c)))))
    (load_text ["log"; "hook"] validConfig) = Some (true, 3, [30; 15]).
Proof. vm_compute. reflexivity. Qed.

Example TestLoadAppliesDefaults :
  field_of (λ c, (Config.c_Retry c, Config.sc_Binary (Config.r_SpeedCheck (Config.c_Roles c)),
               Config.sc_FailureThreshold (Config.r_SpeedCheck (Config.c_Roles c)),
               Config.sc_Trigger (Config.r_SpeedCheck (Config.c_Roles c)), Config.c_SummaryIntervalS c))
    (load_text [] "{ 'channels': {}, 'roles': { 'speed_check': { 'enabled': true, 'interval_s': 10, 'threshold_mbps': 50 } } }") =
  Some (Config.MkRetry 3 500, "speedtest", 1, "consecutive", 900).
Proof. vm_compute. reflexivity. Qed.

Example TestSummaryIntervalOverrideAndRejection :
  field_of Config.c_SummaryIntervalS
    (load_text [] "{ 'summary_interval_s': 60, 'channels': {}, 'roles': { 'speed_check': { 'enabled': true, 'interval_s': 10, 'threshold_mbps': 50 } } }") = Some 60 ∧
  error_of (load_text [] "{ 'summary_interval_s': -1, 'channels': {}, 'roles': {} }") =
    Some (Config.Positive Config.Global "summary_interval_s").
Proof. vm_compute. split; reflexivity. Qed.

Example TestChannelTimeoutDefaulted :
  field_of (λ c, map (λ n, Config.ch_TimeoutMS <$> Config.c_Channels c !! n) ["hook"; "sms"])
    (load_text ["hook"; "sms"] "{
      'channels': {
        'hook': { 'type': 'webhook', 'url': 'https://x/hook' },
        'sms':  { 'type': 'smsgate', 'base_url': 'http://x/v1', 'username': 'u', 'password_env': 'P', 'recipients': ['+1'] }
      },
      'roles': {}
    }") = Some [Some 5000; Some 5000].
Proof. vm_compute. reflexivity. Qed.

(** The files that do not load, and why. *)
Definition rejected : list (list string * string) :=
  [ (* TestChannelNegativeTimeoutRejected *)
    (["hook"], "{ 'channels': { 'hook': { 'type': 'webhook', 'url': 'https://x/hook', 'timeout_ms': -1 } }, 'roles': {} }");
    (* TestUndefinedChannelReference *)
    (["log"], "{ 'channels': { 'log': { 'type': 'console' } }, 'roles': { 'ping_monitor': { 'enabled': true, 'targets': [
        { 'target': 'x:1', 'interval_s': 1, 'timeout_ms': 1, 'failure_threshold': 1, 'notify': ['missing'] } ] } } }");
    (* TestPingMonitorUndefinedProfile *)
    (["log"], "{ 'channels': { 'log': { 'type': 'console' } }, 'profiles': { 'standard': { 'interval_s': 30, 'timeout_ms': 2000, 'notify': ['log'] } },
        'roles': { 'ping_monitor': { 'enabled': true, 'targets': [ { 'target': 'a:1', 'profile': 'ghost' } ] } } }");
    (* TestPingMonitorUndefinedDefaultProfile *)
    (["log"], "{ 'channels': { 'log': { 'type': 'console' } }, 'profiles': { 'standard': { 'interval_s': 30, 'timeout_ms': 2000, 'notify': ['log'] } },
        'roles': { 'ping_monitor': { 'enabled': true, 'default_profile': 'missing', 'targets': [ { 'target': 'a:1' } ] } } }");
    (* TestPingMonitorProfileMissingRequiredFieldStillCaught *)
    (["log"], "{ 'channels': { 'log': { 'type': 'console' } }, 'profiles': { 'p': { 'interval_s': 30, 'notify': ['log'] } },
        'roles': { 'ping_monitor': { 'enabled': true, 'default_profile': 'p', 'targets': [ { 'target': 'a:1' } ] } } }");
    (* TestURLMonitorRejectsBadURL *)
    (["log"], "{ 'channels': { 'log': { 'type': 'console' } }, 'roles': { 'url_monitor': { 'enabled': true, 'targets': [
        { 'url': 'ftp://svc.local/x', 'interval_s': 5, 'timeout_ms': 1000, 'notify': ['log'] } ] } } }");
    (* TestURLMonitorMissingURL *)
    (["log"], "{ 'channels': { 'log': { 'type': 'console' } }, 'roles': { 'url_monitor': { 'enabled': true, 'targets': [
        { 'interval_s': 5, 'timeout_ms': 1000, 'notify': ['log'] } ] } } }");
    (* TestPingMonitorEmptyTargets, TestPingMonitorMissingTargets *)
    ([], "{ 'channels': {}, 'roles': { 'ping_monitor': { 'enabled': true, 'targets': [] } } }");
    ([], "{ 'channels': {}, 'roles': { 'ping_monitor': { 'enabled': true } } }");
    (* TestPingMonitorTargetBadField *)
    ([], "{ 'channels': {}, 'roles': { 'ping_monitor': { 'enabled': true, 'targets': [
        { 'target': '10.0.0.5:9000', 'interval_s': 1, 'timeout_ms': 1, 'failure_threshold': -1 } ] } } }");
    (* TestMissingRoleField... *)
    ([], "{ 'channels': {}, 'roles': { 'pong_server': { 'enabled': true, 'read_timeout_ms': 1000 } } }");
    ([], "{ 'channels': {}, 'roles': { 'ping_monitor': { 'enabled': true, 'targets': [
        { 'interval_s': 1, 'timeout_ms': 1, 'failure_threshold': 1 } ] } } }");
    ([], "{ 'channels': {}, 'roles': { 'internet_check': { 'enabled': true, 'interval_s': 1, 'timeout_ms': 1, 'failure_threshold': 1 } } }");
    ([], "{ 'channels': {}, 'roles': { 'speed_check': { 'enabled': true, 'interval_s': 1 } } }");
    (* TestMissingChannelField..., TestUnknownChannelType *)
    (["hook"], "{ 'channels': { 'hook': { 'type': 'webhook' } }, 'roles': {} }");
    (["m"], "{ 'channels': { 'm': { 'type': 'email', 'port': 587, 'from': 'a@x', 'to': ['b@x'], 'password_env': 'P' } }, 'roles': {} }");
    (["s"], "{ 'channels': { 's': { 'type': 'smsgate', 'username': 'u', 'password_env': 'P', 'recipients': ['+1'] } }, 'roles': {} }");
    (["x"], "{ 'channels': { 'x': { 'type': 'carrier-pigeon' } }, 'roles': {} }");
    (* TestAvailabilityRequiresMinAvailability *)
    (["log"], "{ 'channels': { 'log': { 'type': 'console' } }, 'roles': { 'internet_check': {
        'enabled': true, 'sites': ['https://x'], 'interval_s': 10, 'timeout_ms': 1000,
        'trigger': 'availability', 'window_size': 10, 'notify': ['log'] } } }");
    (* TestUnknownTriggerRejected *)
    (["log"], "{ 'channels': { 'log': { 'type': 'console' } }, 'roles': { 'ping_monitor': { 'enabled': true, 'targets': [
        { 'target': '10.0.0.5:9000', 'interval_s': 1, 'timeout_ms': 1, 'trigger': 'bogus', 'notify': ['log'] } ] } } }") ].

Example rejected_files :
  map (λ '(order, text), error_of (load_text order text)) rejected =
  let target role address := Config.Target role 0 address in
  Some <$> [
    Config.Positive (Config.ChannelNamed "hook" "webhook") "timeout_ms";
    Config.UndefinedChannel (target "ping_monitor" "x:1") "missing";
    Config.UndefinedProfile (target "ping_monitor" "a:1") "ghost";
    Config.UndefinedDefaultProfile "ping_monitor" "missing";
    Config.Positive (target "ping_monitor" "a:1") "timeout_ms";
    Config.URLScheme (target "url_monitor" "ftp://svc.local/x") "ftp";
    Config.Required (target "url_monitor" "") "url";
    Config.NonEmpty (Config.Role "ping_monitor") "targets";
    Config.NonEmpty (Config.Role "ping_monitor") "targets";
    Config.AtLeastOne (target "ping_monitor" "10.0.0.5:9000") "failure_threshold";
    Config.Required (Config.Role "pong_server") "listen";
    Config.Required (target "ping_monitor" "") "target";
    Config.NonEmpty (Config.Role "internet_check") "sites";
    Config.Positive (Config.Role "speed_check") "threshold_mbps";
    Config.Required (Config.ChannelNamed "hook" "webhook") "url";
    Config.Required (Config.ChannelNamed "m" "email") "smtp_host";
    Config.Required (Config.ChannelNamed "s" "smsgate") "base_url";
    Config.UnknownType (Config.ChannelNamed "x" "carrier-pigeon") "carrier-pigeon";
    Config.MinAvailabilityRange (Config.Role "internet_check");
    Config.UnknownTrigger (target "ping_monitor" "10.0.0.5:9000") "bogus"].
Proof. vm_compute. reflexivity. Qed.

(** Inherited settings: of the default profile, of the target's own, and where
    the target's own field wins. *)
Example TestPingMonitorProfilesResolve :
  field_of (λ c, map (λ t, let p := Config.pt_Params t in
      (Config.mp_IntervalS p, Config.mp_TimeoutMS p, Config.mp_FailureThreshold p, Config.mp_Notify p))
      (Config.pm_Targets (Config.r_PingMonitor (Config.c_Roles c))))
    (load_text ["log"; "hook"] "{
      'channels': { 'log': { 'type': 'console' }, 'hook': { 'type': 'webhook', 'url': 'https://x/h', 'timeout_ms': 1000 } },
      'profiles': {
        'standard': { 'interval_s': 30, 'timeout_ms': 2000, 'failure_threshold': 3, 'notify': ['log'] },
        'fast':     { 'interval_s': 15, 'timeout_ms': 1000, 'failure_threshold': 2, 'notify': ['hook'] }
      },
      'roles': { 'ping_monitor': {
        'enabled': true,
        'default_profile': 'standard',
        'targets': [
          { 'target': 'a:1' },
          { 'target': 'b:1', 'profile': 'fast' },
          { 'target': 'c:1', 'failure_threshold': 5 },
          { 'target': 'd:1', 'profile': 'fast', 'notify': ['log'] }
        ]
      } }
    }") =
  Some [(30, 2000, 3, ["log"]); (15, 1000, 2, ["hook"]); (30, 2000, 5, ["log"]); (15, 1000, 2, ["log"])].
Proof. vm_compute. reflexivity. Qed.

Example TestInsecureSkipVerifyResolves :
  field_of (λ c, (map (λ t, Config.mp_InsecureSkipVerify (Config.ut_Params t))
                 (Config.um_Targets (Config.r_URLMonitor (Config.c_Roles c))),
               Config.ic_InsecureSkipVerify (Config.r_InternetCheck (Config.c_Roles c))))
    (load_text ["log"] "{
      'channels': { 'log': { 'type': 'console' } },
      'profiles': {
        'insecure_web': { 'interval_s': 30, 'timeout_ms': 5000, 'notify': ['log'], 'insecure_skip_verify': true }
      },
      'roles': {
        'url_monitor': {
          'enabled': true,
          'default_profile': 'insecure_web',
          'targets': [
            { 'url': 'https://self-signed.local/health' },
            { 'url': 'https://public.example/health', 'timeout_ms': 3000 }
          ]
        },
        'internet_check': {
          'enabled': true,
          'sites': ['https://self-signed.local'],
          'interval_s': 60, 'timeout_ms': 5000, 'failure_threshold': 1,
          'notify': ['log'],
          'insecure_skip_verify': true
        }
      }
    }") = Some ([true; true], true).
Proof. vm_compute. reflexivity. Qed.

Example TestAvailabilityTriggerValidAndDefaults :
  field_of (λ c, let r := Config.r_InternetCheck (Config.c_Roles c) in
              (Config.ic_Trigger r, Config.ic_WindowSize r))
    (load_text ["log"] "{ 'channels': { 'log': { 'type': 'console' } }, 'roles': { 'internet_check': {
        'enabled': true, 'sites': ['https://x'], 'interval_s': 10, 'timeout_ms': 1000,
        'trigger': 'availability', 'min_availability': 90, 'notify': ['log'] } } }") =
  Some ("availability", 20).
Proof. vm_compute. reflexivity. Qed.

(** ** [internal/protocol] and the handlers *)

Definition answer (handlers : list MessageHandler) (reg : option Registry) (req : Request)
    : option Response :=
  line ← EncodeRequest req; Dispatch (NewMessageDispatcher handlers) reg 0 line.

Example TestRequestRoundTrip :
  DecodeRequest <$> EncodeRequest (MkRequest Version "42" TypePing (MkPayload 1234567890 "")) =
    Some (MkRequest Version "42" TypePing (MkPayload 1234567890 ""), None).
Proof. vm_compute. reflexivity. Qed.

Example TestMessageDispatcherRoutesPing :
  answer [PingHandler] None (MkRequest Version "p1" TypePing (MkPayload 77 "")) =
    Some (MkResponse Version "p1" TypePong (MkPayload 77 "") None).
Proof. vm_compute. reflexivity. Qed.

Example TestMessageDispatcherUnsupportedType :
  answer [PingHandler] None (MkRequest Version "g" TypeGetSummary (MkPayload 0 "")) =
    Some (NewError "g" "unsupported request type").
Proof. vm_compute. reflexivity. Qed.

Example TestMessageDispatcherMalformed :
  Dispatch (NewMessageDispatcher [PingHandler]) None 0 "{not json" =
    Some (NewError "" "malformed request").
Proof. vm_compute. reflexivity. Qed.

Example TestMessageDispatcherVersionMismatch :
  answer [PingHandler] None (MkRequest "9.9" "v" TypePing (MkPayload 0 "")) =
    Some (NewError "v" "unsupported protocol version").
Proof. vm_compute. reflexivity. Qed.

Example TestMessageDispatcherRoutesGetSummary :
  (reg ← Register_all NewRegistry ["internet_check"];
   resp ← answer [PingHandler; SummaryHandler] (Some reg)
            (MkRequest Version "s1" TypeGetSummary (MkPayload 0 ""));
   Some (rs_Type resp, rs_ID resp, (λ s, map wu_Name (sm_Units s)) <$> rs_Summary resp)) =
    Some (TypeSummary, "s1", Some ["internet_check"]).
Proof. vm_compute. reflexivity. Qed.

(** ** [internal/roles] *)

Definition threshold (n : Z) : MonitorConfig :=
  {| mc_FailureThreshold := n; mc_WindowSize := 0; mc_Trigger := TriggerConsecutive;
     mc_MinAvailability := f_zero |}.

(** The alerts of checks without a registry, as the tests run them. *)
Definition alerts_after {M} (run : M * World → option (M * World)) (m : option (M * option Registry))
    : option (list (string * Z)) :=
  '(m, reg) ← m;
  '(_, w) ← run (m, MkWorld reg [] []);
  Some (map (λ '(al, _), (al_State al, al_ConsecutiveFailures al)) (w_alerts w)).

Definition sampleOoklaJSON : string := ConfigFile.double_quotes
"{
  'type': 'result',
  'download': { 'bandwidth': 12500000, 'bytes': 100000000, 'elapsed': 8000 },
  'upload': { 'bandwidth': 2500000 }
}".

Example TestSpeedCheckParsesMbps :
  (match measure (Ok sampleOoklaJSON) with Ok x => f_eqb x (f_of_int 100) | Err _ => false end) = true.
Proof. vm_compute. reflexivity. Qed.

Definition speed_alerts (limit n : Z) (outs : list (result string string)) : option (list (string * Z)) :=
  alerts_after (speed_run plain plain plain (map (λ o, Tick (o, clock_at 5)) outs))
    (NewSpeedCheck "speedtest" Second (f_of_int limit) (threshold n) ["log"] None).

Example TestSpeedCheckBelowThresholdAlerts :
  speed_alerts 200 2 [Ok sampleOoklaJSON] = Some [] ∧
  speed_alerts 200 2 [Ok sampleOoklaJSON; Ok sampleOoklaJSON] = Some [("UNHEALTHY", 2)].
Proof. vm_compute. split; reflexivity. Qed.

Example TestSpeedCheckAtOrAboveThresholdSucceeds : speed_alerts 100 1 [Ok sampleOoklaJSON] = Some [].
Proof. vm_compute. reflexivity. Qed.

Example TestSpeedCheckRunnerErrorIsFailure :
  speed_alerts 50 1 [Err "exec: speedtest: not found"] = Some [("UNHEALTHY", 1)].
Proof. vm_compute. reflexivity. Qed.

Example TestSpeedCheckMalformedJSONIsError : measure (Ok "{bad") = Err (ErrSpeedJSON "{bad").
Proof. vm_compute. reflexivity. Qed.

Example TestInternetCheckRoundRobin :
  ('(c, _) ← NewInternetCheck ["a"; "b"; "c"] Second Second (threshold 3) [] None None;
   foldl (λ acc _, '(sites, c) ← acc; '(site, c) ← nextSite c; Some ((sites ++ [site])%list, c))
     (Some ([], c)) (replicate 5 tt)) ≫= (λ '(sites, _), Some sites) =
  Some ["a"; "b"; "c"; "a"; "b"].
Proof. vm_compute. reflexivity. Qed.

Definition internet_alerts (n : Z) (codes : list Z) : option (list (string * Z)) :=
  alerts_after (internet_run plain plain plain (map (λ c, Tick (status_net c, clock_at 5)) codes))
    (NewInternetCheck ["http://h"] Second Second (threshold n) ["log"] None None).

Example TestInternetCheckFeedsStateMachine :
  internet_alerts 2 [503] = Some [] ∧ internet_alerts 2 [503; 503] = Some [("UNHEALTHY", 2)].
Proof. vm_compute. split; reflexivity. Qed.

Example TestInternetCheckRecovery :
  internet_alerts 1 [502; 200] = Some [("UNHEALTHY", 1); ("HEALTHY", 0)].
Proof. vm_compute. reflexivity. Qed.

Definition url_alerts (n : Z) (codes : list Z) : option (list (string * Z)) :=
  alerts_after (url_run plain plain plain (map (λ c, Tick (status_net c, clock_at 5)) codes))
    (new_url (MkURLTarget "http://h/health" Second Second ["log"] (threshold n) false) None).

Example TestURLMonitorFailureThenRecovery :
  url_alerts 1 [200] = Some [] ∧ url_alerts 2 [503] = Some [] ∧
  url_alerts 2 [503; 503; 200] = Some [("UNHEALTHY", 2); ("HEALTHY", 0)].
Proof. vm_compute. split_and!; reflexivity. Qed.

(** A peer that is this program's own listener. *)
Definition pong_peer : PingNet :=
  MkPingNet None None (λ line,
    match Dispatch (NewMessageDispatcher [PingHandler]) None 0 line with
    | Some resp =>
        match EncodeResponse resp with
        | Some out => Ok (out +:+ line_end)
        | None => Err "EOF"
        end
    | None => Err "EOF"
    end).

Definition ping_alerts (n : Z) (peers : list PingNet) : option (list (string * Z)) :=
  alerts_after (ping_run plain plain plain (map (λ p, Tick (p, 5, clock_at 5)) peers))
    (new_ping (MkPingTarget "127.0.0.1:1" Second Second ["log"] (threshold n)) None).

Example TestPingMonitorFailureFiresAlert :
  ping_alerts 2 [refused] = Some [] ∧ ping_alerts 2 [refused; refused] = Some [("UNHEALTHY", 2)].
Proof. vm_compute. split; reflexivity. Qed.

Example TestPingMonitorRecoversAfterServerAvailable :
  ping_alerts 1 [refused; pong_peer] = Some [("UNHEALTHY", 1); ("HEALTHY", 0)].
Proof. vm_compute. reflexivity. Qed.

(** ** A measurement that no summary can carry

    The figure the speed test prints is multiplied by 8: from about 2.3e307 on
    the product is infinite, passes every threshold and is recorded; until a
    hundred further measurements have followed, a summary cannot be encoded and
    the connection that asked for it is closed without an answer. *)
Definition huge_speed : string := ConfigFile.double_quotes "{'download': {'bandwidth': 1e308}}".

Definition asked_for_summary (x : float64) : option (list ConnEvent) :=
  '(r, h) ← Register (Some NewRegistry) "speed_check";
  reg ← Handle_RecordSpeed h 5 x r;
  line ← EncodeRequest (MkRequest Version "1" TypeGetSummary (MkPayload 0 ""));
  handle (NewTCPListener ":7777" 1000 (NewMessageDispatcher [PingHandler; SummaryHandler]))
    (λ _, (reg, 6)) (λ _, true) (line +:+ line_end).

Definition answered (ev : ConnEvent) : bool := match ev with Wrote _ => true | EncodeFailed _ => false end.

Lemma infinite_speed_unanswered :
  match measure (Ok huge_speed) with
  | Ok x => f_is_finite x = false ∧ f_ltb x (f_of_int 100) = false ∧
      map answered <$> asked_for_summary x = Some [false]
  | Err _ => False
  end.
Proof. vm_compute. by split_and!. Qed.

Lemma finite_speed_answered :
  match measure (Ok sampleOoklaJSON) with
  | Ok x => map answered <$> asked_for_summary x = Some [true]
  | Err _ => False
  end.
Proof. vm_compute. reflexivity. Qed.
